(* ===== verification/_CoqProject ===== *)
-Q . S2P
Prelude.v
Params.v
Mem.v
CString.v
Machine.v
Spinlock.v
Kalloc.v
Console.v
Apic.v
Vm.v
VmSpec.v
Proc.v
Sched.v
ProcSpec.v
ProcAlloc.v
ProcSwitch.v
Sleeplock.v
Ide.v
Quiet.v
Bio.v
BioSpec.v
Log.v
LogSpec.v
Transaction.v
Inode.v
ConsoleDev.v
ConsoleSpec.v
Fs.v
PathSpec.v
FileSpec.v
FsAbs.v
FsRefine.v
FsTx.v
FsDir.v
Pipe.v
File.v
Process.v
Syscall.v
Exec.v
Sysfile.v
FsCalls.v
Trap.v
TrapSpec.v
SyscallSpec.v
Accounting.v
Main.v
Boot.v
Typed.v
TypedFs.v
TypedKernel.v
User.v
Grep.v
Tools.v
ToolsSpec.v
Demos.v
Sh.v
ShRound.v
ShRun.v
Umalloc.v
UmallocSpec.v
Mkfs.v
MkfsLayout.v
MkfsSpec.v
MkfsImage.v
