(* ===== verification/Prelude.v ===== *)
(** * A verification development for the xv6 kernel with three schedulers

    The program (src/xv6-public_final) is an xv6 kernel for 32-bit x86
    multiprocessors in which the scheduler chooses, by a system call, between
    round robin, first come first served and a lottery, and in which every
    process is charged for its running, ready and sleeping time; with it come the
    boot loader, the program that builds the file system image, the user library,
    the shell and the commands.

    ** The model

    The kernel's static data are one record, [kstate] (file Machine): the
    process table, the locks, the caches, the log, the page allocator, the
    bytes of kernel memory, the registers of the executing processor.  A C
    function is a Rocq function with the same name in the monad [M]: it maps
    a state to an outcome, which is a result ([Ok]), the end of everything
    ([Stop]: a panic, a spinning lock, a fault, a power failure, or the end of
    the fuel), or a context switch ([Swtch]), which carries the continuation and
    is resumed in whatever state the rest of the system has reached.  Pointers
    into static arrays are indices, pointers to pages are addresses; integers are
    [Z], wrapped to their C width by [u8], [u32], [i32] where C wraps.

    Devices are a trace of writes and a script of the values read.  A disk is an
    instance of the class [Disk]: the driver ide.c, the driver memide.c, or
    either of them with the power failing before chosen transfers.  Code that is
    not C here (assembly entry points, addresses the linker assigns, the
    generated vectors) is a parameter: the classes [Symbols], [BootSymbols].

    User programs are trees of system calls (User, ShRun) whose branches are the
    answers of the kernel; mkfs runs in a monad over the sectors of the image.

    ** Bounds and fuel

    Loops of the code that end by themselves are structurally recursive or have
    fuel computed from their bounds, with a remark why it is enough; where a
    theorem promises a result, the fuel is part of what is proved.  Loops that
    wait for another party (sleeping, polling a device) take at most [max_turns]
    turns, a class parameter; theorems quantify over it.  The theorems on the
    file system take the blocks it consists of, their number and the room of a
    transaction from the class [Limits].

    ** Files

    The machine and the basis of the kernel
    - Prelude: machine integers, generic lemmas, tactics.
    - Params: param.h, memlayout.h, mmu.h, fs.h, buf.h, fcntl.h, traps.h.
    - Mem, CString: string.c, the memory and string part of ulib.c.
    - Machine: the state and the monad (proc.h, file.h, spinlock.h, x86.h ...).
    - Spinlock: spinlock.c, cpuid and mycpu of proc.c.  Module Smp is the
      machine with several processors.
    - Kalloc: kalloc.c; module Pool is the allocator seen by its callers.
    - Console, ConsoleDev, ConsoleSpec: console.c, uart.c, kbd.c, and the console
      as a terminal of lines.
    - Apic: lapic.c, ioapic.c, picirq.c, uartinit.
    - Vm, VmSpec: vm.c and its meaning as maps of pages.

    Processes
    - Proc, Process: proc.c.  Sched: the policies as instances of a class
      [Policy].  ProcSpec, ProcAlloc, ProcSwitch: what the operations do, branch
      by branch, and what happens across a context switch.
    - Trap, TrapSpec, Accounting: trap.c, the timer interrupt, and the time
      accounting over all interleavings.
    - Syscall, SyscallSpec, Exec: syscall.c, sysproc.c, exec.c, and what the
      fetching of arguments accepts.
    - Main: mp.c and main.c.

    Files
    - Sleeplock, Ide, Bio, Log, Inode, Fs, Pipe, File, Sysfile: sleeplock.c,
      ide.c and memide.c, bio.c, log.c, fs.c, pipe.c, file.c, sysfile.c.
    - Quiet, BioSpec, LogSpec, Transaction: one process in the kernel while the
      power may fail ([exec C Q o]: the outcome is a result that satisfies [Q],
      or the power failed with a disk that satisfies [C]); the buffer cache, the
      commit and its recovery, and transactions.
    - FileSpec, PathSpec: the contents of files, and path names.
    - FsAbs: fs.c without its machinery, functions on the blocks of the file
      system and the inodes in memory.  FsRefine: each operation of fs.c refines
      its counterpart, by one rule for each way to put operations together.
      FsTx: the two ends of a transaction, and recovery.  FsDir: directories.
      FsCalls: mkdir, mknod, link and unlink.

    The types of the data
    - Typed, TypedFs, TypedKernel: an invariant of all of [kstate], kept by every
      function of the kernel.

    Outside the kernel
    - Boot: bootmain.c.
    - Mkfs, MkfsLayout, MkfsSpec, MkfsImage: mkfs.c and the image it builds.
    - User: the interface of system calls, printf.c, stat of ulib.c.
    - Grep, Tools, ToolsSpec, Demos: the commands and the demonstration programs.
    - Sh, ShRound, ShRun: sh.c.
    - Umalloc, UmallocSpec: umalloc.c.

    ** What the theorems show

    Locks and scheduling.  Mutual exclusion on any number of processors, for
    every interleaving of [acquire] and [release].  A round of the scheduler
    switches to exactly the process the policy selects; FCFS selects the oldest;
    the lottery selects in proportion to the tickets, is fair over windows of the
    generator, starves nobody, and fails when the tickets overflow; the timer
    preempts except under FCFS; no wake-up is lost; the times [waitx] reports
    add up; [allocproc] gives fresh identifiers.

    Memory.  The page allocator never hands out a page twice and loses none;
    start-up fills it; [mappages] maps what it is asked to, as the processor's
    page walk sees it; [malloc] and [free] keep blocks apart.

    Files.  A transaction is atomic under power failures at any transfer, during
    recovery too.  The system calls that change directories are atomic, do to the
    blocks what the abstract file system does, and take effect in order; they
    never panic or deadlock where the abstract file system has a result.
    Directories are maps from names to inodes; [readi] gives back what [writei]
    wrote; path names are taken apart into their elements.  The image mkfs builds
    holds the files it was given.

    Devices and pipes.  The console's buffer is an editable line with a queue of
    finished lines; [cprintf] prints the formatted text; the ring of a pipe is a
    bounded queue.

    All of the kernel.  Every state reached from power on, in every order of the
    kernel's paths between context switches, is well typed.

    Programs.  The boot loader loads the kernel; the arguments of system calls
    are checked; the shell parses what it prints, and runs a whole session with
    every program on its files; grep accepts the language of the pattern; wc
    counts whole files.

    Defects.  Some theorems show where the code does not do what it means to: the
    overflow of the lottery, a buffer that is recycled with an update in it, a
    reservation in the log beyond its size, lines grep loses, and the wrap-around
    in [malloc].

    ** Not modelled

    The assembly files (swtch, trap entry, boot, system call stubs), which save
    and restore registers and switch modes; the declarations of defs.h, types.h,
    user.h and asm.h, which have no behaviour; the generated vectors; usertests.c,
    a test suite that runs inside the system.  Start-up of the other processors
    is modelled as the boot processor sees it, not interleaved with their own
    first instructions.  The theorems on transactions are about one process in
    the file system at a time; the invariants on locks, accounting and types are
    about all interleavings. *)

From stdpp Require Export base tactics decidable option list numbers strings.
From Stdlib Require Export ZArith Lia.
From Stdlib Require Import FunctionalExtensionality.



Declare Scope kernel_scope.
Delimit Scope kernel_scope with K.

Open Scope Z_scope.

(** ** Machine integers

    C values are kept as [Z]; a value of an unsigned [w]-bit type is kept
    reduced modulo [2^w], a value of a signed type in two's complement. *)

Definition u8 (x : Z) : Z := x mod 256.
Definition u16 (x : Z) : Z := x mod 65536.
Definition u32 (x : Z) : Z := x mod 4294967296.
Definition i16 (x : Z) : Z := (x + 32768) mod 65536 - 32768.
Definition i32 (x : Z) : Z := (x + 2147483648) mod 4294967296 - 2147483648.

Definition is_u32 (x : Z) : Prop := 0 <= x < 4294967296.
Definition is_i32 (x : Z) : Prop := -2147483648 <= x < 2147483648.
Definition INT_MAX : Z := 2147483647.

Lemma u32_small x : is_u32 x -> u32 x = x.
Proof. apply Z.mod_small. Qed.

Lemma u32_range x : is_u32 (u32 x).
Proof. apply Z.mod_pos_bound. lia. Qed.

Lemma u32_idem x : u32 (u32 x) = u32 x.
Proof. apply u32_small, u32_range. Qed.

Lemma i32_small x : is_i32 x -> i32 x = x.
Proof. unfold is_i32, i32. intros. rewrite Z.mod_small; lia. Qed.

Lemma i32_range x : is_i32 (i32 x).
Proof. unfold is_i32, i32. pose proof (Z.mod_pos_bound (x + 2147483648) 4294967296). lia. Qed.

Lemma i32_u32 x : i32 (u32 x) = i32 x.
Proof. unfold i32, u32. by rewrite Zplus_mod_idemp_l. Qed.

Lemma u32_i32 x : u32 (i32 x) = u32 x.
Proof.
  unfold i32, u32. rewrite Zminus_mod_idemp_l. f_equal. lia.
Qed.

(** Linear arithmetic with division and remainder by constants. *)
Ltac zdiv := Z.to_euclidean_division_equations; lia.

(** Disjoint bit fields add up. *)
Lemma lor_shiftl_add h l k :
  0 <= k -> 0 <= l < 2 ^ k -> Z.lor (Z.shiftl h k) l = h * 2 ^ k + l.
Proof.
  intros Hk Hl. rewrite <- Z.shiftl_mul_pow2 by done. symmetry. apply Z.add_nocarry_lor.
  apply Z.bits_inj'. intros i Hi. rewrite Z.land_spec, Z.bits_0.
  destruct (Z.lt_ge_cases i k) as [Hlt | Hge].
  - by rewrite Z.shiftl_spec_low.
  - rewrite <- (Z.mod_small l (2 ^ k)), Z.mod_pow2_bits_high by lia. apply andb_false_r.
Qed.

(** ** Total maps, updated at one key *)

Definition fupd {K V} `{EqDecision K} (f : K -> V) (k : K) (v : V) : K -> V :=
  fun x => if decide (x = k) then v else f x.

Section Fupd.
Context {K V : Type} `{EqDecision K}.
Implicit Types (f : K -> V) (k : K) (v : V).

Lemma fupd_eq f k v : fupd f k v k = v.
Proof. unfold fupd. by rewrite decide_True. Qed.

Lemma fupd_ne f k k' v : k' <> k -> fupd f k v k' = f k'.
Proof. intros. unfold fupd. by rewrite decide_False. Qed.

Lemma fupd_fupd f k v w : fupd (fupd f k v) k w = fupd f k w.
Proof. extensionality x. unfold fupd. by case_decide. Qed.

Lemma fupd_id f k v : f k = v -> fupd f k v = f.
Proof. intros <-. extensionality x. unfold fupd. by case_decide; subst. Qed.
End Fupd.

(** ** Lists *)

Lemma filter_all {A} (P : A -> Prop) `{forall x, Decision (P x)} (l : list A) :
  (forall x, x ∈ l -> P x) -> filter P l = l.
Proof.
  induction l as [| x l IH]; [done |]. intros HP.
  rewrite filter_cons_True by (apply HP; left). f_equal. apply IH.
  intros y Hy. apply HP. by right.
Qed.

Lemma filter_out_length {A} `{EqDecision A} (x : A) (l : list A) :
  x ∈ l -> NoDup l -> length l = S (length (filter (fun y => y <> x) l)).
Proof.
  intros Hin. induction 1 as [| y l Hy Hnd IH]; [by apply not_elem_of_nil in Hin |].
  destruct (decide (y = x)) as [-> | Hne].
  - rewrite filter_cons_False by naive_solver. rewrite filter_all; [done | by intros z Hz ->].
  - rewrite filter_cons_True by done. simpl. f_equal. apply IH. by apply elem_of_cons in Hin as [].
Qed.

(** ** Case analysis automation *)

Create HintDb kernel.
#[export] Hint Resolve u32_range i32_range : kernel.

Ltac bool_to_prop :=
  repeat match goal with
  | H : (_ && _)%bool = true |- _ => apply andb_true_iff in H as [? ?]
  | H : (_ || _)%bool = false |- _ => apply orb_false_iff in H as [? ?]
  | H : negb _ = true |- _ => apply negb_true_iff in H
  | H : negb _ = false |- _ => apply negb_false_iff in H
  | H : (_ =? _) = true |- _ => apply Z.eqb_eq in H
  | H : (_ =? _) = false |- _ => apply Z.eqb_neq in H
  | H : (_ <? _) = true |- _ => apply Z.ltb_lt in H
  | H : (_ <? _) = false |- _ => apply Z.ltb_ge in H
  | H : (_ <=? _) = true |- _ => apply Z.leb_le in H
  | H : (_ <=? _) = false |- _ => apply Z.leb_gt in H
  | H : bool_decide _ = true |- _ => apply bool_decide_eq_true in H
  | H : bool_decide _ = false |- _ => apply bool_decide_eq_false in H
  end.

(** Reduce the C boolean tests of the goal to their propositional readings. *)
Ltac case_bool :=
  match goal with
  | |- context [ if ?b then _ else _ ] =>
      lazymatch type of b with bool => destruct b eqn:?; bool_to_prop end
  end.
