(* ===== verification/Params.v ===== *)
(** Constants and macros of the kernel headers: [param.h], [mmu.h],
    [memlayout.h], [fs.h], [buf.h], [traps.h], [stat.h] and [fcntl.h].
    Sizes of C arrays are [nat] (they bound list lengths and loop counters);
    everything the code computes with at a machine width is [Z]. *)

From S2P Require Import Prelude.

(** ** [param.h] *)

Definition NPROC : nat := 64.
Definition KSTACKSIZE : Z := 4096.
Definition NCPU : nat := 8.
Definition NOFILE : nat := 16.
Abbreviation NFILE := (100%nat) (only parsing).
Definition NINODE : nat := 50.
Abbreviation NDEV := (10) (only parsing).
Abbreviation ROOTDEV := (1) (only parsing).
Definition MAXARG : Z := 32.
Definition MAXOPBLOCKS : Z := 10.
Definition LOGSIZE : Z := MAXOPBLOCKS * 3.
Definition NBUF : nat := 30.
Definition FSSIZE : Z := 1000.
Definition DIRSIZ : nat := 14.
Abbreviation CONSOLE := (1%nat) (only parsing).

(** ** [memlayout.h] *)

Abbreviation EXTMEM := (0x100000) (only parsing).
Definition PHYSTOP : Z := 0xE000000.
Abbreviation DEVSPACE := (0xFE000000) (only parsing).
Definition KERNBASE : Z := 0x80000000.
Abbreviation KERNLINK := (KERNBASE + EXTMEM) (only parsing).
Definition V2P (a : Z) : Z := u32 (a - KERNBASE).
Definition P2V (a : Z) : Z := u32 (a + KERNBASE).

(** ** [mmu.h] *)

Abbreviation SEG_KCODE := (1) (only parsing).
Abbreviation SEG_KDATA := (2) (only parsing).
Abbreviation SEG_UCODE := (3) (only parsing).
Abbreviation SEG_UDATA := (4) (only parsing).
Abbreviation SEG_TSS := (5) (only parsing).
Abbreviation NSEGS := (6%nat) (only parsing).
Abbreviation FL_IF := (0x200) (only parsing).
Abbreviation DPL_USER := (3) (only parsing).
Abbreviation STA_X := (8) (only parsing).
Abbreviation STA_W := (2) (only parsing).
Abbreviation STA_R := (2) (only parsing).
Abbreviation STS_T32A := (9) (only parsing).
Abbreviation STS_IG32 := (14) (only parsing).
Abbreviation STS_TG32 := (15) (only parsing).

Abbreviation NPDENTRIES := (1024%nat) (only parsing).
Definition PGSIZE : Z := 4096.
Definition PTXSHIFT : Z := 12.
Definition PDXSHIFT : Z := 22.
Definition PTE_P : Z := 1.
Definition PTE_W : Z := 2.
Definition PTE_U : Z := 4.
Abbreviation PTE_PS := (128) (only parsing).

Definition PDX (va : Z) : Z := Z.land (Z.shiftr va PDXSHIFT) 0x3FF.
Definition PTX (va : Z) : Z := Z.land (Z.shiftr va PTXSHIFT) 0x3FF.
Definition PGADDR (d t o : Z) : Z :=
  u32 (Z.lor (Z.lor (Z.shiftl d PDXSHIFT) (Z.shiftl t PTXSHIFT)) o).
Definition PGROUNDUP (sz : Z) : Z := Z.land (u32 (sz + PGSIZE - 1)) (u32 (Z.lnot (PGSIZE - 1))).
Definition PGROUNDDOWN (a : Z) : Z := Z.land a (u32 (Z.lnot (PGSIZE - 1))).
Definition PTE_ADDR (pte : Z) : Z := Z.land pte (u32 (Z.lnot 0xFFF)).
Definition PTE_FLAGS (pte : Z) : Z := Z.land pte 0xFFF.

(** Segment descriptors, one field per bit-field of [struct segdesc]. *)
Record segdesc := mkSegdesc {
  sd_lim_15_0 : Z; sd_base_15_0 : Z; sd_base_23_16 : Z; sd_type : Z;
  sd_s : Z; sd_dpl : Z; sd_p : Z; sd_lim_19_16 : Z; sd_avl : Z;
  sd_rsv1 : Z; sd_db : Z; sd_g : Z; sd_base_31_24 : Z }.

Definition segdesc0 : segdesc := mkSegdesc 0 0 0 0 0 0 0 0 0 0 0 0 0.

Definition SEG (type base lim dpl : Z) : segdesc :=
  mkSegdesc (Z.land (Z.shiftr lim 12) 0xffff) (Z.land base 0xffff)
            (Z.land (Z.shiftr base 16) 0xff) type 1 dpl 1
            (Z.shiftr lim 28) 0 0 1 1 (Z.shiftr base 24).

Definition SEG16 (type base lim dpl : Z) : segdesc :=
  mkSegdesc (Z.land lim 0xffff) (Z.land base 0xffff)
            (Z.land (Z.shiftr base 16) 0xff) type 1 dpl 1
            (Z.shiftr lim 16) 0 0 1 0 (Z.shiftr base 24).

Record gatedesc := mkGatedesc {
  gd_off_15_0 : Z; gd_cs : Z; gd_args : Z; gd_rsv1 : Z; gd_type : Z;
  gd_s : Z; gd_dpl : Z; gd_p : Z; gd_off_31_16 : Z }.

Definition gatedesc0 : gatedesc := mkGatedesc 0 0 0 0 0 0 0 0 0.

Definition SETGATE (istrap : bool) (sel off d : Z) : gatedesc :=
  mkGatedesc (Z.land off 0xffff) sel 0 0 (if istrap then STS_TG32 else STS_IG32)
             0 d 1 (Z.shiftr off 16).

(** The fields of [struct taskstate] the kernel writes. *)
Record taskstate := mkTaskstate { ts_esp0 : Z; ts_ss0 : Z; ts_iomb : Z }.

(** ** [fs.h] and [buf.h] *)

Definition ROOTINO : Z := 1.
Definition BSIZE : Z := 512.
Definition SIZEOF_DINODE : Z := 64.
Definition IPB : Z := BSIZE / SIZEOF_DINODE.
Definition BPB : Z := BSIZE * 8.
Definition NDIRECT : Z := 12.
Definition NINDIRECT : Z := BSIZE / 4.
Definition MAXFILE : Z := NDIRECT + NINDIRECT.
Definition SIZEOF_DIRENT : Z := 16.

Record superblock := mkSuperblock {
  sb_size : Z; sb_nblocks : Z; sb_ninodes : Z; sb_nlog : Z;
  sb_logstart : Z; sb_inodestart : Z; sb_bmapstart : Z }.

Definition IBLOCK (i : Z) (sb : superblock) : Z := u32 (i / IPB + sb_inodestart sb).
Definition BBLOCK (b : Z) (sb : superblock) : Z := u32 (b / BPB + sb_bmapstart sb).

Record dinode := mkDinode {
  di_type : Z; di_major : Z; di_minor : Z; di_nlink : Z; di_size : Z; di_addrs : list Z }.

Record dirent := mkDirent { de_inum : Z; de_name : list Z }.

Definition B_VALID : Z := 2.
Definition B_DIRTY : Z := 4.

(** ** [stat.h], [fcntl.h], [traps.h] *)

Abbreviation T_DIR := (1) (only parsing).
Abbreviation T_FILE := (2) (only parsing).
Definition T_DEV : Z := 3.


Abbreviation O_RDONLY := (0) (only parsing).
Abbreviation O_WRONLY := (1) (only parsing).
Abbreviation O_RDWR := (2) (only parsing).
Abbreviation O_CREATE := (0x200) (only parsing).

Abbreviation T_SYSCALL := (64) (only parsing).
Abbreviation T_IRQ0 := (32) (only parsing).
Abbreviation IRQ_TIMER := (0) (only parsing).
Abbreviation IRQ_KBD := (1) (only parsing).
Abbreviation IRQ_COM1 := (4) (only parsing).
Abbreviation IRQ_IDE := (14) (only parsing).
Abbreviation IRQ_ERROR := (19) (only parsing).
Abbreviation IRQ_SPURIOUS := (31) (only parsing).

(** ** Address arithmetic *)

Lemma land_ones_shift_round a n :
  0 <= n <= 32 -> is_u32 a -> Z.land a (u32 (Z.lnot (2 ^ n - 1))) = 2 ^ n * (a / 2 ^ n).
Proof.
  intros Hn Ha. assert (Hp : 0 < 2 ^ n) by (apply Z.pow_pos_nonneg; lia).
  rewrite Z.mul_comm, <- Z.shiftr_div_pow2, <- Z.shiftl_mul_pow2 by lia.
  apply Z.bits_inj'. intros i Hi.
  rewrite Z.land_spec, Z.shiftl_spec by lia.
  unfold u32. change 4294967296 with (2 ^ 32).
  destruct (Z.lt_ge_cases i 32).
  - rewrite Z.mod_pow2_bits_low, Z.lnot_spec by lia.
    replace (2 ^ n - 1) with (Z.ones n) by (rewrite Z.ones_equiv; lia).
    destruct (Z.lt_ge_cases i n).
    + rewrite Z.ones_spec_low, (Z.testbit_neg_r _ (i - n)) by lia. by rewrite andb_false_r.
    + rewrite Z.ones_spec_high, Z.shiftr_spec by lia.
      replace (i - n + n) with i by lia. by rewrite andb_true_r.
  - rewrite Z.mod_pow2_bits_high by lia. rewrite andb_false_r, Z.shiftr_spec by lia.
    replace (i - n + n) with i by lia. symmetry.
    rewrite <- (Z.mod_small a (2 ^ 32)) by (unfold is_u32 in Ha; lia).
    apply Z.mod_pow2_bits_high. lia.
Qed.

Lemma PGROUNDDOWN_eq a : is_u32 a -> PGROUNDDOWN a = 4096 * (a / 4096).
Proof. apply (land_ones_shift_round a 12). lia. Qed.

Lemma PGROUNDUP_eq a :
  0 <= a -> a + 4095 < 4294967296 -> PGROUNDUP a = 4096 * ((a + 4095) / 4096).
Proof.
  intros. unfold PGROUNDUP. change PGSIZE with 4096.
  replace (a + 4096 - 1) with (a + 4095) by lia.
  assert (is_u32 (a + 4095)) by (unfold is_u32; lia).
  rewrite (u32_small (a + 4095)) by done.
  change 4096 with (2 ^ 12) at 1. rewrite land_ones_shift_round by (try done; lia). done.
Qed.

Lemma PTE_ADDR_eq p : is_u32 p -> PTE_ADDR p = 4096 * (p / 4096).
Proof. apply (land_ones_shift_round p 12). lia. Qed.

Lemma PTE_FLAGS_eq p : PTE_FLAGS p = p mod 4096.
Proof. unfold PTE_FLAGS. change 0xFFF with (Z.ones 12). by rewrite Z.land_ones by lia. Qed.

Lemma PDX_eq va : PDX va = (va / 4194304) mod 1024.
Proof.
  unfold PDX. change 0x3FF with (Z.ones 10). rewrite Z.land_ones by lia.
  by rewrite Z.shiftr_div_pow2 by (unfold PDXSHIFT; lia).
Qed.

Lemma PTX_eq va : PTX va = (va / 4096) mod 1024.
Proof.
  unfold PTX. change 0x3FF with (Z.ones 10). rewrite Z.land_ones by lia.
  by rewrite Z.shiftr_div_pow2 by (unfold PTXSHIFT; lia).
Qed.
