(* ===== verification/Mem.v ===== *)
(** Byte-addressed memory and the memory routines of [string.c] and [ulib.c].

    A memory maps addresses to bytes; the kernel's is the field [mem] of
    [kstate].  Words are stored little-endian. *)

From S2P Require Import Prelude Params.

Definition memory : Type := Z -> Z.

(** ** Words and byte ranges *)

Definition st8 (m : memory) (a v : Z) : memory := fupd m a (u8 v).

Definition ld32 (m : memory) (a : Z) : Z :=
  m a + 256 * m (a + 1) + 65536 * m (a + 2) + 16777216 * m (a + 3).

Definition st32 (m : memory) (a v : Z) : memory :=
  st8 (st8 (st8 (st8 m a v) (a + 1) (v / 256)) (a + 2) (v / 65536)) (a + 3) (v / 16777216).

(** The [n] bytes at [a], and a memory with the bytes [l] written at [a]. *)
Fixpoint ldn (m : memory) (a : Z) (n : nat) : list Z :=
  match n with O => [] | S n' => m a :: ldn m (a + 1) n' end.
Fixpoint stn (m : memory) (a : Z) (l : list Z) : memory :=
  match l with [] => m | x :: l' => stn (st8 m a x) (a + 1) l' end.

(** ** [x86.h]: the string instructions *)

Fixpoint stosb (m : memory) (a data : Z) (cnt : nat) : memory :=
  match cnt with O => m | S n => stosb (st8 m a data) (a + 1) data n end.
Fixpoint stosl (m : memory) (a data : Z) (cnt : nat) : memory :=
  match cnt with O => m | S n => stosl (st32 m a data) (a + 4) data n end.

(** ** [string.c] *)

Definition memset (m : memory) (dst c n : Z) : memory :=
  if ((Z.rem (i32 dst) 4 =? 0) && (n mod 4 =? 0))%bool then
    let c := Z.land c 0xFF in
    stosl m dst (Z.lor (Z.lor (Z.lor (Z.shiftl c 24) (Z.shiftl c 16)) (Z.shiftl c 8)) c)
      (Z.to_nat (n / 4))
  else stosb m dst c (Z.to_nat n).

Fixpoint memcmp_loop (m : memory) (s1 s2 : Z) (n : nat) : Z :=
  match n with
  | O => 0
  | S n' => if negb (m s1 =? m s2) then m s1 - m s2 else memcmp_loop m (s1 + 1) (s2 + 1) n'
  end.
Definition memcmp (m : memory) (v1 v2 n : Z) : Z := memcmp_loop m v1 v2 (Z.to_nat n).

(** The two copying loops, shared with [ulib.c]. *)
Fixpoint copy_down (m : memory) (d s : Z) (n : nat) : memory :=
  match n with
  | O => m
  | S n' => copy_down (st8 m (d - 1) (m (s - 1))) (d - 1) (s - 1) n'
  end.
Fixpoint copy_up (m : memory) (d s : Z) (n : nat) : memory :=
  match n with
  | O => m
  | S n' => copy_up (st8 m d (m s)) (d + 1) (s + 1) n'
  end.

Definition memmove (m : memory) (dst src n : Z) : memory :=
  if ((src <? dst) && (dst <? src + n))%bool
  then copy_down m (dst + n) (src + n) (Z.to_nat n)
  else copy_up m dst src (Z.to_nat n).

Definition memcpy (m : memory) (dst src n : Z) : memory := memmove m dst src n.

(** ** [ulib.c] *)

Definition u_memset (m : memory) (dst c n : Z) : memory := stosb m dst c (Z.to_nat n).

Definition u_memmove (m : memory) (vdst vsrc n : Z) : memory :=
  if vdst <? vsrc then copy_up m vdst vsrc (Z.to_nat n)
  else copy_down m (vdst + n) (vsrc + n) (Z.to_nat n).

(** ** Words *)

(** Memories whose cells are bytes. *)
Definition is_byte (x : Z) : Prop := 0 <= x < 256.
Definition bytes (m : memory) : Prop := forall a, is_byte (m a).

Lemma u8_range x : is_byte (u8 x).
Proof. unfold is_byte, u8. pose proof (Z.mod_pos_bound x 256). lia. Qed.

Lemma u8_small x : is_byte x -> u8 x = x.
Proof. apply Z.mod_small. Qed.

Lemma st8_bytes m a v : bytes m -> bytes (st8 m a v).
Proof. intros Hm x. unfold st8, fupd. case_decide; [apply u8_range | apply Hm]. Qed.

Lemma st32_bytes m a v : bytes m -> bytes (st32 m a v).
Proof. intros. by repeat apply st8_bytes. Qed.

Lemma st8_eq m a v : st8 m a v a = u8 v.
Proof. apply fupd_eq. Qed.
Lemma st8_ne m a v x : x <> a -> st8 m a v x = m x.
Proof. apply fupd_ne. Qed.

(** A stored word is read back. *)
Lemma ld32_st32 m a v : ld32 (st32 m a v) a = u32 v.
Proof.
  unfold ld32, st32. rewrite st8_eq.
  rewrite !(st8_ne _ _ _ a), st8_eq by lia.
  rewrite !(st8_ne _ _ _ (a + 1)), st8_eq by lia.
  rewrite !(st8_ne _ _ _ (a + 2)), st8_eq by lia.
  unfold u8, u32. pose proof (Z.div_mod v 256). pose proof (Z.div_mod (v / 256) 256).
  pose proof (Z.div_mod (v / 65536) 256). pose proof (Z.div_mod v 4294967296).
  Z.to_euclidean_division_equations. lia.
Qed.

(** A store leaves the other words alone. *)
Lemma st32_ne m a v x : x < a \/ a + 4 <= x -> st32 m a v x = m x.
Proof. intros. unfold st32. by rewrite !st8_ne by lia. Qed.

Lemma ld32_st32_ne m a b v : b + 4 <= a \/ a + 4 <= b -> ld32 (st32 m a v) b = ld32 m b.
Proof. intros. unfold ld32. by rewrite !st32_ne by lia. Qed.

Lemma ld32_range m a : bytes m -> is_u32 (ld32 m a).
Proof.
  intros Hm. unfold ld32, is_u32.
  pose proof (Hm a). pose proof (Hm (a + 1)). pose proof (Hm (a + 2)). pose proof (Hm (a + 3)).
  unfold is_byte in *. lia.
Qed.

Lemma ld32_ext m m' a : (forall i, 0 <= i < 4 -> m (a + i) = m' (a + i)) -> ld32 m a = ld32 m' a.
Proof.
  intros H. unfold ld32. pose proof (H 0). pose proof (H 1). pose proof (H 2). pose proof (H 3).
  rewrite Z.add_0_r in *. lia.
Qed.

(** ** Byte ranges *)

Lemma ldn_lookup m a n (i : nat) : (i < n)%nat -> ldn m a n !! i = Some (m (a + Z.of_nat i)).
Proof.
  revert a i. induction n as [| n IH]; intros a i Hi; [lia |].
  destruct i as [| i]; simpl; [by rewrite Z.add_0_r |].
  rewrite IH by lia. do 2 f_equal. lia.
Qed.

Lemma length_ldn m a n : length (ldn m a n) = n.
Proof. revert a. by induction n as [| n IH]; intros a; simpl; [| rewrite IH]. Qed.

Lemma stn_spec m a l x :
  stn m a l x = match (if a <=? x then l !! Z.to_nat (x - a) else None) with
                | Some v => u8 v | None => m x end.
Proof.
  revert m a. induction l as [| y l IH]; intros m a; simpl.
  - by destruct (a <=? x); rewrite ?lookup_nil.
  - rewrite IH. destruct (Z.leb_spec (a + 1) x), (Z.leb_spec a x); try lia.
    + replace (Z.to_nat (x - a)) with (S (Z.to_nat (x - (a + 1)))) by lia. simpl.
      by rewrite st8_ne by lia.
    + replace x with a by lia. rewrite Z.sub_diag. simpl. apply st8_eq.
    + by rewrite st8_ne by lia.
Qed.

(** ** What the routines compute *)

Lemma stosb_spec m a data n x :
  stosb m a data n x = if ((a <=? x) && (x <? a + Z.of_nat n))%bool then u8 data else m x.
Proof.
  revert m a. induction n as [| n IH]; intros m a; cbn [stosb].
  - by destruct (Z.leb_spec a x), (Z.ltb_spec x (a + Z.of_nat 0)); simpl; try lia.
  - rewrite IH. unfold st8, fupd.
    destruct (Z.leb_spec a x), (Z.leb_spec (a + 1) x), (Z.ltb_spec x (a + Z.of_nat (S n))),
      (Z.ltb_spec x (a + 1 + Z.of_nat n)); simpl; try lia; case_decide; try done; lia.
Qed.

(** The word [memset] builds repeats the byte. *)
Lemma st32_as_stosb m a c :
  st32 m a (Z.lor (Z.lor (Z.lor (Z.shiftl (Z.land c 0xFF) 24) (Z.shiftl (Z.land c 0xFF) 16))
     (Z.shiftl (Z.land c 0xFF) 8)) (Z.land c 0xFF)) = stosb m a c 4.
Proof.
  change 0xFF with (Z.ones 8). rewrite Z.land_ones by lia. change (2 ^ 8) with 256.
  pose proof (Z.mod_pos_bound c 256 ltac:(lia)) as Hb.
  assert (Hu : u8 c = c mod 256) by done. set (b := c mod 256) in *.
  assert (Hw : Z.lor (Z.lor (Z.lor (Z.shiftl b 24) (Z.shiftl b 16)) (Z.shiftl b 8)) b
                 = 16777216 * b + 65536 * b + 256 * b + b).
  { change 24 with (8 + 16). rewrite <- Z.shiftl_shiftl, <- Z.shiftl_lor by lia.
    rewrite <- Z.lor_assoc, !(lor_shiftl_add b b 8) by lia.
    rewrite lor_shiftl_add by lia. lia. }
  rewrite Hw. unfold st32, st8. cbn [stosb]. unfold st8. rewrite Hu. clearbody b.
  set (w := 16777216 * b + 65536 * b + 256 * b + b).
  assert (u8 w = b) as -> by (unfold u8, w; Z.to_euclidean_division_equations; lia).
  assert (u8 (w / 256) = b) as -> by (unfold u8, w; Z.to_euclidean_division_equations; lia).
  assert (u8 (w / 65536) = b) as -> by (unfold u8, w; Z.to_euclidean_division_equations; lia).
  assert (u8 (w / 16777216) = b) as -> by (unfold u8, w; Z.to_euclidean_division_equations; lia).
  by replace (a + 1 + 1) with (a + 2) by lia; replace (a + 2 + 1) with (a + 3) by lia.
Qed.

Lemma stosl_as_stosb m a c w n :
  (forall m a, st32 m a w = stosb m a c 4) -> stosl m a w n = stosb m a c (4 * n).
Proof.
  intros Hw. revert m a. induction n as [| n IH]; intros m a; [done |].
  replace (4 * S n)%nat with (S (S (S (S (4 * n))))) by lia.
  cbn [stosl stosb]. rewrite IH, Hw. cbn [stosb]. f_equal. lia.
Qed.

(** Both branches of [memset] fill the range and nothing else. *)
Lemma memset_spec m dst c n x :
  0 <= n ->
  memset m dst c n x = if ((dst <=? x) && (x <? dst + n))%bool then u8 c else m x.
Proof.
  intros Hn. unfold memset. destruct (_ && _)%bool eqn:E.
  - bool_to_prop. rewrite (stosl_as_stosb _ _ c) by (intros; apply st32_as_stosb).
    rewrite stosb_spec. replace (Z.of_nat (4 * Z.to_nat (n / 4))) with n; [done |].
    rewrite Nat2Z.inj_mul, Z2Nat.id by (apply Z.div_pos; lia). pose proof (Z.div_mod n 4). lia.
  - rewrite stosb_spec, Z2Nat.id by lia. done.
Qed.

Lemma memset_bytes m dst c n : 0 <= n -> bytes m -> bytes (memset m dst c n).
Proof. intros Hn Hm x. rewrite memset_spec by done. case_bool; [apply u8_range | apply Hm]. Qed.

(** The loops copy correctly when they run away from the overlap. *)
Lemma copy_down_spec m d s n x :
  bytes m -> (s <= d \/ d + Z.of_nat n <= s) ->
  copy_down m d s n x =
    if ((d - Z.of_nat n <=? x) && (x <? d))%bool then m (x - d + s) else m x.
Proof.
  revert m d s. induction n as [| n IH]; intros m d s Hm Hds; cbn [copy_down].
  - destruct (Z.leb_spec (d - Z.of_nat 0) x), (Z.ltb_spec x d); simpl; try done; lia.
  - rewrite IH by (first [by apply st8_bytes | lia]).
    destruct (Z.leb_spec (d - 1 - Z.of_nat n) x), (Z.ltb_spec x (d - 1)),
      (Z.leb_spec (d - Z.of_nat (S n)) x), (Z.ltb_spec x d); simpl; try lia.
    + destruct (decide (x - (d - 1) + (s - 1) = d - 1)) as [E | E].
      * rewrite E, st8_eq, u8_small by apply Hm. f_equal. lia.
      * rewrite st8_ne by done. f_equal. lia.
    + replace x with (d - 1) by lia. rewrite st8_eq, u8_small by apply Hm. f_equal. lia.
    + by rewrite st8_ne by lia.
    + by rewrite st8_ne by lia.
Qed.

Lemma copy_up_spec m d s n x :
  bytes m -> (d <= s \/ s + Z.of_nat n <= d) ->
  copy_up m d s n x =
    if ((d <=? x) && (x <? d + Z.of_nat n))%bool then m (x - d + s) else m x.
Proof.
  revert m d s. induction n as [| n IH]; intros m d s Hm Hds; cbn [copy_up].
  - destruct (Z.leb_spec d x), (Z.ltb_spec x (d + Z.of_nat 0)); simpl; try done; lia.
  - rewrite IH by (first [by apply st8_bytes | lia]).
    destruct (Z.leb_spec (d + 1) x), (Z.ltb_spec x (d + 1 + Z.of_nat n)),
      (Z.leb_spec d x), (Z.ltb_spec x (d + Z.of_nat (S n))); simpl; try lia.
    + destruct (decide (x - (d + 1) + (s + 1) = d)) as [E | E].
      * rewrite E, st8_eq, u8_small by apply Hm. f_equal. lia.
      * rewrite st8_ne by done. f_equal. lia.
    + by rewrite st8_ne by lia.
    + replace x with d by lia. rewrite st8_eq, u8_small by apply Hm. f_equal. lia.
    + by rewrite st8_ne by lia.
Qed.

Lemma memmove_eq m dst src n x :
  bytes m -> 0 <= n ->
  memmove m dst src n x = if ((dst <=? x) && (x <? dst + n))%bool then m (x - dst + src) else m x.
Proof.
  intros Hm Hn. unfold memmove.
  destruct (Z.ltb_spec src dst), (Z.ltb_spec dst (src + n)); simpl;
    [rewrite copy_down_spec by (first [done | lia]) | rewrite copy_up_spec by (first [done | lia]) ..];
    rewrite Z2Nat.id by done; [| done ..].
  replace (dst + n - n) with dst by lia. case_bool; [| done]. f_equal. lia.
Qed.

Lemma u_memmove_eq m dst src n : bytes m -> 0 <= n -> forall x,
  u_memmove m dst src n x = if ((dst <=? x) && (x <? dst + n))%bool then m (x - dst + src) else m x.
Proof.
  intros Hm Hn x. unfold u_memmove.
  destruct (Z.ltb_spec dst src);
    [rewrite copy_up_spec by (first [done | lia]) | rewrite copy_down_spec by (first [done | lia])];
    rewrite Z2Nat.id by done; [done |].
  replace (dst + n - n) with dst by lia. case_bool; [| done]. f_equal. lia.
Qed.

(** [memmove] of the kernel and of the user library copy [n] bytes correctly
    whether or not the source and the destination overlap: afterwards the
    destination holds what the source held before, and no other byte changed. *)
Theorem memmove_correct m dst src n :
  bytes m -> 0 <= n ->
  ldn (memmove m dst src n) dst (Z.to_nat n) = ldn m src (Z.to_nat n) /\
  ldn (u_memmove m dst src n) dst (Z.to_nat n) = ldn m src (Z.to_nat n) /\
  (forall x, x < dst \/ dst + n <= x -> memmove m dst src n x = m x /\ u_memmove m dst src n x = m x).
Proof.
  intros Hm Hn. split_and!.
  1-2: apply list_eq; intros i; destruct (decide (i < Z.to_nat n)%nat) as [Hi | Hi];
    [rewrite !ldn_lookup by done; f_equal; rewrite ?memmove_eq, ?u_memmove_eq by done;
     destruct (Z.leb_spec dst (dst + Z.of_nat i)), (Z.ltb_spec (dst + Z.of_nat i) (dst + n));
     simpl; try lia; f_equal; lia
    | rewrite !lookup_ge_None_2 by (rewrite length_ldn; lia); done].
  intros x Hx. rewrite memmove_eq, u_memmove_eq by done.
  by destruct (Z.leb_spec dst x), (Z.ltb_spec x (dst + n)); simpl; try lia.
Qed.

(** An overlapping move up by one byte, the case a forward loop gets wrong. *)
Lemma memmove_correct_witness :
  ldn (memmove (fun a => u8 a) 11 10 4) 11 4 = [10; 11; 12; 13].
Proof.
  refine (proj1 (memmove_correct (fun a => u8 a) 11 10 4 _ _)); [intros a; apply u8_range | lia].
Defined.

(** ** Words inside a block of bytes *)

Definition lget8 (d : list Z) (off : Z) : Z := default 0 (d !! Z.to_nat off).
Definition lset8 (d : list Z) (off v : Z) : list Z := <[Z.to_nat off := u8 v]> d.
Definition lget16 (d : list Z) (off : Z) : Z := lget8 d off + 256 * lget8 d (off + 1).
Definition lset16 (d : list Z) (off v : Z) : list Z := lset8 (lset8 d off v) (off + 1) (v / 256).
Definition lget32 (d : list Z) (off : Z) : Z :=
  lget8 d off + 256 * lget8 d (off + 1) + 65536 * lget8 d (off + 2) + 16777216 * lget8 d (off + 3).
Definition lset32 (d : list Z) (off v : Z) : list Z :=
  lset8 (lset8 (lset8 (lset8 d off v) (off + 1) (v / 256)) (off + 2) (v / 65536)) (off + 3) (v / 16777216).

(** A range of bytes, and a block with a range replaced. *)
Definition lsub (d : list Z) (off n : Z) : list Z := take (Z.to_nat n) (drop (Z.to_nat off) d).
Definition lblit (d : list Z) (off : Z) (v : list Z) : list Z :=
  take (Z.to_nat off) d ++ v ++ drop (Z.to_nat off + length v) d.

Lemma lget8_lset8 d off v :
  0 <= off < Z.of_nat (length d) -> lget8 (lset8 d off v) off = u8 v.
Proof. intros. unfold lget8, lset8. by rewrite list_lookup_insert_eq by lia. Qed.

Lemma lget8_lset8_ne d off off' v :
  0 <= off -> 0 <= off' -> off <> off' -> lget8 (lset8 d off v) off' = lget8 d off'.
Proof. intros. unfold lget8, lset8. by rewrite list_lookup_insert_ne by lia. Qed.

Lemma length_lset8 d off v : length (lset8 d off v) = length d.
Proof. apply length_insert. Qed.

Lemma length_lset16 d off v : length (lset16 d off v) = length d.
Proof. unfold lset16. by rewrite !length_lset8. Qed.

Lemma length_lset32 d off v : length (lset32 d off v) = length d.
Proof. unfold lset32. by rewrite !length_lset8. Qed.

Lemma lget32_lset32 d off v :
  0 <= off -> off + 4 <= Z.of_nat (length d) -> lget32 (lset32 d off v) off = u32 v.
Proof.
  intros H0 H1. unfold lget32, lset32.
  rewrite (lget8_lset8 _ (off + 3)) by (rewrite ?length_lset8; lia).
  rewrite !(lget8_lset8_ne _ (off + 3)) by lia.
  rewrite (lget8_lset8 _ (off + 2)) by (rewrite ?length_lset8; lia).
  rewrite !(lget8_lset8_ne _ (off + 2)) by lia.
  rewrite (lget8_lset8 _ (off + 1)) by (rewrite ?length_lset8; lia).
  rewrite !(lget8_lset8_ne _ (off + 1)) by lia.
  rewrite lget8_lset8 by lia. unfold u8, u32. zdiv.
Qed.

Lemma lget32_lset32_ne d off off' v :
  0 <= off -> 0 <= off' -> off + 4 <= off' \/ off' + 4 <= off ->
  lget32 (lset32 d off v) off' = lget32 d off'.
Proof. intros. unfold lget32, lset32. by rewrite !lget8_lset8_ne by lia. Qed.
