(* ===== verification/CString.v ===== *)
(** The string routines of [string.c] and [ulib.c].

    A [char *] is the list of the bytes from the pointer to the end of the
    object it points into; reading or writing past that end is [None].  Source
    and destination of a copy are distinct objects. *)

From S2P Require Import Prelude Params.

(** ** [string.c] *)

Fixpoint strncmp (p q : list Z) (n : nat) {struct n} : option Z :=
  match n, p, q with
  | O, _, _ => Some 0
  | S n', a :: p', b :: q' =>
      if (negb (a =? 0) && (a =? b))%bool then strncmp p' q' n' else Some (a - b)
  | _, _, _ => None
  end.

(** The second loop of [strncpy]. *)
Fixpoint strncpy_pad (s : list Z) (n : nat) {struct n} : option (list Z) :=
  match n, s with
  | O, _ => Some s
  | S n', _ :: s' => cons 0 <$> strncpy_pad s' n'
  | _, [] => None
  end.
Fixpoint strncpy_loop (s t : list Z) (n : nat) {struct n} : option (list Z) :=
  match n, s, t with
  | O, _, _ => Some s
  | S n', _ :: s', c :: t' =>
      cons c <$> (if negb (c =? 0) then strncpy_loop s' t' n' else strncpy_pad s' n')
  | _, _, _ => None
  end.
Definition strncpy (s t : list Z) (n : Z) : option (list Z) := strncpy_loop s t (Z.to_nat n).

Fixpoint safestrcpy_loop (s t : list Z) (n : nat) {struct n} : option (list Z) :=
  match n, s, t with
  | S n', _ :: s', c :: t' =>
      if negb (c =? 0) then cons c <$> safestrcpy_loop s' t' n'
      else match s' with _ :: s'' => Some (c :: 0 :: s'') | [] => None end
  | O, _ :: s', _ => Some (0 :: s')
  | _, _, _ => None
  end.
Definition safestrcpy (s t : list Z) (n : Z) : option (list Z) :=
  if n <=? 0 then Some s else safestrcpy_loop s t (Z.to_nat (n - 1)).

Fixpoint strlen (s : list Z) : option Z :=
  match s with
  | [] => None
  | c :: s' => if c =? 0 then Some 0 else (fun n => n + 1) <$> strlen s'
  end.

(** ** [ulib.c] *)

Fixpoint strcpy (s t : list Z) : option (list Z) :=
  match s, t with
  | _ :: s', c :: t' => if negb (c =? 0) then cons c <$> strcpy s' t' else Some (c :: s')
  | _, _ => None
  end.

Fixpoint strcmp (p q : list Z) : option Z :=
  match p, q with
  | a :: p', b :: q' => if (negb (a =? 0) && (a =? b))%bool then strcmp p' q' else Some (a - b)
  | _, _ => None
  end.

(** [strchr]: the string from the first [c] on; [Some None] is the null pointer. *)
Fixpoint strchr (s : list Z) (c : Z) : option (option (list Z)) :=
  match s with
  | [] => None
  | x :: s' => if x =? 0 then Some None else if x =? c then Some (Some s) else strchr s' c
  end.

Fixpoint atoi_loop (s : list Z) (n : Z) : option Z :=
  match s with
  | [] => None
  | c :: s' => if ((48 <=? c) && (c <=? 57))%bool then atoi_loop s' (i32 (n * 10 + c - 48)) else Some n
  end.
Definition atoi (s : list Z) : option Z := atoi_loop s 0.

(** [gets]: [rd] are the outcomes of the successive one-byte reads, [None] when
    [read] returns less than one; the result is the line and the reads left. *)
Fixpoint gets_loop (rd : list (option Z)) (k : nat) : list Z * list (option Z) :=
  match k, rd with
  | S k', Some c :: rd' =>
      if ((c =? 10) || (c =? 13))%bool then ([c], rd')
      else let '(l, r) := gets_loop rd' k' in (c :: l, r)
  | S _, None :: rd' => ([], rd')
  | _, _ => ([], rd)
  end.
Definition ulib_gets (rd : list (option Z)) (max : Z) : list Z * list (option Z) :=
  let '(l, r) := gets_loop rd (Z.to_nat (max - 1)) in (l ++ [0], r).

(** ** C strings as sequences of characters *)

(** The characters of a buffer of at most [n] bytes: up to the first NUL. *)
Fixpoint cut (n : nat) (s : list Z) : list Z :=
  match n, s with
  | S n', c :: s' => if c =? 0 then [] else c :: cut n' s'
  | _, _ => []
  end.

(** [s] holds the C string [w]: its characters, then a NUL. *)
Definition cstring (w : list Z) (s : list Z) : Prop :=
  Forall (fun c => c <> 0) w /\ exists r, s = w ++ 0 :: r.

Lemma cstring_cons c w s : cstring (c :: w) s -> c <> 0 /\ exists s', s = c :: s' /\ cstring w s'.
Proof.
  intros [Hw [r ->]]. inversion Hw; subst. split; [done |].
  by exists (w ++ 0 :: r); split; [| split; [| eexists]].
Qed.

Lemma cstring_nil s : cstring [] s -> exists r, s = 0 :: r.
Proof. intros [_ [r ->]]. by exists r. Qed.

Ltac cstring_inv :=
  repeat match goal with
  | H : cstring (_ :: _) _ |- _ => apply cstring_cons in H as (? & ? & -> & ?)
  | H : cstring [] _ |- _ => apply cstring_nil in H as (? & ->)
  end.

Lemma strncmp_zero p q n :
  strncmp p q n = Some 0 -> cut n p = cut n q.
Proof.
  revert p q. induction n as [| n IH]; intros p q; [done |].
  destruct p as [| a p], q as [| b q]; simpl; try done.
  destruct (Z.eqb_spec a 0) as [Ha | Ha]; simpl; [| destruct (Z.eqb_spec a b) as [Hb | Hb]];
    intros H; [injection H as H | | injection H as H; lia].
  - by rewrite (proj2 (Z.eqb_eq b 0)) by lia.
  - rewrite (proj2 (Z.eqb_neq b 0)) by lia. f_equal; [done | by apply IH].
Qed.

Lemma strncmp_complete p q n :
  (n <= length p)%nat -> (n <= length q)%nat ->
  exists r, strncmp p q n = Some r /\ (r = 0 <-> cut n p = cut n q).
Proof.
  revert p q. induction n as [| n IH]; intros p q Hp Hq; [by exists 0; split; [| split] |].
  destruct p as [| a p], q as [| b q]; simpl in *; try lia.
  destruct (Z.eqb_spec a 0) as [-> | Ha]; simpl.
  - eexists; split; [done |]. destruct (Z.eqb_spec b 0); split; intros; (done || lia || congruence).
  - destruct (Z.eqb_spec a b) as [-> | Hb].
    + destruct (IH p q) as (r & Hr & Hiff); [lia.. |]. exists r. split; [done |].
      rewrite (proj2 (Z.eqb_neq b 0)) by done. rewrite Hiff. split; congruence.
    + eexists; split; [done |]. destruct (Z.eqb_spec b 0); split; intros; (done || lia || congruence).
Qed.

Lemma strcmp_spec p q w v :
  cstring w p -> cstring v q -> exists r, strcmp p q = Some r /\ (r = 0 <-> w = v).
Proof.
  revert p q v. induction w as [| a w IH]; intros p q v Hp Hq; cstring_inv.
  - destruct v as [| b v]; cstring_inv; simpl; eexists; (split; [done |]); split; intros; (done || lia || congruence).
  - destruct v as [| b v]; cstring_inv; simpl; rewrite (proj2 (Z.eqb_neq a 0)) by done; simpl.
    + eexists; (split; [done |]); split; intros; (done || lia || congruence).
    + destruct (Z.eqb_spec a b) as [-> | Hb].
      * edestruct IH as (r & -> & Hr); [done | done |]. exists r. split; [done |].
        rewrite Hr. split; congruence.
      * eexists; split; [done |]. split; [lia | congruence].
Qed.

Lemma strlen_spec s w : cstring w s -> strlen s = Some (Z.of_nat (length w)).
Proof.
  revert s. induction w as [| a w IH]; intros s Hs; cstring_inv; [done |].
  cbn [strlen]. rewrite (proj2 (Z.eqb_neq a 0)) by done. erewrite IH by done.
  simpl. f_equal. lia.
Qed.

Lemma strncpy_pad_spec s n :
  (n <= length s)%nat -> strncpy_pad s n = Some (replicate n 0 ++ drop n s).
Proof.
  revert s. induction n as [| n IH]; intros s Hn; [by destruct s |].
  destruct s as [| x s]; simpl in *; [lia |]. by rewrite IH by lia.
Qed.

(** [strncpy] copies the string and fills the rest of the [n] bytes with NUL. *)
Lemma strncpy_spec s t w n :
  cstring w t -> 0 <= n <= Z.of_nat (length s) ->
  strncpy s t n = Some (take (Z.to_nat n) (w ++ replicate (Z.to_nat n) 0) ++ drop (Z.to_nat n) s).
Proof.
  unfold strncpy. intros Hw Hn. assert (Hk : (Z.to_nat n <= length s)%nat) by lia.
  generalize (Z.to_nat n) Hk. clear n Hn Hk. intros n. revert s t w Hw.
  induction n as [| n IH]; intros s t w Hw Hn; [done |].
  destruct s as [| x s]; simpl in Hn; [lia |].
  destruct w as [| a w]; cstring_inv; cbn [strncpy_loop].
  - simpl. rewrite strncpy_pad_spec by lia. simpl. by rewrite firstn_all2 by (by rewrite length_replicate).
  - rewrite (proj2 (Z.eqb_neq a 0)) by done. simpl.
    erewrite IH by (done || lia). simpl. do 3 f_equal.
    change (0 :: replicate n 0) with (replicate (S n) 0).
    rewrite !take_app, !take_replicate. do 2 f_equal. lia.
Qed.

(** [safestrcpy] copies at most [n - 1] characters and always terminates them. *)
Lemma safestrcpy_spec s t w n :
  cstring w t -> 0 < n <= Z.of_nat (length s) ->
  exists s', safestrcpy s t n = Some s' /\
    cstring (take (Z.to_nat (n - 1)) w) s' /\ length s' = length s /\
    drop (Z.to_nat n) s' = drop (Z.to_nat n) s.
Proof.
  unfold safestrcpy. intros Hw Hn. rewrite (proj2 (Z.leb_gt n 0)) by lia.
  replace (Z.to_nat n) with (S (Z.to_nat (n - 1))) by lia.
  assert (Hk : (Z.to_nat (n - 1) < length s)%nat) by lia.
  generalize (Z.to_nat (n - 1)) Hk. clear n Hn Hk. intros n. revert s t w Hw.
  induction n as [| n IH]; intros s t w Hw Hn; (destruct s as [| x s]; [simpl in Hn; lia |]).
  - exists (0 :: s). rewrite take_0. split_and!; try done.
    split; [constructor |]. by exists s.
  - destruct w as [| a w]; cstring_inv; cbn [safestrcpy_loop].
    + simpl. destruct s as [| y s]; [simpl in Hn; lia |]. eexists. split_and!; try done.
      split; [constructor | by eexists].
    + rewrite (proj2 (Z.eqb_neq a 0)) by done. simpl. simpl in Hn.
      edestruct IH as (s' & -> & [Hf [r Hr]] & Hl & Hd); [done | by apply Nat.succ_lt_mono |].
      eexists. split_and!; [done | | by simpl; f_equal | done].
      split; [by constructor | exists r; by rewrite Hr].
Qed.
