(* ===== verification/Machine.v ===== *)
(** The kernel state and the monad the kernel code runs in.

    The structures of [proc.h], [spinlock.h], [sleeplock.h], [buf.h],
    [file.h], [x86.h] and the static data of the kernel's C files become
    records; [kstate] collects them.  A pointer into a static array is the
    index of the element ([option nat], [None] for the null pointer); pointers
    into allocated pages are kernel virtual addresses in [Z]. *)

From S2P Require Import Prelude Params.
From Stdlib Require Import FunctionalExtensionality.

(** ** Locks and sleep channels *)

(** The sleep locks embedded in buffers and in-memory inodes. *)
Inductive sleeplk := SlBuf (i : nat) | SlInode (i : nat).
#[export] Instance sleeplk_eq_dec : EqDecision sleeplk.
Proof. solve_decision. Defined.

(** One constructor per spin lock of the kernel. *)
Inductive lockid :=
| LkPtable | LkTicks | LkKmem | LkFtable | LkIcache | LkBcache | LkLog | LkIde | LkCons
| LkPipe (a : Z) | LkSleep (l : sleeplk).
#[export] Instance lockid_eq_dec : EqDecision lockid.
Proof. solve_decision. Defined.

(** The addresses the kernel passes to [sleep] and [wakeup]. *)
Inductive chan :=
| ChProc (i : nat)            (* a [struct proc], by [wait] and [waitx] *)
| ChTicks                     (* [&ticks] *)
| ChSleep (l : sleeplk)       (* a [struct sleeplock] *)
| ChLog                       (* [&log] *)
| ChBuf (i : nat)             (* a [struct buf], by [iderw] *)
| ChNread (a : Z) | ChNwrite (a : Z)  (* [&p->nread], [&p->nwrite] of a pipe *)
| ChInput.                    (* [&input.r] *)
#[export] Instance chan_eq_dec : EqDecision chan.
Proof. solve_decision. Defined.

Record spinlock := mkSpinlock { lk_locked : Z; lk_name : string; lk_cpu : option nat }.
Record sleeplock := mkSleeplock { sl_locked : Z; sl_name : string; sl_pid : Z }.

(** ** Processors and processes *)

(** [struct cpu], but for the [scheduler] context pointer, which only [swtch] uses. *)
Record cpu := mkCpu {
  c_apicid : Z; c_ts : taskstate; c_gdt : list segdesc; c_started : Z;
  c_ncli : Z; c_intena : bool; c_proc : option nat }.

Record trapframe := mkTrapframe {
  tf_edi : Z; tf_esi : Z; tf_ebp : Z; tf_oesp : Z; tf_ebx : Z; tf_edx : Z; tf_ecx : Z; tf_eax : Z;
  tf_gs : Z; tf_fs : Z; tf_es : Z; tf_ds : Z; tf_trapno : Z;
  tf_err : Z; tf_eip : Z; tf_cs : Z; tf_eflags : Z; tf_esp : Z; tf_ss : Z }.

Definition trapframe0 : trapframe := mkTrapframe 0 0 0 0 0 0 0 0 0 0 0 0 0 0 0 0 0 0 0.

Record context := mkContext { cx_edi : Z; cx_esi : Z; cx_ebx : Z; cx_ebp : Z; cx_eip : Z }.

Inductive procstate := UNUSED | EMBRYO | SLEEPING | RUNNABLE | RUNNING | ZOMBIE.
#[export] Instance procstate_eq_dec : EqDecision procstate.
Proof. solve_decision. Defined.

Record proc := mkProc {
  p_sz : Z; p_pgdir : Z; p_kstack : Z; p_state : procstate; p_pid : Z;
  p_parent : option nat; p_tf : Z; p_context : Z; p_chan : option chan; p_killed : Z;
  p_ofile : list (option nat); p_cwd : option nat; p_name : list Z;
  p_ctime : Z; p_etime : Z; p_rtime : Z; p_stime : Z; p_retime : Z;
  p_tickets : Z; p_original_tickets : Z }.

Definition proc0 : proc :=
  mkProc 0 0 0 UNUSED 0 None 0 0 None 0 (replicate NOFILE None) None (replicate 16 0)
         0 0 0 0 0 0 0.

(** ** Files, inodes, buffers, the log, pipes and the console *)

Inductive filetype := FD_NONE | FD_PIPE | FD_INODE | FD_DEVICE.
#[export] Instance filetype_eq_dec : EqDecision filetype.
Proof. solve_decision. Defined.

Record file := mkFile {
  f_type : filetype; f_ref : Z; f_readable : Z; f_writable : Z;
  f_pipe : Z; f_ip : option nat; f_off : Z; f_major : Z }.

Definition file0 : file := mkFile FD_NONE 0 0 0 0 None 0 0.

Record inode := mkInode {
  i_dev : Z; i_inum : Z; i_ref : Z; i_valid : Z; i_type : Z; i_major : Z; i_minor : Z;
  i_nlink : Z; i_size : Z; i_addrs : list Z }.

Definition inode0 : inode := mkInode 0 0 0 0 0 0 0 0 0 (replicate 13 0).

(** The functions a [struct devsw] slot can point to. *)
Inductive devread_fn := Consoleread.
Inductive devwrite_fn := Consolewrite.
Record devsw_entry := mkDevsw { dev_read : option devread_fn; dev_write : option devwrite_fn }.

(** A [struct buf].  The list links are indices into [bcache.buf], with the
    index [NBUF] standing for [&bcache.head]. *)
Record buf := mkBuf {
  b_flags : Z; b_dev : Z; b_blockno : Z; b_refcnt : Z;
  b_prev : nat; b_next : nat; b_qnext : option nat; b_data : list Z }.

Definition buf0 : buf := mkBuf 0 0 0 0 NBUF NBUF None (replicate 512 0).

Record logheader := mkLogheader { lh_n : Z; lh_block : list Z }.
Record logst := mkLog {
  log_start : Z; log_size : Z; log_outstanding : Z; log_committing : Z; log_dev : Z;
  log_lh : logheader }.

Record pipe := mkPipe {
  pi_data : list Z; pi_nread : Z; pi_nwrite : Z; pi_readopen : Z; pi_writeopen : Z }.

Record inputst := mkInput { in_buf : list Z; in_r : Z; in_w : Z; in_e : Z }.

(** The devices behind the I/O ports: the cells of the screen memory, the CGA
    controller's selected register and cursor, the number of port reads made so
    far and the port writes, newest first. *)
Record iost := mkIo {
  crt : Z -> Z; crt_index : Z; crt_cursor : Z; port_time : nat; port_out : list (Z * Z) }.

(** The interrupt controllers' data ([lapic.c], [ioapic.c]) and the registers
    of the executing processor only [trap.c] uses. *)
Record apicst := mkApic {
  lapic : Z; ioapic : Z; ioapicid : Z;
  idtr : option Z;  (* the limit [lidt] has loaded; the base is [idt] *)
  cr2 : Z }.

(** ** The kernel state *)

Record kstate := mkKstate {
  cpus : list cpu;  (* [mp.c]: [cpus]; the first [ncpu] are present *)
  ncpu : nat;
  lapic_id : Z;  (* registers of the executing processor: what [lapicid] returns there, *)
  eflags_IF : bool;  (* the interrupt flag of [eflags], *)
  cr3 : Z;  (* the page-table register *)
  tr : Z;  (* and the task register *)
  locks : lockid -> spinlock;
  sleeplocks : sleeplk -> sleeplock;
  ptable : list proc;  (* [proc.c] *)
  initproc : option nat;
  nextpid : Z;
  scheduling_policy : Z;
  rand_seed : Z;
  forkret_first : bool;
  ticks : Z;  (* [trap.c] *)
  idt : list gatedesc;
  mem : Z -> Z;  (* the bytes at kernel virtual addresses *)
  kmem_use_lock : bool;  (* [kalloc.c] *)
  kmem_freelist : Z;
  kpgdir : Z;  (* [vm.c] *)
  tframes : Z -> trapframe;  (* trap frames and contexts, by address *)
  contexts : Z -> context;
  ftable : list file;  (* [file.c] *)
  devsw : list devsw_entry;
  pipes : Z -> pipe;  (* [pipe.c] *)
  icache : list inode;  (* [fs.c] *)
  sb : superblock;
  bcache : list buf;  (* [bio.c]: the [NBUF] buffers and the list head *)
  log : logst;  (* [log.c] *)
  idequeue : option nat;  (* [ide.c] *)
  havedisk1 : bool;
  disksize : Z;  (* [memide.c] *)
  disk : Z -> list Z;  (* the disk, block by block *)
  cons_locking : bool;  (* [console.c] *)
  panicked : bool;
  input : inputst;
  uart : bool;  (* [uart.c] *)
  kbd_shift : Z;  (* [kbd.c] *)
  port_in : nat -> Z -> Z;  (* the values the hardware returns to successive port reads *)
  io : iost;
  apic : apicst;
  sym_end : Z;  (* link-time addresses: [end] and [data] of [kernel.ld], and [cpus] *)
  sym_data : Z;
  sym_cpus : Z }.

Definition set_cpus (v : list cpu) (s : kstate) : kstate := {| s with cpus := v |}.
Definition set_ncpu (v : nat) (s : kstate) : kstate := {| s with ncpu := v |}.
Definition set_lapic_id (v : Z) (s : kstate) : kstate := {| s with lapic_id := v |}.
Definition set_eflags_IF (v : bool) (s : kstate) : kstate := {| s with eflags_IF := v |}.
Definition set_cr3 (v : Z) (s : kstate) : kstate := {| s with cr3 := v |}.
Definition set_tr (v : Z) (s : kstate) : kstate := {| s with tr := v |}.
Definition set_locks (v : lockid -> spinlock) (s : kstate) : kstate := {| s with locks := v |}.
Definition set_sleeplocks (v : sleeplk -> sleeplock) (s : kstate) : kstate := {| s with sleeplocks := v |}.
Definition set_ptable (v : list proc) (s : kstate) : kstate := {| s with ptable := v |}.
Definition set_initproc (v : option nat) (s : kstate) : kstate := {| s with initproc := v |}.
Definition set_nextpid (v : Z) (s : kstate) : kstate := {| s with nextpid := v |}.
Definition set_scheduling_policy (v : Z) (s : kstate) : kstate := {| s with scheduling_policy := v |}.
Definition set_rand_seed (v : Z) (s : kstate) : kstate := {| s with rand_seed := v |}.
Definition set_forkret_first (v : bool) (s : kstate) : kstate := {| s with forkret_first := v |}.
Definition set_ticks (v : Z) (s : kstate) : kstate := {| s with ticks := v |}.
Definition set_idt (v : list gatedesc) (s : kstate) : kstate := {| s with idt := v |}.
Definition set_mem (v : Z -> Z) (s : kstate) : kstate := {| s with mem := v |}.
Definition set_kmem_use_lock (v : bool) (s : kstate) : kstate := {| s with kmem_use_lock := v |}.
Definition set_kmem_freelist (v : Z) (s : kstate) : kstate := {| s with kmem_freelist := v |}.
Definition set_kpgdir (v : Z) (s : kstate) : kstate := {| s with kpgdir := v |}.
Definition set_tframes (v : Z -> trapframe) (s : kstate) : kstate := {| s with tframes := v |}.
Definition set_contexts (v : Z -> context) (s : kstate) : kstate := {| s with contexts := v |}.
Definition set_ftable (v : list file) (s : kstate) : kstate := {| s with ftable := v |}.
Definition set_devsw (v : list devsw_entry) (s : kstate) : kstate := {| s with devsw := v |}.
Definition set_pipes (v : Z -> pipe) (s : kstate) : kstate := {| s with pipes := v |}.
Definition set_icache (v : list inode) (s : kstate) : kstate := {| s with icache := v |}.
Definition set_sb (v : superblock) (s : kstate) : kstate := {| s with sb := v |}.
Definition set_bcache (v : list buf) (s : kstate) : kstate := {| s with bcache := v |}.
Definition set_log (v : logst) (s : kstate) : kstate := {| s with log := v |}.
Definition set_idequeue (v : option nat) (s : kstate) : kstate := {| s with idequeue := v |}.
Definition set_havedisk1 (v : bool) (s : kstate) : kstate := {| s with havedisk1 := v |}.
Definition set_disksize (v : Z) (s : kstate) : kstate := {| s with disksize := v |}.
Definition set_disk (v : Z -> list Z) (s : kstate) : kstate := {| s with disk := v |}.
Definition set_cons_locking (v : bool) (s : kstate) : kstate := {| s with cons_locking := v |}.
Definition set_panicked (v : bool) (s : kstate) : kstate := {| s with panicked := v |}.
Definition set_input (v : inputst) (s : kstate) : kstate := {| s with input := v |}.
Definition set_uart (v : bool) (s : kstate) : kstate := {| s with uart := v |}.
Definition set_kbd_shift (v : Z) (s : kstate) : kstate := {| s with kbd_shift := v |}.
Definition set_port_in (v : nat -> Z -> Z) (s : kstate) : kstate := {| s with port_in := v |}.
Definition set_io (v : iost) (s : kstate) : kstate := {| s with io := v |}.
Definition set_apic (v : apicst) (s : kstate) : kstate := {| s with apic := v |}.
Definition set_sym_end (v : Z) (s : kstate) : kstate := {| s with sym_end := v |}.
Definition set_sym_cpus (v : Z) (s : kstate) : kstate := {| s with sym_cpus := v |}.
Definition set_sym_data (v : Z) (s : kstate) : kstate := {| s with sym_data := v |}.

(** The zeroed data of the kernel image, before any initialisation. *)
Definition cpu0 : cpu := mkCpu 0 (mkTaskstate 0 0 0) (replicate NSEGS segdesc0) 0 0 false None.
Definition kstate0 : kstate :=
  {| cpus := replicate NCPU cpu0; ncpu := 0; lapic_id := 0; eflags_IF := false; cr3 := 0; tr := 0;
     locks := fun _ => mkSpinlock 0 "" None; sleeplocks := fun _ => mkSleeplock 0 "" 0;
     ptable := replicate NPROC proc0; initproc := None; nextpid := 1; scheduling_policy := 0;
     rand_seed := 1; forkret_first := true; ticks := 0; idt := replicate 256 gatedesc0;
     mem := fun _ => 0; kmem_use_lock := false; kmem_freelist := 0; kpgdir := 0;
     tframes := fun _ => trapframe0; contexts := fun _ => mkContext 0 0 0 0 0;
     ftable := replicate NFILE file0; devsw := replicate (Z.to_nat NDEV) (mkDevsw None None);
     pipes := fun _ => mkPipe (replicate 512 0) 0 0 0 0; icache := replicate NINODE inode0;
     sb := mkSuperblock 0 0 0 0 0 0 0; bcache := replicate (S NBUF) buf0;
     log := mkLog 0 0 0 0 0 (mkLogheader 0 (replicate (Z.to_nat LOGSIZE) 0));
     idequeue := None; havedisk1 := false; disksize := 0; disk := fun _ => replicate 512 0;
     cons_locking := false; panicked := false; input := mkInput (replicate 128 0) 0 0 0;
     uart := false;
     kbd_shift := 0; port_in := fun _ _ => 0; io := mkIo (fun _ => 0) 0 0 0 [];
     apic := mkApic 0 0 0 None 0;
     sym_end := 0; sym_data := 0; sym_cpus := 0 |}.

(** ** Outcomes

    A kernel path either returns, stops for good, or calls [swtch] and is
    resumed later in a state the rest of the system has changed meanwhile. *)

Inductive stop :=
| Panicked (msg : string)   (* [panic] *)
| Spinning                  (* a busy-wait whose condition this state never meets *)
| Faulted                   (* undefined behaviour: a null pointer or an index out of range *)
| OutOfFuel                 (* the bound on the iterations of an unbounded loop *)
| PowerOff.                 (* the machine loses power, where a disk model says so *)

Inductive outcome (A : Type) :=
| Ok (a : A) (s : kstate)
| Stop (r : stop) (s : kstate)
| Swtch (s : kstate) (k : kstate -> outcome A).
Arguments Ok {A} _ _.
Arguments Stop {A} _ _.
Arguments Swtch {A} _ _.

Definition M (A : Type) : Type := kstate -> outcome A.

Fixpoint obind {A B} (r : outcome A) (f : A -> M B) : outcome B :=
  match r with
  | Ok a s => f a s
  | Stop e s => Stop e s
  | Swtch s k => Swtch s (fun s' => obind (k s') f)
  end.

Definition ret {A} (a : A) : M A := fun s => Ok a s.
Definition bind {A B} (m : M A) (f : A -> M B) : M B := fun s => obind (m s) f.

Notation "x <- m ;; k" := (bind m (fun x => k))
  (at level 100, m at next level, right associativity) : kernel_scope.
Notation "m ;; k" := (bind m (fun _ => k))
  (at level 100, right associativity) : kernel_scope.
Open Scope kernel_scope.

Definition gets {A} (f : kstate -> A) : M A := fun s => Ok (f s) s.
Definition modify (f : kstate -> kstate) : M unit := fun s => Ok tt (f s).
Definition stop_with {A} (r : stop) : M A := fun s => Stop r s.
Definition fault {A} : M A := stop_with Faulted.
Definition when (b : bool) (m : M unit) : M unit := if b then m else ret tt.

(** [console.c]: [panic] disables interrupts, prints and never returns. *)
Definition panic {A} (msg : string) : M A := stop_with (Panicked msg).

(** [swtch.S]: give up the processor; the path goes on when it is switched back to. *)
Definition swtch : M unit := fun s => Swtch s (fun s' => Ok tt s').

Definition unwrap {A} (o : option A) : M A :=
  match o with Some a => ret a | None => fault end.

(** A [for] loop over the elements of an array. *)
Fixpoint forM {I} (l : list I) (body : I -> M unit) : M unit :=
  match l with
  | [] => ret tt
  | i :: l' => body i ;; forM l' body
  end.

(** A [for] loop whose body may leave it with a value ([return] or [break]). *)
Fixpoint for_ret {I R} (l : list I) (body : I -> M (option R)) : M (option R) :=
  match l with
  | [] => ret None
  | i :: l' =>
      r <- body i ;;
      match r with Some x => ret (Some x) | None => for_ret l' body end
  end.

(** Loops that sleep or poll until another party acts have no bound of their
    own; the model lets them take [max_turns] turns and then gives up with
    [OutOfFuel].  Theorems quantify over the bound. *)
Class Turns := max_turns : nat.

(** [while(cond) body], as an early exit: the body returns a value to leave the loop. *)
Fixpoint loop_until {A} (turns : nat) (body : M (option A)) : M A :=
  match turns with
  | O => stop_with OutOfFuel
  | S turns' =>
      r <- body ;;
      match r with Some a => ret a | None => loop_until turns' body end
  end.

(** Updates of the device state. *)
Definition modio (f : iost -> iost) : M unit := fun s => Ok tt (set_io (f (io s)) s).

(** Accessors for the elements of the static arrays. *)
Definition getb (i : nat) : M buf := fun s => unwrap (bcache s !! i) s.
Definition modb (i : nat) (f : buf -> buf) : M unit :=
  fun s => match bcache s !! i with
           | Some b => Ok tt (set_bcache (<[i := f b]> (bcache s)) s)
           | None => Stop Faulted s
           end.
Definition geti (i : nat) : M inode := fun s => unwrap (icache s !! i) s.
Definition modi (i : nat) (f : inode -> inode) : M unit :=
  fun s => match icache s !! i with
           | Some b => Ok tt (set_icache (<[i := f b]> (icache s)) s)
           | None => Stop Faulted s
           end.
Definition getf (i : nat) : M file := fun s => unwrap (ftable s !! i) s.
Definition modf (i : nat) (f : file -> file) : M unit :=
  fun s => match ftable s !! i with
           | Some b => Ok tt (set_ftable (<[i := f b]> (ftable s)) s)
           | None => Stop Faulted s
           end.
Definition modsl (l : sleeplk) (f : sleeplock -> sleeplock) : M unit :=
  modify (fun s => set_sleeplocks (fupd (sleeplocks s) l (f (sleeplocks s l))) s).
Definition modpipe (a : Z) (f : pipe -> pipe) : M unit :=
  modify (fun s => set_pipes (fupd (pipes s) a (f (pipes s a))) s).
Definition getp (i : nat) : M proc := fun s => unwrap (ptable s !! i) s.
Definition modp (i : nat) (f : proc -> proc) : M unit :=
  fun s => match ptable s !! i with
           | Some p => Ok tt (set_ptable (<[i := f p]> (ptable s)) s)
           | None => Stop Faulted s
           end.
Definition getc (i : nat) : M cpu := fun s => unwrap (cpus s !! i) s.
Definition modc (i : nat) (f : cpu -> cpu) : M unit :=
  fun s => match cpus s !! i with
           | Some c => Ok tt (set_cpus (<[i := f c]> (cpus s)) s)
           | None => Stop Faulted s
           end.

(** ** Laws used by every component *)

Lemma bind_ok {A B} (m : M A) (f : A -> M B) s a s' :
  m s = Ok a s' -> bind m f s = f a s'.
Proof. unfold bind. by intros ->. Qed.

Lemma bind_stop {A B} (m : M A) (f : A -> M B) s r s' :
  m s = Stop r s' -> bind m f s = Stop r s'.
Proof. unfold bind. by intros ->. Qed.

Lemma bind_ret {A B} (a : A) (f : A -> M B) s : bind (ret a) f s = f a s.
Proof. done. Qed.

Lemma bind_gets {A B} (g : kstate -> A) (f : A -> M B) s : bind (gets g) f s = f (g s) s.
Proof. done. Qed.

Lemma bind_modify {B} (g : kstate -> kstate) (f : unit -> M B) s :
  bind (modify g) f s = f tt (g s).
Proof. done. Qed.

Lemma bind_modio {B} (g : iost -> iost) (f : unit -> M B) s :
  bind (modio g) f s = f tt (set_io (g (io s)) s).
Proof. done. Qed.

Lemma obind_assoc {A B C} (r : outcome A) (f : A -> M B) (g : B -> M C) :
  obind (obind r f) g = obind r (fun a => bind (f a) g).
Proof.
  induction r as [| | s k IH]; simpl; [done | done |].
  f_equal. by extensionality s'.
Qed.

Lemma bind_assoc {A B C} (m : M A) (f : A -> M B) (g : B -> M C) s :
  bind (bind m f) g s = bind m (fun a => bind (f a) g) s.
Proof. apply obind_assoc. Qed.

Lemma bind_ext {A B} (m : M A) (f g : A -> M B) s :
  (forall a s', f a s' = g a s') -> bind m f s = bind m g s.
Proof.
  intros H. unfold bind. induction (m s) as [| | s' k IH]; simpl; [apply H | done |].
  f_equal. by extensionality s2.
Qed.

Lemma forM_app {I} (l1 l2 : list I) body s :
  forM (l1 ++ l2) body s = (forM l1 body ;; forM l2 body) s.
Proof.
  revert s. induction l1 as [| x l1 IH]; intros s; [done |]. simpl.
  rewrite bind_assoc. apply bind_ext. intros [] s'. apply IH.
Qed.

Lemma getp_ok s i p : ptable s !! i = Some p -> getp i s = Ok p s.
Proof. unfold getp. by intros ->. Qed.

Lemma modp_ok s i p f :
  ptable s !! i = Some p -> modp i f s = Ok tt (set_ptable (<[i := f p]> (ptable s)) s).
Proof. unfold modp. by intros ->. Qed.

Lemma getc_ok s i c : cpus s !! i = Some c -> getc i s = Ok c s.
Proof. unfold getc. by intros ->. Qed.

Lemma modc_ok s i c f :
  cpus s !! i = Some c -> modc i f s = Ok tt (set_cpus (<[i := f c]> (cpus s)) s).
Proof. unfold modc. by intros ->. Qed.

Lemma getb_ok s i b : bcache s !! i = Some b -> getb i s = Ok b s.
Proof. unfold getb. by intros ->. Qed.

Lemma modb_ok s i b f :
  bcache s !! i = Some b -> modb i f s = Ok tt (set_bcache (<[i := f b]> (bcache s)) s).
Proof. unfold modb. by intros ->. Qed.

Lemma geti_ok s i b : icache s !! i = Some b -> geti i s = Ok b s.
Proof. unfold geti. by intros ->. Qed.

Lemma modi_ok s i b f :
  icache s !! i = Some b -> modi i f s = Ok tt (set_icache (<[i := f b]> (icache s)) s).
Proof. unfold modi. by intros ->. Qed.

Lemma getf_ok s i b : ftable s !! i = Some b -> getf i s = Ok b s.
Proof. unfold getf. by intros ->. Qed.

Lemma modf_ok s i b f :
  ftable s !! i = Some b -> modf i f s = Ok tt (set_ftable (<[i := f b]> (ftable s)) s).
Proof. unfold modf. by intros ->. Qed.

(** State updates are never unfolded in proofs: these laws and [simpl] on the
    projections normalise them. *)
Lemma set_cpus_id s : set_cpus (cpus s) s = s.
Proof. by destruct s. Qed.
Lemma set_eflags_IF_id s : set_eflags_IF (eflags_IF s) s = s.
Proof. by destruct s. Qed.
Lemma set_locks_id s : set_locks (locks s) s = s.
Proof. by destruct s. Qed.
Lemma set_ptable_id s : set_ptable (ptable s) s = s.
Proof. by destruct s. Qed.

Lemma set_io_id s : set_io (io s) s = s.
Proof. by destruct s. Qed.
Lemma set_pipes_id s : set_pipes (pipes s) s = s.
Proof. by destruct s. Qed.
Lemma set_mem_id s : set_mem (mem s) s = s.
Proof. by destruct s. Qed.
Lemma set_bcache_id s : set_bcache (bcache s) s = s.
Proof. by destruct s. Qed.
Lemma set_sleeplocks_id s : set_sleeplocks (sleeplocks s) s = s.
Proof. by destruct s. Qed.
Lemma set_disk_id s : set_disk (disk s) s = s.
Proof. by destruct s. Qed.
Lemma set_icache_id s : set_icache (icache s) s = s.
Proof. by destruct s. Qed.
Lemma set_log_id s : set_log (log s) s = s.
Proof. by destruct s. Qed.
Lemma set_ftable_id s : set_ftable (ftable s) s = s.
Proof. by destruct s. Qed.
Lemma set_io_io v w s : set_io v (set_io w s) = set_io v s.
Proof. by destruct s. Qed.

Create Rewrite HintDb run.
#[export] Hint Rewrite @bind_ret @bind_gets @bind_modify @bind_modio @bind_assoc : run.

(** Run the first command of a sequence, whose outcome the tactic establishes. *)
Tactic Notation "step" "by" tactic3(tac) := erewrite bind_ok; [| solve [tac] ].
