(* ===== verification/Spinlock.v ===== *)
(** [spinlock.c], with [mycpu] and [cpuid] of [proc.c]: interrupt nesting and
    spin locks on the executing processor. *)

From S2P Require Import Prelude Params Machine.

(** ** Operations *)

Definition cli : M unit := modify (set_eflags_IF false).
Definition sti : M unit := modify (set_eflags_IF true).

(** The loop over [cpus] in [mycpu]. *)
Definition cur_cpu (s : kstate) : option (nat * cpu) :=
  list_find (fun c => c_apicid c = lapic_id s) (take (ncpu s) (cpus s)).

Definition mycpu : M nat :=
  ifl <- gets eflags_IF ;;
  if (ifl : bool) then panic "mycpu called with interrupts enabled"
  else
    found <- gets cur_cpu ;;
    match found with
    | Some (i, _) => ret i
    | None => panic "unknown apicid"
    end.

Definition cpuid : M Z := i <- mycpu ;; ret (Z.of_nat i).

Definition initlock (l : lockid) (name : string) : M unit :=
  modify (fun s => set_locks (fupd (locks s) l (mkSpinlock 0 name None)) s).

Definition pushcli : M unit :=
  eflags <- gets eflags_IF ;;
  cli ;;
  i <- mycpu ;;
  c <- getc i ;;
  modc i (fun c => {| c with c_ncli := c_ncli c + 1 |}) ;;
  if c_ncli c =? 0 then
    i <- mycpu ;;
    modc i (fun c => {| c with c_intena := eflags |})
  else ret tt.

Definition popcli : M unit :=
  eflags <- gets eflags_IF ;;
  if (eflags : bool) then panic "popcli - interruptible"
  else
    i <- mycpu ;;
    modc i (fun c => {| c with c_ncli := c_ncli c - 1 |}) ;;
    c <- getc i ;;
    if c_ncli c <? 0 then panic "popcli"
    else if ((c_ncli c =? 0) && c_intena c)%bool then sti
    else ret tt.

Definition getlock (l : lockid) : M spinlock := gets (fun s => locks s l).
Definition modlock (l : lockid) (f : spinlock -> spinlock) : M unit :=
  modify (fun s => set_locks (fupd (locks s) l (f (locks s l))) s).

Definition holding (l : lockid) : M bool :=
  pushcli ;;
  lk <- getlock l ;;
  i <- mycpu ;;
  let r := (negb (lk_locked lk =? 0) && bool_decide (lk_cpu lk = Some i))%bool in
  popcli ;;
  ret r.

(** The atomic [xchg] on [lk->locked]. *)
Definition xchg_locked (l : lockid) (v : Z) : M Z :=
  lk <- getlock l ;;
  modlock l (fun lk => {| lk with lk_locked := v |}) ;;
  ret (lk_locked lk).

(** [acquire].  When the lock is taken the [while] loop repeats the same
    exchange on the same state until another processor changes it. *)
Definition acquire (l : lockid) : M unit :=
  pushcli ;;
  h <- holding l ;;
  if (h : bool) then panic "acquire"
  else
    old <- xchg_locked l 1 ;;
    if negb (old =? 0) then stop_with Spinning
    else
      i <- mycpu ;;
      modlock l (fun lk => {| lk with lk_cpu := Some i |}).

Definition release (l : lockid) : M unit :=
  h <- holding l ;;
  if negb h then panic "release"
  else
    modlock l (fun lk => {| lk with lk_cpu := None |}) ;;
    xchg_locked l 0 ;;
    popcli.

(** [getcallerpcs]: walk the chain of saved frame pointers; [ld] reads a word. *)
Fixpoint getcallerpcs_from (ld : Z -> Z) (n : nat) (ebp : Z) : list Z :=
  match n with
  | O => []
  | S n' =>
      if ((ebp =? 0) || (ebp <? KERNBASE) || (ebp =? 0xffffffff))%bool then replicate n 0
      else ld (u32 (ebp + 4)) :: getcallerpcs_from ld n' (ld ebp)
  end.
Definition getcallerpcs (ld : Z -> Z) (v : Z) : list Z :=
  getcallerpcs_from ld 10 (u32 (v - 8)).

(** ** What the operations do *)

(** The state after one level of [pushcli] on processor [i], and after [popcli]. *)
Definition pushed (i : nat) (c : cpu) (s : kstate) : kstate :=
  set_cpus (<[i := {| c with c_ncli := c_ncli c + 1;
                            c_intena := if c_ncli c =? 0 then eflags_IF s else c_intena c |}]> (cpus s))
    (set_eflags_IF false s).

Definition popped (i : nat) (c : cpu) (s : kstate) : kstate :=
  set_cpus (<[i := {| c with c_ncli := c_ncli c - 1 |}]> (cpus s))
    (set_eflags_IF ((c_ncli c =? 1) && c_intena c) s).

Lemma cur_cpu_lookup s i c : cur_cpu s = Some (i, c) -> cpus s !! i = Some c.
Proof.
  unfold cur_cpu. intros H. apply list_find_Some in H as (H & _ & _).
  by apply lookup_take_Some in H as [H _].
Qed.

(** Updating the record of the current processor keeps it current, as long as
    its APIC id is kept. *)
Lemma cur_cpu_insert s i c c' :
  cur_cpu s = Some (i, c) -> c_apicid c' = c_apicid c ->
  list_find (fun c => c_apicid c = lapic_id s) (take (ncpu s) (<[i := c']> (cpus s)))
    = Some (i, c').
Proof.
  unfold cur_cpu. intros H Ha.
  apply list_find_Some in H as (Hl & Hc & Hbefore).
  apply lookup_take_Some in Hl as [Hl Hi].
  apply list_find_Some. split_and!.
  - rewrite lookup_take_lt by done. apply list_lookup_insert_eq. by eapply lookup_lt_Some.
  - congruence.
  - intros j y Hj Hlt. rewrite lookup_take_lt in Hj by lia.
    rewrite list_lookup_insert_ne in Hj by lia.
    apply (Hbefore j y); [by rewrite lookup_take_lt by lia | done].
Qed.

Lemma mycpu_ok s i c : eflags_IF s = false -> cur_cpu s = Some (i, c) -> mycpu s = Ok i s.
Proof. intros HIF H. unfold mycpu. autorewrite with run. by rewrite HIF, bind_gets, H. Qed.

Lemma mycpu_interruptible s :
  eflags_IF s = true -> mycpu s = Stop (Panicked "mycpu called with interrupts enabled") s.
Proof. intros HIF. unfold mycpu. autorewrite with run. by rewrite HIF. Qed.

(** A state in which a processor runs kernel code: the executing processor is
    [i], and interrupts are off whenever its nesting depth is positive. *)
Record runs_on (s : kstate) (i : nat) (c : cpu) : Prop := {
  ro_cur : cur_cpu s = Some (i, c);
  ro_ncli : 0 <= c_ncli c;
  ro_if : 0 < c_ncli c -> eflags_IF s = false }.

Lemma runs_on_ext s s' i c :
  cpus s' = cpus s -> ncpu s' = ncpu s -> lapic_id s' = lapic_id s -> eflags_IF s' = eflags_IF s ->
  runs_on s i c -> runs_on s' i c.
Proof.
  intros Hc Hn Hl HIF []. split; [| done | by rewrite HIF].
  unfold cur_cpu in *. by rewrite Hc, Hn, Hl.
Qed.

Lemma cur_cpu_set s i c c' b :
  cur_cpu s = Some (i, c) -> c_apicid c' = c_apicid c ->
  cur_cpu (set_cpus (<[i := c']> (cpus s)) (set_eflags_IF b s)) = Some (i, c').
Proof. intros H Ha. exact (cur_cpu_insert s i c c' H Ha). Qed.

Lemma pushcli_ok s i c : cur_cpu s = Some (i, c) -> pushcli s = Ok tt (pushed i c s).
Proof.
  intros H. unfold pushcli, cli. autorewrite with run.
  assert (Hc : cur_cpu (set_eflags_IF false s) = Some (i, c)) by done.
  step by (by eapply mycpu_ok).
  pose proof (cur_cpu_lookup _ _ _ Hc) as Hl.
  step by (by apply getc_ok).
  step by (by apply modc_ok).
  unfold pushed. destruct (c_ncli c =? 0) eqn:E; [| done].
  assert (Hc' : cur_cpu (set_cpus (<[i := {| c with c_ncli := c_ncli c + 1 |}]> (cpus s))
                 (set_eflags_IF false s)) = Some (i, {| c with c_ncli := c_ncli c + 1 |}))
    by (by eapply cur_cpu_set).
  step by (by eapply mycpu_ok).
  erewrite modc_ok by (apply (cur_cpu_lookup _ _ _ Hc')). simpl.
  by rewrite list_insert_insert_eq.
Qed.

Lemma popcli_ok s i c :
  cur_cpu s = Some (i, c) -> eflags_IF s = false -> 1 <= c_ncli c ->
  popcli s = Ok tt (popped i c s).
Proof.
  intros H HIF Hn. unfold popcli. autorewrite with run. rewrite HIF.
  step by (by eapply mycpu_ok).
  pose proof (cur_cpu_lookup _ _ _ H) as Hl.
  step by (by apply modc_ok).
  step by (apply getc_ok; simpl; apply list_lookup_insert_eq; by eapply lookup_lt_Some).
  simpl. rewrite (proj2 (Z.ltb_ge _ _)) by lia.
  replace (c_ncli c - 1 =? 0) with (c_ncli c =? 1)
    by (destruct (Z.eqb_spec (c_ncli c) 1); destruct (Z.eqb_spec (c_ncli c - 1) 0); lia).
  unfold popped, sti, modify, ret. destruct (_ && _)%bool; [done |].
  f_equal. by rewrite <- HIF at 1.
Qed.

Lemma popcli_unbalanced s i c :
  cur_cpu s = Some (i, c) -> eflags_IF s = false -> c_ncli c <= 0 ->
  exists s', popcli s = Stop (Panicked "popcli") s'.
Proof.
  intros H HIF Hn. unfold popcli. autorewrite with run. rewrite HIF.
  step by (by eapply mycpu_ok).
  pose proof (cur_cpu_lookup _ _ _ H) as Hl.
  step by (by apply modc_ok).
  step by (apply getc_ok; simpl; apply list_lookup_insert_eq; by eapply lookup_lt_Some).
  simpl. rewrite (proj2 (Z.ltb_lt _ _)) by lia. by eexists.
Qed.

(** [pushcli] then [popcli] leaves the processor's record and interrupt flag as
    they were, but for [intena] at nesting depth zero. *)
Definition cli_touch (s : kstate) : kstate :=
  match cur_cpu s with
  | Some (i, c) =>
      if c_ncli c =? 0 then
        set_cpus (<[i := {| c with c_intena := eflags_IF s |}]> (cpus s)) s
      else s
  | None => s
  end.

Lemma runs_on_pushed s i c :
  runs_on s i c ->
  cur_cpu (pushed i c s) = Some (i, {| c with c_ncli := c_ncli c + 1;
     c_intena := if c_ncli c =? 0 then eflags_IF s else c_intena c |}).
Proof. intros []. by eapply cur_cpu_set. Qed.

Lemma popped_pushed s i c :
  runs_on s i c ->
  popped i {| c with c_ncli := c_ncli c + 1;
                     c_intena := if c_ncli c =? 0 then eflags_IF s else c_intena c |}
    (pushed i c s) = cli_touch s.
Proof.
  intros [Hc Hn HIF]. unfold popped, pushed, cli_touch. rewrite Hc. simpl.
  replace (c_ncli c + 1 - 1) with (c_ncli c) by lia.
  replace (c_ncli c + 1 =? 1) with (c_ncli c =? 0)
    by (destruct (Z.eqb_spec (c_ncli c) 0); destruct (Z.eqb_spec (c_ncli c + 1) 1); lia).
  rewrite list_insert_insert_eq.
  destruct (Z.eqb_spec (c_ncli c) 0) as [E | E]; simpl.
  - rewrite <- (set_eflags_IF_id s) at 3. by rewrite E.
  - rewrite (list_insert_id _ i) by (destruct c; by apply cur_cpu_lookup in Hc).
    trans (set_cpus (cpus s) (set_eflags_IF (eflags_IF s) s)).
    + by rewrite HIF by lia.
    + by rewrite set_eflags_IF_id, set_cpus_id.
Qed.

Lemma holding_ok s i c l :
  runs_on s i c ->
  holding l s =
    Ok (negb (lk_locked (locks s l) =? 0) && bool_decide (lk_cpu (locks s l) = Some i))%bool
       (cli_touch s).
Proof.
  intros Hr. pose proof (ro_cur _ _ _ Hr) as Hc. pose proof (ro_ncli _ _ _ Hr) as Hn.
  unfold holding, getlock.
  step by (by eapply pushcli_ok). rewrite bind_gets.
  pose proof (runs_on_pushed _ _ _ Hr) as Hc'.
  step by (by eapply mycpu_ok).
  step by (eapply popcli_ok; [done | done | simpl; lia]).
  by rewrite popped_pushed.
Qed.

(** [cli_touch] changes nothing but the [intena] flag of the executing processor. *)
Lemma cli_touch_eq s :
  exists cs, cli_touch s = set_cpus cs s /\
    map c_ncli cs = map c_ncli (cpus s) /\ map c_proc cs = map c_proc (cpus s).
Proof.
  unfold cli_touch. destruct (cur_cpu s) as [[i c] |] eqn:Hc.
  2: { exists (cpus s). by rewrite set_cpus_id. }
  apply cur_cpu_lookup in Hc. destruct (c_ncli c =? 0).
  - eexists; split_and!; [done | |];
      change (@map cpu ?B ?f ?l) with (f <$> l); rewrite list_fmap_insert; simpl;
      apply list_insert_id; rewrite list_lookup_fmap, Hc; done.
  - exists (cpus s). by rewrite set_cpus_id.
Qed.

Lemma cli_touch_nested s i c : cur_cpu s = Some (i, c) -> c_ncli c <> 0 -> cli_touch s = s.
Proof. intros H Hn. unfold cli_touch. rewrite H. by rewrite (proj2 (Z.eqb_neq _ _)). Qed.

Lemma runs_on_pushed_runs s i c :
  runs_on s i c ->
  runs_on (pushed i c s) i {| c with c_ncli := c_ncli c + 1;
     c_intena := if c_ncli c =? 0 then eflags_IF s else c_intena c |}.
Proof.
  intros Hr. split; [by apply runs_on_pushed | |]; simpl; [destruct Hr; lia | done].
Qed.

(** The state in which processor [i] has just taken lock [l]. *)
Definition locked_by (i : nat) (c : cpu) (l : lockid) (s : kstate) : kstate :=
  set_locks (fupd (locks s) l (mkSpinlock 1 (lk_name (locks s l)) (Some i))) (pushed i c s).

Lemma acquire_ok s i c l :
  runs_on s i c -> lk_locked (locks s l) = 0 -> acquire l s = Ok tt (locked_by i c l s).
Proof.
  intros Hr Hfree. pose proof (runs_on_pushed_runs _ _ _ Hr) as Hr'.
  unfold acquire, xchg_locked, getlock, modlock.
  step by (eapply pushcli_ok, Hr). step by (by eapply holding_ok).
  simpl. rewrite Hfree. simpl.
  erewrite cli_touch_nested; [| apply Hr' | simpl; destruct Hr; lia].
  autorewrite with run. simpl. rewrite Hfree. simpl.
  step by (by eapply mycpu_ok; [| apply (ro_cur _ _ _ Hr')]).
  unfold modify. simpl. by rewrite fupd_eq, fupd_fupd.
Qed.

(** A processor that already holds the lock panics instead of deadlocking. *)
Lemma acquire_held_self s i c l :
  runs_on s i c -> lk_locked (locks s l) <> 0 -> lk_cpu (locks s l) = Some i ->
  exists s', acquire l s = Stop (Panicked "acquire") s'.
Proof.
  intros Hr Hl Hc. pose proof (runs_on_pushed_runs _ _ _ Hr) as Hr'.
  unfold acquire. step by (eapply pushcli_ok, Hr). step by (by eapply holding_ok).
  simpl. rewrite (proj2 (Z.eqb_neq _ _) Hl), bool_decide_eq_true_2 by done. by eexists.
Qed.

(** While another processor holds the lock, [acquire] spins and the lock stays held. *)
Lemma acquire_held_other s i c l :
  runs_on s i c -> lk_locked (locks s l) <> 0 -> lk_cpu (locks s l) <> Some i ->
  exists s', acquire l s = Stop Spinning s' /\ lk_locked (locks s' l) = 1 /\
             lk_cpu (locks s' l) = lk_cpu (locks s l).
Proof.
  intros Hr Hl Hc. pose proof (runs_on_pushed_runs _ _ _ Hr) as Hr'.
  unfold acquire, xchg_locked, getlock, modlock.
  step by (eapply pushcli_ok, Hr). step by (by eapply holding_ok).
  simpl. rewrite (proj2 (Z.eqb_neq _ _) Hl), bool_decide_eq_false_2 by done. simpl.
  erewrite cli_touch_nested; [| apply Hr' | simpl; destruct Hr; lia].
  autorewrite with run. simpl. rewrite (proj2 (Z.eqb_neq _ _) Hl). simpl.
  eexists. split_and!; [done | |]; simpl; by rewrite fupd_eq.
Qed.

Lemma release_ok s i c l :
  runs_on s i c -> 1 <= c_ncli c ->
  lk_locked (locks s l) <> 0 -> lk_cpu (locks s l) = Some i ->
  release l s =
    Ok tt (set_locks (fupd (locks s) l (mkSpinlock 0 (lk_name (locks s l)) None)) (popped i c s)).
Proof.
  intros Hr Hn Hl Hc. unfold release, xchg_locked, getlock, modlock.
  step by (by eapply holding_ok).
  rewrite (proj2 (Z.eqb_neq _ _) Hl), bool_decide_eq_true_2 by done. simpl.
  erewrite cli_touch_nested by (try apply Hr; lia).
  autorewrite with run. simpl. rewrite fupd_eq, fupd_fupd. simpl.
  set (f := fupd _ _ _).
  assert (Hc' : cur_cpu (set_locks f (set_locks (fupd (locks s) l
            {| (locks s l) with lk_cpu := None |}) s)) = Some (i, c)) by apply Hr.
  erewrite popcli_ok; [| exact Hc' | apply (ro_if _ _ _ Hr); lia | lia]. done.
Qed.

(** Releasing a lock that the processor does not hold panics. *)
Lemma release_not_held s i c l :
  runs_on s i c -> lk_locked (locks s l) = 0 \/ lk_cpu (locks s l) <> Some i ->
  exists s', release l s = Stop (Panicked "release") s'.
Proof.
  intros Hr H. unfold release. step by (by eapply holding_ok).
  replace (negb _) with true; [by eexists |]. symmetry. apply negb_true_iff, andb_false_iff.
  destruct H as [-> | H]; [by left | right; by apply bool_decide_eq_false_2].
Qed.

(** ** Critical sections *)

(** A lock nobody holds, as [initlock] and [release] leave it. *)
Definition lock_free (s : kstate) (l : lockid) : Prop :=
  lk_locked (locks s l) = 0 /\ lk_cpu (locks s l) = None.

(** State updates that leave locks, processors and interrupt state alone. *)
Class CpuFrame (U : kstate -> kstate) : Prop := {
  cf_cpus : forall v s, U (set_cpus v s) = set_cpus v (U s);
  cf_locks : forall v s, U (set_locks v s) = set_locks v (U s);
  cf_IF : forall v s, U (set_eflags_IF v s) = set_eflags_IF v (U s);
  cf_id : forall s, lapic_id (U s) = lapic_id s;
  cf_n : forall s, ncpu (U s) = ncpu s }.

#[export] Hint Extern 5 (CpuFrame _) => (split; reflexivity) : typeclass_instances.

Section Frame.
Context (U : kstate -> kstate) `{!CpuFrame U}.

Lemma cf_get_cpus s : cpus (U s) = cpus s.
Proof. by rewrite <- (set_cpus_id s) at 1; rewrite cf_cpus. Qed.
Lemma cf_get_locks s : locks (U s) = locks s.
Proof. by rewrite <- (set_locks_id s) at 1; rewrite cf_locks. Qed.
Lemma cf_get_IF s : eflags_IF (U s) = eflags_IF s.
Proof. by rewrite <- (set_eflags_IF_id s) at 1; rewrite cf_IF. Qed.

Lemma cf_cur_cpu s : cur_cpu (U s) = cur_cpu s.
Proof. unfold cur_cpu. by rewrite cf_get_cpus, cf_id, cf_n. Qed.

Lemma cf_runs_on s i c : runs_on s i c -> runs_on (U s) i c.
Proof. intros []. split; [by rewrite cf_cur_cpu | done | by rewrite cf_get_IF]. Qed.

Lemma cf_lock_free s l : lock_free s l -> lock_free (U s) l.
Proof. unfold lock_free. by rewrite cf_get_locks. Qed.

Lemma cf_cli_touch s : cli_touch (U s) = U (cli_touch s).
Proof.
  unfold cli_touch. rewrite cf_cur_cpu. destruct (cur_cpu s) as [[i c] |]; [| done].
  destruct (_ =? 0); [| done]. by rewrite cf_cpus, cf_get_cpus, cf_get_IF.
Qed.
End Frame.

(** Leaving a critical section restores the lock and the interrupt state the
    section was entered with. *)
Lemma release_after U `{!CpuFrame U} s i c l :
  runs_on s i c -> lock_free s l -> release l (U (locked_by i c l s)) = Ok tt (U (cli_touch s)).
Proof.
  intros Hr [Hl Hcpu].
  pose proof (runs_on_pushed_runs _ _ _ Hr) as Hp.
  assert (Hr' : runs_on (locked_by i c l s) i {| c with c_ncli := c_ncli c + 1;
     c_intena := if c_ncli c =? 0 then eflags_IF s else c_intena c |}) by (by destruct Hp).
  apply (cf_runs_on U) in Hr'.
  erewrite release_ok; [| exact Hr' | simpl; destruct Hr; lia | |];
    rewrite (cf_get_locks U); [| simpl; by rewrite fupd_eq ..].
  f_equal. unfold popped. rewrite (cf_get_cpus U).
  rewrite <- (cf_IF (U := U)), <- (cf_cpus (U := U)), <- (cf_locks (U := U)). f_equal. simpl.
  rewrite fupd_eq, fupd_fupd. rewrite fupd_id by (destruct (locks s l); naive_solver).
  rewrite <- (popped_pushed _ _ _ Hr).
  trans (set_locks (locks s) (popped i {| c with c_ncli := c_ncli c + 1;
       c_intena := if c_ncli c =? 0 then eflags_IF s else c_intena c |} (pushed i c s)));
    [done |].
  rewrite popped_pushed by done. etrans; [| apply set_locks_id]. f_equal.
  destruct (cli_touch_eq s) as (cs & -> & _). done.
Qed.

Lemma cli_touch_runs s i c :
  runs_on s i c ->
  runs_on (cli_touch s) i
    (if c_ncli c =? 0 then {| c with c_intena := eflags_IF s |} else c).
Proof.
  intros Hr. pose proof Hr as [Hc Hn HIF]. unfold cli_touch. rewrite Hc.
  destruct (Z.eqb_spec (c_ncli c) 0); [| done].
  split; [| done | simpl; lia].
  exact (cur_cpu_insert s i c {| c with c_intena := eflags_IF s |} Hc eq_refl).
Qed.

Lemma cli_touch_lock_free s l : lock_free s l -> lock_free (cli_touch s) l.
Proof. unfold lock_free. destruct (cli_touch_eq s) as (cs & -> & _). done. Qed.

Lemma cli_touch_idem s i c : runs_on s i c -> cli_touch (cli_touch s) = cli_touch s.
Proof.
  intros [Hc Hn HIF].
  destruct (Z.eqb_spec (c_ncli c) 0) as [E | E].
  2: { by rewrite !(cli_touch_nested s i c Hc E). }
  assert (Ht : cli_touch s = set_cpus (<[i := {| c with c_intena := eflags_IF s |}]> (cpus s)) s)
    by (unfold cli_touch; by rewrite Hc, E).
  rewrite Ht at 1. unfold cli_touch at 1.
  replace (cur_cpu _) with (Some (i, {| c with c_intena := eflags_IF s |}))
    by (symmetry; exact (cur_cpu_insert s i c {| c with c_intena := eflags_IF s |} Hc eq_refl)).
  simpl. rewrite E. simpl. rewrite list_insert_insert_eq, Ht, E. reflexivity.
Qed.

(** ** Mutual exclusion on a multiprocessor

    Several processors share the kernel state; each has its own APIC id and
    interrupt flag.  A processor executes one lock operation at a time, and an
    operation that spins is simply not a step. *)

Module Smp.

Record core := mkCore { co_apicid : Z; co_IF : bool }.
Record machine := mkMachine { shared : kstate; cores : nat -> core }.

(** The shared state as the code on processor [i] sees it. *)
Definition view (m : machine) (i : nat) : kstate :=
  set_lapic_id (co_apicid (cores m i)) (set_eflags_IF (co_IF (cores m i)) (shared m)).

Definition commit (m : machine) (i : nat) (s : kstate) : machine :=
  mkMachine s (fupd (cores m) i (mkCore (co_apicid (cores m i)) (eflags_IF s))).

(** Start of the race: no lock is held, no processor has interrupts pushed,
    and APIC ids identify processors. *)
Record boot (m : machine) : Prop := {
  boot_locks : forall l, lk_locked (locks (shared m) l) = 0;
  boot_cpus : forall i c, cpus (shared m) !! i = Some c ->
    c_ncli c = 0 /\ c_apicid c = co_apicid (cores m i);
  boot_ncpu : ncpu (shared m) = length (cpus (shared m));
  boot_ids : NoDup (c_apicid <$> cpus (shared m)) }.

(** Machines reachable from [m0] by lock operations, with the locks each
    processor has acquired and not yet released. *)
Inductive reach (m0 : machine) : machine -> (nat -> list lockid) -> Prop :=
| reach_boot : reach m0 m0 (fun _ => [])
| reach_acquire m h i l s :
    reach m0 m h -> (i < ncpu (shared m0))%nat -> acquire l (view m i) = Ok tt s ->
    reach m0 (commit m i s) (fupd h i (l :: h i))
| reach_release m h i l s :
    reach m0 m h -> (i < ncpu (shared m0))%nat -> release l (view m i) = Ok tt s ->
    reach m0 (commit m i s) (fupd h i (filter (fun l' => l' <> l) (h i))).

Record inv (m0 m : machine) (h : nat -> list lockid) : Prop := {
  inv_ncpu : ncpu (shared m) = ncpu (shared m0);
  inv_ids : c_apicid <$> cpus (shared m) = c_apicid <$> cpus (shared m0);
  inv_core : forall i, co_apicid (cores m i) = co_apicid (cores m0 i);
  inv_ncli : forall i c, cpus (shared m) !! i = Some c -> c_ncli c = Z.of_nat (length (h i));
  inv_IF : forall i c, cpus (shared m) !! i = Some c ->
    if decide (h i = []) then co_IF (cores m i) = co_IF (cores m0 i)
    else co_IF (cores m i) = false /\ c_intena c = co_IF (cores m0 i);
  inv_nodup : forall i, NoDup (h i);
  inv_holder : forall l i,
    l ∈ h i <-> lk_locked (locks (shared m) l) <> 0 /\ lk_cpu (locks (shared m) l) = Some i }.

Lemma cur_cpu_unique s i c :
  NoDup (c_apicid <$> cpus s) -> ncpu s = length (cpus s) ->
  cpus s !! i = Some c -> c_apicid c = lapic_id s -> cur_cpu s = Some (i, c).
Proof.
  intros Hnd Hn Hl Hid. unfold cur_cpu. rewrite Hn, firstn_all.
  apply list_find_Some. split_and!; [done | done |].
  intros j y Hj Hlt Hy. enough (j = i) by lia.
  eapply (NoDup_lookup _ j i (lapic_id s)); [done | |]; rewrite list_lookup_fmap.
  - by rewrite Hj; simpl; f_equal.
  - by rewrite Hl; simpl; f_equal.
Qed.

Lemma inv_boot m0 : boot m0 -> inv m0 m0 (fun _ => []).
Proof.
  intros []. split; try done.
  - intros i c Hc. by apply boot_cpus0 in Hc as [? _].
  - intros. apply NoDup_nil_2.
  - intros l i. split; [intros []%not_elem_of_nil | intros []]. by rewrite boot_locks0 in *.
Qed.

Section Step.
Context (m0 m : machine) (h : nat -> list lockid).
Context (Hboot : boot m0) (Hinv : inv m0 m h).

(** A processor of the machine runs kernel code in the sense of [runs_on]. *)
Lemma view_runs i :
  (i < ncpu (shared m0))%nat ->
  exists c, cpus (shared m) !! i = Some c /\ runs_on (view m i) i c.
Proof.
  intros Hi. destruct Hboot, Hinv.
  assert (Hlen : length (cpus (shared m)) = length (cpus (shared m0)))
    by (by rewrite <- !(length_fmap c_apicid), inv_ids0).
  destruct (lookup_lt_is_Some_2 (cpus (shared m)) i) as [c Hc]; [lia |].
  destruct (lookup_lt_is_Some_2 (cpus (shared m0)) i) as [c0 Hc0]; [lia |].
  exists c. split; [done |]. split.
  - apply cur_cpu_unique; simpl; [by rewrite inv_ids0 | lia | done |].
    rewrite inv_core0. apply boot_cpus0 in Hc0 as Hc0'. destruct Hc0' as [_ <-].
    enough (Some (c_apicid c) = Some (c_apicid c0)) by congruence.
    change (c_apicid <$> Some c = c_apicid <$> Some c0).
    by rewrite <- Hc, <- Hc0, <- !list_lookup_fmap, inv_ids0.
  - rewrite (inv_ncli0 i c Hc). lia.
  - intros Hpos. specialize (inv_IF0 i c Hc). rewrite (inv_ncli0 i c Hc) in Hpos.
    case_decide; [by simplify_eq/=; rewrite H in Hpos | by destruct inv_IF0].
Qed.

Lemma inv_acquire i l s :
  (i < ncpu (shared m0))%nat -> acquire l (view m i) = Ok tt s ->
  inv m0 (commit m i s) (fupd h i (l :: h i)).
Proof.
  intros Hi Hacq. destruct (view_runs i Hi) as (c & Hc & Hr).
  assert (Hfree : lk_locked (locks (view m i) l) = 0).
  { destruct (decide (lk_locked (locks (view m i) l) = 0)) as [| Hn]; [done |].
    destruct (decide (lk_cpu (locks (view m i) l) = Some i)) as [Hs | Hs].
    - destruct (acquire_held_self _ _ _ _ Hr Hn Hs) as [? ?]. congruence.
    - destruct (acquire_held_other _ _ _ _ Hr Hn Hs) as (? & ? & _). congruence. }
  rewrite (acquire_ok _ _ _ _ Hr Hfree) in Hacq. injection Hacq as <-.
  assert (Hnl : forall j, l ∉ h j).
  { intros j Hj. by apply (inv_holder _ _ _ Hinv) in Hj as [? _]. }
  destruct Hinv. split; simpl.
  - done.
  - rewrite list_fmap_insert. simpl. rewrite list_insert_id; [done |].
    by rewrite list_lookup_fmap, Hc.
  - intros j. unfold fupd. case_decide; subst; apply inv_core0.
  - intros j cj. rewrite list_lookup_insert. unfold fupd.
    case_decide as Hd; [destruct Hd as [-> _] |]; intros Hj; simplify_eq/=.
    + rewrite decide_True by done. simpl. rewrite (inv_ncli0 j c Hc). lia.
    + rewrite decide_False; [by apply inv_ncli0 |]. intros ->. apply Hd.
      split; [done | by eapply lookup_lt_Some].
  - intros j cj. rewrite list_lookup_insert. unfold fupd.
    case_decide as Hd; [destruct Hd as [-> _] |]; intros Hj; simplify_eq/=.
    + rewrite !(decide_True (P := j = j)) by done. simpl. split; [done |].
      specialize (inv_IF0 j c Hc). rewrite (inv_ncli0 j c Hc).
      case_decide as He; [by rewrite He | destruct inv_IF0 as [_ <-]].
      by destruct (h j).
    + assert (j <> i) by (intros ->; apply Hd; split; [done | by eapply lookup_lt_Some]).
      rewrite !(decide_False (P := j = i)) by done. by apply inv_IF0.
  - intros j. unfold fupd. case_decide; [subst | done]. by apply NoDup_cons.
  - intros l' j. unfold fupd.
    destruct (decide (l' = l)) as [-> | Hl]; simpl.
    + split; [| by intros [_ [= ->]]; rewrite decide_True by done; left].
      case_decide; [by subst | intros Hj; by apply Hnl in Hj].
    + rewrite <- inv_holder0. case_decide; [subst | done].
    rewrite elem_of_cons. naive_solver.
Qed.

Lemma inv_release i l s :
  (i < ncpu (shared m0))%nat -> release l (view m i) = Ok tt s ->
  inv m0 (commit m i s) (fupd h i (filter (fun l' => l' <> l) (h i))).
Proof.
  intros Hi Hrel. destruct (view_runs i Hi) as (c & Hc & Hr).
  assert (Hheld : lk_locked (locks (shared m) l) <> 0 /\ lk_cpu (locks (shared m) l) = Some i).
  { destruct (decide (lk_locked (locks (shared m) l) = 0 \/ lk_cpu (locks (shared m) l) <> Some i))
      as [Hn | Hn].
    - destruct (release_not_held (view m i) _ _ l Hr Hn). congruence.
    - split; [naive_solver |]. destruct (decide (lk_cpu (locks (shared m) l) = Some i)); naive_solver. }
  assert (Hin : l ∈ h i) by (by apply (inv_holder _ _ _ Hinv)).
  assert (Hlen : (length (h i) = S (length (filter (fun l' => l' <> l) (h i))))%nat).
  { apply filter_out_length; [done | apply (inv_nodup _ _ _ Hinv)]. }
  pose proof (inv_ncli _ _ _ Hinv i c Hc) as Hncli.
  erewrite release_ok in Hrel; [| exact Hr | lia | apply Hheld | apply Hheld].
  injection Hrel as <-. destruct Hinv. split; simpl.
  - done.
  - rewrite list_fmap_insert. simpl. rewrite list_insert_id; [done |].
    by rewrite list_lookup_fmap, Hc.
  - intros j. unfold fupd. case_decide; subst; apply inv_core0.
  - intros j cj. rewrite list_lookup_insert. unfold fupd.
    case_decide as Hd; [destruct Hd as [-> _] |]; intros Hj; simplify_eq/=.
    + rewrite decide_True by done. lia.
    + rewrite decide_False; [by apply inv_ncli0 |]. intros ->. apply Hd.
      split; [done | by eapply lookup_lt_Some].
  - intros j cj. rewrite list_lookup_insert. unfold fupd.
    case_decide as Hd; [destruct Hd as [-> _] |]; intros Hj; simplify_eq/=.
    + rewrite !(decide_True (P := j = j)) by done. simpl.
      specialize (inv_IF0 j c Hc). rewrite decide_False in inv_IF0 by (by destruct (h j)).
      destruct inv_IF0 as [HIF Hint]. rewrite Hint.
      destruct (filter _ (h j)) eqn:E; simpl in Hlen; case_decide; try done.
      * by replace (c_ncli c =? 1) with true by lia.
      * by replace (c_ncli c =? 1) with false by lia.
    + assert (j <> i) by (intros ->; apply Hd; split; [done | by eapply lookup_lt_Some]).
      rewrite !(decide_False (P := j = i)) by done. by apply inv_IF0.
  - intros j. unfold fupd. case_decide; [subst | done]. by apply NoDup_filter.
  - intros l' j. unfold fupd. destruct (decide (l' = l)) as [-> | Hl]; simpl.
    + split; [| by intros []]. case_decide; [by intros [? _]%list_elem_of_filter |].
      intros Hj. apply inv_holder0 in Hj as [_ ?]. naive_solver.
    + rewrite <- inv_holder0. case_decide; [subst | done].
      rewrite list_elem_of_filter. naive_solver.
Qed.
End Step.

Lemma reach_inv m0 m h : boot m0 -> reach m0 m h -> inv m0 m h.
Proof.
  intros Hb. induction 1; [by apply inv_boot | by eapply inv_acquire | by eapply inv_release].
Qed.

(** A free lock can be taken by any processor, and a held one given back by its holder. *)
Lemma can_acquire m0 m h i l :
  boot m0 -> reach m0 m h -> (i < ncpu (shared m0))%nat -> lk_locked (locks (shared m) l) = 0 ->
  exists m', reach m0 m' (fupd h i (l :: h i)).
Proof.
  intros Hb Hre Hi Hl. destruct (view_runs m0 m h Hb (reach_inv _ _ _ Hb Hre) i Hi) as (c & Hc & Hr).
  eexists. eapply reach_acquire; [done | done |]. by apply (acquire_ok (view m i) i c).
Qed.

Lemma can_release m0 m h i l :
  boot m0 -> reach m0 m h -> (i < ncpu (shared m0))%nat -> l ∈ h i ->
  exists m', reach m0 m' (fupd h i (filter (fun l' => l' <> l) (h i))) /\
             lk_locked (locks (shared m') l) = 0.
Proof.
  intros Hb Hre Hi Hl. pose proof (reach_inv _ _ _ Hb Hre) as Hinv.
  destruct (view_runs m0 m h Hb Hinv i Hi) as (c & Hc & Hr).
  pose proof (inv_ncli _ _ _ Hinv i c Hc) as Hn.
  assert (1 <= c_ncli c) by (destruct (h i); [by apply not_elem_of_nil in Hl | simpl in Hn; lia]).
  apply (inv_holder _ _ _ Hinv) in Hl as [Hl Hcpu].
  eexists. split.
  - eapply reach_release; [done | done |]. by apply (release_ok (view m i) i c).
  - simpl. by rewrite fupd_eq.
Qed.


(** Two processors: the second takes [ptable.lock] after the first released it. *)
Definition idle_cpu (id : Z) : cpu := mkCpu id (mkTaskstate 0 0 0) [] 1 0 false None.
Definition two_cpus : machine :=
  mkMachine (set_ncpu 2%nat (set_cpus [idle_cpu 0; idle_cpu 4] kstate0))
    (fun i => mkCore (if decide (i = 0%nat) then 0 else 4) true).

Lemma two_cpus_boot : boot two_cpus.
Proof.
  split; [done | | done |].
  - intros i c Hc. destruct i as [| [| i]]; by simplify_eq/=.
  - apply NoDup_cons. split; [by intros ?%list_elem_of_singleton | apply NoDup_singleton].
Qed.

Lemma two_cpus_run :
  exists m h, reach two_cpus m h /\ h 1%nat = [LkPtable].
Proof.
  destruct (can_acquire _ _ _ 0 LkPtable two_cpus_boot (reach_boot _)) as [m1 H1];
    [simpl; lia | done |].
  destruct (can_release _ _ _ 0 LkPtable two_cpus_boot H1) as (m2 & H2 & Hfree);
    [simpl; lia | by left |].
  destruct (can_acquire _ _ _ 1 LkPtable two_cpus_boot H2) as [m3 H3]; [simpl; lia | done |].
  by eexists _, _.
Qed.


End Smp.
