(* ===== verification/Kalloc.v ===== *)
(** [kalloc.c]: the physical page allocator, a list threaded through the free
    pages, and its refinement of a pool of pages. *)

From S2P Require Import Prelude Params Mem Machine Spinlock.

(** ** Operations *)

Definition kfree (v : Z) : M unit :=
  e <- gets sym_end ;;
  if (negb (v mod PGSIZE =? 0) || (v <? e) || (PHYSTOP <=? V2P v))%bool then panic "kfree"
  else
    modify (fun s => set_mem (memset (mem s) v 1 PGSIZE) s) ;;
    ul <- gets kmem_use_lock ;;
    when ul (acquire LkKmem) ;;
    modify (fun s => set_mem (st32 (mem s) v (kmem_freelist s)) s) ;;
    modify (set_kmem_freelist v) ;;
    ul <- gets kmem_use_lock ;;
    when ul (release LkKmem).

Definition kalloc : M Z :=
  ul <- gets kmem_use_lock ;;
  when ul (acquire LkKmem) ;;
  r <- gets kmem_freelist ;;
  when (negb (r =? 0)) (modify (fun s => set_kmem_freelist (ld32 (mem s) r) s)) ;;
  ul <- gets kmem_use_lock ;;
  when ul (release LkKmem) ;;
  ret r.

Fixpoint freerange_loop (fuel : nat) (p vend : Z) : M unit :=
  match fuel with
  | O => stop_with OutOfFuel
  | S fuel' =>
      if p + PGSIZE <=? vend then kfree p ;; freerange_loop fuel' (p + PGSIZE) vend
      else ret tt
  end.
(** The loop advances by a page and [vend] bounds it, so [vend / PGSIZE + 1]
    tests are enough. *)
Definition freerange (vstart vend : Z) : M unit :=
  freerange_loop (S (Z.to_nat (vend / PGSIZE))) (PGROUNDUP vstart) vend.

Definition kinit1 (vstart vend : Z) : M unit :=
  initlock LkKmem "kmem" ;;
  modify (set_kmem_use_lock false) ;;
  freerange vstart vend.

Definition kinit2 (vstart vend : Z) : M unit :=
  freerange vstart vend ;;
  modify (set_kmem_use_lock true).

(** ** Each call on its branches *)

(** The allocator's lock can be taken, if it is in use. *)
Definition kmem_ready (s : kstate) : Prop :=
  kmem_use_lock s = true -> (exists i c, runs_on s i c) /\ lock_free s LkKmem.

(** What taking and releasing the allocator's lock leaves behind. *)
Definition ktouch (s : kstate) : kstate := if kmem_use_lock s then cli_touch s else s.

(** The pages [kfree] accepts. *)
Definition kpage (s : kstate) (v : Z) : Prop :=
  v mod PGSIZE = 0 /\ sym_end s <= v /\ V2P v < PHYSTOP.

Definition kfreed (v : Z) (s : kstate) : kstate :=
  set_kmem_freelist v (set_mem (st32 (memset (mem s) v 1 PGSIZE) v (kmem_freelist s)) s).

Definition kalloced (s : kstate) : kstate :=
  if kmem_freelist s =? 0 then s else set_kmem_freelist (ld32 (mem s) (kmem_freelist s)) s.

Lemma kfree_ok s v : kpage s v -> kmem_ready s -> kfree v s = Ok tt (kfreed v (ktouch s)).
Proof.
  intros (Ha & He & Hp) Hk. unfold kfree. autorewrite with run.
  rewrite Ha, (proj2 (Z.ltb_ge _ _)), (proj2 (Z.leb_gt _ _)) by lia. simpl.
  autorewrite with run. unfold ktouch. simpl. destruct (kmem_use_lock s) eqn:Hul; simpl.
  - destruct (Hk Hul) as [(i & c & Hr) Hf].
    set (s1 := set_mem (memset (mem s) v 1 PGSIZE) s).
    assert (Hr1 : runs_on s1 i c) by (by apply (cf_runs_on (set_mem _))).
    step by (apply (acquire_ok s1 i c LkKmem); [done | apply Hf]).
    autorewrite with run. simpl. rewrite Hul.
    etrans; [apply (release_after (fun s => set_kmem_freelist v
      (set_mem (st32 (mem s1) v (kmem_freelist s1)) s)) s1 i c LkKmem Hr1 Hf) |].
    unfold s1. rewrite (cf_cli_touch (set_mem _)).
    destruct (cli_touch_eq s) as (cs & -> & _). reflexivity.
  - autorewrite with run. simpl. rewrite Hul. simpl. reflexivity.
Qed.

Lemma kfree_panics s v : ~ kpage s v -> kfree v s = Stop (Panicked "kfree") s.
Proof.
  intros Hn. unfold kfree. autorewrite with run.
  destruct (_ || _)%bool eqn:E; [done |]. bool_to_prop. by destruct Hn.
Qed.

Lemma kalloc_ok s : kmem_ready s -> kalloc s = Ok (kmem_freelist s) (kalloced (ktouch s)).
Proof.
  intros Hk. unfold kalloc, ktouch, kalloced. autorewrite with run.
  destruct (kmem_use_lock s) eqn:Hul; simpl.
  - destruct (Hk Hul) as [(i & c & Hr) Hf].
    step by (apply (acquire_ok s i c LkKmem); [done | apply Hf]).
    autorewrite with run. simpl. destruct (cli_touch_eq s) as (cs & Ht & _).
    destruct (Z.eqb_spec (kmem_freelist s) 0) as [E | E]; simpl; autorewrite with run; simpl;
      rewrite Hul, Ht; simpl; rewrite ?E.
    + step by (apply (release_after (fun s => s) s i c LkKmem Hr Hf)). by rewrite Ht.
    + rewrite (proj2 (Z.eqb_neq _ _)) by done.
      step by (apply (release_after (set_kmem_freelist (ld32 (mem s) (kmem_freelist s)))
                       s i c LkKmem Hr Hf)). by rewrite Ht.
  - autorewrite with run. destruct (Z.eqb_spec (kmem_freelist s) 0); simpl;
      autorewrite with run; simpl; by rewrite Hul.
Qed.

(** ** The free list as a set of pages *)

(** [chain m a l]: following the links from [a] meets exactly the pages [l]. *)
Fixpoint chain (m : memory) (a : Z) (l : list Z) : Prop :=
  match l with
  | [] => a = 0
  | x :: l' => a = x /\ chain m (ld32 m x) l'
  end.

Record free_pages (s : kstate) (l : list Z) : Prop := {
  fp_chain : chain (mem s) (kmem_freelist s) l;
  fp_pages : Forall (fun v => kpage s v /\ is_u32 v) l;
  fp_nodup : NoDup l;
  fp_ready : kmem_ready s;
  fp_end : KERNBASE <= sym_end s }.

Lemma chain_ext m m' a l :
  (forall x, x ∈ l -> ld32 m x = ld32 m' x) -> chain m a l -> chain m' a l.
Proof.
  revert a. induction l as [| x l IH]; simpl; intros a Hm; [done |]. intros [-> H].
  split; [done |]. rewrite <- Hm by (by left). apply IH; [| done].
  intros y Hy. apply Hm. by right.
Qed.

(** Distinct page addresses are at least a page apart. *)
Lemma pages_apart a b :
  a mod PGSIZE = 0 -> b mod PGSIZE = 0 -> a <> b -> a + PGSIZE <= b \/ b + PGSIZE <= a.
Proof.
  unfold PGSIZE. intros Ha Hb Hne.
  pose proof (Z.div_mod a 4096). pose proof (Z.div_mod b 4096). lia.
Qed.

Lemma kfreed_mem_ne v s x :
  x < v \/ v + PGSIZE <= x -> mem (kfreed v s) x = mem s x.
Proof.
  intros Hx. simpl. unfold PGSIZE in *. rewrite st32_ne by lia.
  rewrite memset_spec by lia.
  by destruct (Z.leb_spec v x), (Z.ltb_spec x (v + 4096)); simpl; try lia.
Qed.

Lemma ktouch_eq s : exists cs, ktouch s = set_cpus cs s.
Proof.
  unfold ktouch. destruct (kmem_use_lock s); [| by exists (cpus s); rewrite set_cpus_id].
  destruct (cli_touch_eq s) as (cs & -> & _). by exists cs.
Qed.

Lemma ktouch_ready s : kmem_ready s -> kmem_ready (ktouch s).
Proof.
  unfold kmem_ready, ktouch. intros Hk. destruct (kmem_use_lock s) eqn:E; [| by rewrite E].
  intros _. destruct (Hk eq_refl) as [(i & c & Hr) Hf]. split; [| by apply cli_touch_lock_free].
  exists i. eexists. by apply cli_touch_runs.
Qed.

(** Updates of memory and free list keep the lock usable. *)
Lemma kmem_ready_frame U `{!CpuFrame U} s :
  kmem_use_lock (U s) = kmem_use_lock s -> kmem_ready s -> kmem_ready (U s).
Proof.
  intros Hul Hk. unfold kmem_ready. rewrite Hul. intros E.
  destruct (Hk E) as [(i & c & Hr) Hf]. split; [| by apply cf_lock_free].
  exists i, c. by apply cf_runs_on.
Qed.

(** [kalloc] on a non-empty list hands out its first page; on an empty one it returns 0. *)
Lemma kalloc_refines s l :
  free_pages s l ->
  match l with
  | [] => kalloc s = Ok 0 (ktouch s) /\ free_pages (ktouch s) []
  | x :: l' => exists s', kalloc s = Ok x s' /\ free_pages s' l' /\ x <> 0 /\ mem s' = mem s
  end.
Proof.
  intros [Hc Hp Hn Hk He]. rewrite (kalloc_ok s Hk).
  pose proof (ktouch_ready s Hk) as Hk'. destruct (ktouch_eq s) as (cs & Ht).
  destruct l as [| x l]; simpl in Hc.
  - rewrite Hc. split.
    + f_equal. unfold kalloced. rewrite Ht. simpl. by rewrite Hc.
    + split; rewrite ?Ht; try done. by rewrite <- Ht.
  - destruct Hc as [Hx Hc]. inversion Hp as [| ? ? [[Ha [Hge Hlt]] Hu] Hp']; subst.
    inversion Hn; subst. assert (kmem_freelist s <> 0) by (unfold KERNBASE in *; lia).
    assert (Hka : kalloced (ktouch s) =
      set_kmem_freelist (ld32 (mem s) (kmem_freelist s)) (ktouch s)).
    { unfold kalloced. rewrite Ht. simpl. by rewrite (proj2 (Z.eqb_neq _ _)). }
    rewrite Hka. eexists. split_and!; [done | | done | by rewrite Ht].
    split; simpl; rewrite ?Ht; try done.
    apply (kmem_ready_frame (set_kmem_freelist _)); [done | by rewrite <- Ht].
Qed.

(** [kfree] of a page that is not free puts it on the list and touches no other page. *)
Lemma kfree_refines s l v :
  free_pages s l -> kpage s v -> is_u32 v -> v ∉ l ->
  exists s', kfree v s = Ok tt s' /\ free_pages s' (v :: l) /\
    (forall x, x < v \/ v + PGSIZE <= x -> mem s' x = mem s x).
Proof.
  intros [Hc Hp Hn Hk He] Hv Hu Hnin. rewrite (kfree_ok s v Hv Hk).
  pose proof (ktouch_ready s Hk) as Hk'. destruct (ktouch_eq s) as (cs & Ht).
  eexists. split_and!; [done | |].
  2: { intros x Hx. rewrite kfreed_mem_ne by done. by rewrite Ht. }
  split; [| | by apply NoDup_cons | | by rewrite Ht].
  - split; [done |]. simpl. rewrite ld32_st32, Ht. simpl.
    rewrite u32_small.
    2: { destruct l as [| y l]; simpl in Hc; [by rewrite Hc |].
         destruct Hc as [-> _]. inversion Hp; naive_solver. }
    eapply chain_ext; [| done]. intros x Hx. rewrite Forall_forall in Hp.
    destruct (Hp x Hx) as [(Ha & _ & _) _]. destruct Hv as (Hva & _ & _).
    destruct (pages_apart x v) as [? | ?]; [done | done | by intros -> | |];
      unfold PGSIZE in *; rewrite ld32_st32_ne by lia; apply ld32_ext; intros i Hi;
      rewrite memset_spec by lia;
      destruct (Z.leb_spec v (x + i)), (Z.ltb_spec (x + i) (v + 4096)); simpl; try lia; done.
  - constructor; [split; [| done] |]; unfold kpage in *; simpl; by rewrite Ht.
  - apply (kmem_ready_frame (fun s => set_kmem_freelist v (set_mem _ s))); [done | done].
Qed.

(** ** Building the pool *)

Definition pages (p : Z) (n : nat) : list Z := (fun i => p + PGSIZE * Z.of_nat i) <$> seq 0 n.

Lemma pages_S p n : pages p (S n) = p :: pages (p + PGSIZE) n.
Proof.
  unfold pages. simpl. f_equal; [lia |]. rewrite <- fmap_S_seq, <- list_fmap_compose.
  apply list_fmap_ext. intros i x _. simpl. lia.
Qed.

Lemma elem_of_pages p n x :
  x ∈ pages p n <-> exists i, (i < n)%nat /\ x = p + PGSIZE * Z.of_nat i.
Proof.
  unfold pages. rewrite list_elem_of_fmap. setoid_rewrite elem_of_seq.
  split; intros (i & ? & ?); exists i; split; try done; lia.
Qed.

(** One page fewer is left after each iteration. *)
Lemma pages_left p vend :
  p + PGSIZE <= vend ->
  Z.to_nat ((vend - p) / PGSIZE) = S (Z.to_nat ((vend - (p + PGSIZE)) / PGSIZE)).
Proof.
  unfold PGSIZE. intros H. replace (vend - p) with (vend - (p + 4096) + 1 * 4096) by lia.
  rewrite Z.div_add by lia.
  assert (0 <= (vend - (p + 4096)) / 4096) by (apply Z.div_pos; lia). lia.
Qed.

(** The state the allocator leaves alone, apart from memory and its own fields. *)
Definition same_kernel (s s' : kstate) : Prop :=
  exists m f, s' = set_kmem_freelist f (set_mem m s).

Lemma same_kernel_refl s : same_kernel s s.
Proof. exists (mem s), (kmem_freelist s). by destruct s. Qed.

Lemma same_kernel_trans s1 s2 s3 : same_kernel s1 s2 -> same_kernel s2 s3 -> same_kernel s1 s3.
Proof. intros (m & f & ->) (m' & f' & ->). by exists m', f'. Qed.

Lemma freerange_loop_ok fuel p vend s l :
  kmem_use_lock s = false -> free_pages s l ->
  p mod PGSIZE = 0 -> sym_end s <= p -> vend <= KERNBASE + PHYSTOP ->
  (forall x, x ∈ l -> x < p \/ vend <= x) ->
  (Z.to_nat ((vend - p) / PGSIZE) < fuel)%nat ->
  exists s' l', freerange_loop fuel p vend s = Ok tt s' /\ free_pages s' l' /\
    l' ≡ₚ pages p (Z.to_nat ((vend - p) / PGSIZE)) ++ l /\ same_kernel s s'.
Proof.
  revert p s l. induction fuel as [| fuel IH]; intros p s l Hul Hf Hal Hp Hv Hl Hfuel; [lia |].
  cbn [freerange_loop]. pose proof (fp_end _ _ Hf) as He.
  destruct (Z.leb_spec (p + PGSIZE) vend) as [Hle | Hgt].
  - assert (Hkp : kpage s p).
    { split_and!; [done | done |]. unfold V2P, KERNBASE, PGSIZE, PHYSTOP in *.
      rewrite u32_small; unfold is_u32; lia. }
    assert (Hu : is_u32 p) by (unfold is_u32, KERNBASE, PGSIZE, PHYSTOP in *; lia).
    assert (Hnin : p ∉ l) by (intros ?%Hl; unfold PGSIZE in *; lia).
    pose proof (kfree_ok s p Hkp (fp_ready _ _ Hf)) as Hok.
    destruct (kfree_refines s l p Hf Hkp Hu Hnin) as (s1 & Hr & Hf1 & _).
    assert (same_kernel s s1) as Hs1.
    { rewrite Hr in Hok. injection Hok as ->. unfold ktouch. rewrite Hul. by eexists _, _. }
    destruct (IH (p + PGSIZE) s1 (p :: l)) as (s' & l' & Hr' & Hf' & Hl' & Hs'); try done.
    + by destruct Hs1 as (m & f & ->).
    + rewrite <- Zplus_mod_idemp_r, Z_mod_same_full, Z.add_0_r. done.
    + destruct Hs1 as (m & f & ->). simpl. unfold PGSIZE. lia.
    + intros x [-> | Hx]%elem_of_cons; unfold PGSIZE in *; [lia |]. apply Hl in Hx. lia.
    + rewrite pages_left in Hfuel by done. lia.
    + exists s', l'. split_and!; [by step by (exact Hr) | done | | by eapply same_kernel_trans].
      rewrite Hl', (pages_left p vend), pages_S by done. simpl. by rewrite Permutation_middle.
  - exists s, l. split_and!; [done | done | | apply same_kernel_refl].
    assert ((vend - p) / PGSIZE < 1) by (apply Z.div_lt_upper_bound; unfold PGSIZE in *; lia).
    by replace (Z.to_nat ((vend - p) / PGSIZE)) with 0%nat by lia.
Qed.

(** C16: start-up fills the allocator. [kinit1] over the range from [end] to [vmid] and
    [kinit2] over the rest, as [main] calls them on a state with no free page, return
    with a free list that holds every page of both ranges exactly once, and change
    nothing but memory and the allocator's own data. *)
Theorem kinit_pool s vmid vend :
  KERNBASE <= sym_end s -> kmem_freelist s = 0 ->
  vmid mod PGSIZE = 0 -> sym_end s + PGSIZE <= vmid -> vmid <= vend -> vend <= KERNBASE + PHYSTOP ->
  exists s' l,
    (kinit1 (sym_end s) vmid ;; kinit2 vmid vend) s = Ok tt (set_kmem_use_lock true s') /\
    l ≡ₚ pages (PGROUNDUP (sym_end s)) (Z.to_nat ((vmid - PGROUNDUP (sym_end s)) / PGSIZE)) ++
         pages vmid (Z.to_nat ((vend - vmid) / PGSIZE)) /\
    free_pages s' l /\ same_kernel
      (set_kmem_use_lock false (set_locks (fupd (locks s) LkKmem (mkSpinlock 0 "kmem" None)) s)) s'.
Proof.
  intros He Hfl Hmid Hlo Hhi Hv. unfold kinit1, kinit2, initlock. autorewrite with run.
  set (s0 := set_kmem_use_lock false _).
  assert (Hup : PGROUNDUP (sym_end s) = 4096 * ((sym_end s + 4095) / 4096)).
  { apply PGROUNDUP_eq; unfold KERNBASE, PHYSTOP, PGSIZE in *; lia. }
  assert (Hupr : sym_end s <= PGROUNDUP (sym_end s) <= vmid).
  { unfold PGSIZE in *. pose proof (Z.div_mod vmid 4096 ltac:(lia)). rewrite Hup.
    Z.to_euclidean_division_equations. lia. }
  assert (Hup0 : PGROUNDUP (sym_end s) mod PGSIZE = 0).
  { rewrite Hup, Z.mul_comm. apply Z_mod_mult. }
  assert (Hf0 : free_pages s0 []).
  { split; [done | constructor | constructor | by intros ? | done]. }
  assert (Hpg : forall a b, 0 <= a <= b -> (b - a) / PGSIZE <= b / PGSIZE).
  { intros a b Hab. apply Z.div_le_mono; unfold PGSIZE; lia. }
  unfold KERNBASE, PHYSTOP in *.
  destruct (freerange_loop_ok (S (Z.to_nat (vmid / PGSIZE))) (PGROUNDUP (sym_end s)) vmid s0 [])
    as (s1 & l1 & Hr1 & Hf1 & Hl1 & Hs1); try done; unfold KERNBASE, PHYSTOP; try lia.
  { apply Hupr. }
  { by intros x ?%not_elem_of_nil. }
  { specialize (Hpg (PGROUNDUP (sym_end s)) vmid). lia. }
  step by (exact Hr1). destruct Hs1 as (m1 & f1 & Hs1).
  destruct (freerange_loop_ok (S (Z.to_nat (vend / PGSIZE))) vmid vend s1 l1)
    as (s2 & l2 & Hr2 & Hf2 & Hl2 & Hs2); try done; try (by rewrite Hs1);
    unfold KERNBASE, PHYSTOP; try lia.
  { rewrite Hs1. simpl. lia. }
  { intros x Hx. rewrite Hl1, app_nil_r in Hx. apply elem_of_pages in Hx as (i & Hi & ->). left.
    unfold PGSIZE in *. pose proof (Z.div_mod (vmid - PGROUNDUP (sym_end s)) 4096 ltac:(lia)).
    pose proof (Z.mod_pos_bound (vmid - PGROUNDUP (sym_end s)) 4096). lia. }
  { specialize (Hpg vmid vend). lia. }
  assert (PGROUNDUP vmid = vmid) as Hvm.
  { rewrite PGROUNDUP_eq by lia. unfold PGSIZE in *. pose proof (Z.div_mod vmid 4096 ltac:(lia)).
    Z.to_euclidean_division_equations. lia. }
  unfold freerange. rewrite Hvm. step by (exact Hr2).
  exists s2, l2. split_and!; [done | | done | eapply same_kernel_trans; [by eexists _, _ | done]].
  rewrite Hl2, Hl1, app_nil_r. apply Permutation_app_comm.
Qed.

Lemma kinit_pool_witness :
  exists s' l,
    (kinit1 0x80110000 0x80112000 ;; kinit2 0x80112000 0x80114000) (set_sym_end 0x80110000 kstate0)
      = Ok tt (set_kmem_use_lock true s') /\
    l ≡ₚ [0x80110000; 0x80111000; 0x80112000; 0x80113000] /\ free_pages s' l.
Proof.
  destruct (kinit_pool (set_sym_end 0x80110000 kstate0) 0x80112000 0x80114000)
    as (s' & l & Hrun & Hl & Hf & _); [by vm_compute ..|].
  exists s', l. split_and!; [exact Hrun | exact Hl | exact Hf].
Defined.

(** ** Clients of the allocator *)

Module Pool.

(** What callers of the allocator do: allocate, free a page they own, and write
    anywhere inside the pages they own.  [run s0 s o] reaches [s] from [s0] with
    the caller owning the pages [o]. *)
Inductive run (s0 : kstate) : kstate -> list Z -> Prop :=
| run_init : run s0 s0 []
| run_alloc s o a s' :
    run s0 s o -> kalloc s = Ok a s' -> run s0 s' (if a =? 0 then o else a :: o)
| run_free s o v s' :
    run s0 s o -> v ∈ o -> kfree v s = Ok tt s' -> run s0 s' (filter (fun w => w <> v) o)
| run_write s o v i x :
    run s0 s o -> v ∈ o -> 0 <= i < PGSIZE -> run s0 (set_mem (st8 (mem s) (v + i) x) s) o.

Record inv (s0 : kstate) (pool : list Z) (s : kstate) (o l : list Z) : Prop := {
  inv_free : free_pages s l;
  inv_pool : o ++ l ≡ₚ pool;
  inv_end : sym_end s = sym_end s0 }.

Section Pool.
Context (s0 : kstate) (pool : list Z) (Hpool : free_pages s0 pool).

Lemma pool_page s o l v : inv s0 pool s o l -> v ∈ o ++ l -> kpage s v /\ is_u32 v.
Proof.
  intros [_ Hp He] Hv. rewrite Hp in Hv.
  pose proof (fp_pages _ _ Hpool) as Hf. rewrite Forall_forall in Hf.
  destruct (Hf v Hv) as [Hk Hu]. split; [| done]. unfold kpage. by rewrite He.
Qed.

Lemma pool_nodup s o l : inv s0 pool s o l -> NoDup (o ++ l).
Proof. intros [_ Hp _]. rewrite Hp. apply Hpool. Qed.

Lemma inv_alloc s o l a s' :
  inv s0 pool s o l -> kalloc s = Ok a s' ->
  exists l', inv s0 pool s' (if a =? 0 then o else a :: o) l' /\ (a = 0 <-> l = []).
Proof.
  intros [Hf Hp He] Hk. pose proof (kalloc_refines s l Hf) as Hr.
  assert (sym_end s' = sym_end s) as He'.
  { rewrite (kalloc_ok s (fp_ready _ _ Hf)) in Hk. injection Hk as _ <-.
    destruct (ktouch_eq s) as [cs ->]. unfold kalloced. by destruct (_ =? 0). }
  destruct l as [| x l].
  - destruct Hr as [Hr Hf']. rewrite Hr in Hk. simplify_eq. exists []. split; [| done].
    split; [done | done |]. congruence.
  - destruct Hr as (s2 & Hr & Hf' & Hx & _). rewrite Hr in Hk. simplify_eq.
    rewrite (proj2 (Z.eqb_neq a 0)) by done. exists l. split; [| done].
    split; [done | | congruence]. rewrite <- Hp. simpl. by rewrite Permutation_middle.
Qed.

Lemma filter_out_perm (v : Z) o :
  v ∈ o -> NoDup o -> v :: filter (fun w => w <> v) o ≡ₚ o.
Proof.
  intros Hv. induction 1 as [| x o Hx Hnd IH]; [by apply not_elem_of_nil in Hv |].
  destruct (decide (x = v)) as [-> | Hne].
  - rewrite filter_cons_False by naive_solver. by rewrite filter_all by (by intros y Hy ->).
  - rewrite filter_cons_True by done. rewrite Permutation_swap, IH; [done |].
    by apply elem_of_cons in Hv as [|].
Qed.

Lemma inv_kfree s o l v :
  inv s0 pool s o l -> v ∈ o ->
  exists s', kfree v s = Ok tt s' /\ inv s0 pool s' (filter (fun w => w <> v) o) (v :: l).
Proof.
  intros Hi Hv. pose proof (pool_nodup _ _ _ Hi) as Hnd.
  destruct (pool_page _ _ _ v Hi) as [Hk Hu]; [apply elem_of_app; by left |].
  apply NoDup_app in Hnd as (Hno & Hdis & _). destruct Hi as [Hf Hp He].
  destruct (kfree_refines s l v Hf Hk Hu (Hdis v Hv)) as (s' & Hr & Hf' & _).
  exists s'. split; [done |]. split; [done | |].
  - rewrite <- Hp, <- Permutation_middle, <- (filter_out_perm v o Hv Hno) at 1.
    rewrite (filter_out_perm v o Hv Hno). simpl. rewrite <- (filter_out_perm v o Hv Hno) at 2. done.
  - rewrite (kfree_ok s v Hk (fp_ready _ _ Hf)) in Hr. injection Hr as <-.
    destruct (ktouch_eq s) as [cs ->]. done.
Qed.

Lemma inv_write s o l v i x :
  inv s0 pool s o l -> v ∈ o -> 0 <= i < PGSIZE ->
  inv s0 pool (set_mem (st8 (mem s) (v + i) x) s) o l.
Proof.
  intros Hi Hv Hb. pose proof (pool_nodup _ _ _ Hi) as Hnd.
  destruct (pool_page _ _ _ v Hi) as [[Hva _] _]; [apply elem_of_app; by left |].
  apply NoDup_app in Hnd as (_ & Hdis & _). pose proof Hi as [Hf Hp He]. split; [| done | done].
  destruct Hf. split; [| done | done | by apply (kmem_ready_frame (set_mem _)) | done].
  eapply chain_ext; [| done]. intros y Hy. simpl.
  destruct (pool_page _ _ _ y Hi) as [[Hya _] _]; [apply elem_of_app; by right |].
  apply ld32_ext. intros j Hj. rewrite st8_ne; [done |].
  destruct (pages_apart v y) as [? | ?]; [done | done | intros ->; by apply (Hdis y) | |];
    unfold PGSIZE in *; lia.
Qed.

Lemma run_inv s o : run s0 s o -> exists l, inv s0 pool s o l.
Proof.
  induction 1 as [| s o a s' _ [l Hi] Hk | s o v s' _ [l Hi] Hv Hk | s o v i x _ [l Hi] Hv Hb].
  - exists pool. by split.
  - destruct (inv_alloc _ _ _ _ _ Hi Hk) as (l' & Hl' & _). by exists l'.
  - destruct (inv_kfree _ _ _ _ Hi Hv) as (s2 & Hr & Hi'). rewrite Hr in Hk.
    simplify_eq. by exists (v :: l).
  - exists l. by apply inv_write.
Qed.
End Pool.

(** C15: the allocator hands out every page of its pool to one owner at a time.
    Whatever callers write into the pages they own, the owned pages and the
    free list always partition the pool; [kalloc] returns null only when the
    callers own the whole pool; and freeing an owned page never panics. *)
Theorem pool_partition s0 pool s o :
  free_pages s0 pool -> run s0 s o ->
  exists l, free_pages s l /\ o ++ l ≡ₚ pool /\ NoDup (o ++ l) /\
    (forall a s', kalloc s = Ok a s' -> (a = 0 <-> o ≡ₚ pool) /\ (a <> 0 -> a ∉ o)) /\
    (forall v, v ∈ o -> exists s', kfree v s = Ok tt s').
Proof.
  intros Hpool Hrun. destruct (run_inv s0 pool Hpool s o Hrun) as [l Hi]. exists l.
  pose proof (pool_nodup s0 pool Hpool _ _ _ Hi) as Hnd. pose proof Hi as [Hf Hp He].
  split_and!; try done.
  - intros a s' Hk. destruct (inv_alloc s0 pool s o l a s' Hi Hk) as (l' & Hi' & Hiff). split.
    + rewrite Hiff, <- Hp. split; [intros ->; by rewrite app_nil_r |].
      intros Hl%Permutation_length. rewrite length_app in Hl. by destruct l; simpl in Hl; [| lia].
    + intros Ha. rewrite (proj2 (Z.eqb_neq a 0)) in Hi' by done.
      pose proof (pool_nodup s0 pool Hpool _ _ _ Hi') as Hnd'.
      inversion Hnd'; subst. intros ?. apply H1, elem_of_app. by left.
  - intros v Hv. destruct (inv_kfree s0 pool Hpool s o l v Hi Hv) as (s' & ? & _). by exists s'.
Qed.

(** A pool of two pages. *)
Definition two_pages : kstate :=
  set_sym_end 0x80110000 (set_kmem_freelist 0x80200000
    (set_mem (st32 (fun _ => 0) 0x80200000 0x80201000) kstate0)).

Lemma two_pages_pool : free_pages two_pages [0x80200000; 0x80201000].
Proof.
  split; [| | | done | done].
  - vm_compute. done.
  - repeat (constructor; [vm_compute; split_and!; done |]). constructor.
  - apply NoDup_cons. split; [by intros ?%list_elem_of_singleton | apply NoDup_singleton].
Qed.

Lemma two_pages_run : exists s, run two_pages s [0x80200000].
Proof.
  eexists (set_mem (st8 _ (0x80200000 + 3) 7) _). apply run_write; [| by left | done].
  change [0x80200000] with (if 0x80200000 =? 0 then [] else [0x80200000]).
  eapply run_alloc; [apply run_init | reflexivity].
Qed.

Lemma pool_partition_witness :
  exists s l, run two_pages s [0x80200000] /\ [0x80200000] ++ l ≡ₚ [0x80200000; 0x80201000].
Proof.
  destruct two_pages_run as [s Hr].
  destruct (pool_partition two_pages _ s _ two_pages_pool Hr) as (l & _ & Hp & _).
  by exists s, l.
Defined.

End Pool.
