(* ===== verification/Console.v ===== *)
(** Console output: [uart.c], the screen half of [console.c], and the port
    instructions of [x86.h] they use. *)

From S2P Require Import Prelude Params CString Machine Spinlock.
From Stdlib Require Import Ascii.

(** ** Ports

    The CGA controller has an index register (port [CRTPORT]) that selects the
    half of the cursor position read and written at the next port.  Any other
    port returns the next value of the environment's script [port_in]. *)

Abbreviation CRTPORT := (0x3d4) (only parsing).

Definition inb (port : Z) : M Z := fun s =>
  if port =? CRTPORT + 1 then
    Ok (if crt_index (io s) =? 14 then Z.shiftr (crt_cursor (io s)) 8
        else Z.land (crt_cursor (io s)) 0xff) s
  else
    Ok (u8 (port_in s (port_time (io s)) port))
       (set_io {| (io s) with port_time := S (port_time (io s)) |} s).

(** A port write goes on the trace; the CGA controller also latches it. *)
Definition outb_io (port data : Z) (d : iost) : iost :=
  let d := {| d with port_out := (port, data) :: port_out d |} in
  if port =? CRTPORT then {| d with crt_index := data |}
  else if port =? CRTPORT + 1 then
    {| d with crt_cursor :=
      if crt_index d =? 14 then Z.lor (Z.shiftl data 8) (Z.land (crt_cursor d) 0xff)
      else Z.lor (Z.land (crt_cursor d) 0xff00) data |}
  else d.
Definition outb (port data : Z) : M unit := modio (outb_io port (u8 data)).

(** ** [uart.c] *)

Abbreviation COM1 := (0x3f8) (only parsing).

(** The polling loop of [uartputc]; [microdelay] of [lapic.c] is empty. *)
Fixpoint uart_wait (n : nat) : M unit :=
  match n with
  | O => ret tt
  | S n' => st <- inb (COM1 + 5) ;; if Z.land st 0x20 =? 0 then uart_wait n' else ret tt
  end.

Definition uartputc (c : Z) : M unit :=
  u <- gets uart ;;
  if negb u then ret tt
  else uart_wait 128 ;; outb (COM1 + 0) c.

Definition uartgetc : M Z :=
  u <- gets uart ;;
  if negb u then ret (-1)
  else
    st <- inb (COM1 + 5) ;;
    if Z.land st 0x01 =? 0 then ret (-1) else inb (COM1 + 0).

(** ** The screen *)

Abbreviation BACKSPACE := (0x100) (only parsing).

(** [cgaputc] from its bounds check on: scroll, and move the cursor to [pos]. *)
Definition cga_finish (pos : Z) : M unit :=
  if ((pos <? 0) || (25 * 80 <? pos))%bool then panic "pos under/overflow"
  else
    pos <- (if 24 <=? pos / 80 then
              modio (fun d => {| d with crt := fun i =>
                if ((0 <=? i) && (i <? 23 * 80))%bool then crt d (i + 80) else crt d i |}) ;;
              let pos := pos - 80 in
              modio (fun d => {| d with crt := fun i =>
                if ((pos <=? i) && (i <? 24 * 80))%bool then 0 else crt d i |}) ;;
              ret pos
            else ret pos) ;;
    outb CRTPORT 14 ;;
    outb (CRTPORT + 1) (Z.shiftr pos 8) ;;
    outb CRTPORT 15 ;;
    outb (CRTPORT + 1) pos ;;
    modio (fun d => {| d with crt := fupd (crt d) pos (Z.lor 32 0x0700) |}).

Definition cgaputc (c : Z) : M unit :=
  outb CRTPORT 14 ;;
  hi <- inb (CRTPORT + 1) ;;
  outb CRTPORT 15 ;;
  lo <- inb (CRTPORT + 1) ;;
  let pos := Z.lor (Z.shiftl hi 8) lo in
  if c =? 10 then cga_finish (pos + (80 - pos mod 80))
  else if c =? BACKSPACE then cga_finish (if 0 <? pos then pos - 1 else pos)
  else
    modio (fun d => {| d with crt := fupd (crt d) pos (Z.lor (Z.land c 0xff) 0x0700) |}) ;;
    cga_finish (pos + 1).

Definition consputc (c : Z) : M unit :=
  p <- gets panicked ;;
  if (p : bool) then cli ;; stop_with Spinning
  else
    (if c =? BACKSPACE then uartputc 8 ;; uartputc 32 ;; uartputc 8 else uartputc c) ;;
    cgaputc c.

(** ** [cprintf] *)

(** String literals as bytes. *)
Fixpoint str (s : string) : list Z :=
  match s with EmptyString => [] | String a s' => Z.of_N (N_of_ascii a) :: str s' end.

Definition hexdigits : list Z := str "0123456789abcdef".

(** The [do]/[while] loop of [printint]: the digits, least significant first.
    A 32-bit number has at most 32 digits in any base from 2 on. *)
Fixpoint int_digits (fuel : nat) (x base : Z) : list Z :=
  match fuel with
  | O => []
  | S fuel' =>
      default 0 (hexdigits !! Z.to_nat (x mod base)) ::
      (if x / base =? 0 then [] else int_digits fuel' (x / base) base)
  end.

(** The characters [printint] puts, in order. *)
Definition int_chars (xx base : Z) (sign : bool) : list Z :=
  let sign := (sign && (xx <? 0))%bool in
  let x := u32 (if sign then - xx else xx) in
  rev (int_digits 32 x base ++ (if sign then [45] else [])).

Definition printint (xx base : Z) (sign : bool) : M unit :=
  forM (int_chars xx base sign) consputc.

(** The words of the variable argument list. *)
Inductive vararg := VInt (x : Z) | VStr (s : option (list Z)).

Definition take_int (args : list vararg) : M (Z * list vararg) :=
  match args with VInt x :: r => ret (i32 x, r) | _ => fault end.
Definition take_str (args : list vararg) : M (list Z * list vararg) :=
  match args with VStr o :: r => ret (default (str "(null)") o, r) | _ => fault end.

Fixpoint cprintf_loop (fmt : list Z) (args : list vararg) : M unit :=
  match fmt with
  | [] => ret tt
  | c :: fmt' =>
      if negb (c =? 37) then consputc c ;; cprintf_loop fmt' args
      else match fmt' with
           | [] => ret tt
           | c :: fmt'' =>
               if c =? 100 (* d *) then
                 r <- take_int args ;; printint r.1 10 true ;; cprintf_loop fmt'' r.2
               else if ((c =? 120) || (c =? 112))%bool (* x, p *) then
                 r <- take_int args ;; printint r.1 16 false ;; cprintf_loop fmt'' r.2
               else if c =? 115 (* s *) then
                 r <- take_str args ;; forM r.1 consputc ;; cprintf_loop fmt'' r.2
               else if c =? 37 then consputc 37 ;; cprintf_loop fmt'' args
               else consputc 37 ;; consputc c ;; cprintf_loop fmt'' args
           end
  end.

Definition cprintf (fmt : list Z) (args : list vararg) : M unit :=
  locking <- gets cons_locking ;;
  when locking (acquire LkCons) ;;
  cprintf_loop fmt args ;;
  when locking (release LkCons).

(** What [panic] does before it spins for ever; [ld] and [v] are the memory and
    the frame [getcallerpcs] walks. *)
Definition panic_report (msg : string) (ld : Z -> Z) (v : Z) : M unit :=
  cli ;;
  modify (set_cons_locking false) ;;
  id <- gets lapic_id ;;
  cprintf (str "lapicid %d: panic: ") [VInt id] ;;
  cprintf (str msg) [] ;;
  cprintf [10] [] ;;
  forM (getcallerpcs ld v) (fun pc => cprintf (str " %p") [VInt pc]) ;;
  modify (set_panicked true).

(** ** Output touches the console only *)

Definition console_only (s s' : kstate) : Prop := exists d, s' = set_io d s.

Lemma console_only_refl s : console_only s s.
Proof. exists (io s). by rewrite set_io_id. Qed.

Lemma console_only_trans s1 s2 s3 : console_only s1 s2 -> console_only s2 s3 -> console_only s1 s3.
Proof. intros [d ->] [d' ->]. exists d'. apply set_io_io. Qed.

(** The bytes sent to the serial line, oldest first. *)
Definition serial_of (o : list (Z * Z)) : list Z := rev ((filter (fun x => x.1 = COM1) o).*2).
Definition serial (s : kstate) : list Z := serial_of (port_out (io s)).

Lemma serial_of_cons p v o :
  serial_of ((p, v) :: o) = serial_of o ++ (if p =? COM1 then [v] else []).
Proof.
  unfold serial_of. destruct (Z.eqb_spec p COM1) as [E | E].
  - by rewrite filter_cons_True.
  - by rewrite filter_cons_False, app_nil_r.
Qed.

(** A cursor on one of the 24 text rows. *)
Definition cursor_ok (s : kstate) : Prop := 0 <= crt_cursor (io s) < 24 * 80.

(** A console that is present and not frozen by [panic]. *)
Record console_ok (s : kstate) : Prop := {
  co_live : panicked s = false; co_uart : uart s = true; co_cursor : cursor_ok s }.

Lemma uart_wait_ok n s :
  exists e, uart_wait n s = Ok tt (set_io {| (io s) with port_time := e |} s).
Proof.
  revert s. induction n as [| n IH]; intros s; simpl.
  - exists (port_time (io s)). f_equal. rewrite <- (set_io_id s) at 1. f_equal. by destruct (io s).
  - unfold bind at 1, inb. simpl. case_bool; [| by eexists].
    destruct (IH (set_io {| (io s) with port_time := S (port_time (io s)) |} s)) as [e ->].
    exists e. by rewrite set_io_io.
Qed.

Lemma uartputc_ok c s :
  uart s = true ->
  exists s', uartputc c s = Ok tt s' /\ console_only s s' /\
    crt_cursor (io s') = crt_cursor (io s) /\ serial s' = serial s ++ [u8 c].
Proof.
  intros Hu. unfold uartputc. rewrite bind_gets, Hu. simpl.
  destruct (uart_wait_ok 128 s) as [e He]. step by (exact He).
  unfold outb, modio. eexists. split_and!; [done | | done |].
  - eexists. by rewrite set_io_io.
  - unfold serial. simpl. by rewrite serial_of_cons.
Qed.

(** The two halves of the cursor position. *)
Lemma cursor_read cur : 0 <= cur < 65536 -> Z.lor (Z.shiftl (Z.shiftr cur 8) 8) (Z.land cur 0xff) = cur.
Proof.
  intros H. change 0xff with (Z.ones 8). rewrite Z.land_ones, Z.shiftr_div_pow2 by lia.
  change (2 ^ 8) with 256. rewrite lor_shiftl_add by (change (2 ^ 8) with 256; zdiv).
  change (2 ^ 8) with 256. zdiv.
Qed.

Lemma cursor_write cur pos :
  0 <= pos < 65536 ->
  Z.lor (Z.land (Z.lor (Z.shiftl (u8 (Z.shiftr pos 8)) 8) (Z.land cur 0xff)) 0xff00) (u8 pos) = pos.
Proof.
  intros H. unfold u8. rewrite Z.shiftr_div_pow2 by lia. change (2 ^ 8) with 256.
  rewrite (Z.mod_small (pos / 256)) by zdiv.
  assert (Hhi : Z.land (Z.lor (Z.shiftl (pos / 256) 8) (Z.land cur 0xff)) 0xff00
                = Z.shiftl (pos / 256) 8).
  { apply Z.bits_inj'. intros i Hi. rewrite Z.land_spec, Z.lor_spec, Z.land_spec.
    change 0xff with (Z.ones 8). change 0xff00 with (Z.shiftl (Z.ones 8) 8).
    destruct (Z.lt_ge_cases i 8) as [Hl | Hl].
    - rewrite !(Z.shiftl_spec_low _ 8 i) by lia. by rewrite andb_false_r.
    - rewrite (Z.ones_spec_high 8 i) by lia. rewrite andb_false_r, orb_false_r.
      rewrite !Z.shiftl_spec by lia. destruct (Z.lt_ge_cases (i - 8) 8).
      + rewrite Z.ones_spec_low by lia. by rewrite andb_true_r.
      + rewrite Z.ones_spec_high, andb_false_r by lia. symmetry.
        rewrite <- (Z.mod_small (pos / 256) (2 ^ 8)) by (change (2 ^ 8) with 256; zdiv).
        apply Z.mod_pow2_bits_high. lia. }
  rewrite Hhi, lor_shiftl_add by (change (2 ^ 8) with 256; zdiv). change (2 ^ 8) with 256. zdiv.
Qed.

(** Where [cgaputc] leaves the cursor. *)
Definition cursor_next (c pos : Z) : Z :=
  let p := if c =? 10 then pos + (80 - pos mod 80)
           else if c =? BACKSPACE then (if 0 <? pos then pos - 1 else pos) else pos + 1 in
  if 24 <=? p / 80 then p - 80 else p.

Lemma cursor_next_ok c pos : 0 <= pos < 24 * 80 -> 0 <= cursor_next c pos < 24 * 80.
Proof.
  intros H. unfold cursor_next.
  assert (forall p, 0 <= p <= 24 * 80 -> 0 <= (if 24 <=? p / 80 then p - 80 else p) < 24 * 80).
  { intros p Hp. destruct (Z.leb_spec 24 (p / 80)); zdiv. }
  cbv zeta. apply H0. repeat case_bool; zdiv.
Qed.

(** Device commands in sequence act on the device state in sequence. *)
Lemma modio_seq {B} f (k : unit -> M B) d s :
  bind (modio f) k (set_io d s) = k tt (set_io (f d) s).
Proof. unfold bind, modio. simpl. by rewrite set_io_io. Qed.

Lemma modio_last f d s : modio f (set_io d s) = Ok tt (set_io (f d) s).
Proof. unfold modio. by rewrite set_io_io. Qed.

Lemma cga_finish_ok pos d s :
  0 <= pos <= 24 * 80 ->
  exists d', cga_finish pos (set_io d s) = Ok tt (set_io d' s) /\
    crt_cursor d' = (if 24 <=? pos / 80 then pos - 80 else pos) /\
    serial_of (port_out d') = serial_of (port_out d) /\ crt d' (crt_cursor d') = 0x0720.
Proof.
  intros Hp. unfold cga_finish, outb.
  rewrite (proj2 (Z.ltb_ge pos 0)), (proj2 (Z.ltb_ge _ pos)) by lia. cbn [orb].
  destruct (24 <=? pos / 80) eqn:E; bool_to_prop.
  - rewrite !bind_assoc, modio_seq, bind_assoc, modio_seq, bind_ret, !modio_seq, modio_last.
    eexists. split; [done |]. simpl. rewrite cursor_write by zdiv.
    split_and!; [done | by rewrite !serial_of_cons, !app_nil_r | by rewrite fupd_eq].
  - rewrite bind_ret, !modio_seq, modio_last.
    eexists. split; [done |]. simpl. rewrite cursor_write by zdiv.
    split_and!; [done | by rewrite !serial_of_cons, !app_nil_r | by rewrite fupd_eq].
Qed.

Lemma inb_cursor {B} (k : Z -> M B) d s :
  bind (inb (CRTPORT + 1)) k (set_io d s) =
    k (if crt_index d =? 14 then Z.shiftr (crt_cursor d) 8 else Z.land (crt_cursor d) 0xff) (set_io d s).
Proof. done. Qed.

Lemma cgaputc_ok c s :
  cursor_ok s ->
  exists d, cgaputc c s = Ok tt (set_io d s) /\
    crt_cursor d = cursor_next c (crt_cursor (io s)) /\
    serial_of (port_out d) = serial s /\ crt d (crt_cursor d) = 0x0720.
Proof.
  intros Hc. unfold cursor_ok in Hc.
  assert (cgaputc c s = cgaputc c (set_io (io s) s)) as -> by (by rewrite set_io_id).
  unfold cgaputc, outb. rewrite modio_seq, inb_cursor, modio_seq, inb_cursor. simpl.
  rewrite cursor_read by lia. match goal with |- context [set_io ?d s] => set (d1 := d) end.
  assert (Hser : serial_of (port_out d1) = serial s).
  { unfold serial, d1. simpl port_out. by rewrite !serial_of_cons, !app_nil_r. }
  unfold cursor_next. cbv zeta. set (cur := crt_cursor (io s)) in *.
  destruct (c =? 10); [| destruct (c =? BACKSPACE)].
  - edestruct (cga_finish_ok (cur + (80 - cur mod 80)) d1 s) as (d & -> & ? & ? & ?); [zdiv |].
    exists d. split_and!; (done || congruence).
  - edestruct (cga_finish_ok (if 0 <? cur then cur - 1 else cur) d1 s) as (d & -> & ? & ? & ?);
      [case_bool; lia |].
    exists d. split_and!; (done || congruence).
  - rewrite modio_seq. edestruct cga_finish_ok as (d & -> & ? & ? & ?); [| exists d]; [lia |].
    split_and!; (done || congruence).
Qed.

Lemma console_ok_io d s : console_ok s -> 0 <= crt_cursor d < 24 * 80 -> console_ok (set_io d s).
Proof. intros [] Hd. by split. Qed.

Lemma consputc_ok c s :
  console_ok s -> c <> BACKSPACE ->
  exists s', consputc c s = Ok tt s' /\ console_only s s' /\ console_ok s' /\
    serial s' = serial s ++ [u8 c] /\ crt_cursor (io s') = cursor_next c (crt_cursor (io s)).
Proof.
  intros Hok Hc. pose proof Hok as [Hl Hu Hcur]. unfold consputc. rewrite bind_gets, Hl.
  rewrite (proj2 (Z.eqb_neq _ _)) by done.
  destruct (uartputc_ok c s Hu) as (s1 & H1 & [d1 ->] & Hc1 & Hs1). step by (exact H1).
  destruct (cgaputc_ok c (set_io d1 s)) as (d2 & H2 & Hc2 & Hs2 & _); [unfold cursor_ok; by rewrite Hc1 |].
  rewrite Hc1 in Hc2. rewrite set_io_io in H2. exists (set_io d2 s).
  split_and!; [done | by exists d2 | | | done].
  - apply console_ok_io; [done |]. rewrite Hc2. by apply cursor_next_ok.
  - by rewrite <- Hs1.
Qed.

Lemma consputs_ok l s :
  console_ok s -> Forall (fun c => c <> BACKSPACE) l ->
  exists s', forM l consputc s = Ok tt s' /\ console_only s s' /\ console_ok s' /\
    serial s' = serial s ++ (u8 <$> l).
Proof.
  revert s. induction l as [| c l IH]; intros s Hok Hl.
  - exists s. split_and!; [done | apply console_only_refl | done | by rewrite app_nil_r].
  - apply Forall_cons in Hl as [Hc Hl]. cbn [forM].
    destruct (consputc_ok c s) as (s1 & H1 & Ho1 & Hk1 & Hs1 & _); [done | done |]. step by (exact H1).
    destruct (IH s1) as (s2 & H2' & Ho2 & Hk2 & Hs2); [done | done |].
    exists s2. split_and!; [done | by eapply console_only_trans | done |].
    rewrite Hs2, Hs1, <- app_assoc. done.
Qed.

(** ** What [cprintf] prints *)

(** The text a format and its arguments stand for; [None] when an argument is missing. *)
Fixpoint format (fmt : list Z) (args : list vararg) : option (list Z) :=
  match fmt with
  | [] => Some []
  | c :: fmt' =>
      if negb (c =? 37) then cons c <$> format fmt' args
      else match fmt' with
           | [] => Some []
           | c :: fmt'' =>
               if c =? 100 then
                 match args with VInt x :: r => app (int_chars (i32 x) 10 true) <$> format fmt'' r | _ => None end
               else if ((c =? 120) || (c =? 112))%bool then
                 match args with VInt x :: r => app (int_chars (i32 x) 16 false) <$> format fmt'' r | _ => None end
               else if c =? 115 then
                 match args with
                 | VStr o :: r => app (default (str "(null)") o) <$> format fmt'' r | _ => None end
               else if c =? 37 then cons 37 <$> format fmt'' args
               else (fun r => 37 :: c :: r) <$> format fmt'' args
           end
  end.

Lemma cprintf_format fmt args l s :
  format fmt args = Some l -> cprintf_loop fmt args s = forM l consputc s.
Proof.
  revert args l s. induction fmt as [fmt IH] using (induction_ltof1 _ length).
  unfold ltof in IH. intros args l s.
  destruct fmt as [| c fmt]; simpl; [by intros [= <-] |]. simpl in IH.
  destruct (c =? 37); simpl.
  2: { destruct (format fmt args) eqn:E; simpl; [| done]. intros [= <-]. simpl.
       apply bind_ext. intros [] s'. apply IH; [lia | done]. }
  destruct fmt as [| c2 fmt]; [by intros [= <-] |]. simpl in IH.
  destruct (c2 =? 100); [| destruct ((c2 =? 120) || (c2 =? 112))%bool; [| destruct (c2 =? 115)]].
  1-3: destruct args as [| [] args]; simpl; try done;
    destruct (format fmt args) as [r |] eqn:E; simpl; [| done]; intros [= <-];
    rewrite bind_ret, forM_app; apply bind_ext; intros [] s'; (apply IH; [lia | done]).
  destruct (c2 =? 37); (destruct (format fmt args) as [r |] eqn:E; simpl; [| done]; intros [= <-];
    simpl; repeat (apply bind_ext; intros [] ?)); (apply IH; [lia | done]).
Qed.

(** [cons.lock] can be taken, if it is in use. *)
Definition cons_ready (s : kstate) : Prop :=
  cons_locking s = true -> (exists i c, runs_on s i c) /\ lock_free s LkCons.

(** What taking and releasing it leaves behind. *)
Definition cons_touch (s : kstate) : kstate := if cons_locking s then cli_touch s else s.


Lemma digit_char x : 0 <= x -> default 0 (hexdigits !! Z.to_nat (x mod 10)) = 48 + x mod 10.
Proof.
  intros Hx. pose proof (Z.mod_pos_bound x 10 ltac:(lia)) as Hb. generalize dependent (x mod 10).
  intros d Hd. assert (d = 0 \/ d = 1 \/ d = 2 \/ d = 3 \/ d = 4 \/ d = 5 \/ d = 6 \/ d = 7 \/ d = 8 \/ d = 9)
    as Hc by lia. by repeat destruct Hc as [-> | Hc]; [..| subst].
Qed.

Lemma atoi_digits fuel x rest :
  0 <= x <= INT_MAX -> x < 10 ^ Z.of_nat fuel ->
  atoi_loop (rev (int_digits fuel x 10) ++ rest) 0 = atoi_loop rest x.
Proof.
  revert x rest. induction fuel as [| fuel IH]; intros x rest Hx Hf.
  { simpl in Hf. by replace x with 0 by lia. }
  cbn [int_digits]. rewrite digit_char by lia. cbn [rev]. rewrite <- app_assoc.
  assert (Hlast : atoi_loop ([48 + x mod 10] ++ rest) (x / 10) = atoi_loop rest x).
  { simpl. pose proof (Z.mod_pos_bound x 10 ltac:(lia)).
    rewrite (proj2 (Z.leb_le 48 _)), (proj2 (Z.leb_le _ 57)) by lia. simpl.
    rewrite i32_small by (unfold is_i32, INT_MAX in *; zdiv). f_equal. zdiv. }
  destruct (Z.eqb_spec (x / 10) 0) as [E | E].
  - rewrite <- Hlast, E. done.
  - rewrite IH; [done | unfold INT_MAX in *; zdiv |].
    rewrite Nat2Z.inj_succ, Z.pow_succ_r in Hf by lia. apply Z.div_lt_upper_bound; lia.
Qed.

(** What [cprintf] prints with [%d] reads back: [atoi] of the characters
    printed for a non-negative [int] is that [int]. *)
Theorem printint_atoi n :
  0 <= n <= INT_MAX -> atoi (int_chars n 10 true ++ [0]) = Some n.
Proof.
  intros Hn. unfold atoi, int_chars. cbv zeta.
  replace (n <? 0) with false by (symmetry; apply Z.ltb_ge; lia). cbn [andb].
  rewrite app_nil_r, u32_small by (unfold is_u32, INT_MAX in *; lia).
  rewrite atoi_digits; [done | done |]. unfold INT_MAX in Hn. change (10 ^ Z.of_nat 32) with (10 ^ 32). lia.
Qed.

Lemma printint_atoi_witness : atoi (int_chars 4096 10 true ++ [0]) = Some 4096.
Proof. apply (printint_atoi 4096). vm_compute. split; discriminate. Defined.

