(* ===== verification/Apic.v ===== *)
(** The interrupt controllers: [lapic.c], [ioapic.c], [picirq.c], and [uartinit]. *)

From S2P Require Import Prelude Params Mem CString Machine Spinlock Console.

(** ** Device registers in memory

    A write to a memory-mapped register goes on the trace of [port_out], under
    its address; a read returns the next value of the environment's script. *)

Definition mmio_read (a : Z) : M Z := fun s =>
  Ok (u32 (port_in s (port_time (io s)) a))
     (set_io {| (io s) with port_time := S (port_time (io s)) |} s).
Definition mmio_write (a v : Z) : M unit :=
  modio (fun d => {| d with port_out := (a, v) :: port_out d |}).
Definition modapic (f : apicst -> apicst) : M unit := modify (fun s => set_apic (f (apic s)) s).

(** ** [lapic.c] *)

Abbreviation ID := (0x20 / 4) (only parsing).
Abbreviation VER := (0x30 / 4) (only parsing).
Abbreviation TPR := (0x80 / 4) (only parsing).
Abbreviation EOI := (0xB0 / 4) (only parsing).
Abbreviation SVR := (0xF0 / 4) (only parsing).
Abbreviation ENABLE := (0x100) (only parsing).
Abbreviation ESR := (0x280 / 4) (only parsing).
Abbreviation ICRLO := (0x300 / 4) (only parsing).
Abbreviation INIT := (0x500) (only parsing).
Abbreviation STARTUP := (0x600) (only parsing).
Abbreviation DELIVS := (0x1000) (only parsing).
Abbreviation ASSERT := (0x4000) (only parsing).
Abbreviation LEVEL := (0x8000) (only parsing).
Abbreviation BCAST := (0x80000) (only parsing).
Abbreviation ICRHI := (0x310 / 4) (only parsing).
Abbreviation TIMER := (0x320 / 4) (only parsing).
Abbreviation X1 := (0xB) (only parsing).
Abbreviation PERIODIC := (0x20000) (only parsing).
Abbreviation PCINT := (0x340 / 4) (only parsing).
Abbreviation LINT0 := (0x350 / 4) (only parsing).
Abbreviation LINT1 := (0x360 / 4) (only parsing).
Abbreviation ERROR := (0x370 / 4) (only parsing).
Abbreviation MASKED := (0x10000) (only parsing).
Abbreviation TICR := (0x380 / 4) (only parsing).
Abbreviation TDCR := (0x3E0 / 4) (only parsing).

Definition lapic_reg (index : Z) : M Z :=
  l <- gets (fun s => lapic (apic s)) ;; mmio_read (l + 4 * index).
Definition lapicw (index value : Z) : M unit :=
  l <- gets (fun s => lapic (apic s)) ;;
  mmio_write (l + 4 * index) value ;;
  lapic_reg ID ;; ret tt.

Section Lapic.
Context `{Turns}.

Definition lapicinit : M unit :=
  l <- gets (fun s => lapic (apic s)) ;;
  if l =? 0 then ret tt
  else
    lapicw SVR (Z.lor ENABLE (T_IRQ0 + IRQ_SPURIOUS)) ;;
    lapicw TDCR X1 ;;
    lapicw TIMER (Z.lor PERIODIC (T_IRQ0 + IRQ_TIMER)) ;;
    lapicw TICR 10000000 ;;
    lapicw LINT0 MASKED ;;
    lapicw LINT1 MASKED ;;
    v <- lapic_reg VER ;;
    when (4 <=? Z.land (Z.shiftr v 16) 0xFF) (lapicw PCINT MASKED) ;;
    lapicw ERROR (T_IRQ0 + IRQ_ERROR) ;;
    lapicw ESR 0 ;;
    lapicw ESR 0 ;;
    lapicw EOI 0 ;;
    lapicw ICRHI 0 ;;
    lapicw ICRLO (Z.lor BCAST (Z.lor INIT LEVEL)) ;;
    loop_until max_turns
      (r <- lapic_reg ICRLO ;; ret (if Z.land r DELIVS =? 0 then Some tt else None)) ;;
    lapicw TPR 0.
End Lapic.

Definition lapiceoi : M unit :=
  l <- gets (fun s => lapic (apic s)) ;;
  if l =? 0 then ret tt else lapicw EOI 0.

Definition microdelay (us : Z) : M unit := ret tt.

Abbreviation CMOS_PORT := (0x70) (only parsing).
Abbreviation CMOS_RETURN := (0x71) (only parsing).

Definition lapicstartap (apicid addr : Z) : M unit :=
  outb CMOS_PORT 0xF ;;
  outb (CMOS_PORT + 1) 0x0A ;;
  let wrv := P2V (Z.lor (Z.shiftl 0x40 4) 0x67) in
  modify (fun s => set_mem (stn (mem s) wrv [0; 0]) s) ;;
  modify (fun s => set_mem (stn (mem s) (wrv + 2)
    [u8 (Z.shiftr addr 4); u8 (Z.shiftr addr 12)]) s) ;;
  lapicw ICRHI (Z.shiftl apicid 24) ;;
  lapicw ICRLO (Z.lor INIT (Z.lor LEVEL ASSERT)) ;;
  microdelay 200 ;;
  lapicw ICRLO (Z.lor INIT LEVEL) ;;
  microdelay 100 ;;
  forM (seq 0 2) (fun _ =>
    lapicw ICRHI (Z.shiftl apicid 24) ;;
    lapicw ICRLO (Z.lor STARTUP (Z.shiftr addr 12)) ;;
    microdelay 200).

(** ** The real-time clock *)

Abbreviation CMOS_STATA := (0x0a) (only parsing).
Abbreviation CMOS_STATB := (0x0b) (only parsing).
Abbreviation CMOS_UIP := (Z.shiftl 1 7) (only parsing).
Abbreviation SECS := (0x00) (only parsing).
Abbreviation MINS := (0x02) (only parsing).
Abbreviation HOURS := (0x04) (only parsing).
Abbreviation DAY := (0x07) (only parsing).
Abbreviation MONTH := (0x08) (only parsing).
Abbreviation YEAR := (0x09) (only parsing).

(** [date.h]. *)
Record rtcdate := mkRtcdate {
  rtc_second : Z; rtc_minute : Z; rtc_hour : Z; rtc_day : Z; rtc_month : Z; rtc_year : Z }.
#[export] Instance rtcdate_eq_dec : EqDecision rtcdate.
Proof. solve_decision. Defined.

Definition cmos_read (reg : Z) : M Z :=
  outb CMOS_PORT reg ;;
  microdelay 200 ;;
  inb CMOS_RETURN.

Definition fill_rtcdate : M rtcdate :=
  s <- cmos_read SECS ;; m <- cmos_read MINS ;; h <- cmos_read HOURS ;;
  d <- cmos_read DAY ;; mo <- cmos_read MONTH ;; y <- cmos_read YEAR ;;
  ret (mkRtcdate s m h d mo y).

(** The macro [CONV]: binary-coded decimal to binary. *)
Definition CONV (x : Z) : Z := u32 (Z.shiftr x 4 * 10 + Z.land x 0xf).
Definition conv_rtcdate (t : rtcdate) : rtcdate :=
  mkRtcdate (CONV (rtc_second t)) (CONV (rtc_minute t)) (CONV (rtc_hour t))
            (CONV (rtc_day t)) (CONV (rtc_month t)) (CONV (rtc_year t)).

Definition cmostime `{Turns} : M rtcdate :=
  sb <- cmos_read CMOS_STATB ;;
  let bcd := Z.land sb (Z.shiftl 1 2) =? 0 in
  t <- loop_until max_turns
    (t1 <- fill_rtcdate ;;
     a <- cmos_read CMOS_STATA ;;
     if negb (Z.land a CMOS_UIP =? 0) then ret None
     else
       t2 <- fill_rtcdate ;;
       ret (if decide (t1 = t2) then Some t1 else None)) ;;
  let t := if (bcd : bool) then conv_rtcdate t else t in
  ret {| t with rtc_year := u32 (rtc_year t + 2000) |}.

(** ** [ioapic.c] *)

Abbreviation IOAPIC := (0xFEC00000) (only parsing).
Abbreviation REG_ID := (0x00) (only parsing).
Abbreviation REG_VER := (0x01) (only parsing).
Abbreviation REG_TABLE := (0x10) (only parsing).
Abbreviation INT_DISABLED := (0x10000) (only parsing).

(** [struct ioapic]: the register selector, then the data at offset 16. *)
Definition ioapicread (reg : Z) : M Z :=
  a <- gets (fun s => ioapic (apic s)) ;;
  mmio_write a reg ;;
  mmio_read (a + 16).
Definition ioapicwrite (reg data : Z) : M unit :=
  a <- gets (fun s => ioapic (apic s)) ;;
  mmio_write a reg ;;
  mmio_write (a + 16) data.

Definition ioapicinit : M unit :=
  modapic (fun a => {| a with ioapic := IOAPIC |}) ;;
  v <- ioapicread REG_VER ;;
  let maxintr := Z.land (Z.shiftr v 16) 0xFF in
  r <- ioapicread REG_ID ;;
  let id := Z.shiftr r 24 in
  want <- gets (fun s => ioapicid (apic s)) ;;
  when (negb (id =? want))
    (cprintf (str "ioapicinit: id isn't equal to ioapicid; not a MP" ++ [10]) []) ;;
  forM (Z.of_nat <$> seq 0 (S (Z.to_nat maxintr))) (fun i =>
    ioapicwrite (REG_TABLE + 2 * i) (Z.lor INT_DISABLED (T_IRQ0 + i)) ;;
    ioapicwrite (REG_TABLE + 2 * i + 1) 0).

Definition ioapicenable (irq cpunum : Z) : M unit :=
  ioapicwrite (REG_TABLE + 2 * irq) (T_IRQ0 + irq) ;;
  ioapicwrite (REG_TABLE + 2 * irq + 1) (Z.shiftl cpunum 24).

(** ** [picirq.c] *)

Abbreviation IO_PIC1 := (0x20) (only parsing).
Abbreviation IO_PIC2 := (0xA0) (only parsing).

Definition picinit : M unit :=
  outb (IO_PIC1 + 1) 0xFF ;;
  outb (IO_PIC2 + 1) 0xFF.

(** ** [uart.c]: [uartinit] *)

Definition uartinit : M unit :=
  outb (COM1 + 2) 0 ;;
  outb (COM1 + 3) 0x80 ;;
  outb (COM1 + 0) (115200 / 9600) ;;
  outb (COM1 + 1) 0 ;;
  outb (COM1 + 3) 0x03 ;;
  outb (COM1 + 4) 0 ;;
  outb (COM1 + 1) 0x01 ;;
  st <- inb (COM1 + 5) ;;
  if st =? 0xFF then ret tt
  else
    modify (set_uart true) ;;
    inb (COM1 + 2) ;;
    inb (COM1 + 0) ;;
    ioapicenable IRQ_COM1 0 ;;
    forM (str "xv6..." ++ [10]) uartputc.
