(* ===== verification/Vm.v ===== *)
(** [vm.c]: page tables and user address spaces.

    Page directories and page tables are kernel virtual addresses of pages of
    the memory [mem]; a page-table entry is a little-endian word in them.
    [loaduvm], which reads from the file system, is in the file on [exec]. *)

From S2P Require Import Prelude Params Mem CString Machine Spinlock Kalloc Console.

(** ** Operations *)

Definition ldw (a : Z) : M Z := gets (fun s => ld32 (mem s) a).
Definition stw (a v : Z) : M unit := modify (fun s => set_mem (st32 (mem s) a v) s).
Definition memset_page (a : Z) : M unit := modify (fun s => set_mem (memset (mem s) a 0 PGSIZE) s).

Abbreviation SIZEOF_CPU := (176) (only parsing).
Abbreviation SIZEOF_TASKSTATE := (104) (only parsing).
Abbreviation OFFSET_TS := (8) (only parsing).

Definition seginit : M unit :=
  i <- mycpu ;;
  modc i (fun c => {| c with c_gdt :=
    <[Z.to_nat SEG_UDATA := SEG STA_W 0 0xffffffff DPL_USER]>
    (<[Z.to_nat SEG_UCODE := SEG (Z.lor STA_X STA_R) 0 0xffffffff DPL_USER]>
    (<[Z.to_nat SEG_KDATA := SEG STA_W 0 0xffffffff 0]>
    (<[Z.to_nat SEG_KCODE := SEG (Z.lor STA_X STA_R) 0 0xffffffff 0]> (c_gdt c)))) |}).

Definition walkpgdir (pgdir va : Z) (alloc : bool) : M Z :=
  let pde := pgdir + 4 * PDX va in
  e <- ldw pde ;;
  if negb (Z.land e PTE_P =? 0) then ret (P2V (PTE_ADDR e) + 4 * PTX va)
  else if negb alloc then ret 0
  else
    pgtab <- kalloc ;;
    if pgtab =? 0 then ret 0
    else
      memset_page pgtab ;;
      stw pde (Z.lor (Z.lor (Z.lor (V2P pgtab) PTE_P) PTE_W) PTE_U) ;;
      ret (pgtab + 4 * PTX va).

(** The loop of [mappages]; it ends when [a] reaches [last], one page per turn. *)
Fixpoint mappages_loop (fuel : nat) (pgdir a last pa perm : Z) : M Z :=
  match fuel with
  | O => stop_with OutOfFuel
  | S fuel' =>
      pte <- walkpgdir pgdir a true ;;
      if pte =? 0 then ret (-1)
      else
        e <- ldw pte ;;
        if negb (Z.land e PTE_P =? 0) then panic "remap"
        else
          stw pte (Z.lor (Z.lor pa perm) PTE_P) ;;
          if a =? last then ret 0
          else mappages_loop fuel' pgdir (u32 (a + PGSIZE)) last (u32 (pa + PGSIZE)) perm
  end.
Definition mappages (pgdir va size pa perm : Z) : M Z :=
  let a := PGROUNDDOWN va in
  let last := PGROUNDDOWN (u32 (va + size - 1)) in
  mappages_loop (S (Z.to_nat (u32 (last - a) / PGSIZE))) pgdir a last pa perm.

Fixpoint deallocuvm_loop (fuel : nat) (pgdir a oldsz : Z) : M unit :=
  match fuel with
  | O => stop_with OutOfFuel
  | S fuel' =>
      if a <? oldsz then
        pte <- walkpgdir pgdir a false ;;
        if pte =? 0 then
          deallocuvm_loop fuel' pgdir
            (u32 (u32 (PGADDR (PDX a + 1) 0 0 - PGSIZE) + PGSIZE)) oldsz
        else
          e <- ldw pte ;;
          (if negb (Z.land e PTE_P =? 0) then
             let pa := PTE_ADDR e in
             if pa =? 0 then panic "kfree"
             else kfree (P2V pa) ;; stw pte 0
           else ret tt) ;;
          deallocuvm_loop fuel' pgdir (u32 (a + PGSIZE)) oldsz
      else ret tt
  end.
(** [a] grows by at least a page per turn, so [oldsz / PGSIZE + 2] turns are enough. *)
Definition deallocuvm (pgdir oldsz newsz : Z) : M Z :=
  if oldsz <=? newsz then ret oldsz
  else
    deallocuvm_loop (S (S (Z.to_nat (oldsz / PGSIZE)))) pgdir (PGROUNDUP newsz) oldsz ;;
    ret newsz.

Definition freevm (pgdir : Z) : M unit :=
  if pgdir =? 0 then panic "freevm: no pgdir"
  else
    deallocuvm pgdir KERNBASE 0 ;;
    forM (seq 0 NPDENTRIES) (fun i =>
      e <- ldw (pgdir + 4 * Z.of_nat i) ;;
      when (negb (Z.land e PTE_P =? 0)) (kfree (P2V (PTE_ADDR e)))) ;;
    kfree pgdir.

(** The kernel's mappings: virtual address, physical start and end, permissions. *)
Definition kmap (data : Z) : list (Z * Z * Z * Z) :=
  [ (KERNBASE, 0, EXTMEM, PTE_W);
    (KERNLINK, V2P KERNLINK, V2P data, 0);
    (data, V2P data, PHYSTOP, PTE_W);
    (DEVSPACE, DEVSPACE, 0, PTE_W) ].

Definition setupkvm : M Z :=
  pgdir <- kalloc ;;
  if pgdir =? 0 then ret 0
  else
    memset_page pgdir ;;
    if DEVSPACE <? P2V PHYSTOP then panic "PHYSTOP too high"
    else
      data <- gets sym_data ;;
      r <- for_ret (kmap data) (fun '(virt, phys_start, phys_end, perm) =>
        r <- mappages pgdir virt (u32 (phys_end - phys_start)) phys_start perm ;;
        if r <? 0 then freevm pgdir ;; ret (Some 0) else ret None) ;;
      ret (default pgdir r).

Definition lcr3 (v : Z) : M unit := modify (set_cr3 v).
Definition ltr (v : Z) : M unit := modify (set_tr v).

Definition switchkvm : M unit := kpg <- gets kpgdir ;; lcr3 (V2P kpg).

Definition kvmalloc : M unit :=
  pgdir <- setupkvm ;;
  modify (set_kpgdir pgdir) ;;
  switchkvm.

(** The descriptor and task-state segment of processor [i] for a kernel stack;
    [base] is the address of [cpus]. *)
Definition load_tss (base : Z) (i : nat) (kstack : Z) (c : cpu) : cpu :=
  {| c with
     c_gdt := <[Z.to_nat SEG_TSS :=
       {| (SEG16 STS_T32A (base + SIZEOF_CPU * Z.of_nat i + OFFSET_TS) (SIZEOF_TASKSTATE - 1) 0)
          with sd_s := 0 |}]> (c_gdt c);
     c_ts := mkTaskstate (u32 (kstack + KSTACKSIZE)) (Z.shiftl SEG_KDATA 3) 0xFFFF |}.

(** [switchuvm] of the process in slot [p]. *)
Definition switchuvm (p : nat) : M unit :=
  pr <- getp p ;;
  if p_kstack pr =? 0 then panic "switchuvm: no kstack"
  else if p_pgdir pr =? 0 then panic "switchuvm: no pgdir"
  else
    pushcli ;;
    base <- gets sym_cpus ;;
    i <- mycpu ;;
    modc i (load_tss base i (p_kstack pr)) ;;
    ltr (Z.shiftl SEG_TSS 3) ;;
    lcr3 (V2P (p_pgdir pr)) ;;
    popcli.

Definition inituvm (pgdir init sz : Z) : M unit :=
  if PGSIZE <=? sz then panic "inituvm: more than a page"
  else
    page <- kalloc ;;
    memset_page page ;;
    mappages pgdir 0 PGSIZE (V2P page) (Z.lor PTE_W PTE_U) ;;
    modify (fun s => set_mem (memmove (mem s) page init sz) s).

Fixpoint allocuvm_loop (fuel : nat) (pgdir a oldsz newsz : Z) : M Z :=
  match fuel with
  | O => stop_with OutOfFuel
  | S fuel' =>
      if a <? newsz then
        page <- kalloc ;;
        if page =? 0 then
          cprintf (str "allocuvm out of memory" ++ [10]) [] ;;
          deallocuvm pgdir newsz oldsz ;;
          ret 0
        else
          memset_page page ;;
          r <- mappages pgdir a PGSIZE (V2P page) (Z.lor PTE_W PTE_U) ;;
          if r <? 0 then
            cprintf (str "allocuvm out of memory (2)" ++ [10]) [] ;;
            deallocuvm pgdir newsz oldsz ;;
            kfree page ;;
            ret 0
          else allocuvm_loop fuel' pgdir (u32 (a + PGSIZE)) oldsz newsz
      else ret newsz
  end.
Definition allocuvm (pgdir oldsz newsz : Z) : M Z :=
  if KERNBASE <=? newsz then ret 0
  else if newsz <? oldsz then ret oldsz
  else allocuvm_loop (S (S (Z.to_nat (newsz / PGSIZE)))) pgdir (PGROUNDUP oldsz) oldsz newsz.

Definition clearpteu (pgdir uva : Z) : M unit :=
  pte <- walkpgdir pgdir uva false ;;
  if pte =? 0 then panic "clearpteu"
  else
    e <- ldw pte ;;
    stw pte (Z.land e (u32 (Z.lnot PTE_U))).

Fixpoint copyuvm_loop (fuel : nat) (d pgdir i sz : Z) : M Z :=
  match fuel with
  | O => stop_with OutOfFuel
  | S fuel' =>
      if i <? sz then
        pte <- walkpgdir pgdir i false ;;
        if pte =? 0 then panic "copyuvm: pte should exist"
        else
          e <- ldw pte ;;
          if Z.land e PTE_P =? 0 then panic "copyuvm: page not present"
          else
            let pa := PTE_ADDR e in
            let flags := PTE_FLAGS e in
            page <- kalloc ;;
            if page =? 0 then freevm d ;; ret 0
            else
              modify (fun s => set_mem (memmove (mem s) page (P2V pa) PGSIZE) s) ;;
              r <- mappages d i PGSIZE (V2P page) flags ;;
              if r <? 0 then kfree page ;; freevm d ;; ret 0
              else copyuvm_loop fuel' d pgdir (u32 (i + PGSIZE)) sz
      else ret d
  end.
Definition copyuvm (pgdir sz : Z) : M Z :=
  d <- setupkvm ;;
  if d =? 0 then ret 0
  else copyuvm_loop (S (S (Z.to_nat (sz / PGSIZE)))) d pgdir 0 sz.

(** [uva2ka] reads [*pte] without a null test: a missing page table is a null dereference. *)
Definition uva2ka (pgdir uva : Z) : M Z :=
  pte <- walkpgdir pgdir uva false ;;
  if pte =? 0 then fault
  else
    e <- ldw pte ;;
    if Z.land e PTE_P =? 0 then ret 0
    else if Z.land e PTE_U =? 0 then ret 0
    else ret (P2V (PTE_ADDR e)).

(** [copyout] of the bytes [buf]; each turn reaches the next page boundary. *)
Fixpoint copyout_loop (fuel : nat) (pgdir va : Z) (buf : list Z) : M Z :=
  match fuel with
  | O => stop_with OutOfFuel
  | S fuel' =>
      if 0 <? Z.of_nat (length buf) then
        let va0 := PGROUNDDOWN va in
        pa0 <- uva2ka pgdir va0 ;;
        if pa0 =? 0 then ret (-1)
        else
          let n := Z.min (PGSIZE - (va - va0)) (Z.of_nat (length buf)) in
          modify (fun s => set_mem (stn (mem s) (pa0 + (va - va0)) (take (Z.to_nat n) buf)) s) ;;
          copyout_loop fuel' pgdir (u32 (va0 + PGSIZE)) (drop (Z.to_nat n) buf)
      else ret 0
  end.
Definition copyout (pgdir va : Z) (buf : list Z) : M Z :=
  copyout_loop (S (S (S (Z.to_nat (Z.of_nat (length buf) / PGSIZE))))) pgdir va buf.

(** ** User memory as the kernel reaches it

    A system call dereferences user pointers directly, through the page table
    in [cr3]: the processor's page walk, in supervisor mode with write
    protection on.  A missing or protected page is a fault. *)

Definition mmu (s : kstate) (va : Z) (write : bool) : option Z :=
  let pde := ld32 (mem s) (P2V (cr3 s) + 4 * PDX va) in
  if Z.land pde PTE_P =? 0 then None
  else
    let pte := ld32 (mem s) (P2V (PTE_ADDR pde) + 4 * PTX va) in
    if ((Z.land pte PTE_P =? 0) || (write && (Z.land pte PTE_W =? 0)))%bool then None
    else Some (P2V (PTE_ADDR pte) + va mod PGSIZE).

Definition uld8 (va : Z) : M Z := fun s =>
  match mmu s va false with Some a => Ok (mem s a) s | None => Stop Faulted s end.
Definition ust8 (va v : Z) : M unit := fun s =>
  match mmu s va true with Some a => Ok tt (set_mem (st8 (mem s) a v) s) | None => Stop Faulted s end.

Definition uld32 (va : Z) : M Z :=
  a <- uld8 va ;; b <- uld8 (va + 1) ;; c <- uld8 (va + 2) ;; d <- uld8 (va + 3) ;;
  ret (a + 256 * b + 65536 * c + 16777216 * d).
Definition ust16 (va v : Z) : M unit := ust8 va v ;; ust8 (va + 1) (v / 256).
Definition ust32 (va v : Z) : M unit :=
  ust8 va v ;; ust8 (va + 1) (v / 256) ;; ust8 (va + 2) (v / 65536) ;; ust8 (va + 3) (v / 16777216).
