(* ===== verification/VmSpec.v ===== *)
(** What the page-table code of [vm.c] does: a page directory and its tables
    represent a map from virtual page numbers to entries, which [walkpgdir],
    [mappages] and the address-space operations read and update as intended. *)

From S2P Require Import Prelude Params Mem CString Machine Spinlock Kalloc Console Vm.

(** ** Pages and entries *)

Definition present (e : Z) : bool := negb (Z.land e PTE_P =? 0).

Lemma present_odd e : present e = Z.odd e.
Proof.
  unfold present, PTE_P. change 1 with (Z.ones 1). rewrite Z.land_ones by lia. change (2 ^ 1) with 2.
  rewrite Zmod_odd. by destruct (Z.odd e).
Qed.

(** Pages of the allocator lie in the kernel's direct map. *)
Lemma kpage_range s v :
  KERNBASE <= sym_end s -> is_u32 v -> kpage s v ->
  v mod 4096 = 0 /\ KERNBASE <= v < KERNBASE + PHYSTOP.
Proof.
  unfold kpage, V2P, is_u32, PGSIZE, KERNBASE, PHYSTOP. intros He Hv (Ha & Hs & Hp).
  rewrite u32_small in Hp by (unfold is_u32; lia). lia.
Qed.

Lemma P2V_V2P v : KERNBASE <= v < KERNBASE + PHYSTOP -> P2V (V2P v) = v.
Proof.
  unfold V2P, P2V, KERNBASE, PHYSTOP. intros Hv.
  rewrite (u32_small (v - _)), u32_small by (unfold is_u32; lia). lia.
Qed.

(** An aligned address with flags: the parts come out again. *)
Lemma lor_flags pa f : pa mod 4096 = 0 -> 0 <= f < 4096 -> Z.lor pa f = pa + f.
Proof.
  intros Ha Hf. rewrite (Z.div_mod pa 4096), Ha, Z.add_0_r, Z.mul_comm by lia.
  change 4096 with (2 ^ 12). rewrite <- Z.shiftl_mul_pow2 by lia.
  rewrite lor_shiftl_add by (simpl; lia). by rewrite Z.shiftl_mul_pow2 by lia.
Qed.

Lemma PTE_ADDR_flags pa f :
  is_u32 pa -> pa mod 4096 = 0 -> 0 <= f < 4096 -> PTE_ADDR (pa + f) = pa.
Proof.
  intros Hu Ha Hf. rewrite PTE_ADDR_eq by (unfold is_u32 in *; zdiv). zdiv.
Qed.

(** The entry [mappages] writes. *)
Definition pte (pa perm : Z) : Z := Z.lor (Z.lor pa perm) PTE_P.

Lemma lor_small a b : 0 <= a < 4096 -> 0 <= b < 4096 -> 0 <= Z.lor a b < 4096.
Proof.
  intros Ha Hb. split; [apply Z.lor_nonneg; lia |].
  destruct (Z.eq_dec (Z.lor a b) 0) as [-> | Hne]; [lia |].
  change 4096 with (2 ^ 12). apply Z.log2_lt_pow2; [assert (0 <= Z.lor a b) by (apply Z.lor_nonneg; lia); lia |].
  rewrite Z.log2_lor by lia.
  apply Z.max_lub_lt; [destruct (Z.eq_dec a 0) as [-> | ?] | destruct (Z.eq_dec b 0) as [-> | ?]];
    try (simpl; lia); apply Z.log2_lt_pow2; lia.
Qed.

Lemma pte_split pa perm :
  pa mod 4096 = 0 -> 0 <= perm < 4096 -> pte pa perm = pa + Z.lor perm PTE_P.
Proof.
  intros Ha Hp. unfold pte. rewrite <- Z.lor_assoc. apply lor_flags; [done |].
  apply lor_small; [done | unfold PTE_P; lia].
Qed.

Lemma pte_present pa perm : present (pte pa perm) = true.
Proof.
  rewrite present_odd, <- Z.bit0_odd. unfold pte. rewrite Z.lor_spec. apply orb_true_r.
Qed.

Lemma pte_addr pa perm :
  is_u32 pa -> pa mod 4096 = 0 -> 0 <= perm < 4096 -> PTE_ADDR (pte pa perm) = pa.
Proof.
  intros Hu Ha Hp. rewrite pte_split by done. apply PTE_ADDR_flags; [done | done |].
  apply lor_small; [done | unfold PTE_P; lia].
Qed.

Lemma pte_range pa perm :
  is_u32 pa -> pa mod 4096 = 0 -> 0 <= perm < 4096 -> is_u32 (pte pa perm).
Proof.
  intros Hu Ha Hp. rewrite pte_split by done.
  pose proof (lor_small perm PTE_P Hp ltac:(unfold PTE_P; lia)). unfold is_u32 in *. zdiv.
Qed.

(** ** Address spaces *)

Definition pg (s : kstate) (v : Z) : Prop := kpage s v /\ is_u32 v.

(** The directory [pgdir] has the page tables [tab], by directory index; [l]
    are the free pages. *)
Record aspace (s : kstate) (pgdir : Z) (tab : Z -> option Z) (l : list Z) : Prop := {
  as_free : free_pages s l;
  as_bytes : bytes (mem s);
  as_dir : pg s pgdir;
  as_dirl : pgdir ∉ l;
  as_none : forall d, 0 <= d < 1024 -> tab d = None -> present (ld32 (mem s) (pgdir + 4 * d)) = false;
  as_some : forall d t, 0 <= d < 1024 -> tab d = Some t ->
    present (ld32 (mem s) (pgdir + 4 * d)) = true /\
    P2V (PTE_ADDR (ld32 (mem s) (pgdir + 4 * d))) = t /\ pg s t /\ t <> pgdir /\ t ∉ l;
  as_inj : forall d d' t, 0 <= d < 1024 -> 0 <= d' < 1024 ->
    tab d = Some t -> tab d' = Some t -> d = d' }.

(** The entry for a virtual page number, 0 where there is no table. *)
Definition pte_of (m : memory) (tab : Z -> option Z) (vpn : Z) : Z :=
  match tab (vpn / 1024) with Some t => ld32 m (t + 4 * (vpn mod 1024)) | None => 0 end.

(** Only the directory, its tables, the free list and [intena] flags differ. *)
Definition vm_frame (pgdir : Z) (tab : Z -> option Z) (s s' : kstate) : Prop :=
  (exists cs m f, s' = set_cpus cs (set_kmem_freelist f (set_mem m s))) /\
  forall v i, v mod 4096 = 0 -> 0 <= i < 4096 -> v <> pgdir ->
    (forall d, 0 <= d < 1024 -> tab d <> Some v) -> mem s' (v + i) = mem s (v + i).

Lemma pg_range s v :
  KERNBASE <= sym_end s -> pg s v -> v mod 4096 = 0 /\ KERNBASE <= v < KERNBASE + PHYSTOP.
Proof. intros He [Hk Hu]. by apply (kpage_range s). Qed.

Lemma pg_same s s' v : sym_end s' = sym_end s -> pg s v -> pg s' v.
Proof. unfold pg, kpage. by intros ->. Qed.

(** Two pages do not overlap. *)
Lemma pages_ne a b i : a mod 4096 = 0 -> b mod 4096 = 0 -> a <> b -> 0 <= i < 4096 ->
  b + i < a \/ a + 4096 <= b + i.
Proof. intros Ha Hb Hne Hi. destruct (pages_apart a b) as [? | ?]; unfold PGSIZE in *; lia. Qed.

Lemma free_pages_mem s l m :
  free_pages s l -> (forall v i, v ∈ l -> 0 <= i < 4 -> m (v + i) = mem s (v + i)) ->
  free_pages (set_mem m s) l.
Proof.
  intros [Hc Hp Hn Hk He] Hm.
  split; [| done | done | by apply (kmem_ready_frame (set_mem m)) | done].
  eapply chain_ext; [| done]. intros x Hx. apply ld32_ext. intros i Hi. symmetry. by apply Hm.
Qed.

(** Stores outside the directory and the free pages keep an address space. *)
Lemma aspace_mem s pgdir tab l m :
  aspace s pgdir tab l -> bytes m ->
  (forall i, 0 <= i < 4096 -> m (pgdir + i) = mem s (pgdir + i)) ->
  (forall v i, v ∈ l -> 0 <= i < 4 -> m (v + i) = mem s (v + i)) ->
  aspace (set_mem m s) pgdir tab l.
Proof.
  intros [Hf Hb Hd Hdl Hno Hso Hin] Hm Hdir Hfr.
  assert (E : forall d, 0 <= d < 1024 -> ld32 m (pgdir + 4 * d) = ld32 (mem s) (pgdir + 4 * d)).
  { intros d Hd'. apply ld32_ext. intros i Hi. rewrite <- !Z.add_assoc. apply Hdir. lia. }
  split; try done; [by apply free_pages_mem | |]; simpl.
  - intros d Hr Hn. rewrite E by done. by apply Hno.
  - intros d t Hr Ht. rewrite E by done. by apply Hso.
Qed.

Lemma vm_frame_refl pgdir tab s : vm_frame pgdir tab s s.
Proof. split; [| done]. exists (cpus s), (mem s), (kmem_freelist s). by destruct s. Qed.

Lemma vm_frame_trans pgdir tab tab' s1 s2 s3 :
  (forall d t, 0 <= d < 1024 -> tab d = Some t -> tab' d = Some t) ->
  vm_frame pgdir tab s1 s2 -> vm_frame pgdir tab' s2 s3 -> vm_frame pgdir tab' s1 s3.
Proof.
  intros Hmono [(cs & m & f & ->) H1] [(cs' & m' & f' & ->) H2]. split; [by exists cs', m', f' |].
  intros v i Hv Hi Hne Ht. rewrite H2 by done. apply H1; try done.
  intros d Hd E. by apply (Ht d Hd), Hmono.
Qed.

(** [kalloc] with pages left. *)
Lemma kalloc_take s x l :
  free_pages s (x :: l) ->
  exists cs f, kalloc s = Ok x (set_cpus cs (set_kmem_freelist f s)) /\
    free_pages (set_cpus cs (set_kmem_freelist f s)) l /\ x <> 0.
Proof.
  intros Hf. destruct (kalloc_refines s (x :: l) Hf) as (s' & Hk & Hf' & Hx & _).
  pose proof (kalloc_ok s (fp_ready _ _ Hf)) as Hok. rewrite Hk in Hok. simplify_eq.
  destruct (ktouch_eq s) as [cs Hcs].
  assert (exists f, kalloced (ktouch s) = set_cpus cs (set_kmem_freelist f s)) as [f Hkf].
  { rewrite Hcs. unfold kalloced. simpl. destruct (_ =? 0); [| by eexists].
    exists (kmem_freelist s). by destruct s. }
  exists cs, f. rewrite <- Hkf. done.
Qed.

Lemma kalloc_none s :
  free_pages s [] ->
  exists cs f, kalloc s = Ok 0 (set_cpus cs (set_kmem_freelist f s)) /\
    free_pages (set_cpus cs (set_kmem_freelist f s)) [].
Proof.
  intros Hf. destruct (kalloc_refines s [] Hf) as [Hk Hf']. destruct (ktouch_eq s) as [cs Hcs].
  assert (ktouch s = set_cpus cs (set_kmem_freelist (kmem_freelist s) s)) as E.
  { rewrite Hcs. by destruct s. }
  rewrite E in Hk, Hf'. by eexists _, _.
Qed.

(** ** [walkpgdir] *)

Lemma PDX_vpn va : is_u32 va -> PDX va = (va / 4096) / 1024 /\ 0 <= PDX va < 1024.
Proof. intros Hu. rewrite PDX_eq. unfold is_u32 in *. zdiv. Qed.

Lemma PTX_vpn va : PTX va = (va / 4096) mod 1024 /\ 0 <= PTX va < 1024.
Proof. rewrite PTX_eq. split; [done | zdiv]. Qed.

Section Walk.
Context (s : kstate) (pgdir : Z) (tab : Z -> option Z) (l : list Z) (va : Z).
Context (Has : aspace s pgdir tab l) (Hva : is_u32 va).

Lemma walk_found t alloc :
  tab (PDX va) = Some t -> walkpgdir pgdir va alloc s = Ok (t + 4 * PTX va) s.
Proof.
  intros Ht. destruct (as_some _ _ _ _ Has _ _ (proj2 (PDX_vpn va Hva)) Ht) as (Hp & Haddr & _).
  unfold walkpgdir, ldw. rewrite bind_gets. unfold present in Hp. by rewrite Hp, Haddr.
Qed.

Lemma walk_missing : tab (PDX va) = None -> walkpgdir pgdir va false s = Ok 0 s.
Proof.
  intros Ht. pose proof (as_none _ _ _ _ Has _ (proj2 (PDX_vpn va Hva)) Ht) as Hp.
  unfold walkpgdir, ldw. rewrite bind_gets. unfold present in Hp. by rewrite Hp.
Qed.
End Walk.

Lemma next_page s pgdir tab x l :
  aspace s pgdir tab (x :: l) ->
  pg s x /\ x <> pgdir /\ (x ∉ l) /\ KERNBASE <= sym_end s.
Proof.
  intros Has. pose proof (as_free _ _ _ _ Has) as [_ Hp Hn _ He].
  inversion Hp; subst. inversion Hn; subst. split_and!; try done.
  intros ->. apply (as_dirl _ _ _ _ Has). by left.
Qed.

(** The memory after a new table [x] for directory index [d]. *)
Definition new_table (m : memory) (pgdir d x : Z) : memory :=
  st32 (memset m x 0 PGSIZE) (pgdir + 4 * d) (V2P x + 7).

Section NewTable.
Context (s : kstate) (pgdir : Z) (tab : Z -> option Z) (x : Z) (l : list Z) (d : Z).
Context (Has : aspace s pgdir tab (x :: l)) (Hd : 0 <= d < 1024) (Hnone : tab d = None).
Let m' := new_table (mem s) pgdir d x.

Lemma new_table_other v i :
  v mod 4096 = 0 -> 0 <= i < 4096 -> v <> x -> v <> pgdir -> m' (v + i) = mem s (v + i).
Proof.
  intros Hv Hi Hx Hp. destruct (next_page _ _ _ _ _ Has) as (Hpx & _ & _ & He).
  destruct (pg_range s x He Hpx) as [Hx0 _].
  destruct (pg_range s pgdir He (as_dir _ _ _ _ Has)) as [Hd0 _].
  unfold m', new_table. pose proof (pages_ne pgdir v i Hd0 Hv ltac:(congruence) Hi).
  pose proof (pages_ne x v i Hx0 Hv ltac:(congruence) Hi).
  rewrite st32_ne, memset_spec by (unfold PGSIZE; lia). unfold PGSIZE.
  by destruct (Z.leb_spec x (v + i)), (Z.ltb_spec (v + i) (x + 4096)); simpl; try lia.
Qed.

Lemma new_table_zero i : 0 <= i < 4096 -> m' (x + i) = 0.
Proof.
  intros Hi. destruct (next_page _ _ _ _ _ Has) as (Hpx & Hne & _ & He).
  destruct (pg_range s x He Hpx) as [Hx0 _].
  destruct (pg_range s pgdir He (as_dir _ _ _ _ Has)) as [Hd0 _].
  unfold m', new_table. pose proof (pages_ne pgdir x i Hd0 Hx0 ltac:(congruence) Hi).
  rewrite st32_ne, memset_spec by (unfold PGSIZE; lia). unfold PGSIZE.
  by destruct (Z.leb_spec x (x + i)), (Z.ltb_spec (x + i) (x + 4096)); simpl; try lia.
Qed.

Lemma new_table_pde d' :
  0 <= d' < 1024 ->
  ld32 m' (pgdir + 4 * d') = if decide (d' = d) then V2P x + 7 else ld32 (mem s) (pgdir + 4 * d').
Proof.
  intros Hd'. destruct (next_page _ _ _ _ _ Has) as (Hpx & Hne & _ & He).
  destruct (pg_range s x He Hpx) as [Hx0 Hxr].
  destruct (pg_range s pgdir He (as_dir _ _ _ _ Has)) as [Hd0 _].
  unfold m', new_table. case_decide as E.
  - subst. rewrite ld32_st32. apply u32_small. unfold V2P. rewrite u32_small;
      unfold is_u32, KERNBASE, PHYSTOP in *; lia.
  - rewrite ld32_st32_ne by lia. apply ld32_ext. intros i Hi. rewrite <- Z.add_assoc.
    pose proof (pages_ne x pgdir (4 * d' + i) Hx0 Hd0 ltac:(congruence) ltac:(lia)).
    rewrite memset_spec by (unfold PGSIZE; lia). unfold PGSIZE.
    by destruct (Z.leb_spec x (pgdir + (4 * d' + i))), (Z.ltb_spec (pgdir + (4 * d' + i)) (x + 4096));
      simpl; try lia.
Qed.

Lemma new_table_entry : present (V2P x + 7) = true /\ P2V (PTE_ADDR (V2P x + 7)) = x.
Proof.
  destruct (next_page _ _ _ _ _ Has) as (Hpx & _ & _ & He). destruct (pg_range s x He Hpx) as [Hx0 Hxr].
  assert (V2P x = x - KERNBASE) as Hv.
  { unfold V2P. apply u32_small. unfold is_u32, KERNBASE, PHYSTOP in *. lia. }
  split.
  - rewrite present_odd, Hv. unfold KERNBASE. rewrite Z.odd_add, Z.odd_sub. change (Z.odd 7) with true.
    change (Z.odd 0x80000000) with false. rewrite (Z.div_mod x 4096), Hx0, Z.add_0_r by lia.
    by rewrite Z.odd_mul.
  - rewrite PTE_ADDR_flags; [by apply P2V_V2P | | | lia]; rewrite Hv;
      unfold is_u32, KERNBASE, PHYSTOP in *; zdiv.
Qed.

Lemma new_table_aspace cs f :
  free_pages (set_cpus cs (set_kmem_freelist f s)) l ->
  aspace (set_mem m' (set_cpus cs (set_kmem_freelist f s))) pgdir (fupd tab d (Some x)) l.
Proof.
  intros Hf. destruct (next_page _ _ _ _ _ Has) as (Hpx & Hxd & Hxl & He).
  destruct new_table_entry as [Hep Hea]. pose proof Has as [_ Hb Hdir Hdl Hno Hso Hin].
  assert (Hl : forall v, v ∈ l -> v mod 4096 = 0).
  { intros v Hv. pose proof (fp_pages _ _ Hf) as Hp. rewrite Forall_forall in Hp.
    by destruct (Hp v Hv) as [[Hk _] _]. }
  split.
  - apply free_pages_mem; [done |]. intros v i Hv Hi. simpl. apply new_table_other; [by apply Hl | lia | |].
    + by intros ->.
    + intros ->. apply Hdl. by right.
  - simpl. apply st32_bytes, memset_bytes; [unfold PGSIZE; lia | done].
  - done.
  - intros Hin'. apply Hdl. by right.
  - intros d' Hd' Hn. simpl. rewrite new_table_pde by done. unfold fupd in Hn.
    case_decide as E; [done |]. by apply Hno.
  - intros d' t Hd' Ht. simpl. rewrite new_table_pde by done. unfold fupd in Ht. case_decide as E.
    + injection Ht as <-. split_and!; done.
    + destruct (Hso d' t Hd' Ht) as (? & ? & ? & ? & Htl). split_and!; try done.
      intros Hin'. apply Htl. by right.
  - intros d1 d2 t H1 H2 E1 E2. 
    assert (Hold : forall d0, 0 <= d0 < 1024 -> tab d0 <> Some x).
    { intros d0 H0 E0. destruct (Hso d0 x H0 E0) as (_ & _ & _ & _ & Hx). destruct Hx. by left. }
    unfold fupd in E1, E2. repeat case_decide; simplify_eq; [done | | | by eapply Hin];
      exfalso; by eapply Hold; [| eassumption].
Qed.

Lemma new_table_ptes vpn :
  0 <= vpn < 1048576 -> pte_of m' (fupd tab d (Some x)) vpn = pte_of (mem s) tab vpn.
Proof.
  intros Hv. unfold pte_of, fupd. case_decide as E.
  - rewrite E, Hnone. rewrite <- (ld32_ext (fun _ => 0)); [done |]. intros i Hi.
    rewrite <- Z.add_assoc, new_table_zero; [done |]. zdiv.
  - destruct (tab (vpn / 1024)) as [t |] eqn:Ht; [| done].
    destruct (next_page _ _ _ _ _ Has) as (Hpx & Hxd & Hxl & He).
    destruct (as_some _ _ _ _ Has (vpn / 1024) t ltac:(zdiv) Ht) as (_ & _ & Hpt & Htd & Htl).
    apply ld32_ext. intros i Hi. rewrite <- Z.add_assoc. apply new_table_other; [| zdiv | | done].
    + by apply (pg_range s t).
    + intros ->. apply Htl. by left.
Qed.
End NewTable.

Lemma lor_pde x : x mod 4096 = 0 -> Z.lor (Z.lor (Z.lor x PTE_P) PTE_W) PTE_U = x + 7.
Proof.
  intros Hx. rewrite <- !Z.lor_assoc. change (Z.lor PTE_P (Z.lor PTE_W PTE_U)) with 7.
  by apply lor_flags.
Qed.

(** [walkpgdir] with [alloc] set: where there is no table yet, a fresh zeroed one
    is entered, which changes no entry; without free pages it returns 0. *)
Lemma walk_new s pgdir tab x l va :
  aspace s pgdir tab (x :: l) -> is_u32 va -> tab (PDX va) = None ->
  exists s', walkpgdir pgdir va true s = Ok (x + 4 * PTX va) s' /\
    aspace s' pgdir (fupd tab (PDX va) (Some x)) l /\
    vm_frame pgdir (fupd tab (PDX va) (Some x)) s s' /\
    forall vpn, 0 <= vpn < 1048576 ->
      pte_of (mem s') (fupd tab (PDX va) (Some x)) vpn = pte_of (mem s) tab vpn.
Proof.
  intros Has Hva Hnone. destruct (PDX_vpn va Hva) as [_ Hd].
  pose proof (as_none _ _ _ _ Has _ Hd Hnone) as Hp.
  destruct (kalloc_take s x l (as_free _ _ _ _ Has)) as (cs & f & Hk & Hf & Hx).
  destruct (next_page s pgdir tab x l Has) as (Hpx & _ & _ & He).
  destruct (pg_range s x He Hpx) as [Hx0 Hxr].
  assert (V2P x mod 4096 = 0) as Hv0.
  { unfold V2P. rewrite u32_small; unfold is_u32, KERNBASE, PHYSTOP in *; zdiv. }
  eexists. split_and!.
  - unfold walkpgdir, ldw. rewrite bind_gets. unfold present in Hp. rewrite Hp. cbn [negb].
    step by (exact Hk). rewrite (proj2 (Z.eqb_neq _ _) Hx). unfold memset_page, stw.
    rewrite !bind_modify, lor_pde by done. reflexivity.
  - exact (new_table_aspace s pgdir tab x l (PDX va) Has Hd cs f Hf).
  - split; [by eexists cs, _, f |]. intros v i Hv Hi Hne Ht.
    apply (new_table_other s pgdir tab x l (PDX va) Has); try done.
    intros ->. apply (Ht (PDX va) Hd). by rewrite fupd_eq.
  - by apply (new_table_ptes s pgdir tab x l).
Qed.

(** ** Growing an address space *)

(** [s'] extends the address space of [s]: tables are added, taken from the free
    pages in order, and nothing outside directory and tables changes. *)
Record grows (pgdir : Z) (s : kstate) (tab : Z -> option Z) (l : list Z)
    (s' : kstate) (tab' : Z -> option Z) (l' : list Z) : Prop := {
  gr_as : aspace s' pgdir tab' l';
  gr_frame : vm_frame pgdir tab' s s';
  gr_mono : forall d t, 0 <= d < 1024 -> tab d = Some t -> tab' d = Some t;
  gr_new : forall d t, 0 <= d < 1024 -> tab' d = Some t -> tab d = Some t \/ t ∈ l;
  gr_free : exists u, l = u ++ l' }.

Lemma grows_refl pgdir s tab l : aspace s pgdir tab l -> grows pgdir s tab l s tab l.
Proof.
  intros Has. split; [done | apply vm_frame_refl | done | by left | by exists []].
Qed.

Lemma grows_trans pgdir s1 t1 l1 s2 t2 l2 s3 t3 l3 :
  grows pgdir s1 t1 l1 s2 t2 l2 -> grows pgdir s2 t2 l2 s3 t3 l3 -> grows pgdir s1 t1 l1 s3 t3 l3.
Proof.
  intros [Ha Hf Hm Hn [u Hu]] [Ha' Hf' Hm' Hn' [u' Hu']]. split; [done | | | |].
  - by eapply vm_frame_trans.
  - intros d t Hd Ht. by apply Hm', Hm.
  - intros d t Hd Ht. destruct (Hn' d t Hd Ht) as [Ht2 | Hin]; [by apply Hn |].
    right. rewrite Hu. apply elem_of_app. by right.
  - exists (u ++ u'). by rewrite <- app_assoc, <- Hu'.
Qed.

Lemma aspace_end s pgdir tab l : aspace s pgdir tab l -> KERNBASE <= sym_end s.
Proof. intros Has. apply (fp_end _ _ (as_free _ _ _ _ Has)). Qed.

Lemma aspace_table s pgdir tab l d t :
  aspace s pgdir tab l -> 0 <= d < 1024 -> tab d = Some t ->
  t mod 4096 = 0 /\ KERNBASE <= t < KERNBASE + PHYSTOP.
Proof.
  intros Has Hd Ht. destruct (as_some _ _ _ _ Has d t Hd Ht) as (_ & _ & Hp & _).
  by apply (pg_range s); [eapply aspace_end |].
Qed.

(** [walkpgdir] with [alloc] set finds or makes the table, unless there are no
    free pages left. *)
Lemma walk_alloc s pgdir tab l va :
  aspace s pgdir tab l -> is_u32 va ->
  (exists t s' tab' l', walkpgdir pgdir va true s = Ok (t + 4 * PTX va) s' /\
     grows pgdir s tab l s' tab' l' /\ tab' (PDX va) = Some t /\
     forall vpn, 0 <= vpn < 1048576 -> pte_of (mem s') tab' vpn = pte_of (mem s) tab vpn) \/
  (exists s', walkpgdir pgdir va true s = Ok 0 s' /\ l = [] /\
     grows pgdir s tab [] s' tab [] /\ mem s' = mem s).
Proof.
  intros Has Hva. destruct (tab (PDX va)) as [t |] eqn:Ht.
  { left. exists t, s, tab, l. split_and!; [by eapply walk_found | by apply grows_refl | done | done]. }
  destruct l as [| x l].
  - right. destruct (kalloc_none s (as_free _ _ _ _ Has)) as (cs & f & Hk & Hf).
    pose proof (as_none _ _ _ _ Has _ (proj2 (PDX_vpn va Hva)) Ht) as Hp.
    exists (set_cpus cs (set_kmem_freelist f s)). split_and!; [| done | | done].
    + unfold walkpgdir, ldw. rewrite bind_gets. unfold present in Hp. rewrite Hp. cbn [negb].
      step by (exact Hk). reflexivity.
    + destruct Has as [_ Hb Hd Hdl Hno Hso Hin]. split; [by split | | done | by left | by exists []].
      split; [| done]. exists cs, (mem s), f. by destruct s.
  - left. destruct (walk_new s pgdir tab x l va Has Hva Ht) as (s' & Hw & Has' & Hfr & Hpt).
    exists x, s', (fupd tab (PDX va) (Some x)), l. split_and!; [done | | by rewrite fupd_eq | done].
    split; [done | done | | | by exists [x]].
    + intros d t Hd Hdt. rewrite fupd_ne; [done |]. intros ->. congruence.
    + intros d t Hd Hdt. unfold fupd in Hdt. case_decide; [| by left]. right. simplify_eq. by left.
Qed.

(** Storing an entry in a table. *)
Definition put_pte (t vpn v : Z) (s : kstate) : kstate :=
  set_mem (st32 (mem s) (t + 4 * (vpn mod 1024)) v) s.

Lemma put_pte_ok s pgdir tab l t vpn v :
  aspace s pgdir tab l -> 0 <= vpn < 1048576 -> tab (vpn / 1024) = Some t -> is_u32 v ->
  grows pgdir s tab l (put_pte t vpn v s) tab l /\
  forall vpn', 0 <= vpn' < 1048576 ->
    pte_of (mem (put_pte t vpn v s)) tab vpn' = if decide (vpn' = vpn) then v else pte_of (mem s) tab vpn'.
Proof.
  intros Has Hv Ht Hu. pose proof (aspace_end _ _ _ _ Has) as He.
  assert (Hd : 0 <= vpn / 1024 < 1024) by zdiv.
  destruct (aspace_table _ _ _ _ _ _ Has Hd Ht) as [Ht0 _].
  destruct (pg_range s pgdir He (as_dir _ _ _ _ Has)) as [Hp0 _].
  destruct (as_some _ _ _ _ Has _ _ Hd Ht) as (_ & _ & _ & Htd & Htl).
  assert (Hout : forall w i, w mod 4096 = 0 -> w <> t -> 0 <= i < 4096 ->
    mem (put_pte t vpn v s) (w + i) = mem s (w + i)).
  { intros w i Hw Hne Hi. simpl. apply st32_ne.
    pose proof (pages_ne t w i Ht0 Hw ltac:(congruence) Hi). zdiv. }
  split; [split; [| | done | by left | by exists []] |].
  - apply aspace_mem; [done | by apply st32_bytes, Has | |].
    + intros i Hi. by apply Hout.
    + intros w i Hw Hi. apply Hout; [| by intros -> | lia].
      pose proof (fp_pages _ _ (as_free _ _ _ _ Has)) as Hp. rewrite Forall_forall in Hp.
      by destruct (Hp w Hw) as [[Hk _] _].
  - split; [exists (cpus s), (st32 (mem s) (t + 4 * (vpn mod 1024)) v), (kmem_freelist s); by destruct s |].
    intros w i Hw Hi Hne Hno. apply Hout; [done | | done]. intros ->. by apply (Hno _ Hd).
  - intros vpn' Hv'. unfold pte_of, put_pte. simpl.
    destruct (tab (vpn' / 1024)) as [t' |] eqn:Ht'; [| case_decide; congruence].
    case_decide as E; [subst; simplify_eq; rewrite ld32_st32; by apply u32_small |].
    assert (Hd' : 0 <= vpn' / 1024 < 1024) by zdiv.
    destruct (aspace_table _ _ _ _ _ _ Has Hd' Ht') as [Ht0' _]. apply ld32_st32_ne.
    destruct (decide (t' = t)) as [-> | Hne].
    + pose proof (as_inj _ _ _ _ Has _ _ _ Hd' Hd Ht' Ht). zdiv.
    + pose proof (pages_apart t' t Ht0' Ht0 Hne). unfold PGSIZE in *. zdiv.
Qed.

(** ** [mappages] *)

Lemma vpn_va v : 0 <= v < 1048576 ->
  is_u32 (4096 * v) /\ PDX (4096 * v) = v / 1024 /\ PTX (4096 * v) = v mod 1024.
Proof.
  intros Hv. assert (is_u32 (4096 * v)) as Hu by (unfold is_u32; lia). split; [done |].
  rewrite (proj1 (PDX_vpn _ Hu)), (proj1 (PTX_vpn _)).
  replace (4096 * v / 4096) with v by zdiv. done.
Qed.

(** One turn of the loop: the entry is written, or there is no page for its table. *)
Lemma map_one (K : M Z) s pgdir tab l v0 pa perm :
  aspace s pgdir tab l -> 0 <= v0 < 1048576 ->
  is_u32 pa -> pa mod 4096 = 0 -> 0 <= perm < 4096 ->
  present (pte_of (mem s) tab v0) = false ->
  let body := (
    p <- walkpgdir pgdir (4096 * v0) true ;;
    if p =? 0 then ret (-1)
    else
      e <- ldw p ;;
      if negb (Z.land e PTE_P =? 0) then panic "remap"
      else stw p (Z.lor (Z.lor pa perm) PTE_P) ;; K) in
  (exists s1 tab1 l1, body s = K s1 /\ grows pgdir s tab l s1 tab1 l1 /\
     forall vpn, 0 <= vpn < 1048576 -> pte_of (mem s1) tab1 vpn =
       if decide (vpn = v0) then pte pa perm else pte_of (mem s) tab vpn) \/
  (exists s1, body s = Ok (-1) s1 /\ l = [] /\ grows pgdir s tab [] s1 tab [] /\ mem s1 = mem s).
Proof.
  intros Has Hv Hpa Hpm Hperm Hno body. destruct (vpn_va v0 Hv) as (Hu & Hdx & Htx).
  destruct (walk_alloc s pgdir tab l (4096 * v0) Has Hu)
    as [(t & s1 & tab1 & l1 & Hw & Hg1 & Ht1 & Hpt1) | (s1 & Hw & -> & Hg1 & Hm1)].
  2: { right. exists s1. split_and!; [unfold body; by step by (exact Hw) | done | done | done]. }
  left. rewrite Hdx in Ht1. rewrite Htx in Hw. pose proof (gr_as _ _ _ _ _ _ _ Hg1) as Has1.
  assert (Hd : 0 <= v0 / 1024 < 1024) by zdiv.
  destruct (aspace_table _ _ _ _ _ _ Has1 Hd Ht1) as [Ht0 Htr].
  pose proof (pte_range pa perm Hpa Hpm Hperm) as Hue.
  destruct (put_pte_ok s1 pgdir tab1 l1 t v0 (pte pa perm) Has1 Hv Ht1 Hue) as [Hg2 Hpt2].
  exists (put_pte t v0 (pte pa perm) s1), tab1, l1. split_and!.
  - unfold body. step by (exact Hw). rewrite (proj2 (Z.eqb_neq _ 0)) by (unfold KERNBASE in *; zdiv).
    unfold ldw. rewrite bind_gets.
    assert (ld32 (mem s1) (t + 4 * (v0 mod 1024)) = pte_of (mem s) tab v0) as ->.
    { rewrite <- Hpt1 by done. unfold pte_of. by rewrite Ht1. }
    unfold present in Hno. rewrite Hno. unfold stw. by rewrite bind_modify.
  - by eapply grows_trans.
  - intros vpn Hvpn. rewrite Hpt2 by done. case_decide; [done | by apply Hpt1].
Qed.

(** Pages [v0 .. v0 + n - 1] mapped to consecutive frames from [pa]. *)
Definition remapped (f : Z -> Z) (v0 pa perm : Z) (n : nat) (vpn : Z) : Z :=
  if decide (v0 <= vpn < v0 + Z.of_nat n) then pte (pa + 4096 * (vpn - v0)) perm else f vpn.

Lemma mappages_loop_ok n : forall fuel s pgdir tab l v0 pa perm,
  (n < fuel)%nat -> aspace s pgdir tab l ->
  0 <= v0 -> v0 + Z.of_nat n < 1048576 ->
  0 <= pa -> pa mod 4096 = 0 -> pa + 4096 * Z.of_nat n < 4294967296 -> 0 <= perm < 4096 ->
  (forall vpn, v0 <= vpn <= v0 + Z.of_nat n -> present (pte_of (mem s) tab vpn) = false) ->
  exists r s' tab' l' m,
    mappages_loop fuel pgdir (4096 * v0) (4096 * (v0 + Z.of_nat n)) pa perm s = Ok r s' /\
    grows pgdir s tab l s' tab' l' /\
    (r = 0 /\ m = S n \/ r = -1 /\ (m <= n)%nat /\ l' = []) /\
    forall vpn, 0 <= vpn < 1048576 ->
      pte_of (mem s') tab' vpn = remapped (pte_of (mem s) tab) v0 pa perm m vpn.
Proof.
  induction n as [| n IH]; intros fuel s pgdir tab l v0 pa perm Hfuel Has Hv0 Hvn Hpa Hpm Hpn Hperm Hno;
    (destruct fuel as [| fuel]; [lia |]); cbn [mappages_loop];
    match goal with |- context [stw _ _ ;; ?k] => set (K := k) end;
    (destruct (map_one K s pgdir tab l v0 pa perm Has ltac:(lia) ltac:(unfold is_u32; lia) Hpm Hperm
       (Hno v0 ltac:(lia))) as [(s1 & tab1 & l1 & Hrun & Hg1 & Hpt1) | (s1 & Hrun & -> & Hg1 & Hm1)];
     [| exists (-1), s1, tab, [], 0%nat; split_and!;
        [exact Hrun | done | right; split_and!; [done | lia | done] |];
        intros vpn Hvpn; unfold remapped; rewrite decide_False, Hm1 by lia; done]).
  - exists 0, s1, tab1, l1, 1%nat. split_and!; [| done | by left |].
    + etrans; [exact Hrun |]. unfold K. by rewrite (proj2 (Z.eqb_eq _ _)) by lia.
    + intros vpn Hvpn. rewrite Hpt1 by done. unfold remapped.
      repeat case_decide; try lia; try done. subst. f_equal. lia.
  - destruct (IH fuel s1 pgdir tab1 l1 (v0 + 1) (pa + 4096) perm)
      as (r & s' & tab' & l' & m & Hrun' & Hg & Hr & Hpt); try lia; [apply Hg1 | zdiv | |].
    { intros vpn Hvpn. rewrite Hpt1, decide_False by lia. apply Hno. lia. }
    exists r, s', tab', l', (S m). split_and!.
    + etrans; [exact Hrun |]. unfold K. rewrite (proj2 (Z.eqb_neq _ _)) by lia.
      unfold PGSIZE. rewrite !u32_small by (unfold is_u32; lia). rewrite <- Hrun'. f_equal; lia.
    + by eapply grows_trans.
    + destruct Hr as [[-> ->] | (-> & Hm & ->)]; [by left | right; split_and!; [done | lia | done]].
    + intros vpn Hvpn. rewrite Hpt by done. unfold remapped. rewrite Hpt1 by done.
      repeat case_decide; try lia; subst; try done; f_equal; lia.
Qed.

(** The page number of the last page of a range, counted from the first. *)
Definition extra_pages (va size : Z) : nat := Z.to_nat ((va + size - 1) / 4096 - va / 4096).

Lemma mappages_ok s pgdir tab l va size pa perm :
  aspace s pgdir tab l -> 0 <= va -> 0 < size -> va + size <= 4294967296 ->
  0 <= pa -> pa mod 4096 = 0 -> pa + 4096 * Z.of_nat (extra_pages va size) < 4294967296 ->
  0 <= perm < 4096 ->
  (forall vpn, va / 4096 <= vpn <= (va + size - 1) / 4096 -> present (pte_of (mem s) tab vpn) = false) ->
  exists r s' tab' l' m,
    mappages pgdir va size pa perm s = Ok r s' /\ grows pgdir s tab l s' tab' l' /\
    (r = 0 /\ m = S (extra_pages va size) \/ r = -1 /\ (m <= extra_pages va size)%nat /\ l' = []) /\
    forall vpn, 0 <= vpn < 1048576 ->
      pte_of (mem s') tab' vpn = remapped (pte_of (mem s) tab) (va / 4096) pa perm m vpn.
Proof.
  intros Has Hva Hsz Hend Hpa Hpm Hpn Hperm Hno. unfold mappages.
  rewrite (u32_small (va + size - 1)), !PGROUNDDOWN_eq by (unfold is_u32; lia).
  assert (Hle : va / 4096 <= (va + size - 1) / 4096) by zdiv.
  replace (4096 * ((va + size - 1) / 4096))
    with (4096 * (va / 4096 + Z.of_nat (extra_pages va size))) by (unfold extra_pages; lia).
  apply mappages_loop_ok; try done; unfold extra_pages, PGSIZE in *.
  - rewrite u32_small by (unfold is_u32; zdiv). zdiv.
  - zdiv.
  - zdiv.
  - intros vpn Hvpn. apply Hno. lia.
Qed.

(** ** The processor's view *)

(** A page walk of the processor reads the entry of the page. *)
Lemma mmu_pte s pgdir tab l va w :
  aspace s pgdir tab l -> cr3 s = V2P pgdir -> is_u32 va ->
  mmu s va w =
    let e := pte_of (mem s) tab (va / 4096) in
    if (negb (present e) || (w && (Z.land e PTE_W =? 0)))%bool then None
    else Some (P2V (PTE_ADDR e) + va mod 4096).
Proof.
  intros Has Hcr Hva. destruct (PDX_vpn va Hva) as [Hdx Hd]. unfold mmu, pte_of. rewrite Hcr.
  rewrite P2V_V2P by (apply (pg_range s); [by eapply aspace_end | apply Has]).
  rewrite <- Hdx, <- (proj1 (PTX_vpn va)). cbv zeta.
  destruct (tab (PDX va)) as [t |] eqn:Ht.
  - destruct (as_some _ _ _ _ Has _ _ Hd Ht) as (Hp & Haddr & _). unfold present in Hp.
    rewrite <- (negb_involutive (Z.land (ld32 (mem s) (pgdir + 4 * PDX va)) PTE_P =? 0)), Hp, Haddr.
    unfold present. by rewrite negb_involutive.
  - pose proof (as_none _ _ _ _ Has _ Hd Ht) as Hp. unfold present in *.
    apply negb_false_iff in Hp. by rewrite Hp.
Qed.

Lemma pte_writable pa perm : pa mod 4096 = 0 -> Z.land (pte pa perm) PTE_W = Z.land perm PTE_W.
Proof.
  intros Hm. unfold pte. rewrite !Z.land_lor_distr_l.
  replace (Z.land pa PTE_W) with (Z.land (Z.land pa (Z.ones 12)) PTE_W).
  - rewrite Z.land_ones by lia. change (2 ^ 12) with 4096. rewrite Hm. by rewrite Z.lor_0_l, Z.lor_0_r.
  - by rewrite <- Z.land_assoc.
Qed.

(** C18: [mappages] maps exactly what it is asked to map. From an address space in
    which the pages of [va .. va + size - 1] are unmapped it returns 0 with every
    address of those pages translated, by the processor's page walk, to the
    corresponding address from physical address [pa] on (for writing only if
    [perm] has [PTE_W]), and every other address translated as before; or it
    returns -1 because the allocator ran out of pages. It never panics, and no
    page outside the directory and its tables changes. *)
Theorem mappages_spec s pgdir tab l va size pa perm :
  aspace s pgdir tab l -> cr3 s = V2P pgdir ->
  0 <= va -> 0 < size -> va + size <= 4294967296 ->
  0 <= pa -> pa mod 4096 = 0 -> pa + 4096 * Z.of_nat (extra_pages va size) < 4294967296 ->
  0 <= perm < 4096 ->
  (forall vpn, va / 4096 <= vpn <= (va + size - 1) / 4096 -> present (pte_of (mem s) tab vpn) = false) ->
  exists r s' tab' l',
    mappages pgdir va size pa perm s = Ok r s' /\ grows pgdir s tab l s' tab' l' /\
    (r = 0 \/ r = -1 /\ l' = []) /\
    forall a w, is_u32 a -> r = 0 ->
      mmu s' a w =
        if decide (va / 4096 <= a / 4096 <= (va + size - 1) / 4096) then
          if (w && (Z.land perm PTE_W =? 0))%bool then None
          else Some (P2V (pa + 4096 * (a / 4096 - va / 4096)) + a mod 4096)
        else mmu s a w.
Proof.
  intros Has Hcr Hva Hsz Hend Hpa Hpm Hpn Hperm Hno.
  destruct (mappages_ok s pgdir tab l va size pa perm) as (r & s' & tab' & l' & m & Hrun & Hg & Hr & Hpt);
    try done.
  exists r, s', tab', l'. split_and!; [done | done | destruct Hr as [[? _] | (? & _ & ?)]; auto |].
  intros a w Ha ->.
  destruct Hr as [[_ ->] | [? _]]; [| done].
  pose proof (gr_as _ _ _ _ _ _ _ Hg) as Has'.
  assert (Hcr' : cr3 s' = V2P pgdir) by (destruct (gr_frame _ _ _ _ _ _ _ Hg) as [(?cs & ?m' & ?f & ->) _]; done).
  rewrite (mmu_pte s' pgdir tab' l' a w Has' Hcr' Ha), (mmu_pte s pgdir tab l a w Has Hcr Ha).
  cbv zeta. rewrite Hpt by (unfold is_u32 in Ha; zdiv). unfold remapped, extra_pages.
  repeat case_decide; try done; try (zdiv).
  set (pa' := pa + _). assert (pa' mod 4096 = 0 /\ is_u32 pa') as [Hm Hu].
  { unfold pa', is_u32, extra_pages in *. zdiv. }
  rewrite pte_present, pte_addr by done. cbn [negb orb].
  by rewrite pte_writable.
Qed.

Lemma ok_result {A} (p : A -> bool) (m : M A) s a s' :
  match m s with Ok a _ => p a | _ => false end = true -> m s = Ok a s' -> p a = true.
Proof. intros Hp Hm. by rewrite Hm in Hp. Qed.

(** An empty directory page and two free pages. *)
Definition empty_dir : kstate := set_cr3 0x300000 Pool.two_pages.

Lemma empty_dir_aspace : aspace empty_dir 0x80300000 (fun _ => None) [0x80200000; 0x80201000].
Proof.
  split; try done.
  - destruct Pool.two_pages_pool as [Hc Hp Hn Hl Hu]. by split.
  - apply st32_bytes. intros a. unfold is_byte. lia.
  - by intros [? | [? | ?%elem_of_nil]%elem_of_cons]%elem_of_cons.
  - intros d Hd _. change (mem empty_dir) with (st32 (fun _ => 0) 0x80200000 0x80201000).
    by rewrite ld32_st32_ne by lia.
Qed.

Lemma mappages_spec_witness :
  exists s' tab' l',
    mappages 0x80300000 0x1000 0x1800 0x400000 6 empty_dir = Ok 0 s' /\
    grows 0x80300000 empty_dir (fun _ => None) [0x80200000; 0x80201000] s' tab' l' /\
    mmu s' 0x2004 true = Some 0x80401004 /\ mmu s' 0x3000 false = None.
Proof.
  destruct (mappages_spec empty_dir 0x80300000 (fun _ => None) [0x80200000; 0x80201000]
              0x1000 0x1800 0x400000 6) as (r & s' & tab' & l' & Hrun & Hg & _ & Hmmu);
    [apply empty_dir_aspace | reflexivity | lia | lia | lia | lia | vm_compute; reflexivity | vm_compute; reflexivity | lia | intros; reflexivity |].
  assert (Hr : r = 0) by (apply Z.eqb_eq; refine (ok_result (fun r => r =? 0) _ _ _ _ _ Hrun); vm_compute; reflexivity).
  subst r. exists s', tab', l'.
  split; [exact Hrun | split; [exact Hg |]].
  split; rewrite Hmmu by (first [reflexivity | unfold is_u32; lia]); vm_compute; reflexivity.
Defined.
