(* ===== verification/Proc.v ===== *)
(** [proc.c]: the process table, the three schedulers, [sleep] and [wakeup],
    [wait] and [waitx], and the scheduling system calls.  [userinit], [fork],
    [exit] and [forkret], which also call the file system, are in [Process]. *)

From S2P Require Import Prelude Params Mem CString Machine Spinlock Kalloc Console Vm.

(** ** Small operations *)

Definition curpolicy : M Z := gets scheduling_policy.

(** [rand_seed] is an [unsigned long], 32 bits wide on this machine. *)
Definition krand_next (seed : Z) : Z := u32 (seed * 1664525 + 1013904223).
Definition krand : M Z :=
  modify (fun s => set_rand_seed (krand_next (rand_seed s)) s) ;;
  gets rand_seed.

Definition pinit : M unit := initlock LkPtable "ptable".

Definition myproc : M (option nat) :=
  pushcli ;;
  i <- mycpu ;;
  c <- getc i ;;
  let p := c_proc c in
  popcli ;;
  ret p.

(** Dereferencing [myproc()]. *)
Definition curproc : M nat := p <- myproc ;; unwrap p.

(** The first slot in a given state: the search loop of [allocproc]. *)
Definition find_state (st : procstate) (ps : list proc) : option nat :=
  fst <$> list_find (fun p => p_state p = st) ps.

Definition SIZEOF_TRAPFRAME : Z := 76.
Abbreviation SIZEOF_CONTEXT := (20) (only parsing).

(** [allocproc]; [forkret] and [trapret] are the addresses of those routines. *)
Definition allocproc (forkret trapret : Z) : M (option nat) :=
  acquire LkPtable ;;
  found <- gets (fun s => find_state UNUSED (ptable s)) ;;
  match found with
  | None => release LkPtable ;; ret None
  | Some p =>
      modp p (fun q => {| q with p_state := EMBRYO |}) ;;
      pid <- gets nextpid ;;
      modify (set_nextpid (i32 (pid + 1))) ;;
      modp p (fun q => {| q with p_pid := pid |}) ;;
      release LkPtable ;;
      kstack <- kalloc ;;
      modp p (fun q => {| q with p_kstack := kstack |}) ;;
      if kstack =? 0 then
        modp p (fun q => {| q with p_state := UNUSED |}) ;; ret None
      else
        let sp := kstack + KSTACKSIZE in
        let sp := sp - SIZEOF_TRAPFRAME in
        modp p (fun q => {| q with p_tf := sp |}) ;;
        let sp := sp - 4 in
        stw sp trapret ;;
        let sp := sp - SIZEOF_CONTEXT in
        modp p (fun q => {| q with p_context := sp |}) ;;
        modify (fun s => set_contexts (fupd (contexts s) sp (mkContext 0 0 0 0 forkret)) s) ;;
        now <- gets ticks ;;
        modp p (fun q => {| q with p_ctime := now; p_etime := 0; p_rtime := 0; p_retime := 0;
                                   p_stime := 0; p_tickets := 10; p_original_tickets := 10 |}) ;;
        ret (Some p)
  end.

Definition growproc (n : Z) : M Z :=
  cur <- curproc ;;
  pr <- getp cur ;;
  let sz := p_sz pr in
  r <- (if 0 <? n then
          sz <- allocuvm (p_pgdir pr) sz (u32 (sz + n)) ;;
          ret (if sz =? 0 then None else Some sz)
        else if n <? 0 then
          sz <- deallocuvm (p_pgdir pr) sz (u32 (sz + n)) ;;
          ret (if sz =? 0 then None else Some sz)
        else ret (Some sz)) ;;
  match r with
  | None => ret (-1)
  | Some sz =>
      modp cur (fun q => {| q with p_sz := sz |}) ;;
      switchuvm cur ;;
      ret 0
  end.

(** ** Switching, sleeping and waking *)

Definition sched : M unit :=
  p <- myproc ;;
  h <- holding LkPtable ;;
  if negb h then panic "sched ptable.lock"
  else
    i <- mycpu ;;
    c <- getc i ;;
    if negb (c_ncli c =? 1) then panic "sched locks"
    else
      p <- unwrap p ;;
      pr <- getp p ;;
      if bool_decide (p_state pr = RUNNING) then panic "sched running"
      else
        fl <- gets eflags_IF ;;
        if (fl : bool) then panic "sched interruptible"
        else
          i <- mycpu ;;
          c <- getc i ;;
          let intena := c_intena c in
          swtch ;;
          i <- mycpu ;;
          modc i (fun c => {| c with c_intena := intena |}).

Definition yield : M unit :=
  acquire LkPtable ;;
  p <- curproc ;;
  modp p (fun q => {| q with p_state := RUNNABLE |}) ;;
  sched ;;
  release LkPtable.

(** [sleep]; the code never passes a null lock. *)
Definition sleep (ch : chan) (lk : lockid) : M unit :=
  p <- myproc ;;
  match p with
  | None => panic "sleep"
  | Some p =>
      when (negb (bool_decide (lk = LkPtable))) (acquire LkPtable ;; release lk) ;;
      modp p (fun q => {| q with p_chan := Some ch |}) ;;
      modp p (fun q => {| q with p_state := SLEEPING |}) ;;
      sched ;;
      modp p (fun q => {| q with p_chan := None |}) ;;
      when (negb (bool_decide (lk = LkPtable))) (release LkPtable ;; acquire lk)
  end.

(** The body of [wakeup1]'s loop. *)
Definition wake (ch : option chan) (q : proc) : proc :=
  if bool_decide (p_state q = SLEEPING /\ p_chan q = ch) then {| q with p_state := RUNNABLE |}
  else q.
Definition wakeup1 (ch : option chan) : M unit :=
  modify (fun s => set_ptable (wake ch <$> ptable s) s).

Definition wakeup (ch : chan) : M unit :=
  acquire LkPtable ;;
  wakeup1 (Some ch) ;;
  release LkPtable.

Definition kill (pid : Z) : M Z :=
  acquire LkPtable ;;
  found <- gets (fun s => list_find (fun q => p_pid q = pid) (ptable s)) ;;
  match found with
  | Some (p, _) =>
      modp p (fun q => {| q with p_killed := 1 |}) ;;
      pr <- getp p ;;
      when (bool_decide (p_state pr = SLEEPING))
        (modp p (fun q => {| q with p_state := RUNNABLE |})) ;;
      release LkPtable ;;
      ret 0
  | None => release LkPtable ;; ret (-1)
  end.

(** ** [wait] and [waitx] *)

(** Give back the resources of the zombie in slot [p]. *)
Definition reap (p : nat) (pr : proc) : M unit :=
  kfree (p_kstack pr) ;;
  modp p (fun q => {| q with p_kstack := 0 |}) ;;
  freevm (p_pgdir pr) ;;
  modp p (fun q => {| q with p_pid := 0; p_parent := None; p_name := <[0%nat := 0]> (p_name q);
                             p_killed := 0; p_state := UNUSED |}).

(** The scan over the table: whether the caller has children, and the pid of a
    zombie child after [found] has dealt with it. *)
Fixpoint wait_scan (found : nat -> proc -> M Z) (cur : nat) (havekids : bool) (l : list nat)
  : M (bool * option Z) :=
  match l with
  | [] => ret (havekids, None)
  | p :: l' =>
      pr <- getp p ;;
      if negb (bool_decide (p_parent pr = Some cur)) then wait_scan found cur havekids l'
      else if bool_decide (p_state pr = ZOMBIE) then pid <- found p pr ;; ret (true, Some pid)
      else wait_scan found cur true l'
  end.

(** The [for(;;)] around the scan. *)
Definition wait_loop `{Turns} (found : nat -> proc -> M Z) (cur : nat) : M Z :=
  loop_until max_turns (
    r <- wait_scan found cur false (seq 0 NPROC) ;;
    match r with
    | (_, Some pid) => ret (Some pid)
    | (havekids, None) =>
        me <- getp cur ;;
        if (negb havekids || negb (p_killed me =? 0))%bool then release LkPtable ;; ret (Some (-1))
        else sleep (ChProc cur) LkPtable ;; ret None
    end).

Definition wait_found (p : nat) (pr : proc) : M Z :=
  reap p pr ;;
  release LkPtable ;;
  ret (p_pid pr).

Definition wait `{Turns} : M Z :=
  cur <- curproc ;;
  acquire LkPtable ;;
  wait_loop wait_found cur.

(** The times [waitx] reports for a zombie. *)
Definition waitx_rtime (p : proc) : Z := i32 (p_rtime p).
Definition waitx_wtime (p : proc) : Z :=
  let wt := i32 (i32 (p_etime p) - i32 (p_ctime p) - waitx_rtime p) in
  if wt <? 0 then 0 else wt.

Definition waitx_found (wtime rtime : Z) (p : nat) (pr : proc) : M Z :=
  ust32 rtime (waitx_rtime pr) ;;
  ust32 wtime (waitx_wtime pr) ;;
  reap p pr ;;
  release LkPtable ;;
  ret (p_pid pr).

Definition waitx `{Turns} (wtime rtime : Z) : M Z :=
  cur <- curproc ;;
  if ((wtime =? 0) || (rtime =? 0))%bool then ret (-1)
  else
    acquire LkPtable ;;
    wait_loop (waitx_found wtime rtime) cur.

(** ** The scheduler *)

(** FCFS: the search for the oldest runnable process. *)
Fixpoint fcfs_loop (i : nat) (best : option (nat * proc)) (ps : list proc) : option (nat * proc) :=
  match ps with
  | [] => best
  | p :: ps' =>
      fcfs_loop (S i)
        (if negb (bool_decide (p_state p = RUNNABLE)) then best
         else match best with
              | None => Some (i, p)
              | Some (_, b) => if p_ctime p <? p_ctime b then Some (i, p) else best
              end) ps'
  end.
Definition fcfs_best (ps : list proc) : option nat := fst <$> fcfs_loop 0 None ps.

(** Lottery: the tickets a process plays with, their saturating sum, and the
    second loop, which accumulates at [int] width. *)
Definition lottery_tickets (p : proc) : Z := if 0 <? p_tickets p then p_tickets p else 1.

Fixpoint lottery_total (total : Z) (ps : list proc) : Z :=
  match ps with
  | [] => total
  | p :: ps' =>
      lottery_total
        (if bool_decide (p_state p = RUNNABLE) then
           let t := lottery_tickets p in
           if total <=? 0x7fffffff - t then total + t else 0x7fffffff
         else total) ps'
  end.

Fixpoint lottery_loop (i : nat) (acc r : Z) (ps : list proc) : option nat :=
  match ps with
  | [] => None
  | p :: ps' =>
      if negb (bool_decide (p_state p = RUNNABLE)) then lottery_loop (S i) acc r ps'
      else
        let acc := i32 (acc + lottery_tickets p) in
        if i32 r <? acc then Some i else lottery_loop (S i) acc r ps'
  end.
Definition lottery_winner (r : Z) (ps : list proc) : option nat := lottery_loop 0 0 r ps.

(** Run the process in slot [p] on processor [c] until it switches back. *)
Definition dispatch (c p : nat) : M unit :=
  modc c (fun k => {| k with c_proc := Some p |}) ;;
  switchuvm p ;;
  modp p (fun q => {| q with p_state := RUNNING |}) ;;
  swtch ;;
  switchkvm ;;
  modc c (fun k => {| k with c_proc := None |}).

(** One turn of the [for(;;)] of [scheduler]. *)
Definition scheduler_round (c : nat) : M unit :=
  sti ;;
  acquire LkPtable ;;
  policy <- gets scheduling_policy ;;
  (if policy =? 1 then
     best <- gets (fun s => fcfs_best (ptable s)) ;;
     match best with Some p => dispatch c p | None => ret tt end
   else if policy =? 2 then
     totaltix <- gets (fun s => lottery_total 0 (ptable s)) ;;
     if 0 <? totaltix then
       x <- krand ;;
       winner <- gets (fun s => lottery_winner (x mod totaltix) (ptable s)) ;;
       match winner with Some p => dispatch c p | None => ret tt end
     else ret tt
   else
     forM (seq 0 NPROC) (fun p =>
       pr <- getp p ;;
       when (bool_decide (p_state pr = RUNNABLE)) (dispatch c p))) ;;
  release LkPtable.

(** [scheduler]: set up, then rounds without end. *)
Definition scheduler `{Turns} : M unit :=
  c <- mycpu ;;
  modc c (fun k => {| k with c_proc := None |}) ;;
  loop_until max_turns (scheduler_round c ;; ret None).

(** ** [procdump] *)

Definition state_name (st : procstate) : string :=
  match st with
  | UNUSED => "unused" | EMBRYO => "embryo" | SLEEPING => "sleep "
  | RUNNABLE => "runble" | RUNNING => "run   " | ZOMBIE => "zombie"
  end.

(** The program counters up to the first null one. *)
Fixpoint until_zero (l : list Z) : list Z :=
  match l with [] => [] | x :: l' => if x =? 0 then [] else x :: until_zero l' end.

Definition procdump_fmt : list Z := str "%d %s %s (tix=%d run=%u sleep=%u ready=%u)" ++ [10].
Definition procdump_args (p : proc) : list vararg :=
  [ VInt (p_pid p); VStr (Some (str (state_name (p_state p)))); VStr (Some (cut 16 (p_name p)));
    VInt (p_tickets p); VInt (p_rtime p); VInt (p_stime p); VInt (p_retime p) ].

Definition procdump : M unit :=
  forM (seq 0 NPROC) (fun i =>
    p <- getp i ;;
    when (negb (bool_decide (p_state p = UNUSED)))
      (cprintf procdump_fmt (procdump_args p) ;;
       when (bool_decide (p_state p = SLEEPING))
         (ebp <- gets (fun s => cx_ebp (contexts s (p_context p))) ;;
          ld <- gets (fun s => ld32 (mem s)) ;;
          forM (until_zero (getcallerpcs ld (ebp + 8))) (fun pc => cprintf (str " %p") [VInt pc]) ;;
          cprintf [10] []))).

(** ** Scheduling system calls *)

Definition setpolicy (policy : Z) : M Z :=
  if ((policy <? 0) || (2 <? policy))%bool then ret (-1)
  else modify (set_scheduling_policy policy) ;; ret 0.

Definition settickets (n : Z) : M Z :=
  if n <? 1 then ret (-1)
  else
    acquire LkPtable ;;
    p <- curproc ;;
    modp p (fun q => {| q with p_tickets := n |}) ;;
    release LkPtable ;;
    ret 0.

(** [struct pstat]: ten arrays of [NPROC] ints, then the names. *)
Definition pstat_int (k i : Z) : Z := 4 * (Z.of_nat NPROC * k + i).
Abbreviation PSTAT_inuse := (0) (only parsing).
Abbreviation PSTAT_pid := (1) (only parsing).
Abbreviation PSTAT_state := (2) (only parsing).
Abbreviation PSTAT_tickets := (3) (only parsing).
Abbreviation PSTAT_original_tickets := (4) (only parsing).
Abbreviation PSTAT_rtime := (5) (only parsing).
Abbreviation PSTAT_stime := (6) (only parsing).
Abbreviation PSTAT_retime := (7) (only parsing).
Abbreviation PSTAT_ctime := (8) (only parsing).
Abbreviation PSTAT_etime := (9) (only parsing).
Definition PSTAT_name (i : Z) : Z := 4 * Z.of_nat NPROC * 10 + 16 * i.
Definition SIZEOF_PSTAT : Z := PSTAT_name (Z.of_nat NPROC).

(** The assignments of one turn of [getpinfo]'s loop: field and value, in order. *)
Definition pinfo_fields (p : proc) : list (Z * Z) :=
  [ (PSTAT_inuse, if bool_decide (p_state p = UNUSED) then 0 else 1);
    (PSTAT_pid, p_pid p);
    (PSTAT_tickets, p_tickets p);
    (PSTAT_original_tickets, p_original_tickets p);
    (PSTAT_rtime, i32 (p_rtime p));
    (PSTAT_stime, i32 (p_stime p));
    (PSTAT_retime, i32 (p_retime p));
    (PSTAT_ctime, i32 (p_ctime p));
    (PSTAT_etime, i32 (p_etime p)) ].

(** [getpinfo] into the user buffer at [ps]. *)
Definition getpinfo (ps : Z) : M Z :=
  if ps =? 0 then ret (-1)
  else
    acquire LkPtable ;;
    forM (seq 0 NPROC) (fun i =>
      p <- getp i ;;
      forM (pinfo_fields p) (fun f => ust32 (ps + pstat_int f.1 (Z.of_nat i)) f.2)) ;;
    release LkPtable ;;
    ret 0.
