(* ===== verification/Sched.v ===== *)
(** The selection rules of [scheduler]: which process FCFS and the lottery pick
    from a process table, and how the lottery's random numbers are spread. *)

From S2P Require Import Prelude Params Machine Spinlock Vm Proc.

(** ** What a policy promises the scheduler *)

Definition runnable (ps : list proc) (i : nat) (p : proc) : Prop :=
  ps !! i = Some p /\ p_state p = RUNNABLE.

(** On the tables of its domain a policy picks only runnable processes, and
    picks one whenever there is one. *)
Class Policy (dom : list proc -> Prop) (pick : list proc -> option nat) : Prop := {
  policy_sound : forall ps i, dom ps -> pick ps = Some i -> exists p, runnable ps i p;
  policy_total : forall ps i p, dom ps -> runnable ps i p -> is_Some (pick ps) }.

Lemma runnable_cons p ps i q :
  runnable (p :: ps) i q <->
  (i = 0%nat /\ p = q /\ p_state p = RUNNABLE) \/ (exists j, i = S j /\ runnable ps j q).
Proof.
  unfold runnable. destruct i as [| i]; simpl; split.
  - intros [[= ->] ?]. by left.
  - intros [(_ & -> & ?) | (j & ? & _)]; done.
  - intros [? ?]. right. by exists i.
  - intros [(? & _) | (j & [= ->] & ?)]; done.
Qed.

(** ** First come, first served *)

(** [i] is the runnable process with the least creation time, the lowest slot among equals. *)
Definition oldest (ps : list proc) (i : nat) (p : proc) : Prop :=
  runnable ps i p /\
  forall j q, runnable ps j q -> p_ctime p < p_ctime q \/ (p_ctime p = p_ctime q /\ (i <= j)%nat).

Definition fcfs_step (i : nat) (best : option (nat * proc)) (p : proc) : option (nat * proc) :=
  if negb (bool_decide (p_state p = RUNNABLE)) then best
  else match best with
       | None => Some (i, p)
       | Some (_, b) => if p_ctime p <? p_ctime b then Some (i, p) else best
       end.

Lemma fcfs_loop_snoc ps k best p :
  fcfs_loop k best (ps ++ [p]) = fcfs_step (k + length ps) (fcfs_loop k best ps) p.
Proof.
  revert k best. induction ps as [| q ps IH]; intros k best; simpl.
  - by rewrite Nat.add_0_r.
  - rewrite IH. f_equal. lia.
Qed.

Lemma runnable_snoc ps p i q :
  runnable (ps ++ [p]) i q <->
  runnable ps i q \/ (i = length ps /\ p = q /\ p_state p = RUNNABLE).
Proof.
  unfold runnable. rewrite lookup_app_Some, list_lookup_singleton_Some. split.
  - intros [[? | (Hle & Hi & <-)] ?]; [by left | right]. split_and!; [lia | done..].
  - intros [[? ?] | (-> & <- & ?)]; split; [by left | done | right | done].
    rewrite Nat.sub_diag. done.
Qed.

Lemma runnable_lt ps i p : runnable ps i p -> (i < length ps)%nat.
Proof. intros [H _]. by eapply lookup_lt_Some. Qed.

(** The loop's candidate is the oldest runnable process seen so far. *)
Lemma fcfs_loop_spec ps :
  match fcfs_loop 0 None ps with
  | None => forall j q, ~ runnable ps j q
  | Some (i, p) => oldest ps i p
  end.
Proof.
  induction ps as [| p ps IH] using rev_ind; [by intros j q [? _] |].
  rewrite fcfs_loop_snoc. simpl. unfold fcfs_step.
  case_bool_decide as Hr; cbn [negb].
  2: { destruct (fcfs_loop 0 None ps) as [[i b] |].
       - destruct IH as [Hb Ho]. split; [apply runnable_snoc; by left |].
         intros j q [Hq | (_ & _ & ?)]%runnable_snoc; [by apply Ho | done].
       - intros j q [Hq | (_ & _ & ?)]%runnable_snoc; [by eapply IH | done]. }
  destruct (fcfs_loop 0 None ps) as [[i b] |].
  - destruct IH as [Hb Ho]. destruct (Z.ltb_spec (p_ctime p) (p_ctime b)).
    + split; [apply runnable_snoc; by right |].
      intros j q [Hq | (-> & <- & _)]%runnable_snoc; [| right; lia].
      apply Ho in Hq. lia.
    + split; [apply runnable_snoc; by left |].
      intros j q [Hq | (-> & <- & _)]%runnable_snoc; [by apply Ho |].
      apply runnable_lt in Hb. lia.
  - split; [apply runnable_snoc; by right |].
    intros j q [Hq | (-> & <- & _)]%runnable_snoc; [by apply IH in Hq | right; lia].
Qed.

Lemma fcfs_best_spec ps i :
  fcfs_best ps = Some i <-> exists p, oldest ps i p.
Proof.
  unfold fcfs_best. pose proof (fcfs_loop_spec ps) as H.
  destruct (fcfs_loop 0 None ps) as [[k b] |]; simpl.
  - split; [intros [= <-]; by exists b |]. intros (p & Hp & Hmin). f_equal.
    destruct H as [Hb Hbmin]. apply Hbmin in Hp as Hp'. apply Hmin in Hb. lia.
  - split; [done |]. intros (p & Hp & _). by apply H in Hp.
Qed.

#[export] Instance fcfs_policy : Policy (fun _ => True) fcfs_best.
Proof.
  split.
  - intros ps i _ (p & Hp & _)%fcfs_best_spec. by exists p.
  - intros ps i p _ Hp. unfold fcfs_best. pose proof (fcfs_loop_spec ps) as H.
    destruct (fcfs_loop 0 None ps) as [[k b] |]; [by eexists |]. by apply H in Hp.
Qed.

(** ** The lottery *)

(** The tickets in play, in slot order, and their sum. *)
Definition stake (p : proc) : Z :=
  if bool_decide (p_state p = RUNNABLE) then lottery_tickets p else 0.
Fixpoint stakes (ps : list proc) : Z :=
  match ps with [] => 0 | p :: ps' => stake p + stakes ps' end.

Lemma lottery_tickets_pos p : 1 <= lottery_tickets p.
Proof. unfold lottery_tickets. case_bool; lia. Qed.

Lemma stake_nonneg p : 0 <= stake p.
Proof. unfold stake. pose proof (lottery_tickets_pos p). case_bool_decide; lia. Qed.

Lemma stakes_nonneg ps : 0 <= stakes ps.
Proof. induction ps as [| p ps IH]; simpl; [done |]. pose proof (stake_nonneg p). lia. Qed.

(** The first loop computes the number of tickets, saturating at the largest [int]. *)
Lemma lottery_total_spec total ps :
  0 <= total <= INT_MAX -> Forall (fun p => stake p <= INT_MAX) ps ->
  lottery_total total ps = Z.min INT_MAX (total + stakes ps).
Proof.
  revert total. induction ps as [| p ps IH]; intros total Ht Hps; cbn [lottery_total stakes].
  - unfold INT_MAX in *. lia.
  - apply Forall_cons in Hps as [Hp Hps]. pose proof (stakes_nonneg ps) as Hs.
    pose proof (lottery_tickets_pos p) as Hpos. unfold stake in Hp |- *.
    case_bool_decide; [cbv zeta; change 0x7fffffff with INT_MAX; case_bool |];
      rewrite IH by (done || lia); lia.
Qed.

Lemma stakes_bound ps b : stakes ps <= b -> Forall (fun p => stake p <= b) ps.
Proof.
  induction ps as [| p ps IH]; simpl; intros Hs; constructor; pose proof (stake_nonneg p);
    pose proof (stakes_nonneg ps); [lia | apply IH; lia].
Qed.

Lemma lottery_total_stakes ps : stakes ps <= INT_MAX -> lottery_total 0 ps = stakes ps.
Proof.
  intros Hs. pose proof (stakes_nonneg ps).
  rewrite lottery_total_spec by (first [by apply stakes_bound | unfold INT_MAX; lia]). lia.
Qed.

(** The second loop finds the process whose ticket interval contains [r]. *)
Lemma lottery_loop_spec ps k acc r :
  0 <= acc <= r -> acc + stakes ps <= INT_MAX -> is_i32 r ->
  match lottery_loop k acc r ps with
  | Some w => exists i p, w = (k + i)%nat /\ runnable ps i p /\
                acc + stakes (take i ps) <= r < acc + stakes (take (S i) ps)
  | None => acc + stakes ps <= r
  end.
Proof.
  intros Ha Hs Hr. revert k acc Ha Hs.
  induction ps as [| p ps IH]; intros k acc Ha Hs; cbn [lottery_loop stakes] in *; [lia |].
  unfold stake in Hs |- *. pose proof (stakes_nonneg ps) as Hn.
  pose proof (lottery_tickets_pos p) as Hpos.
  case_bool_decide as Hst; cbn [negb].
  - rewrite (i32_small (acc + _)) by (unfold is_i32, INT_MAX in *; lia).
    rewrite (i32_small r) by done.
    destruct (Z.ltb_spec r (acc + lottery_tickets p)) as [Hlt | Hge].
    + exists 0%nat, p. split_and!; [lia | done | simpl; lia |].
      simpl. unfold stake. rewrite bool_decide_eq_true_2 by done. lia.
    + specialize (IH (S k) (acc + lottery_tickets p)).
      destruct (lottery_loop _ _ _ ps) as [w |]; [| lia].
      destruct IH as (i & q & -> & Hq & Hint); [lia | lia |].
      exists (S i), q. split_and!; [lia | done | |]; simpl stakes; unfold stake;
        rewrite bool_decide_eq_true_2 by done; lia.
  - specialize (IH (S k) acc). destruct (lottery_loop _ _ _ ps) as [w |]; [| lia].
    destruct IH as (i & q & -> & Hq & Hint); [lia | lia |].
    exists (S i), q. split_and!; [lia | done | |]; simpl stakes; unfold stake;
      rewrite bool_decide_eq_false_2 by done; lia.
Qed.

Lemma stakes_app ps qs : stakes (ps ++ qs) = stakes ps + stakes qs.
Proof. induction ps as [| p ps IH]; simpl; [done | rewrite IH; lia]. Qed.

Lemma stakes_take_S ps i p : ps !! i = Some p -> stakes (take (S i) ps) = stakes (take i ps) + stake p.
Proof. intros H. rewrite (take_S_r _ _ p) by done. rewrite stakes_app. simpl. lia. Qed.

Lemma stakes_take_mono ps i j : (i <= j)%nat -> stakes (take i ps) <= stakes (take j ps).
Proof.
  intros H. replace (take i ps) with (take i (take j ps)) by (by rewrite take_take, Nat.min_l).
  pose proof (stakes_nonneg (drop i (take j ps))). rewrite <- (take_drop i (take j ps)) at 2.
  rewrite stakes_app. lia.
Qed.

Lemma stakes_take_le ps i : stakes (take i ps) <= stakes ps.
Proof.
  pose proof (stakes_nonneg (drop i ps)). rewrite <- (take_drop i ps) at 2. rewrite stakes_app. lia.
Qed.

(** Process [i] holds the tickets from [stakes (take i ps)] up to
    [stakes (take (S i) ps)], and wins exactly when one of them is drawn. *)
Lemma lottery_winner_iff ps r i :
  stakes ps <= INT_MAX -> 0 <= r < stakes ps ->
  lottery_winner r ps = Some i <->
  stakes (take i ps) <= r < stakes (take (S i) ps).
Proof.
  intros Hs Hr. unfold lottery_winner.
  pose proof (lottery_loop_spec ps 0 0 r) as H.
  destruct (lottery_loop 0 0 r ps) as [w |].
  - destruct H as (j & p & -> & Hp & Hj); [lia | lia | unfold is_i32, INT_MAX in *; lia |].
    simpl. split; [by intros [= <-] |]. intros Hi. f_equal.
    destruct (Nat.lt_trichotomy i j) as [Hlt | [-> | Hgt]]; [| done |].
    + pose proof (stakes_take_mono ps (S i) j). lia.
    + pose proof (stakes_take_mono ps (S j) i). lia.
  - unfold is_i32, INT_MAX in *. lia.
Qed.

Lemma lottery_winner_runnable ps r i :
  stakes ps <= INT_MAX -> 0 <= r < stakes ps -> lottery_winner r ps = Some i ->
  exists p, runnable ps i p.
Proof.
  intros Hs Hr. unfold lottery_winner. pose proof (lottery_loop_spec ps 0 0 r) as H.
  destruct (lottery_loop 0 0 r ps) as [w |]; [| done].
  destruct H as (j & p & -> & Hp & _); [lia | lia | unfold is_i32, INT_MAX in *; lia |].
  intros [= <-]. by exists p.
Qed.

Lemma lottery_winner_some ps r :
  stakes ps <= INT_MAX -> 0 <= r < stakes ps -> is_Some (lottery_winner r ps).
Proof.
  intros Hs Hr. unfold lottery_winner. pose proof (lottery_loop_spec ps 0 0 r) as H.
  destruct (lottery_loop 0 0 r ps) as [w |]; [by eexists |]. unfold is_i32, INT_MAX in *. lia.
Qed.

Lemma stakes_pos ps i p : runnable ps i p -> 0 < stakes ps.
Proof.
  intros [Hi Hr]. pose proof (stakes_take_le ps (S i)). rewrite (stakes_take_S _ _ p) in H by done.
  pose proof (stakes_nonneg (take i ps)). pose proof (lottery_tickets_pos p).
  unfold stake in H. rewrite bool_decide_eq_true_2 in H by done. lia.
Qed.

(** Without runnable processes there are no tickets in play. *)
Lemma stakes_none ps : (forall j q, ~ runnable ps j q) -> stakes ps = 0.
Proof.
  induction ps as [| p ps IH]; [done |]. intros Hno. simpl. rewrite IH.
  - unfold stake. case_bool_decide as Hp; [| done]. by destruct (Hno 0%nat p).
  - intros j q Hq. by apply (Hno (S j) q).
Qed.

(** With no tickets in play nobody is runnable and nobody wins. *)
Lemma lottery_loop_empty ps k acc r : stakes ps = 0 -> lottery_loop k acc r ps = None.
Proof.
  revert k. induction ps as [| p ps IH]; intros k E; simpl in *; [done |].
  pose proof (stakes_nonneg ps). pose proof (stake_nonneg p) as Hp.
  pose proof (lottery_tickets_pos p). unfold stake in E, Hp.
  case_bool_decide; cbn [negb]; [lia |]. apply IH. lia.
Qed.

(** The lottery, with the random number [x] reduced by the number of tickets. *)
#[export] Instance lottery_policy x :
  Policy (fun ps => stakes ps <= INT_MAX) (fun ps => lottery_winner (x mod stakes ps) ps).
Proof.
  assert (Hb : forall ps, 0 < stakes ps -> 0 <= x mod stakes ps < stakes ps)
    by (intros; by apply Z.mod_pos_bound).
  split.
  - intros ps i Hs Hw. destruct (decide (0 < stakes ps)) as [Hp | Hp].
    + eapply lottery_winner_runnable; [done | by apply Hb | done].
    + exfalso. pose proof (stakes_nonneg ps). assert (stakes ps = 0) as E by lia.
      unfold lottery_winner in Hw. by rewrite lottery_loop_empty in Hw.
  - intros ps i p Hs Hp. apply lottery_winner_some; [done |]. apply Hb. by eapply stakes_pos.
Qed.

(** ** Shares *)

Lemma filter_none {A} (P : A -> Prop) `{forall x, Decision (P x)} (l : list A) :
  (forall x, x ∈ l -> ~ P x) -> filter P l = [].
Proof.
  induction l as [| x l IH]; [done |]. intros HP.
  rewrite filter_cons_False by (apply HP; left). apply IH. intros y Hy. apply HP. by right.
Qed.

(** An interval of [n] numbers is hit [b - a] times by its subinterval. *)
Lemma filter_interval (P : Z -> Prop) `{forall x, Decision (P x)} n a b :
  0 <= a <= b -> b <= n -> (forall r, 0 <= r < n -> P r <-> a <= r < b) ->
  length (filter P (seqZ 0 n)) = Z.to_nat (b - a).
Proof.
  intros Hab Hbn HP.
  replace n with (a + ((b - a) + (n - b))) by lia.
  rewrite seqZ_app, filter_app, length_app by lia.
  rewrite seqZ_app, filter_app, length_app by lia.
  rewrite filter_none.
  2: { intros r Hr%elem_of_seqZ. rewrite HP by lia. lia. }
  rewrite filter_all.
  2: { intros r Hr%elem_of_seqZ. apply HP; lia. }
  rewrite filter_none.
  2: { intros r Hr%elem_of_seqZ. rewrite HP by lia. lia. }
  rewrite length_seqZ. simpl. lia.
Qed.

Lemma lottery_share ps i p :
  stakes ps <= INT_MAX -> ps !! i = Some p ->
  Z.of_nat (length (filter (fun r => lottery_winner r ps = Some i) (seqZ 0 (stakes ps)))) = stake p.
Proof.
  intros Hs Hi. pose proof (stake_nonneg p).
  rewrite (filter_interval _ (stakes ps) (stakes (take i ps)) (stakes (take (S i) ps))).
  - rewrite (stakes_take_S _ _ p) by done. lia.
  - split; [apply stakes_nonneg | apply stakes_take_mono; lia].
  - apply stakes_take_le.
  - intros r Hr. by apply lottery_winner_iff.
Qed.

(** ** The random numbers

    [krand] is the linear congruential generator [x -> a * x + c] modulo
    [2^32], with [a = 1 (mod 4)] and [c] odd. *)

Section Lcg.
Context (a c : Z) (Ha : a mod 4 = 1) (Hc : c mod 2 = 1).

Fixpoint lcg (n : nat) (x : Z) : Z :=
  match n with O => x | S n' => a * lcg n' x + c end.

(** [1 + a + ... + a^(n-1)] *)
Fixpoint geo (n : nat) : Z := match n with O => 0 | S n' => 1 + a * geo n' end.

Lemma lcg_geo n x : lcg n x = x + geo n * ((a - 1) * x + c).
Proof. induction n as [| n IH]; simpl; [lia |]. rewrite IH. ring. Qed.

Lemma lcg_add m n x : lcg (m + n) x = lcg m (lcg n x).
Proof. induction m as [| m IH]; simpl; [done | by rewrite IH]. Qed.

Lemma geo_add m n : geo (m + n) = geo m + a ^ Z.of_nat m * geo n.
Proof.
  induction m as [| m IH]; [simpl; lia |].
  rewrite Nat2Z.inj_succ, Z.pow_succ_r by lia. simpl. rewrite IH. ring.
Qed.

Lemma pow_mod4 m : a ^ Z.of_nat m mod 4 = 1.
Proof.
  induction m as [| m IH]; [done |]. rewrite Nat2Z.inj_succ, Z.pow_succ_r by lia.
  by rewrite Zmult_mod, Ha, IH.
Qed.

Lemma geo_parity n : geo n mod 2 = Z.of_nat n mod 2.
Proof.
  induction n as [| n IH]; [done |]. rewrite Nat2Z.inj_succ. cbn [geo].
  assert (a mod 2 = 1) by zdiv.
  rewrite Zplus_mod, Zmult_mod, H, IH, Z.mul_1_l. unfold Z.succ. zdiv.
Qed.

(** An odd factor does not help to be divisible by a power of two. *)
Lemma odd_divide k z g : z mod 2 = 1 -> (2 ^ Z.of_nat k | z * g) -> (2 ^ Z.of_nat k | g).
Proof.
  intros Hz. revert g. induction k as [| k IH]; intros g Hd; [apply Z.divide_1_l |].
  rewrite Nat2Z.inj_succ, Z.pow_succ_r in * by lia.
  assert (Hg : g mod 2 = 0).
  { assert (z * g mod 2 = 0) as E.
    { apply Z.mod_divide; [lia |]. eapply Z.divide_trans; [| done]. apply Z.divide_factor_l. }
    rewrite Zmult_mod, Hz, Z.mul_1_l, Z.mod_mod in E by lia. done. }
  assert (exists h, g = 2 * h) as [h ->] by (exists (g / 2); zdiv).
  replace (z * (2 * h)) with (2 * (z * h)) in Hd by lia.
  apply Z.mul_divide_cancel_l in Hd; [| lia]. apply Z.mul_divide_mono_l. by apply IH.
Qed.

Lemma geo_pow2 k n : (2 ^ Z.of_nat k | geo n) -> (2 ^ Z.of_nat k | Z.of_nat n).
Proof.
  revert n. induction k as [| k IH]; intros n Hd; [apply Z.divide_1_l |].
  rewrite Nat2Z.inj_succ, Z.pow_succ_r in * by lia.
  assert (Hn : Z.of_nat n mod 2 = 0).
  { rewrite <- geo_parity. apply Z.mod_divide; [lia |].
    eapply Z.divide_trans; [| done]. apply Z.divide_factor_l. }
  assert (exists m, n = (m + m)%nat) as [m ->] by (exists (Z.to_nat (Z.of_nat n / 2)); zdiv).
  rewrite geo_add in Hd. pose proof (pow_mod4 m) as Hp.
  set (q := a ^ Z.of_nat m) in *.
  assert (Hh : exists h, 1 + q = 2 * h /\ h mod 2 = 1) by (exists ((1 + q) / 2); split; zdiv).
  destruct Hh as (h & Hq & Hodd).
  replace (geo m + q * geo m) with (2 * (h * geo m)) in Hd by lia.
  apply Z.mul_divide_cancel_l in Hd; [| lia].
  apply odd_divide in Hd; [| done].
  apply IH in Hd. rewrite Nat2Z.inj_add. replace (Z.of_nat m + Z.of_nat m) with (2 * Z.of_nat m) by lia.
  by apply Z.mul_divide_mono_l.
Qed.

(** Terms closer than [2^k] apart differ modulo [2^k]. *)
Lemma lcg_distinct k i j x :
  (i < j)%nat -> Z.of_nat (j - i) < 2 ^ Z.of_nat k ->
  lcg i x mod 2 ^ Z.of_nat k <> lcg j x mod 2 ^ Z.of_nat k.
Proof.
  intros Hij Hk E. assert (Hp : 0 < 2 ^ Z.of_nat k) by (apply Z.pow_pos_nonneg; lia).
  replace j with ((j - i) + i)%nat in E by lia. rewrite lcg_add, (lcg_geo (j - i)) in E.
  set (y := lcg i x) in *. set (g := geo (j - i)) in *.
  assert (Hd : (2 ^ Z.of_nat k | g * ((a - 1) * y + c))).
  { apply Z.mod_divide; [lia |].
    replace (g * _) with (y + g * ((a - 1) * y + c) - y) by lia.
    rewrite Zminus_mod, <- E, Z.sub_diag. by apply Z.mod_0_l; lia. }
  rewrite Z.mul_comm in Hd. apply odd_divide in Hd.
  - apply geo_pow2, Z.divide_pos_le in Hd; lia.
  - assert ((a - 1) mod 2 = 0) as E2 by zdiv. by rewrite Zplus_mod, Zmult_mod, E2, Hc.
Qed.
End Lcg.

(** The [n]-th number [krand] returns from a given seed. *)
Definition draw (seed : Z) (n : nat) : Z := Nat.iter (S n) krand_next seed.

Lemma draw_lcg seed n : draw seed n = u32 (lcg 1664525 1013904223 (S n) seed).
Proof.
  unfold draw. induction n as [| n IH]; [simpl; unfold krand_next; f_equal; lia |].
  cbn [Nat.iter nat_rect] in *. unfold krand_next at 1. unfold u32 in *.
  rewrite IH. cbn [lcg]. rewrite <- Zplus_mod_idemp_l, Zmult_mod_idemp_l.
  rewrite Zplus_mod_idemp_l. f_equal. ring.
Qed.

Lemma mod_mod_pow2 x k : (k <= 32)%nat -> u32 x mod 2 ^ Z.of_nat k = x mod 2 ^ Z.of_nat k.
Proof.
  intros Hk. unfold u32. change 4294967296 with (2 ^ 32).
  apply Z.mod_mod_divide.
  exists (2 ^ (32 - Z.of_nat k)). rewrite <- Z.pow_add_r by lia. f_equal. lia.
Qed.

(** Any [2^k] consecutive numbers run through all residues modulo [2^k]. *)
Lemma draws_permutation seed n k :
  (k <= 32)%nat ->
  (fun i => draw seed i mod 2 ^ Z.of_nat k) <$> seq n (Z.to_nat (2 ^ Z.of_nat k))
    ≡ₚ seqZ 0 (2 ^ Z.of_nat k).
Proof.
  intros Hk. assert (Hp : 0 < 2 ^ Z.of_nat k) by (apply Z.pow_pos_nonneg; lia).
  apply submseteq_length_Permutation.
  - apply NoDup_submseteq.
    + apply NoDup_fmap_2_strong; [| apply NoDup_seq]. intros i j Hi Hj E.
      apply elem_of_seq in Hi, Hj. rewrite !draw_lcg, !mod_mod_pow2 in E by done.
      destruct (Nat.lt_trichotomy i j) as [Hlt | [-> | Hgt]]; [| done |]; exfalso.
      * revert E. apply lcg_distinct; [done | done | lia | lia].
      * symmetry in E. revert E. apply lcg_distinct; [done | done | lia | lia].
    + intros r Hr. apply list_elem_of_fmap in Hr as (i & -> & _). apply elem_of_seqZ.
      pose proof (Z.mod_pos_bound (draw seed i) (2 ^ Z.of_nat k) Hp). lia.
  - rewrite length_fmap, length_seq, length_seqZ. lia.
Qed.

Lemma filter_fmap_length {A B} (f : A -> B) (P : B -> Prop) `{forall x, Decision (P x)} (l : list A) :
  length (filter P (f <$> l)) = length (filter (fun x => P (f x)) l).
Proof.
  induction l as [| x l IH]; [done |]. rewrite fmap_cons, !filter_cons.
  by case_decide; simpl; rewrite IH.
Qed.

(** ** Policy theorems *)

(** C11: FCFS runs the right process: [fcfs_best], the search loop of the FCFS
    branch of [scheduler], picks process [i] exactly when [i] is runnable, no
    runnable process was created earlier, and every runnable process created at
    the same tick is in a higher slot; it picks nobody exactly when nobody is
    runnable. *)
Theorem fcfs_correct ps :
  (forall i, fcfs_best ps = Some i <->
     exists p, runnable ps i p /\ forall j q, runnable ps j q ->
       p_ctime p < p_ctime q \/ (p_ctime p = p_ctime q /\ (i <= j)%nat)) /\
  (fcfs_best ps = None <-> forall j q, ~ runnable ps j q).
Proof.
  split; [apply fcfs_best_spec |]. split.
  - intros Hn j q Hq. destruct (policy_total ps j q I Hq) as [i Hi]. congruence.
  - intros Hno. destruct (fcfs_best ps) as [i |] eqn:E; [| done].
    destruct (policy_sound ps i I E) as [p Hp]. by apply Hno in Hp.
Qed.

(** C10: the lottery is proportional. If the tickets of the runnable processes
    add up to at most [INT_MAX], then [lottery_total] is that sum, every draw
    below it has a winner that is runnable, and process [i] wins for exactly as
    many of the possible draws as it has tickets. *)
Theorem lottery_proportional ps i p :
  stakes ps <= INT_MAX -> runnable ps i p ->
  lottery_total 0 ps = stakes ps /\
  (forall r, 0 <= r < stakes ps -> exists w q, lottery_winner r ps = Some w /\ runnable ps w q) /\
  Z.of_nat (length (filter (fun r => lottery_winner r ps = Some i) (seqZ 0 (stakes ps)))) =
    lottery_tickets p.
Proof.
  intros Hs [Hi Hr]. split_and!.
  - by apply lottery_total_stakes.
  - intros r Hlt. destruct (lottery_winner_some ps r Hs Hlt) as [w Hw].
    destruct (lottery_winner_runnable ps r w Hs Hlt Hw) as [q Hq]. by exists w, q.
  - rewrite (lottery_share ps i p Hs Hi). unfold stake. by rewrite bool_decide_eq_true_2.
Qed.

(** C12: with the kernel's random numbers the lottery is exactly fair over time
    when the number of tickets is a power of two: in any window of as many
    consecutive drawings as there are tickets, from any seed, each process wins
    exactly as often as it has tickets. *)
Theorem lottery_window_fair ps i p k seed n :
  (k <= 30)%nat -> stakes ps = 2 ^ Z.of_nat k -> runnable ps i p ->
  Z.of_nat (length (filter
    (fun d => lottery_winner (draw seed d mod lottery_total 0 ps) ps = Some i)
    (seq n (Z.to_nat (stakes ps))))) = lottery_tickets p.
Proof.
  intros Hk Hs [Hi Hr].
  assert (Hmax : stakes ps <= INT_MAX).
  { rewrite Hs. change INT_MAX with (2 ^ 31 - 1).
    assert (2 ^ Z.of_nat k <= 2 ^ 30) by (apply Z.pow_le_mono_r; lia). lia. }
  rewrite lottery_total_stakes by done.
  refine (eq_trans (f_equal Z.of_nat (eq_sym (filter_fmap_length
    (fun d => draw seed d mod stakes ps) (fun r => lottery_winner r ps = Some i) _))) _).
  assert (Hperm : (fun d => draw seed d mod stakes ps) <$> seq n (Z.to_nat (stakes ps))
    ≡ₚ seqZ 0 (stakes ps)) by (rewrite Hs; apply draws_permutation; lia).
  rewrite Hperm, (lottery_share ps i p Hmax Hi). unfold stake. by rewrite bool_decide_eq_true_2.
Qed.

(** C13: no runnable process starves in the lottery: from any seed, whatever the
    number of tickets up to [INT_MAX], each runnable process wins one of the
    next [2^32] drawings. *)
Theorem lottery_no_starvation ps i p seed :
  stakes ps <= INT_MAX -> runnable ps i p ->
  exists d, Z.of_nat d < 2 ^ 32 /\
    lottery_winner (draw seed d mod lottery_total 0 ps) ps = Some i.
Proof.
  intros Hs [Hi Hr]. rewrite lottery_total_stakes by done.
  pose proof (stakes_nonneg (take i ps)) as H0. pose proof (stakes_take_le ps (S i)) as H1.
  rewrite (stakes_take_S _ _ p) in H1 by done. pose proof (lottery_tickets_pos p) as Hp.
  assert (stake p = lottery_tickets p) as Hst by (unfold stake; by rewrite bool_decide_eq_true_2).
  set (r := stakes (take i ps)) in *.
  assert (Hin : r ∈ seqZ 0 (2 ^ Z.of_nat 32)).
  { apply elem_of_seqZ. unfold INT_MAX in Hs. change (2 ^ Z.of_nat 32) with 4294967296. lia. }
  rewrite <- (draws_permutation seed 0 32) in Hin by lia.
  apply list_elem_of_fmap in Hin as (d & Hd & Hlt). apply elem_of_seq in Hlt.
  exists d. split; [change (2 ^ 32) with (2 ^ Z.of_nat 32); lia |].
  assert (draw seed d = r) as ->.
  { rewrite Hd, draw_lcg. symmetry. apply Z.mod_small. apply u32_range. }
  rewrite (Z.mod_small r) by lia. apply lottery_winner_iff; [done | lia |].
  rewrite (stakes_take_S _ _ p) by done. fold r. lia.
Qed.

(** ** Concrete tables *)

Definition runp (ctime tickets : Z) : proc :=
  {| proc0 with p_state := RUNNABLE; p_ctime := ctime; p_tickets := tickets |}.

(** C36: the second loop of the lottery has no guard against overflow. With two
    runnable processes holding 10 and [INT_MAX] tickets, [settickets] permitting
    both, the saturated total is [INT_MAX] but every draw from 10 on overflows
    the running sum and selects nobody: the processor idles although two
    processes are runnable. *)
Theorem lottery_overflow r :
  10 <= r < INT_MAX ->
  let ps := [runp 0 10; runp 0 INT_MAX] in
  lottery_total 0 ps = INT_MAX /\ 0 <= r < lottery_total 0 ps /\ lottery_winner r ps = None.
Proof.
  intros Hr ps. assert (Ht : lottery_total 0 ps = INT_MAX) by done. rewrite Ht.
  split_and!; [done | unfold INT_MAX in *; lia.. |].
  unfold lottery_winner, ps. cbn [lottery_loop runp p_state].
  rewrite !bool_decide_eq_true_2 by done. cbn [negb].
  rewrite (i32_small r) by (unfold is_i32, INT_MAX in *; lia).
  change (i32 (0 + lottery_tickets (runp 0 10))) with 10.
  change (i32 (10 + lottery_tickets (runp 0 INT_MAX))) with (-2147483639).
  destruct (Z.ltb_spec r 10), (Z.ltb_spec r (-2147483639)); done || lia.
Qed.

Lemma lottery_overflow_witness :
  lottery_winner 10 [runp 0 10; runp 0 INT_MAX] = None.
Proof. apply (lottery_overflow 10). split; [lia | reflexivity]. Defined.

Lemma lottery_proportional_witness :
  Z.of_nat (length (filter (fun r => lottery_winner r [runp 0 3; runp 0 5] = Some 1%nat)
    (seqZ 0 (stakes [runp 0 3; runp 0 5])))) = 5.
Proof.
  refine (proj2 (proj2 (lottery_proportional [runp 0 3; runp 0 5] 1 (runp 0 5) _ _)));
    [vm_compute; discriminate | by split].
Defined.

Lemma lottery_window_fair_witness :
  Z.of_nat (length (filter
    (fun d => lottery_winner (draw 1 d mod lottery_total 0 [runp 0 3; runp 0 5]) [runp 0 3; runp 0 5]
              = Some 0%nat)
    (seq 7 (Z.to_nat (stakes [runp 0 3; runp 0 5]))))) = 3.
Proof.
  apply (lottery_window_fair [runp 0 3; runp 0 5] 0 (runp 0 3) 3 1 7); [lia | reflexivity | by split].
Defined.

Lemma lottery_no_starvation_witness :
  exists d, Z.of_nat d < 2 ^ 32 /\
    lottery_winner (draw 1 d mod lottery_total 0 [runp 0 1; runp 0 9]) [runp 0 1; runp 0 9] = Some 0%nat.
Proof.
  apply (lottery_no_starvation [runp 0 1; runp 0 9] 0 (runp 0 1) 1);
    [vm_compute; discriminate | by split].
Defined.
