(* ===== verification/ProcSpec.v ===== *)
(** What the process-table operations of [proc.c] do, branch by branch: each
    critical section is one update of the table, and each context switch
    happens with exactly the table's lock held. *)

From S2P Require Import Prelude Params Mem CString Machine Spinlock Kalloc Console Vm Proc.
From S2P Require Import Sched.

(** ** Reading the current process *)

Lemma myproc_ok s i c : runs_on s i c -> myproc s = Ok (c_proc c) (cli_touch s).
Proof.
  intros Hr. pose proof (ro_ncli _ _ _ Hr) as Hn. unfold myproc.
  step by (eapply pushcli_ok, Hr).
  pose proof (runs_on_pushed _ _ _ Hr) as Hc.
  step by (by eapply mycpu_ok). step by (by apply getc_ok, cur_cpu_lookup).
  step by (eapply popcli_ok; [done | done | simpl; lia]).
  by rewrite popped_pushed.
Qed.

Lemma curproc_ok s i c p :
  runs_on s i c -> c_proc c = Some p -> curproc s = Ok p (cli_touch s).
Proof. intros Hr Hp. unfold curproc. step by (by eapply myproc_ok). by rewrite Hp. Qed.

(** Inside a critical section the nesting depth is positive and nothing is touched. *)
Definition in_section (s : kstate) (i : nat) (c : cpu) : Prop := runs_on s i c /\ 0 < c_ncli c.

Lemma in_section_locked s i c l :
  runs_on s i c -> exists c', in_section (locked_by i c l s) i c' /\ c_proc c' = c_proc c.
Proof.
  intros Hr. pose proof (runs_on_pushed_runs _ _ _ Hr) as [Hc Hn HIF]. eexists. split; [split |].
  - split; [exact Hc | exact Hn | exact HIF].
  - simpl. destruct Hr. lia.
  - done.
Qed.

Lemma in_section_frame U `{!CpuFrame U} s i c : in_section s i c -> in_section (U s) i c.
Proof. intros [Hr Hn]. split; [by apply cf_runs_on | done]. Qed.

Lemma in_section_touch s i c : in_section s i c -> cli_touch s = s.
Proof. intros [[Hc _ _] Hn]. eapply cli_touch_nested; [done | lia]. Qed.

Lemma curproc_in s i c p : in_section s i c -> c_proc c = Some p -> curproc s = Ok p s.
Proof.
  intros Hs Hp. rewrite (curproc_ok s i c p) by (done || apply Hs).
  by rewrite (in_section_touch s i c).
Qed.

(** ** Operations that are one critical section on [ptable.lock] *)

Section Ptable.
Context (s : kstate) (i : nat) (c : cpu) (Hr : runs_on s i c) (Hf : lock_free s LkPtable).

Lemma ptable_acquire : acquire LkPtable s = Ok tt (locked_by i c LkPtable s).
Proof. apply acquire_ok; [done | apply Hf]. Qed.

Lemma ptable_release U `{!CpuFrame U} :
  release LkPtable (U (locked_by i c LkPtable s)) = Ok tt (U (cli_touch s)).
Proof. by apply release_after. Qed.

Lemma wakeup_ok ch :
  wakeup ch s = Ok tt (set_ptable (wake (Some ch) <$> ptable s) (cli_touch s)).
Proof.
  unfold wakeup, wakeup1. step by (exact ptable_acquire). rewrite bind_modify.
  exact (ptable_release (set_ptable (wake (Some ch) <$> ptable s))).
Qed.

(** [kill] marks the first slot with that pid, and makes it runnable if it sleeps. *)
Definition killed_proc (q : proc) : proc :=
  {| q with p_killed := 1;
            p_state := if bool_decide (p_state q = SLEEPING) then RUNNABLE else p_state q |}.

Lemma kill_found pid p q :
  list_find (fun q => p_pid q = pid) (ptable s) = Some (p, q) ->
  kill pid s = Ok 0 (set_ptable (<[p := killed_proc q]> (ptable s)) (cli_touch s)).
Proof.
  intros Hp. unfold kill. step by (exact ptable_acquire). rewrite bind_gets. simpl. rewrite Hp.
  apply list_find_Some in Hp as (Hp & Hpid & _).
  step by (by apply modp_ok).
  step by (apply getp_ok; simpl; apply list_lookup_insert_eq; by eapply lookup_lt_Some).
  simpl p_state. unfold killed_proc. case_bool_decide as Hs; cbn [when].
  - step by (apply modp_ok; simpl; apply list_lookup_insert_eq; by eapply lookup_lt_Some).
    simpl. rewrite list_insert_insert_eq.
    by step by (exact (ptable_release (fun s' => set_ptable _ (set_ptable _ s')))).
  - rewrite bind_ret. by step by (exact (ptable_release (set_ptable _))).
Qed.

Lemma kill_absent pid :
  (forall p q, ptable s !! p = Some q -> p_pid q <> pid) -> kill pid s = Ok (-1) (cli_touch s).
Proof.
  intros Hn. unfold kill. step by (exact ptable_acquire). rewrite bind_gets. simpl.
  destruct (list_find (fun q => p_pid q = pid) (ptable s)) as [[p q] |] eqn:E.
  - apply list_find_Some in E as (Hp & Hpid & _). by apply Hn in Hp.
  - by step by (exact (ptable_release (fun s' => s'))).
Qed.

Lemma settickets_ok n p q :
  1 <= n -> c_proc c = Some p -> ptable s !! p = Some q ->
  settickets n s =
    Ok 0 (set_ptable (<[p := {| q with p_tickets := n |}]> (ptable s)) (cli_touch s)).
Proof.
  intros Hn Hp Hq. unfold settickets. rewrite (proj2 (Z.ltb_ge _ _)) by lia.
  step by (exact ptable_acquire).
  destruct (in_section_locked s i c LkPtable Hr) as (c' & Hin & Hc').
  step by (by eapply curproc_in; [done | rewrite Hc']).
  step by (by apply modp_ok). simpl.
  by step by (exact (ptable_release (set_ptable _))).
Qed.

Lemma settickets_bad n : n < 1 -> settickets n s = Ok (-1) s.
Proof. intros Hn. unfold settickets. by rewrite (proj2 (Z.ltb_lt _ _)). Qed.
End Ptable.

(** ** Giving up the processor *)

(** [sched], called as its checks demand, switches away without changing
    anything, and on return only restores the saved interrupt state. *)
Lemma sched_swtch s i c p q :
  runs_on s i c -> c_ncli c = 1 -> c_proc c = Some p -> ptable s !! p = Some q ->
  lk_locked (locks s LkPtable) <> 0 -> lk_cpu (locks s LkPtable) = Some i ->
  p_state q <> RUNNING ->
  exists k, sched s = Swtch s k /\
    forall s' i' c', runs_on s' i' c' -> eflags_IF s' = false ->
      k s' = Ok tt (set_cpus (<[i' := {| c' with c_intena := c_intena c |}]> (cpus s')) s').
Proof.
  intros Hr Hn Hp Hq Hl Hlc Hst.
  assert (Hin : in_section s i c) by (split; [done | lia]).
  assert (HIF : eflags_IF s = false) by (apply Hr; lia).
  unfold sched. step by (eapply myproc_ok, Hr). rewrite (in_section_touch s i c) by done.
  step by (by eapply holding_ok).
  rewrite (in_section_touch s i c), (proj2 (Z.eqb_neq _ _) Hl), bool_decide_eq_true_2 by done.
  cbn [negb andb]. step by (eapply mycpu_ok; [done | apply Hr]).
  pose proof (cur_cpu_lookup _ _ _ (ro_cur _ _ _ Hr)) as Hc.
  step by (by apply getc_ok). rewrite Hn. cbn [Z.eqb Pos.eqb negb].
  rewrite Hp. cbn [unwrap]. rewrite bind_ret. step by (by apply getp_ok).
  rewrite bool_decide_eq_false_2 by done. rewrite bind_gets, HIF.
  step by (eapply mycpu_ok; [done | apply Hr]). step by (by apply getc_ok).
  unfold swtch, bind at 1. simpl. eexists. split; [done |].
  intros s' i' c' Hr' HIF'. simpl.
  step by (eapply mycpu_ok; [done | apply Hr']).
  by erewrite modc_ok by (apply cur_cpu_lookup, Hr').
Qed.

(** Updating the current processor's record inside a section. *)
Lemma in_section_set s i c c' :
  in_section s i c -> c_apicid c' = c_apicid c -> c_ncli c' = c_ncli c ->
  in_section (set_cpus (<[i := c']> (cpus s)) s) i c'.
Proof.
  intros [Hr Hn] Ha Hc. pose proof (ro_cur _ _ _ Hr) as Hcur.
  split; [| by rewrite Hc]. split.
  - exact (cur_cpu_insert s i c c' Hcur Ha).
  - rewrite Hc. apply Hr.
  - intros _. apply Hr. lia.
Qed.

Lemma bind_modc {B} s i c f (k : unit -> M B) :
  in_section s i c -> bind (modc i f) k s = k tt (set_cpus (<[i := f c]> (cpus s)) s).
Proof. intros [Hr _]. by step by (apply modc_ok, cur_cpu_lookup, Hr). Qed.

Lemma switchuvm_ok s i c p q :
  in_section s i c -> ptable s !! p = Some q -> p_kstack q <> 0 -> p_pgdir q <> 0 ->
  switchuvm p s =
    Ok tt (set_cpus (<[i := load_tss (sym_cpus s) i (p_kstack q) c]> (cpus s))
      (set_cr3 (V2P (p_pgdir q)) (set_tr (Z.shiftl SEG_TSS 3) s))).
Proof.
  intros [Hr Hn] Hq Hk Hpg. assert (HIF : eflags_IF s = false) by (by apply Hr).
  unfold switchuvm. step by (by apply getp_ok).
  rewrite !(proj2 (Z.eqb_neq _ _)) by done. step by (eapply pushcli_ok, Hr). rewrite bind_gets.
  pose proof (runs_on_pushed_runs _ _ _ Hr) as Hp.
  step by (eapply mycpu_ok; [done | apply Hp]).
  match type of Hp with runs_on _ _ ?x => set (c1 := x) in * end.
  assert (Hin : in_section (pushed i c s) i c1) by (split; [done | simpl; lia]).
  erewrite bind_modc by exact Hin. unfold ltr, lcr3. rewrite !bind_modify.
  set (f := load_tss _ _ _).
  erewrite popcli_ok; [| exact (ro_cur _ _ _ (proj1 (in_section_set _ _ _ (f c1) Hin eq_refl eq_refl)))
    | done | simpl; lia].
  f_equal. unfold popped. simpl. rewrite !list_insert_insert_eq.
  replace (c_ncli c + 1 - 1) with (c_ncli c) by lia.
  rewrite (proj2 (Z.eqb_neq (c_ncli c + 1) 1)) by lia. cbn [andb].
  rewrite (proj2 (Z.eqb_neq (c_ncli c) 0)) by lia.
  trans (set_cpus (<[i := f c]> (cpus s)) (set_eflags_IF false
     (set_cr3 (V2P (p_pgdir q)) (set_tr (SEG_TSS ≪ 3) s)))); [reflexivity |].
  by rewrite <- HIF.
Qed.

(** ** The scheduler gives the processor away *)

Record dispatched (s0 s1 : kstate) (i p : nat) (q : proc) : Prop := {
  di_proc : exists c1, in_section s1 i c1 /\ c_ncli c1 = 1 /\ c_proc c1 = Some p /\
    ts_esp0 (c_ts c1) = u32 (p_kstack q + KSTACKSIZE);
  di_table : ptable s1 = <[p := {| q with p_state := RUNNING |}]> (ptable s0);
  di_cr3 : cr3 s1 = V2P (p_pgdir q);
  di_lock : lk_locked (locks s1 LkPtable) <> 0 /\ lk_cpu (locks s1 LkPtable) = Some i;
  di_rest : mem s1 = mem s0 /\ ticks s1 = ticks s0 /\ nextpid s1 = nextpid s0 /\
    scheduling_policy s1 = scheduling_policy s0 }.

Lemma dispatch_swtch s i c p q :
  in_section s i c -> c_ncli c = 1 -> ptable s !! p = Some q ->
  p_kstack q <> 0 -> p_pgdir q <> 0 ->
  lk_locked (locks s LkPtable) <> 0 -> lk_cpu (locks s LkPtable) = Some i ->
  exists s1 k, dispatch i p s = Swtch s1 k /\ dispatched s s1 i p q.
Proof.
  intros Hin Hn Hq Hk Hpg Hl Hlc. unfold dispatch.
  erewrite bind_modc by exact Hin. set (c1 := {| c with c_proc := Some p |}).
  assert (Hin1 : in_section (set_cpus (<[i := c1]> (cpus s)) s) i c1) by (by eapply in_section_set).
  step by (by apply (switchuvm_ok _ i c1 p q)).
  step by (by apply modp_ok).
  unfold swtch, bind at 1. simpl. eexists _, _. split; [done |].
  set (c2 := load_tss _ _ _ c1). split; [| done | done | done | done].
  exists c2. split_and!; [| done | done | done].
  destruct (in_section_set _ _ _ c2 Hin1 eq_refl eq_refl) as [Hr2 Hn2].
  split; [by eapply runs_on_ext; [.. | exact Hr2] | done].
Qed.

(** Runnable processes can be switched to: they own a kernel stack and a page table. *)
Definition loadable (ps : list proc) : Prop :=
  forall p q, runnable ps p q -> p_kstack q <> 0 /\ p_pgdir q <> 0.

(** [dispatch] from within the round, stated against the state the round began in. *)
Lemma dispatch_in_round {B} s0 s i c p q (K : unit -> M B) :
  in_section s i c -> c_ncli c = 1 ->
  lk_locked (locks s LkPtable) <> 0 -> lk_cpu (locks s LkPtable) = Some i ->
  ptable s = ptable s0 -> mem s = mem s0 -> ticks s = ticks s0 -> nextpid s = nextpid s0 ->
  scheduling_policy s = scheduling_policy s0 ->
  loadable (ptable s0) -> runnable (ptable s0) p q ->
  exists s1 k, bind (dispatch i p) K s = Swtch s1 k /\ dispatched s0 s1 i p q.
Proof.
  intros Hin Hn Hl Hlc Hpt Hm Ht Hnp Hpol Hload Hrun. destruct (Hload p q Hrun) as [Hk Hpg].
  destruct Hrun as [Hq Hst].
  destruct (dispatch_swtch s i c p q) as (s1 & k & Hd & [Hp Htab Hcr Hlk Hrest]); try done.
  { by rewrite Hpt. }
  eexists s1, _. split; [unfold bind at 1; by rewrite Hd |].
  split; [done | by rewrite Htab, Hpt | done | done |].
  destruct Hrest as (-> & -> & -> & ->). done.
Qed.

(** The round-robin loop skips to the first runnable slot. *)
Lemma rr_skip c s n k :
  (forall j q, (k <= j < k + n)%nat -> ptable s !! j = Some q -> p_state q <> RUNNABLE) ->
  (k + n <= length (ptable s))%nat ->
  forM (seq k n) (fun p => pr <- getp p ;;
    when (bool_decide (p_state pr = RUNNABLE)) (dispatch c p)) s = Ok tt s.
Proof.
  revert k. induction n as [| n IH]; intros k Hno Hlen; [done |].
  cbn [seq forM]. destruct (lookup_lt_is_Some_2 (ptable s) k) as [q Hq]; [lia |].
  rewrite bind_assoc. step by (by apply getp_ok).
  rewrite bool_decide_eq_false_2 by (eapply Hno; [| done]; lia). cbn [when]. rewrite bind_ret.
  apply IH; [| lia]. intros j q' Hj. apply Hno. lia.
Qed.

(** ... and dispatches it. *)
Lemma rr_first c s p :
  length (ptable s) = NPROC -> find_state RUNNABLE (ptable s) = Some p ->
  exists K, forM (seq 0 NPROC) (fun p => pr <- getp p ;;
    when (bool_decide (p_state pr = RUNNABLE)) (dispatch c p)) s = bind (dispatch c p) K s.
Proof.
  intros Hlen. unfold find_state. intros ((p', q) & Hfind & ->)%fmap_Some. cbn [fst].
  apply list_find_Some in Hfind as (Hp & Hst & Hbefore).
  assert (p' < NPROC)%nat by (rewrite <- Hlen; by eapply lookup_lt_Some).
  exists (fun _ => forM (seq (S p') (NPROC - S p')) (fun p => pr <- getp p ;;
    when (bool_decide (p_state pr = RUNNABLE)) (dispatch c p))).
  assert (seq 0 NPROC = seq 0 p' ++ seq p' (S (NPROC - S p'))) as ->.
  { change p' with (0 + p')%nat at 2. rewrite <- seq_app. f_equal. lia. }
  rewrite forM_app.
  step by (apply rr_skip; [intros j r Hj Hr; by apply (Hbefore j r Hr); lia | lia]).
  cbn [seq forM plus]. rewrite bind_assoc. step by (by apply getp_ok).
  by rewrite bool_decide_eq_true_2.
Qed.

Section Round.
Context (s : kstate) (i : nat) (c : cpu).
Context (Hr : runs_on s i c) (Hn : c_ncli c = 0) (Hf : lock_free s LkPtable).

(** The state in which the round looks at the table. *)
Definition round_state : kstate := locked_by i c LkPtable (set_eflags_IF true s).

Lemma round_runs : runs_on (set_eflags_IF true s) i c.
Proof. destruct Hr. split; [done | done | lia]. Qed.

Lemma round_start {B} (K : unit -> M B) :
  bind sti (fun _ => bind (acquire LkPtable) K) s = K tt round_state.
Proof.
  unfold sti. rewrite bind_modify. by step by (apply acquire_ok; [exact round_runs | apply Hf]).
Qed.

Lemma round_section : exists c', in_section round_state i c' /\ c_ncli c' = 1.
Proof.
  pose proof (runs_on_pushed_runs _ _ _ round_runs) as Hp. eexists. split.
  - split; [by eapply runs_on_ext; [.. | exact Hp] | simpl; lia].
  - simpl. lia.
Qed.

Lemma round_lock : lk_locked (locks round_state LkPtable) <> 0 /\
  lk_cpu (locks round_state LkPtable) = Some i.
Proof. done. Qed.

Lemma round_end :
  release LkPtable round_state = Ok tt (cli_touch (set_eflags_IF true s)).
Proof. apply (release_after (fun s => s)); [exact round_runs | exact Hf]. Qed.
End Round.

(** The process the policy in force selects from a table, [x] being the next random number. *)
Definition selected (policy x : Z) (ps : list proc) : option nat :=
  if policy =? 1 then fcfs_best ps
  else if policy =? 2 then lottery_winner (x mod lottery_total 0 ps) ps
  else find_state RUNNABLE ps.

Lemma selected_runnable policy x ps p :
  stakes ps <= INT_MAX -> selected policy x ps = Some p -> exists q, runnable ps p q.
Proof.
  intros Hs. unfold selected. destruct (policy =? 1); [| destruct (policy =? 2)].
  - by apply policy_sound.
  - rewrite lottery_total_stakes by done. by apply (policy_sound (Policy := lottery_policy x)).
  - unfold find_state. intros ((j, q) & Hq & ->)%fmap_Some. simpl.
    apply list_find_Some in Hq as (Hq & Hst & _). by exists q.
Qed.

Lemma selected_total policy x ps j q :
  stakes ps <= INT_MAX -> runnable ps j q -> is_Some (selected policy x ps).
Proof.
  intros Hs Hq. unfold selected. destruct (policy =? 1); [| destruct (policy =? 2)].
  - by eapply policy_total.
  - rewrite lottery_total_stakes by done.
    by apply (policy_total (Policy := lottery_policy x) ps j q).
  - unfold find_state. apply fmap_is_Some. apply list_find_elem_of with q; [| apply Hq].
    destruct Hq as [Hq _]. by eapply list_elem_of_lookup_2.
Qed.

Section RoundOutcome.
Context (s : kstate) (i : nat) (c : cpu).
Context (Hr : runs_on s i c) (Hn : c_ncli c = 0) (Hf : lock_free s LkPtable).
Context (Hs : stakes (ptable s) <= INT_MAX) (Hlen : length (ptable s) = NPROC).
Let sel := selected (scheduling_policy s) (krand_next (rand_seed s)) (ptable s).

(** A round with a process to run. *)
Lemma round_busy p q :
  loadable (ptable s) -> sel = Some p -> runnable (ptable s) p q ->
  exists s1 k, scheduler_round i s = Swtch s1 k /\ dispatched s s1 i p q.
Proof.
  unfold sel. intros Hload Hsel Hq.
  destruct (round_section s i c Hr Hn) as (c' & Hin & Hn').
  destruct (round_lock s i c) as [Hl Hlc].
  assert (Hdis : forall s2 (K : unit -> M unit), s2 = round_state s i c \/
    (exists x, s2 = set_rand_seed x (round_state s i c)) ->
    exists s1 k, bind (dispatch i p) K s2 = Swtch s1 k /\ dispatched s s1 i p q).
  { intros s2 K [-> | [x ->]].
    - by apply (dispatch_in_round s _ i c').
    - by apply (dispatch_in_round s _ i c'); [apply (in_section_frame (set_rand_seed x)) |..]. }
  unfold scheduler_round. rewrite (round_start s i c) by done. rewrite bind_gets.
  change (scheduling_policy (round_state s i c)) with (scheduling_policy s).
  unfold selected in Hsel. destruct (scheduling_policy s =? 1); [| destruct (_ =? 2)].
  - rewrite bind_assoc, bind_gets. change (ptable (round_state s i c)) with (ptable s).
    rewrite Hsel. apply Hdis. by left.
  - rewrite bind_assoc, bind_gets. change (ptable (round_state s i c)) with (ptable s).
    assert (0 < lottery_total 0 (ptable s)) as Ht.
    { rewrite lottery_total_stakes by done. by eapply stakes_pos. }
    rewrite (proj2 (Z.ltb_lt _ _) Ht). unfold krand. autorewrite with run. simpl.
    rewrite Hsel. apply Hdis. right. by eexists.
  - destruct (rr_first i (round_state s i c) p Hlen Hsel) as [K HK].
    unfold bind at 1. rewrite HK. change (obind (bind ?m K ?st) ?g) with (bind (bind m K) g st).
    rewrite bind_assoc. apply Hdis. by left.
Qed.

(** A round with nothing to run. *)
Lemma round_idle :
  sel = None -> (forall j q, ~ runnable (ptable s) j q) ->
  scheduler_round i s = Ok tt (cli_touch (set_eflags_IF true s)).
Proof.
  unfold sel. intros Hsel Hno.
  unfold scheduler_round. rewrite (round_start s i c) by done. rewrite bind_gets.
  change (scheduling_policy (round_state s i c)) with (scheduling_policy s).
  unfold selected in Hsel. destruct (scheduling_policy s =? 1); [| destruct (_ =? 2)].
  - rewrite bind_assoc, bind_gets. change (ptable (round_state s i c)) with (ptable s).
    rewrite Hsel, bind_ret. by apply round_end.
  - rewrite bind_assoc, bind_gets. change (ptable (round_state s i c)) with (ptable s).
    assert (stakes (ptable s) = 0) as Hz by (by apply stakes_none).
    rewrite lottery_total_stakes, Hz by done. cbn [Z.ltb Z.compare]. rewrite bind_ret.
    by apply round_end.
  - step by (apply rr_skip; [| by rewrite <- Hlen]; intros j q _ Hj Hq; by apply (Hno j q)).
    by apply round_end.
Qed.
End RoundOutcome.


(** ** A machine with one processor, for concrete runs *)

Definition one_cpu (c : cpu) (ps : list proc) : kstate :=
  set_ptable (ps ++ replicate (NPROC - length ps) proc0) (set_cpus [c] (set_ncpu 1 kstate0)).

Lemma one_cpu_runs c ps : c_apicid c = 0 -> 0 <= c_ncli c -> runs_on (one_cpu c ps) 0 c.
Proof.
  intros Ha Hn. split; [| exact Hn | reflexivity]. unfold cur_cpu.
  change (list_find (fun c => c_apicid c = 0) [c] = Some (0%nat, c)). cbn [list_find].
  by rewrite decide_True.
Qed.

(** A process that owns a kernel stack and a page table. *)
Definition live (st : procstate) (pid ctime tickets : Z) : proc :=
  {| proc0 with p_state := st; p_pid := pid; p_ctime := ctime; p_tickets := tickets;
                p_kstack := 0x80400000; p_pgdir := 0x80401000 |}.

Lemma one_cpu_loadable c ps :
  Forall (fun q => p_kstack q <> 0 /\ p_pgdir q <> 0) ps -> loadable (ptable (one_cpu c ps)).
Proof.
  intros Hps p q [Hp Hst]. unfold one_cpu in Hp.
  change (ptable (set_ptable ?l _)) with l in Hp.
  apply lookup_app_Some in Hp as [Hp | [_ Hp]].
  - by eapply (Forall_lookup_1 _ _ _ _ Hps).
  - by apply lookup_replicate in Hp as [-> _].
Qed.

Definition three_procs : list proc :=
  [live SLEEPING 1 0 10; live RUNNABLE 2 7 10; live RUNNABLE 3 5 10].


(** ** [procdump] *)

(** [procdump] does not print the times. [cprintf] has no conversion [%u], so for
    every process the line ends in the literal text below, whatever its running,
    sleeping and ready times are. *)
Theorem procdump_percent_u p :
  exists pre, format procdump_fmt (procdump_args p) =
    Some (pre ++ str " run=%u sleep=%u ready=%u)" ++ [10]) /\
    pre = int_chars (i32 (p_pid p)) 10 true ++ str " " ++ str (state_name (p_state p)) ++ str " " ++
          cut 16 (p_name p) ++ str " (tix=" ++ int_chars (i32 (p_tickets p)) 10 true.
Proof.
  eexists. split; [| reflexivity]. unfold procdump_fmt, procdump_args.
  set (name := str (state_name (p_state p))).
  let f := eval vm_compute in (str "%d %s %s (tix=%d run=%u sleep=%u ready=%u)" ++ [10]) in
    change (str _ ++ [10]) with f at 1.
  let f := eval vm_compute in (str " run=%u sleep=%u ready=%u)" ++ [10]) in
    change (str " run=%u sleep=%u ready=%u)" ++ [10]) with f.
  change (str " ") with [32]. change (str " (tix=") with [32; 40; 116; 105; 120; 61].
  cbn -[int_chars i32 cut]. f_equal.
  repeat (rewrite <- app_assoc; cbn -[int_chars i32 cut]). reflexivity.
Qed.
