(* ===== verification/ProcAlloc.v ===== *)
(** [allocproc]: the life of a process-table slot from UNUSED to EMBRYO, and the
    uniqueness of process identifiers. *)

From S2P Require Import Prelude Params Mem CString Machine Spinlock Kalloc Console Vm VmSpec Proc.
From S2P Require Import Sched ProcSpec.

Lemma free_pages_ext s s' l :
  mem s' = mem s -> kmem_freelist s' = kmem_freelist s -> sym_end s' = sym_end s -> kmem_ready s' ->
  free_pages s l -> free_pages s' l.
Proof.
  intros Em Ef Ee Hk [Hc Hp Hn _ He]. split; rewrite ?Em, ?Ef, ?Ee; try done.
  unfold kpage in *. by rewrite Ee.
Qed.

Lemma free_pages_frame U `{!CpuFrame U} s l :
  mem (U s) = mem s -> kmem_freelist (U s) = kmem_freelist s -> sym_end (U s) = sym_end s ->
  kmem_use_lock (U s) = kmem_use_lock s -> free_pages s l -> free_pages (U s) l.
Proof.
  intros Em Ef Ee Eu Hf. eapply free_pages_ext; try done. by apply (kmem_ready_frame U), Hf.
Qed.

Lemma free_pages_touch s i c l : runs_on s i c -> free_pages s l -> free_pages (cli_touch s) l.
Proof.
  intros Hr Hf. assert (Hk : kmem_ready (cli_touch s)).
  { intros Hu. split; [exists i; eexists; by apply cli_touch_runs |].
    apply cli_touch_lock_free. apply (fp_ready _ _ Hf). revert Hu. by destruct (cli_touch_eq s) as (cs & -> & _). }
  eapply free_pages_ext; [.. | done | done]; by destruct (cli_touch_eq s) as (cs & -> & _).
Qed.

(** ** What a new process looks like *)

(** The kernel stack at [x]: trap frame on top, below it the return address and
    the first context. *)
Definition new_tf (x : Z) : Z := x + KSTACKSIZE - SIZEOF_TRAPFRAME.
Definition new_context (x : Z) : Z := new_tf x - 4 - SIZEOF_CONTEXT.

Definition embryo (q : proc) (pid x now : Z) : proc :=
  {| q with p_state := EMBRYO; p_pid := pid; p_kstack := x; p_tf := new_tf x; p_context := new_context x;
            p_ctime := now; p_etime := 0; p_rtime := 0; p_retime := 0; p_stime := 0;
            p_tickets := 10; p_original_tickets := 10 |}.

(** Identifiers in use are distinct and below [nextpid]. *)
Record pids_ok (s : kstate) : Prop := {
  pk_next : 1 <= nextpid s;
  pk_below : forall i q, ptable s !! i = Some q -> p_state q <> UNUSED -> 1 <= p_pid q < nextpid s;
  pk_distinct : forall i j p q, ptable s !! i = Some p -> ptable s !! j = Some q ->
    p_state p <> UNUSED -> p_state q <> UNUSED -> p_pid p = p_pid q -> i = j }.

Lemma pids_ok_alloc s s' p q q' :
  pids_ok s -> ptable s !! p = Some q -> nextpid s < INT_MAX ->
  ptable s' = <[p := q']> (ptable s) -> nextpid s' = i32 (nextpid s + 1) ->
  (p_state q' <> UNUSED -> p_pid q' = nextpid s) -> pids_ok s'.
Proof.
  intros [Hn Hb Hd] Hq Hmax Ept Enp Hq'. unfold INT_MAX in Hmax.
  rewrite i32_small in Enp by (unfold is_i32; lia).
  assert (Hlk : forall i r, ptable s' !! i = Some r -> i = p /\ r = q' \/ i <> p /\ ptable s !! i = Some r).
  { intros i r Hi. rewrite Ept in Hi. destruct (decide (i = p)) as [-> | Hne].
    - left. rewrite list_lookup_insert_eq in Hi by (by eapply lookup_lt_Some). naive_solver.
    - right. by rewrite list_lookup_insert_ne in Hi by done. }
  split; [lia | |].
  - intros i r [[-> ->] | [Hne Hi]]%Hlk Hst; [rewrite Hq' by done; lia |]. specialize (Hb i r Hi Hst). lia.
  - intros i j r t [[-> ->] | [Hni Hi]]%Hlk [[-> ->] | [Hnj Hj]]%Hlk Hr Ht E; [done | | |].
    + specialize (Hb j t Hj Ht). rewrite Hq' in E by done. lia.
    + specialize (Hb i r Hi Hr). rewrite Hq' in E by done. lia.
    + by eapply (Hd i j r t).
Qed.

(** ** Running [allocproc] *)

Section Alloc.
Context (s : kstate) (i : nat) (c : cpu) (l : list Z) (forkret trapret : Z).
Context (Hr : runs_on s i c) (Hf : lock_free s LkPtable) (Hl : free_pages s l).

Lemma alloc_full : find_state UNUSED (ptable s) = None -> allocproc forkret trapret s = Ok None (cli_touch s).
Proof.
  intros Hn. unfold allocproc. step by (exact (ptable_acquire s i c Hr Hf)). rewrite bind_gets.
  change (ptable (locked_by i c LkPtable s)) with (ptable s). rewrite Hn.
  by step by (exact (ptable_release s i c Hr Hf (fun s => s))).
Qed.

(** The first critical section: the slot is claimed and gets a pid. *)
Definition claimed (p : nat) (q : proc) : kstate :=
  set_ptable (<[p := {| q with p_state := EMBRYO; p_pid := nextpid s |}]> (ptable s))
    (set_nextpid (i32 (nextpid s + 1)) (cli_touch s)).

(** What follows it. *)
Definition alloc_stack (p : nat) : M (option nat) :=
  kstack <- kalloc ;;
  modp p (fun q => {| q with p_kstack := kstack |}) ;;
  if kstack =? 0 then
    modp p (fun q => {| q with p_state := UNUSED |}) ;; ret None
  else
    modp p (fun q => {| q with p_tf := new_tf kstack |}) ;;
    stw (new_tf kstack - 4) trapret ;;
    modp p (fun q => {| q with p_context := new_context kstack |}) ;;
    modify (fun s => set_contexts (fupd (contexts s) (new_context kstack) (mkContext 0 0 0 0 forkret)) s) ;;
    now <- gets ticks ;;
    modp p (fun q => {| q with p_ctime := now; p_etime := 0; p_rtime := 0; p_retime := 0;
                               p_stime := 0; p_tickets := 10; p_original_tickets := 10 |}) ;;
    ret (Some p).

Lemma alloc_claim p q :
  find_state UNUSED (ptable s) = Some p -> ptable s !! p = Some q ->
  allocproc forkret trapret s = alloc_stack p (claimed p q).
Proof.
  intros Hp Hq. unfold allocproc. step by (exact (ptable_acquire s i c Hr Hf)). rewrite bind_gets.
  change (ptable (locked_by i c LkPtable s)) with (ptable s). rewrite Hp.
  step by (by apply modp_ok). rewrite bind_gets, bind_modify.
  step by (apply modp_ok; simpl; apply list_lookup_insert_eq; by eapply lookup_lt_Some).
  simpl. rewrite list_insert_insert_eq.
  step by (exact (ptable_release s i c Hr Hf (fun s => set_ptable _ (set_nextpid _ (set_ptable _ s))))).
  unfold claimed. by destruct (cli_touch_eq s) as (cs & -> & _).
Qed.

Lemma claimed_free p q : free_pages (claimed p q) l.
Proof.
  apply (free_pages_frame (fun s => set_ptable _ (set_nextpid _ s))); try done.
  by apply (free_pages_touch s i c).
Qed.

Lemma claimed_slot p q :
  ptable s !! p = Some q ->
  ptable (claimed p q) !! p = Some {| q with p_state := EMBRYO; p_pid := nextpid s |}.
Proof. intros Hq. apply list_lookup_insert_eq. by eapply lookup_lt_Some. Qed.
End Alloc.

(** Updating one slot several times. *)
Lemma modp_next s p q q' f ps :
  ptable s = <[p := q]> ps -> (p < length ps)%nat -> f q = q' ->
  modp p f s = Ok tt (set_ptable (<[p := q']> ps) s).
Proof.
  intros E Hp <-. erewrite modp_ok by (rewrite E; by apply list_lookup_insert_eq).
  by rewrite E, list_insert_insert_eq.
Qed.

Lemma alloc_stack_none t p q forkret trapret :
  free_pages t [] -> ptable t !! p = Some q ->
  exists s', alloc_stack forkret trapret p t = Ok None s' /\
    ptable s' = <[p := {| q with p_kstack := 0; p_state := UNUSED |}]> (ptable t) /\
    nextpid s' = nextpid t /\ free_pages s' [].
Proof.
  intros Hf Hq. destruct (kalloc_none t Hf) as (cs & f & Hk & Hf'). unfold alloc_stack. step by (exact Hk).
  step by (by apply modp_ok). cbn [Z.eqb].
  step by (eapply (modp_next _ p _ {| q with p_kstack := 0; p_state := UNUSED |} _ (ptable t)); [reflexivity | by eapply lookup_lt_Some | reflexivity]).
  eexists. split; [done |]. split_and!; [done | done |].
  by apply (free_pages_frame (fun s => set_ptable _ (set_ptable _ s))).
Qed.

(** The store of the return address leaves the free pages alone. *)
Lemma stack_store_apart t x l v j trapret :
  free_pages t (x :: l) -> v ∈ l -> 0 <= j < 4 ->
  st32 (mem t) (new_tf x - 4) trapret (v + j) = mem t (v + j).
Proof.
  intros [_ Hp Hn _ _] Hv Hj. apply Forall_cons in Hp as [[Hx _] Hp]. rewrite Forall_forall in Hp.
  destruct (Hp v Hv) as [[Hva _] _]. destruct Hx as [Hxa _]. apply NoDup_cons in Hn as [Hnx _].
  assert (Hne : x <> v) by (by intros ->). unfold PGSIZE in *.
  destruct (pages_ne x v j Hxa Hva Hne ltac:(lia)); unfold new_tf, KSTACKSIZE, SIZEOF_TRAPFRAME;
    apply st32_ne; lia.
Qed.

Lemma alloc_stack_some t p q x l forkret trapret :
  free_pages t (x :: l) -> ptable t !! p = Some q -> p_state q = EMBRYO ->
  exists s', alloc_stack forkret trapret p t = Ok (Some p) s' /\
    ptable s' = <[p := embryo q (p_pid q) x (ticks t)]> (ptable t) /\
    nextpid s' = nextpid t /\ free_pages s' l /\
    contexts s' (new_context x) = mkContext 0 0 0 0 forkret /\
    ld32 (mem s') (new_tf x - 4) = u32 trapret.
Proof.
  intros Hf Hq Hst. destruct (kalloc_take t x l Hf) as (cs & f & Hk & Hf' & Hx). unfold alloc_stack. step by (exact Hk).
  assert (Hp : (p < length (ptable t))%nat) by (by eapply lookup_lt_Some).
  step by (by apply modp_ok). rewrite (proj2 (Z.eqb_neq _ _)) by done.
  set (q1 := {| q with p_kstack := x; p_tf := new_tf x |}).
  step by (eapply (modp_next _ p _ q1 _ (ptable t)); [reflexivity | done | reflexivity]).
  unfold stw. rewrite bind_modify. set (q2 := {| q1 with p_context := new_context x |}).
  step by (eapply (modp_next _ p _ q2 _ (ptable t)); [reflexivity | done | reflexivity]).
  rewrite bind_modify, bind_gets.
  step by (eapply (modp_next _ p _ (embryo q (p_pid q) x (ticks t)) _ (ptable t)); [reflexivity | done |]; destruct q; simpl in Hst; by subst).
  eexists. split; [done |]. split_and!.
  - done.
  - done.
  - apply (free_pages_frame (fun s => set_ptable _ (set_contexts _ (set_ptable _ s)))); try done.
    apply free_pages_mem; [by apply (free_pages_frame (fun s => set_ptable _ (set_ptable _ s))) |].
    intros v j Hv Hj. apply (stack_store_apart t x l v j trapret); try done.
  - simpl. by rewrite fupd_eq.
  - simpl. by rewrite ld32_st32.
Qed.

(** C19: [allocproc], on every branch. With no UNUSED slot it returns null and
    changes no process. Otherwise it takes the first UNUSED slot and the next
    pid; out of memory, it returns null and the slot is UNUSED again; with a page
    left it returns the slot as an EMBRYO with that page as kernel stack, the
    trap frame, return address and context in place, the times zeroed and ten
    tickets. In each case identifiers in use stay distinct. *)
Theorem allocproc_spec s i c l forkret trapret :
  runs_on s i c -> lock_free s LkPtable -> free_pages s l -> pids_ok s -> nextpid s < INT_MAX ->
  exists r s', allocproc forkret trapret s = Ok r s' /\ pids_ok s' /\
    match find_state UNUSED (ptable s), l with
    | None, _ => r = None /\ ptable s' = ptable s /\ nextpid s' = nextpid s
    | Some p, [] => exists q, ptable s !! p = Some q /\ r = None /\ nextpid s' = nextpid s + 1 /\
        ptable s' = <[p := {| q with p_pid := nextpid s; p_kstack := 0; p_state := UNUSED |}]> (ptable s)
    | Some p, x :: l' => exists q, ptable s !! p = Some q /\ p_state q = UNUSED /\ r = Some p /\
        nextpid s' = nextpid s + 1 /\ free_pages s' l' /\
        ptable s' = <[p := embryo q (nextpid s) x (ticks s)]> (ptable s) /\
        contexts s' (new_context x) = mkContext 0 0 0 0 forkret /\
        ld32 (mem s') (new_tf x - 4) = u32 trapret
    end.
Proof.
  intros Hr Hf Hl Hpk Hmax. assert (Hi32 : i32 (nextpid s + 1) = nextpid s + 1).
  { apply i32_small. destruct Hpk. unfold INT_MAX, is_i32 in *. lia. }
  destruct (find_state UNUSED (ptable s)) as [p |] eqn:Hp.
  2: { eexists _, _. split; [by apply (alloc_full s i c) |].
       destruct (cli_touch_eq s) as (cs & -> & _). split; [by destruct Hpk |]. by destruct l. }
  pose proof Hp as ([p' q] & Hfind & ->)%fmap_Some. apply list_find_Some in Hfind as (Hq & Hst & _).
  simpl in Hp |- *. rewrite (alloc_claim s i c forkret trapret Hr Hf p' q Hp Hq).
  pose proof (claimed_slot s p' q Hq) as Hslot. pose proof (claimed_free s i c l Hr Hl p' q) as Hfree.
  assert (Hnp : nextpid (claimed s p' q) = i32 (nextpid s + 1)) by done.
  destruct l as [| x l'].
  - destruct (alloc_stack_none _ _ _ forkret trapret Hfree Hslot) as (s' & Hrun & Hpt & Hn & _).
    simpl in Hpt. rewrite list_insert_insert_eq in Hpt. exists None, s'. split_and!; [done | |].
    + eapply (pids_ok_alloc s s' p' q); try done; by rewrite Hn.
    + exists q. rewrite Hn, Hnp, Hi32. by split_and!.
  - destruct (alloc_stack_some _ _ _ x l' forkret trapret Hfree Hslot eq_refl) as (s' & Hrun & Hpt & Hn & Hf' & Hc & Hm).
    simpl in Hpt. rewrite list_insert_insert_eq in Hpt.
    assert (Hpt' : ptable s' = <[p' := embryo q (nextpid s) x (ticks s)]> (ptable s)).
    { rewrite Hpt. f_equal. by destruct (cli_touch_eq s) as (cs & -> & _). }
    exists (Some p'), s'. split_and!; [done | |].
    + eapply (pids_ok_alloc s s' p' q); try done; by rewrite Hn.
    + exists q. rewrite Hn, Hnp, Hi32. by split_and!.
Qed.

(** A machine with one process and two free pages. *)
Definition boot_machine : kstate :=
  set_sym_end 0x80110000 (set_kmem_freelist 0x80200000
    (set_mem (st32 (fun _ => 0) 0x80200000 0x80201000)
      (set_nextpid 2 (one_cpu {| cpu0 with c_proc := Some 0%nat |} [live RUNNING 1 0 10])))).

Lemma allocproc_spec_witness :
  exists s', allocproc 0x80104000 0x80106000 boot_machine = Ok (Some 1%nat) s' /\ pids_ok s' /\ nextpid s' = 3.
Proof.
  destruct (allocproc_spec boot_machine 0 {| cpu0 with c_proc := Some 0%nat |} [0x80200000; 0x80201000] 0x80104000 0x80106000)
    as (r & s' & Hrun & Hpk & Hspec).
  - apply (cf_runs_on (fun s => set_sym_end _ (set_kmem_freelist _ (set_mem _ (set_nextpid _ s))))), one_cpu_runs; [reflexivity | simpl; lia].
  - split; reflexivity.
  - destruct Pool.two_pages_pool as [Hc Hp Hn Hk He]. split; [exact Hc | exact Hp | exact Hn | intros Hu; discriminate Hu | exact He].
  - split; [simpl; lia | |].
    + intros [| j] q Hj Hst.
      * injection Hj as <-. simpl. lia.
      * exfalso. apply Hst. apply lookup_replicate in Hj as [-> _]. reflexivity.
    + intros [| j] [| k] p q Hj Hk Hp Hq _; [reflexivity | | |]; exfalso.
      * apply Hq. apply lookup_replicate in Hk as [-> _]. reflexivity.
      * apply Hp. apply lookup_replicate in Hj as [-> _]. reflexivity.
      * apply Hp. apply lookup_replicate in Hj as [-> _]. reflexivity.
  - vm_compute. reflexivity.
  - change (find_state UNUSED (ptable boot_machine)) with (Some 1%nat) in Hspec.
    destruct Hspec as (q & _ & _ & Hr & Hn & _). subst r. exists s'. split; [exact Hrun | split; [exact Hpk | exact Hn]].
Defined.
