(* ===== verification/ProcSwitch.v ===== *)
(** Giving up the processor and getting it back: [yield] and [sleep] of
    [proc.c] up to their context switch, and from the switch back to their
    return. *)

From S2P Require Import Prelude Params Mem Machine Spinlock Kalloc Console Vm Proc Sched.
From S2P Require Import ProcSpec.

(** ** Coming back from the switch *)

(** Processor [i] runs process [p] with exactly lock [l] held, as the scheduler
    hands the processor over ([dispatched]). *)
Record handed_over (s : kstate) (i : nat) (c : cpu) (p : nat) (l : lockid) : Prop := {
  ho_in : in_section s i c;
  ho_ncli : c_ncli c = 1;
  ho_proc : c_proc c = Some p;
  ho_lock : lk_locked (locks s l) <> 0 /\ lk_cpu (locks s l) = Some i }.

(** Lock [l] released at nesting depth one, with the saved interrupt state [b]. *)
Definition let_go (i : nat) (c : cpu) (b : bool) (l : lockid) (s : kstate) : kstate :=
  set_locks (fupd (locks s) l (mkSpinlock 0 (lk_name (locks s l)) None))
    (set_cpus (<[i := {| c with c_ncli := 0; c_intena := b |}]> (cpus s)) (set_eflags_IF b s)).

Lemma release_let_go s i c p b l :
  handed_over s i c p l ->
  release l (set_cpus (<[i := {| c with c_intena := b |}]> (cpus s)) s) = Ok tt (let_go i c b l s).
Proof.
  intros [Hin Hn Hp [Hl Hlc]].
  destruct (in_section_set s i c {| c with c_intena := b |} Hin eq_refl eq_refl) as [Hr _].
  erewrite release_ok; [| exact Hr | simpl; lia | done | done].
  unfold let_go, popped. simpl. rewrite Hn, list_insert_insert_eq. by destruct b.
Qed.

Lemma let_go_free s i c b l : lock_free (let_go i c b l s) l.
Proof. split; simpl; by rewrite fupd_eq. Qed.

Lemma let_go_runs s i c p b l :
  handed_over s i c p l -> runs_on (let_go i c b l s) i {| c with c_ncli := 0; c_intena := b |}.
Proof.
  intros [[Hr Hn'] Hn Hp _]. split; [| done | simpl; lia].
  exact (cur_cpu_insert s i c {| c with c_ncli := 0; c_intena := b |} (ro_cur _ _ _ Hr) eq_refl).
Qed.

(** [sched] between the two hand-overs. *)
Lemma sched_over s i c p q :
  handed_over s i c p LkPtable -> ptable s !! p = Some q -> p_state q <> RUNNING ->
  exists k, sched s = Swtch s k /\
    forall s' i' c', handed_over s' i' c' p LkPtable ->
      k s' = Ok tt (set_cpus (<[i' := {| c' with c_intena := c_intena c |}]> (cpus s')) s').
Proof.
  intros [[Hr Hn'] Hn Hp [Hl Hlc]] Hq Hst.
  destruct (sched_swtch s i c p q) as (k & Hk & Hback); try done.
  exists k. split; [done |]. intros s' i' c' [[Hr' Hc'] _ _ _].
  apply Hback; [done | by apply Hr'].
Qed.

(** ** [yield] *)

(** The state in which the caller, slot [p], has left the processor as [q]. *)
Definition given_up (i : nat) (c : cpu) (p : nat) (q : proc) (s : kstate) : kstate :=
  set_ptable (<[p := q]> (ptable s)) (locked_by i c LkPtable s).

Lemma given_up_over s i c p q :
  runs_on s i c -> c_ncli c = 0 -> c_proc c = Some p ->
  handed_over (given_up i c p q s) i
    {| c with c_ncli := 1; c_intena := eflags_IF s |} p LkPtable.
Proof.
  intros Hr Hn Hp. pose proof (runs_on_pushed_runs _ _ _ Hr) as Hr'. rewrite Hn in Hr'.
  split; [split |..]; try done. by eapply runs_on_ext; [.. | exact Hr'].
Qed.

Lemma yield_swtch s i c p q :
  runs_on s i c -> c_ncli c = 0 -> c_proc c = Some p -> ptable s !! p = Some q ->
  lock_free s LkPtable ->
  exists k, yield s = Swtch (given_up i c p {| q with p_state := RUNNABLE |} s) k /\
    forall s' i' c', handed_over s' i' c' p LkPtable ->
      k s' = Ok tt (let_go i' c' (eflags_IF s) LkPtable s').
Proof.
  intros Hr Hn Hp Hq Hf. unfold yield. step by (by apply ptable_acquire).
  destruct (in_section_locked s i c LkPtable Hr) as (c0 & Hin0 & Hc0).
  step by (by eapply curproc_in; [done | rewrite Hc0]).
  step by (by apply modp_ok).
  set (q' := {| q with p_state := RUNNABLE |}).
  change (set_ptable _ _) with (given_up i c p q' s).
  pose proof (given_up_over s i c p q' Hr Hn Hp) as Ho.
  destruct (sched_over _ _ _ p q' Ho) as (k & Hk & Hback); [| done |].
  { simpl. apply list_lookup_insert_eq. by eapply lookup_lt_Some. }
  unfold bind at 1. rewrite Hk. eexists. split; [done |].
  intros s' i' c' Hs'. unfold bind. rewrite (Hback s' i' c' Hs').
  simpl. by eapply release_let_go.
Qed.

(** ** [sleep] *)

(** The state of a process that has gone to sleep. *)
Definition asleep (ch : chan) (q : proc) : proc :=
  {| q with p_chan := Some ch; p_state := SLEEPING |}.

(** Back from the switch: lock [LkPtable] exchanged for [lk]. *)
Definition awake (i : nat) (c : cpu) (b : bool) (p : nat) (q : proc) (lk : lockid) (s : kstate)
  : kstate :=
  locked_by i {| c with c_ncli := 0; c_intena := b |} lk
    (let_go i c b LkPtable (set_ptable (<[p := {| q with p_chan := None |}]> (ptable s)) s)).

(** Exchanging the caller's lock for the table's, without a gap. *)
Definition swapped (i : nat) (l1 l2 : lockid) (s : kstate) : kstate :=
  set_locks (fupd (fupd (locks s) l2 (mkSpinlock 1 (lk_name (locks s l2)) (Some i))) l1
    (mkSpinlock 0 (lk_name (locks s l1)) None)) s.

Lemma swap_ok s i c p lk :
  lk <> LkPtable -> handed_over s i c p lk -> lock_free s LkPtable ->
  bind (acquire LkPtable) (fun _ => release lk) s = Ok tt (swapped i lk LkPtable s).
Proof.
  intros Hne [Hin Hn Hp [Hl Hlc]] Hf. pose proof (proj1 Hin) as Hr.
  step by (by apply ptable_acquire).
  pose proof (runs_on_pushed_runs _ _ _ Hr) as Hr1.
  erewrite release_ok;
    [| by eapply (runs_on_ext _ (locked_by i c LkPtable s)); [.. | exact Hr1] | simpl; lia
     | by simpl; rewrite fupd_ne ..].
  f_equal. simpl locks. rewrite fupd_ne by done. unfold swapped.
  etrans; [| apply (f_equal (set_locks _)), (in_section_touch s i c Hin)].
  by rewrite <- (popped_pushed s i c Hr).
Qed.

Lemma swapped_over s i c p lk :
  lk <> LkPtable -> handed_over s i c p lk -> handed_over (swapped i lk LkPtable s) i c p LkPtable.
Proof.
  intros Hne [[Hr Hn'] Hn Hp _]. split; [split | | |]; try done.
  - by eapply runs_on_ext; [.. | exact Hr].
  - simpl. by rewrite fupd_ne, fupd_eq.
Qed.

Lemma sleep_swtch s i c p q ch lk :
  lk <> LkPtable -> handed_over s i c p lk -> lock_free s LkPtable -> ptable s !! p = Some q ->
  exists s1 c1 k, sleep ch lk s = Swtch s1 k /\
    handed_over s1 i c1 p LkPtable /\ lock_free s1 lk /\
    ptable s1 = <[p := asleep ch q]> (ptable s) /\
    forall s' i' c' q', handed_over s' i' c' p LkPtable -> lock_free s' lk ->
      ptable s' !! p = Some q' -> k s' = Ok tt (awake i' c' (c_intena c) p q' lk s').
Proof.
  intros Hne Hho Hf Hq. pose proof Hho as [Hin Hn Hp [Hl Hlc]].
  unfold sleep. step by (eapply myproc_ok, Hin). rewrite (in_section_touch s i c), Hp by done.
  rewrite bool_decide_eq_false_2 by done. cbn [negb when]. 
  step by (by eapply swap_ok). set (s0 := swapped i lk LkPtable s).
  step by (by apply modp_ok).
  step by (apply modp_ok; simpl; apply list_lookup_insert_eq; by eapply lookup_lt_Some).
  simpl. rewrite list_insert_insert_eq.
  set (s1 := set_ptable _ _).
  assert (Ho : handed_over s1 i c p LkPtable).
  { destruct (swapped_over s i c p lk Hne Hho) as [[Hr1 Hn1] Hc1 Hp1 Hl1].
    split; [split | done | done | done]; [| done]. by eapply runs_on_ext; [.. | exact Hr1]. }
  destruct (sched_over s1 i c p (asleep ch q) Ho) as (k & Hk & Hback); [| done |].
  { apply list_lookup_insert_eq. by eapply lookup_lt_Some. }
  unfold bind at 1. rewrite Hk. eexists s1, c, _. split_and!; [done | done | | done |].
  { split; simpl; by rewrite fupd_eq. }
  intros s' i' c' q' Ho' Hf' Hq'. unfold bind at 1. rewrite (Hback s' i' c' Ho'). cbn [obind].
  erewrite modp_ok by done. cbn [obind].
  set (b := c_intena c). set (s2 := set_ptable (<[p := {| q' with p_chan := None |}]> (ptable s')) s').
  assert (Ho2 : handed_over s2 i' c' p LkPtable).
  { destruct Ho' as [[Hr2 Hn2] Hc2 Hp2 Hl2]. split; [split | done | done | done]; [| done].
    by eapply runs_on_ext; [.. | exact Hr2]. }
  step by (exact (release_let_go s2 i' c' p b LkPtable Ho2)).
  apply acquire_ok; [by eapply let_go_runs | simpl; rewrite fupd_ne by done; apply Hf'].
Qed.

(** A sleeping process: woken by its channel, and by nothing else [wake] is told. *)
Lemma wake_asleep ch ch' q :
  wake (Some ch') (asleep ch q) =
    if decide (ch' = ch) then {| (asleep ch q) with p_state := RUNNABLE |} else asleep ch q.
Proof. unfold wake. case_bool_decide as E; case_decide; naive_solver. Qed.


(** A processor in a critical section of [tickslock], as in [sys_sleep]. *)
Definition sleeper : kstate :=
  set_locks (fun l => mkSpinlock (if decide (l = LkTicks) then 1 else 0) ""
                        (if decide (l = LkTicks) then Some 0%nat else None))
    (one_cpu {| cpu0 with c_ncli := 1; c_proc := Some 0%nat |} [live RUNNING 1 0 10]).

Lemma sleeper_over :
  handed_over sleeper 0 {| cpu0 with c_ncli := 1; c_proc := Some 0%nat |} 0 LkTicks.
Proof. by split; [split |..]. Qed.

