(* ===== verification/Sleeplock.v ===== *)
(** [sleeplock.c]: long-term locks, on which waiters sleep. *)

From S2P Require Import Prelude Params Machine Spinlock Proc ProcSpec.

(** ** Operations *)

Definition initsleeplock (l : sleeplk) (name : string) : M unit :=
  initlock (LkSleep l) "sleep lock" ;;
  modsl l (fun _ => mkSleeplock 0 name 0).

Definition acquiresleep `{Turns} (l : sleeplk) : M unit :=
  acquire (LkSleep l) ;;
  loop_until max_turns (
    lk <- gets (fun s => sleeplocks s l) ;;
    if negb (sl_locked lk =? 0) then sleep (ChSleep l) (LkSleep l) ;; ret None
    else ret (Some tt)) ;;
  modsl l (fun lk => {| lk with sl_locked := 1 |}) ;;
  p <- curproc ;;
  pr <- getp p ;;
  modsl l (fun lk => {| lk with sl_pid := p_pid pr |}) ;;
  release (LkSleep l).

Definition releasesleep (l : sleeplk) : M unit :=
  acquire (LkSleep l) ;;
  modsl l (fun lk => {| lk with sl_locked := 0 |}) ;;
  modsl l (fun lk => {| lk with sl_pid := 0 |}) ;;
  wakeup (ChSleep l) ;;
  release (LkSleep l).

Definition holdingsleep (l : sleeplk) : M bool :=
  acquire (LkSleep l) ;;
  lk <- gets (fun s => sleeplocks s l) ;;
  r <- (if negb (sl_locked lk =? 0) then
          p <- curproc ;;
          pr <- getp p ;;
          ret (sl_pid lk =? p_pid pr)
        else ret false) ;;
  release (LkSleep l) ;;
  ret r.

(** ** Without contention *)

(** [wakeup] inside another critical section. *)
Lemma wakeup_in s i c ch :
  in_section s i c -> lock_free s LkPtable ->
  wakeup ch s = Ok tt (set_ptable (wake (Some ch) <$> ptable s) s).
Proof.
  intros Hin Hf. rewrite (wakeup_ok s i c) by (done || apply Hin).
  by rewrite (in_section_touch s i c).
Qed.

Section Uncontended.
Context `{Turns} (s : kstate) (i : nat) (c : cpu) (l : sleeplk).
Context (Hr : runs_on s i c) (Hf : lock_free s (LkSleep l)).

Lemma sleep_section :
  exists c', in_section (locked_by i c (LkSleep l) s) i c' /\ c_proc c' = c_proc c.
Proof. by apply in_section_locked. Qed.

Lemma sleep_acquire : acquire (LkSleep l) s = Ok tt (locked_by i c (LkSleep l) s).
Proof. apply acquire_ok; [done | apply Hf]. Qed.

(** [acquiresleep] on a free lock takes it for the calling process at once. *)
Lemma acquiresleep_free p q :
  (0 < max_turns)%nat -> sl_locked (sleeplocks s l) = 0 ->
  c_proc c = Some p -> ptable s !! p = Some q ->
  acquiresleep l s =
    Ok tt (set_sleeplocks (fupd (sleeplocks s) l
      (mkSleeplock 1 (sl_name (sleeplocks s l)) (p_pid q))) (cli_touch s)).
Proof.
  intros Ht Hl Hp Hq. unfold acquiresleep. step by (exact sleep_acquire).
  destruct max_turns as [| turns]; [lia |]. cbn [loop_until]. autorewrite with run.
  simpl sleeplocks. rewrite Hl. cbn [Z.eqb negb]. rewrite bind_ret.
  destruct sleep_section as (c' & Hin & Hc'). unfold modsl. autorewrite with run.
  step by (eapply (curproc_in _ i c' p); [by apply (in_section_frame (set_sleeplocks _)) | by rewrite Hc']).
  step by (by apply getp_ok). autorewrite with run. simpl. rewrite fupd_eq, fupd_fupd. simpl.
  exact (release_after (fun s => set_sleeplocks _ (set_sleeplocks _ s)) s i c (LkSleep l) Hr Hf).
Qed.

(** [releasesleep] frees the lock and wakes every process sleeping on it. *)
Lemma releasesleep_ok :
  lock_free s LkPtable ->
  releasesleep l s =
    Ok tt (set_ptable (wake (Some (ChSleep l)) <$> ptable s)
      (set_sleeplocks (fupd (sleeplocks s) l (mkSleeplock 0 (sl_name (sleeplocks s l)) 0))
        (cli_touch s))).
Proof.
  intros Hpt. unfold releasesleep. step by (exact sleep_acquire).
  unfold modsl. autorewrite with run. simpl. rewrite fupd_eq, fupd_fupd. simpl.
  destruct sleep_section as (c' & Hin & _).
  step by (apply (wakeup_in _ i c'); [by apply (in_section_frame (fun s => set_sleeplocks _ (set_sleeplocks _ s))) | done]).
  simpl.
  exact (release_after (fun s => set_ptable _ (set_sleeplocks _ (set_sleeplocks _ s)))
    s i c (LkSleep l) Hr Hf).
Qed.

(** [holdingsleep] answers whether the calling process is the holder. *)
Lemma holdingsleep_ok p q :
  c_proc c = Some p -> ptable s !! p = Some q ->
  holdingsleep l s =
    Ok (negb (sl_locked (sleeplocks s l) =? 0) && (sl_pid (sleeplocks s l) =? p_pid q))%bool
       (cli_touch s).
Proof.
  intros Hp Hq. unfold holdingsleep. step by (exact sleep_acquire). rewrite bind_gets.
  simpl sleeplocks. destruct sleep_section as (c' & Hin & Hc').
  destruct (sl_locked (sleeplocks s l) =? 0); cbn [negb andb].
  - rewrite bind_ret. by step by (exact (release_after (fun s => s) s i c (LkSleep l) Hr Hf)).
  - rewrite bind_assoc. step by (by eapply (curproc_in _ i c' p); [done | rewrite Hc']).
    rewrite bind_assoc. step by (by apply getp_ok). rewrite bind_ret.
    by step by (exact (release_after (fun s => s) s i c (LkSleep l) Hr Hf)).
Qed.
End Uncontended.
