(* ===== verification/Ide.v ===== *)
(** The disk drivers: [ide.c], driven by interrupts through the I/O ports, and
    [memide.c], a synchronous disk in memory.  The rest of the kernel calls
    whichever is linked in through [Disk]. *)

From S2P Require Import Prelude Params Machine Spinlock Console Apic Proc ProcSpec Sleeplock.

(** The entry points of a driver: start-up, interrupt, and the buffer cache's requests. *)
Class Disk := { disk_init : M unit; disk_intr : M unit; iderw : nat -> M unit }.

(** ** [ide.c] *)

Module Ide.

Abbreviation IDE_BSY := (0x80) (only parsing).
Abbreviation IDE_DRDY := (0x40) (only parsing).
Abbreviation IDE_DF := (0x20) (only parsing).
Abbreviation IDE_ERR := (0x01) (only parsing).
Abbreviation IDE_CMD_READ := (0x20) (only parsing).
Abbreviation IDE_CMD_WRITE := (0x30) (only parsing).
Abbreviation IDE_CMD_RDMUL := (0xc4) (only parsing).
Abbreviation IDE_CMD_WRMUL := (0xc5) (only parsing).
Abbreviation SECTOR_SIZE := (512) (only parsing).

(** [insl] and [outsl] of [x86.h]: [cnt] words from and to a port. *)
Definition inl (port : Z) : M Z := fun s =>
  Ok (u32 (port_in s (port_time (io s)) port))
     (set_io {| (io s) with port_time := S (port_time (io s)) |} s).
Fixpoint insl (port : Z) (cnt : nat) : M (list Z) :=
  match cnt with
  | O => ret []
  | S n => w <- inl port ;; r <- insl port n ;;
           ret (w mod 256 :: w / 256 mod 256 :: w / 65536 mod 256 :: w / 16777216 :: r)
  end.
Fixpoint outsl (port : Z) (data : list Z) : M unit :=
  match data with
  | a :: b :: c :: d :: r =>
      modio (fun x => {| x with port_out :=
        (port, a + 256 * b + 65536 * c + 16777216 * d) :: port_out x |}) ;;
      outsl port r
  | _ => ret tt
  end.

Section Driver.
Context `{Turns}.

Definition idewait (checkerr : bool) : M Z :=
  r <- loop_until max_turns (
    r <- inb 0x1f7 ;;
    ret (if Z.land r (Z.lor IDE_BSY IDE_DRDY) =? IDE_DRDY then Some r else None)) ;;
  if (checkerr && negb (Z.land r (Z.lor IDE_DF IDE_ERR) =? 0))%bool then ret (-1) else ret 0.

(** The probe for disk 1: at most [n] reads of the status port. *)
Fixpoint probe_disk1 (n : nat) : M unit :=
  match n with
  | O => ret tt
  | S n' =>
      r <- inb 0x1f7 ;;
      if negb (r =? 0) then modify (set_havedisk1 true) else probe_disk1 n'
  end.

Definition ideinit : M unit :=
  initlock LkIde "ide" ;;
  n <- gets ncpu ;;
  ioapicenable IRQ_IDE (Z.of_nat n - 1) ;;
  idewait false ;;
  outb 0x1f6 (Z.lor 0xe0 (Z.shiftl 1 4)) ;;
  probe_disk1 1000 ;;
  outb 0x1f6 (Z.lor 0xe0 (Z.shiftl 0 4)).

Definition idestart (ob : option nat) : M unit :=
  match ob with
  | None => panic "idestart"
  | Some i =>
      b <- getb i ;;
      if FSSIZE <=? b_blockno b then panic "incorrect blockno"
      else
        let sector_per_block := BSIZE / SECTOR_SIZE in
        let sector := b_blockno b * sector_per_block in
        let read_cmd := if sector_per_block =? 1 then IDE_CMD_READ else IDE_CMD_RDMUL in
        let write_cmd := if sector_per_block =? 1 then IDE_CMD_WRITE else IDE_CMD_WRMUL in
        if 7 <? sector_per_block then panic "idestart"
        else
          idewait false ;;
          outb 0x3f6 0 ;;
          outb 0x1f2 sector_per_block ;;
          outb 0x1f3 (Z.land sector 0xff) ;;
          outb 0x1f4 (Z.land (Z.shiftr sector 8) 0xff) ;;
          outb 0x1f5 (Z.land (Z.shiftr sector 16) 0xff) ;;
          outb 0x1f6 (Z.lor (Z.lor 0xe0 (Z.shiftl (Z.land (b_dev b) 1) 4))
                            (Z.land (Z.shiftr sector 24) 0x0f)) ;;
          if negb (Z.land (b_flags b) B_DIRTY =? 0) then
            outb 0x1f7 write_cmd ;;
            outsl 0x1f0 (b_data b)
          else outb 0x1f7 read_cmd
  end.

Definition ideintr : M unit :=
  acquire LkIde ;;
  q <- gets idequeue ;;
  match q with
  | None => release LkIde
  | Some i =>
      b <- getb i ;;
      modify (set_idequeue (b_qnext b)) ;;
      (if Z.land (b_flags b) B_DIRTY =? 0 then
         r <- idewait true ;;
         when (0 <=? r)
           (d <- insl 0x1f0 (Z.to_nat (BSIZE / 4)) ;; modb i (fun b => {| b with b_data := d |}))
       else ret tt) ;;
      modb i (fun b => {| b with b_flags := Z.lor (b_flags b) B_VALID |}) ;;
      modb i (fun b => {| b with b_flags := Z.land (b_flags b) (Z.lnot B_DIRTY) |}) ;;
      wakeup (ChBuf i) ;;
      q <- gets idequeue ;;
      (match q with Some _ => idestart q | None => ret tt end) ;;
      release LkIde
  end.

(** The end of the queue: the last buffer of the chain from [idequeue], if any. *)
Fixpoint queue_last (fuel : nat) (bs : list buf) (i : nat) : option nat :=
  match fuel with
  | O => None
  | S fuel' =>
      match bs !! i with
      | Some b => match b_qnext b with Some j => queue_last fuel' bs j | None => Some i end
      | None => None
      end
  end.

(** Append a buffer; a queue has at most [NBUF] distinct buffers. *)
Definition queue_append (i : nat) : M unit :=
  modb i (fun b => {| b with b_qnext := None |}) ;;
  q <- gets idequeue ;;
  match q with
  | None => modify (set_idequeue (Some i))
  | Some h =>
      bs <- gets bcache ;;
      last <- unwrap (queue_last (S NBUF) bs h) ;;
      modb last (fun b => {| b with b_qnext := Some i |})
  end.

Definition VALID_DIRTY : Z := Z.lor B_VALID B_DIRTY.

Definition iderw (i : nat) : M unit :=
  h <- holdingsleep (SlBuf i) ;;
  if negb h then panic "iderw: buf not locked"
  else
    b <- getb i ;;
    hd1 <- gets havedisk1 ;;
    if Z.land (b_flags b) VALID_DIRTY =? B_VALID then panic "iderw: nothing to do"
    else if (negb (b_dev b =? 0) && negb hd1)%bool then panic "iderw: ide disk 1 not present"
    else
      acquire LkIde ;;
      queue_append i ;;
      q <- gets idequeue ;;
      when (bool_decide (q = Some i)) (idestart (Some i)) ;;
      loop_until max_turns (
        b <- getb i ;;
        if negb (Z.land (b_flags b) VALID_DIRTY =? B_VALID) then sleep (ChBuf i) LkIde ;; ret None
        else ret (Some tt)) ;;
      release LkIde.
End Driver.
End Ide.

#[export] Instance ide_disk `{Turns} : Disk | 10 :=
  {| disk_init := Ide.ideinit; disk_intr := Ide.ideintr; iderw := Ide.iderw |}.

(** ** [memide.c] *)

Module Memide.

(** [ideinit]: [fs_img_size] is the linker's [_binary_fs_img_size]. *)
Definition ideinit (fs_img_size : Z) : M unit := modify (set_disksize (fs_img_size / BSIZE)).

Definition ideintr : M unit := ret tt.

Definition iderw (i : nat) : M unit :=
  h <- holdingsleep (SlBuf i) ;;
  if negb h then panic "iderw: buf not locked"
  else
    b <- getb i ;;
    n <- gets disksize ;;
    if Z.land (b_flags b) (Z.lor B_VALID B_DIRTY) =? B_VALID then panic "iderw: nothing to do"
    else if negb (b_dev b =? 1) then panic "iderw: request not for disk 1"
    else if n <=? b_blockno b then panic "iderw: block out of range"
    else
      (if negb (Z.land (b_flags b) B_DIRTY =? 0) then
         modb i (fun b => {| b with b_flags := Z.land (b_flags b) (Z.lnot B_DIRTY) |}) ;;
         modify (fun s => set_disk (fupd (disk s) (b_blockno b) (b_data b)) s)
       else
         p <- gets (fun s => disk s (b_blockno b)) ;;
         modb i (fun b => {| b with b_data := p |})) ;;
      modb i (fun b => {| b with b_flags := Z.lor (b_flags b) B_VALID |}).

Definition mem_disk (fs_img_size : Z) : Disk :=
  Build_Disk (ideinit fs_img_size) ideintr iderw.
End Memide.
