(* ===== verification/Quiet.v ===== *)
(** One process running alone in the kernel: no lock is held, nobody interferes.
    Here the operations on sleep locks and the disk have simple equations, which
    the buffer cache and the log are verified with.  The disk may lose power
    before any transfer. *)

From S2P Require Import Prelude Params Machine Spinlock Console Proc ProcSpec Sleeplock Ide.
From Stdlib Require Import FunctionalExtensionality.

(** ** The situation *)

(** A process with this pid runs, and no spin lock is held. *)
Record calm (pid : Z) (s : kstate) : Prop := {
  calm_runs : exists i c p q,
    runs_on s i c /\ c_proc c = Some p /\ ptable s !! p = Some q /\ p_pid q = pid;
  calm_free : forall l, lock_free s l }.

Lemma calm_frame U `{!CpuFrame U} pid s :
  ptable (U s) = ptable s -> calm pid s -> calm pid (U s).
Proof.
  intros Hp [(i & c & p & q & Hr & Hc & Hq & Hpid) Hf]. split.
  - exists i, c, p, q. rewrite Hp. split_and!; try done. by apply cf_runs_on.
  - intros l. by apply cf_lock_free.
Qed.

Lemma calm_touch pid s : calm pid s -> calm pid (cli_touch s).
Proof.
  intros [(i & c & p & q & Hr & Hc & Hq & Hpid) Hf]. split.
  - eexists i, _, p, q. split_and!; [by apply cli_touch_runs | by case_match | | done].
    by destruct (cli_touch_eq s) as (cs & -> & _).
  - intros l. by apply cli_touch_lock_free.
Qed.

Lemma calm_wake pid ch s : calm pid s -> calm pid (set_ptable (wake ch <$> ptable s) s).
Proof.
  intros [(i & c & p & q & Hr & Hc & Hq & Hpid) Hf]. split.
  - exists i, c, p, (wake ch q). split_and!; [by apply (cf_runs_on (set_ptable _)) | done | |].
    + simpl. by rewrite list_lookup_fmap, Hq.
    + unfold wake. by case_match.
  - intros l. by apply (cf_lock_free (set_ptable _)).
Qed.

(** The inodes in memory and the superblock, which the layers below leave alone. *)
Definition inodes (s : kstate) : list inode * superblock := (icache s, sb s).

Lemma inodes_icache s s' : inodes s' = inodes s -> icache s' = icache s.
Proof. unfold inodes. congruence. Qed.
Lemma inodes_sb s s' : inodes s' = inodes s -> sb s' = sb s.
Proof. unfold inodes. congruence. Qed.

(** With the sleep locks of the inodes. *)
Definition kept (s : kstate) : list inode * superblock * (nat -> sleeplock) := (inodes s, fun i => sleeplocks s (SlInode i)).

Lemma kept_eq s s' :
  inodes s' = inodes s -> (forall i, sleeplocks s' (SlInode i) = sleeplocks s (SlInode i)) -> kept s' = kept s.
Proof. intros Hi Hl. unfold kept. rewrite Hi. f_equal. by apply functional_extensionality. Qed.
Lemma kept_inodes s s' : kept s' = kept s -> inodes s' = inodes s.
Proof. unfold kept. congruence. Qed.
Lemma kept_icache s s' : kept s' = kept s -> icache s' = icache s.
Proof. intros E. by apply inodes_icache, kept_inodes. Qed.
Lemma kept_sb s s' : kept s' = kept s -> sb s' = sb s.
Proof. intros E. by apply inodes_sb, kept_inodes. Qed.
Lemma kept_locks s s' i : kept s' = kept s -> sleeplocks s' (SlInode i) = sleeplocks s (SlInode i).
Proof. intros E. by apply (f_equal (fun k => k.2 i)) in E. Qed.

(** The parts of the state the file system's lower layers work on. *)
Record same_store (s s' : kstate) : Prop := {
  st_bcache : bcache s' = bcache s;
  st_disk : disk s' = disk s;
  st_disksize : disksize s' = disksize s;
  st_log : log s' = log s;
  st_inodes : inodes s' = inodes s }.

Lemma same_store_touch s : same_store s (cli_touch s) /\ sleeplocks (cli_touch s) = sleeplocks s.
Proof. by destruct (cli_touch_eq s) as (cs & -> & _). Qed.

(** ** Sleep locks *)

Definition sl_held (pid : Z) (s : kstate) (l : sleeplk) : Prop :=
  sl_locked (sleeplocks s l) <> 0 /\ sl_pid (sleeplocks s l) = pid.

Lemma calm_holdingsleep pid s l :
  calm pid s -> sl_held pid s l -> holdingsleep l s = Ok true (cli_touch s).
Proof.
  intros [(i & c & p & q & Hr & Hc & Hq & Hpid) Hf] [Hl Hp].
  rewrite (holdingsleep_ok s i c l Hr (Hf _) p q Hc Hq).
  rewrite (proj2 (Z.eqb_neq _ _) Hl), Hp, Hpid, Z.eqb_refl. done.
Qed.

Lemma calm_acquiresleep `{Turns} pid s l :
  (0 < max_turns)%nat -> calm pid s -> sl_locked (sleeplocks s l) = 0 ->
  exists s', acquiresleep l s = Ok tt s' /\ calm pid s' /\ same_store s s' /\ sl_held pid s' l /\
    forall l', l' <> l -> sleeplocks s' l' = sleeplocks s l'.
Proof.
  intros Ht Hs Hl. pose proof Hs as [(i & c & p & q & Hr & Hc & Hq & Hpid) Hf].
  eexists. split; [by eapply (acquiresleep_free s i c l Hr (Hf _) p q) |].
  destruct (same_store_touch s) as [[? ? ? ? ?] Hsl]. split_and!.
  - by apply (calm_frame (set_sleeplocks _)), calm_touch.
  - by split.
  - split; simpl; by rewrite fupd_eq.
  - intros l' Hne. simpl. by rewrite fupd_ne.
Qed.

Lemma calm_releasesleep pid s l :
  calm pid s ->
  exists s', releasesleep l s = Ok tt s' /\ calm pid s' /\ same_store s s' /\
    sl_locked (sleeplocks s' l) = 0 /\ forall l', l' <> l -> sleeplocks s' l' = sleeplocks s l'.
Proof.
  intros Hs. pose proof Hs as [(i & c & p & q & Hr & Hc & Hq & Hpid) Hf].
  eexists. split; [by apply (releasesleep_ok s i c l Hr (Hf _)) |].
  destruct (same_store_touch s) as [[? ? ? ? ?] Hsl]. split_and!.
  - replace (ptable s) with (ptable (set_sleeplocks (fupd (sleeplocks s) l
      (mkSleeplock 0 (sl_name (sleeplocks s l)) 0)) (cli_touch s))).
    + by apply calm_wake, (calm_frame (set_sleeplocks _)), calm_touch.
    + by destruct (cli_touch_eq s) as (cs & -> & _).
  - by split.
  - simpl. by rewrite fupd_eq.
  - intros l' Hne. simpl. by rewrite fupd_ne.
Qed.

(** ** The disk

    What the buffer cache relies on: a transfer of a locked buffer of disk 1
    either completes, changing the buffer or the disk and nothing else, or the
    power fails and the disk stays as it is. *)

Definition off {A} (d : Z -> list Z) (o : outcome A) : Prop :=
  exists s, o = Stop PowerOff s /\ disk s = d.

Record ready (pid : Z) (s : kstate) (k : nat) (b : buf) : Prop := {
  rd_buf : bcache s !! k = Some b;
  rd_held : sl_held pid s (SlBuf k);
  rd_dev : b_dev b = 1;
  rd_range : 0 <= b_blockno b < disksize s }.

Class DiskSpec `{Disk} : Prop := {
  iderw_read pid s k b :
    calm pid s -> ready pid s k b -> b_flags b = 0 ->
    off (disk s) (iderw k s) \/
    exists s', iderw k s = Ok tt s' /\ calm pid s' /\ sleeplocks s' = sleeplocks s /\
      bcache s' = <[k := {| b with b_flags := B_VALID; b_data := disk s (b_blockno b) |}]> (bcache s) /\
      disk s' = disk s /\ disksize s' = disksize s /\ log s' = log s /\ inodes s' = inodes s;
  iderw_write pid s k b :
    calm pid s -> ready pid s k b -> b_flags b = Z.lor B_VALID B_DIRTY ->
    off (disk s) (iderw k s) \/
    exists s', iderw k s = Ok tt s' /\ calm pid s' /\ sleeplocks s' = sleeplocks s /\
      bcache s' = <[k := {| b with b_flags := B_VALID |}]> (bcache s) /\
      disk s' = fupd (disk s) (b_blockno b) (b_data b) /\
      disksize s' = disksize s /\ log s' = log s /\ inodes s' = inodes s }.

(** A disk model that may lose power before a transfer, whenever [cut] says so. *)
Definition cut_disk (cut : kstate -> bool) (d : Disk) : Disk :=
  {| disk_init := @disk_init d; disk_intr := @disk_intr d;
     iderw := fun i s => if cut s then Stop PowerOff s else @iderw d i s |}.

#[export] Instance mem_disk_spec n : @DiskSpec (Memide.mem_disk n).
Proof.
  split; intros pid s k b Hs [Hb Hh Hd Hr] Hfl; right; simpl; unfold Memide.iderw;
    (step by (by eapply calm_holdingsleep)); cbn [negb];
    destruct (same_store_touch s) as [[Ebc Edk Eds Elg Eic] Esl];
    apply calm_touch in Hs; revert Hs; generalize dependent (cli_touch s); intros t Ebc Edk Eds Elg Eic Esl Hs;
    rewrite <- Ebc in Hb; (step by (by apply getb_ok)); rewrite bind_gets, Eds, Hfl, Hd.
  - change (Z.land 0 (Z.lor B_VALID B_DIRTY) =? B_VALID) with false.
    change (negb (1 =? 1)) with false. change (negb (Z.land 0 B_DIRTY =? 0)) with false. cbv iota.
    rewrite (proj2 (Z.leb_gt _ _)), bind_assoc, bind_gets by lia.
    step by (by apply modb_ok).
    eexists. split; [apply modb_ok; simpl; apply list_lookup_insert_eq; by eapply lookup_lt_Some |].
    simpl. rewrite list_insert_insert_eq, Ebc, Edk, Hfl, Hd.
    split_and!; try done. by apply (calm_frame (fun s => set_bcache _ (set_bcache _ s))).
  - change (Z.land (Z.lor B_VALID B_DIRTY) (Z.lor B_VALID B_DIRTY) =? B_VALID) with false.
    change (negb (1 =? 1)) with false.
    change (negb (Z.land (Z.lor B_VALID B_DIRTY) B_DIRTY =? 0)) with true. cbv iota.
    rewrite (proj2 (Z.leb_gt _ _)), bind_assoc by lia.
    step by (by apply modb_ok). rewrite bind_modify.
    eexists. split; [apply modb_ok; simpl; apply list_lookup_insert_eq; by eapply lookup_lt_Some |].
    simpl. rewrite list_insert_insert_eq, Ebc, Edk, Hfl, Hd.
    split_and!; try done. by apply (calm_frame (fun s => set_bcache _ (set_disk _ (set_bcache _ s)))).
Qed.

#[export] Instance cut_disk_spec cut d : @DiskSpec d -> @DiskSpec (cut_disk cut d).
Proof.
  intros [Hrd Hwr]. split; intros pid s k b; unfold iderw; simpl; destruct (cut s); eauto;
    intros; left; by eexists.
Qed.
