(* ===== verification/Bio.v ===== *)
(** [bio.c]: the buffer cache, an LRU list of disk-block copies. *)

From S2P Require Import Prelude Params Machine Spinlock Console Proc ProcSpec Sleeplock Ide.

(** ** Operations *)

(** [&bcache.head]. *)
Definition HEAD : nat := NBUF.

(** Insert buffer [i] after the head. *)
Definition push_front (i : nat) : M unit :=
  h <- getb HEAD ;;
  modb i (fun b => {| b with b_next := b_next h |}) ;;
  modb i (fun b => {| b with b_prev := HEAD |}) ;;
  modb (b_next h) (fun b => {| b with b_prev := i |}) ;;
  modb HEAD (fun b => {| b with b_next := i |}).

Definition binit : M unit :=
  initlock LkBcache "bcache" ;;
  modb HEAD (fun b => {| b with b_prev := HEAD |}) ;;
  modb HEAD (fun b => {| b with b_next := HEAD |}) ;;
  forM (seq 0 NBUF) (fun i =>
    h <- getb HEAD ;;
    modb i (fun b => {| b with b_next := b_next h |}) ;;
    modb i (fun b => {| b with b_prev := HEAD |}) ;;
    initsleeplock (SlBuf i) "buffer" ;;
    modb (b_next h) (fun b => {| b with b_prev := i |}) ;;
    modb HEAD (fun b => {| b with b_next := i |})).

(** The two list walks of [bget]: the first buffer from [i] on, following
    [next] or [prev], that satisfies [test].  The list holds [NBUF] buffers and
    the head, so [S NBUF] steps are enough. *)
Fixpoint walk (fuel : nat) (step : buf -> nat) (test : buf -> bool) (i : nat) : M (option nat) :=
  match fuel with
  | O => stop_with OutOfFuel
  | S fuel' =>
      if Nat.eqb i HEAD then ret None
      else
        b <- getb i ;;
        if test b then ret (Some i) else walk fuel' step test (step b)
  end.

Section Cache.
Context `{Turns} `{Disk}.

Definition bget (dev blockno : Z) : M nat :=
  acquire LkBcache ;;
  h <- getb HEAD ;;
  cached <- walk (S (S NBUF)) b_next
    (fun b => (b_dev b =? dev) && (b_blockno b =? blockno))%bool (b_next h) ;;
  match cached with
  | Some i =>
      modb i (fun b => {| b with b_refcnt := b_refcnt b + 1 |}) ;;
      release LkBcache ;;
      acquiresleep (SlBuf i) ;;
      ret i
  | None =>
      unused <- walk (S (S NBUF)) b_prev (fun b => b_refcnt b =? 0) (b_prev h) ;;
      match unused with
      | Some i =>
          modb i (fun b => {| b with b_dev := dev; b_blockno := blockno; b_flags := 0; b_refcnt := 1 |}) ;;
          release LkBcache ;;
          acquiresleep (SlBuf i) ;;
          ret i
      | None => panic "bget: no buffers"
      end
  end.

Definition bread (dev blockno : Z) : M nat :=
  i <- bget dev blockno ;;
  b <- getb i ;;
  when (Z.land (b_flags b) B_VALID =? 0)
    (iderw i ;; modb i (fun b => {| b with b_flags := Z.lor (b_flags b) B_VALID |})) ;;
  ret i.

Definition bwrite (i : nat) : M unit :=
  h <- holdingsleep (SlBuf i) ;;
  if negb h then panic "bwrite"
  else
    modb i (fun b => {| b with b_flags := Z.lor (b_flags b) B_DIRTY |}) ;;
    iderw i.

Definition brelse (i : nat) : M unit :=
  h <- holdingsleep (SlBuf i) ;;
  if negb h then panic "brelse"
  else
    releasesleep (SlBuf i) ;;
    acquire LkBcache ;;
    modb i (fun b => {| b with b_refcnt := b_refcnt b - 1 |}) ;;
    b <- getb i ;;
    when (b_refcnt b =? 0)
      (modb (b_next b) (fun x => {| x with b_prev := b_prev b |}) ;;
       modb (b_prev b) (fun x => {| x with b_next := b_next b |}) ;;
       push_front i) ;;
    release LkBcache.

(** The bytes of a buffer, as the file system reads and changes them. *)
Definition bdata (i : nat) : M (list Z) := b <- getb i ;; ret (b_data b).
Definition set_bdata (i : nat) (d : list Z) : M unit := modb i (fun b => {| b with b_data := d |}).
End Cache.
