(* ===== verification/BioSpec.v ===== *)
(** The buffer cache: the ring of buffers and what [bread], [bwrite] and [brelse] promise. *)

From stdpp Require Import sets.
From S2P Require Import Prelude Params Machine Spinlock Console Proc ProcSpec Sleeplock Ide.
From S2P Require Import Quiet Bio.
From Stdlib Require Import FunctionalExtensionality.

(** ** The ring *)

(** The links of a buffer, and the ring from [x] through [l] to [y]. *)
Definition nx (bs : list buf) (k : nat) : nat := match bs !! k with Some b => b_next b | None => k end.
Definition pv (bs : list buf) (k : nat) : nat := match bs !! k with Some b => b_prev b | None => k end.

Fixpoint seg (n p : nat -> nat) (x : nat) (l : list nat) (y : nat) : Prop :=
  match l with
  | [] => n x = y /\ p y = x
  | z :: l' => n x = z /\ p z = x /\ seg n p z l' y
  end.

Lemma seg_app n p x l1 z l2 y : seg n p x (l1 ++ z :: l2) y <-> seg n p x l1 z /\ seg n p z l2 y.
Proof. revert x. induction l1 as [| w l1 IH]; intros x; simpl; [tauto |]. rewrite IH. tauto. Qed.

Lemma seg_rev n p x l y : seg n p x l y -> seg p n y (reverse l) x.
Proof.
  revert x. induction l as [| z l IH]; intros x; simpl; [tauto |].
  intros (Hn & Hp & Hs). rewrite reverse_cons. apply seg_app. split; [by apply IH | done].
Qed.

Lemma seg_ext n p n' p' x l y :
  (forall k, k ∈ x :: l -> n' k = n k) -> (forall k, k ∈ y :: l -> p' k = p k) ->
  seg n p x l y -> seg n' p' x l y.
Proof.
  revert x. induction l as [| z l IH]; intros x Hn Hp; simpl.
  - rewrite Hn, Hp by constructor. done.
  - intros (H1 & H2 & H3). split_and!.
    + rewrite Hn; [done | constructor].
    + rewrite Hp; [done |]. apply elem_of_cons. right. constructor.
    + apply IH; [| | done]; intros k Hk; [apply Hn; by constructor |].
      apply Hp. apply elem_of_cons in Hk as [-> | Hk]; [constructor | by do 2 constructor].
Qed.

(** The predecessor of the end of a segment is in it. *)
Lemma seg_last n p x l y : seg n p x l y -> p y ∈ x :: l.
Proof.
  revert x. induction l as [| z l IH]; intros x; simpl; [intros [_ ->]; constructor |].
  intros (_ & _ & Hs). constructor. by apply IH.
Qed.
Lemma seg_first n p x l y : seg n p x l y -> n x ∈ y :: l.
Proof. destruct l; simpl; [intros [-> _]; constructor | intros (-> & _ & _); by do 2 constructor]. Qed.

(** Unlinking an element. *)
Lemma seg_join n p x l1 i l2 y :
  seg n p x l1 i -> seg n p i l2 y -> NoDup (x :: l1 ++ i :: l2) -> y ∉ l1 ++ i :: l2 ->
  seg (fupd n (p i) (n i)) (fupd p (n i) (p i)) x (l1 ++ l2) y.
Proof.
  revert x. induction l1 as [| w l1 IH]; intros x; simpl.
  - intros [Hx Hi] Hs Hnd Hy. rewrite Hi. apply NoDup_cons in Hnd as [Hx' Hnd].
    apply NoDup_cons in Hnd as [Hi' Hnd].
    destruct l2 as [| z l2]; simpl in *.
    + destruct Hs as [-> _]. by rewrite !fupd_eq.
    + destruct Hs as (-> & Hz & Hs). rewrite !fupd_eq. split_and!; [done | done |].
      apply NoDup_cons in Hnd as [Hz' _].
      apply (seg_ext n p); [| | done]; intros k Hk; apply fupd_ne; intros ->.
      * apply Hx'. by constructor.
      * apply elem_of_cons in Hk as [-> | Hk]; [| done]. apply Hy. by do 2 constructor.
  - intros (Hx & Hw & Hs1) Hs2 Hnd Hy. apply NoDup_cons in Hnd as [Hx' Hnd].
    pose proof (seg_last _ _ _ _ _ Hs1) as Hl. pose proof (seg_first _ _ _ _ _ Hs2) as Hf.
    rewrite !fupd_ne. split_and!; [done | done | apply IH; try done].
    + intros Hin. apply Hy. by constructor.
    + intros E. rewrite <- E in Hf. apply NoDup_cons in Hnd as [Hw' _].
      apply elem_of_cons in Hf as [-> | Hf]; [apply Hy; constructor |].
      apply Hw', elem_of_app. right. by constructor.
    + intros E. rewrite <- E in Hl. apply Hx'.
      apply elem_of_cons in Hl as [-> | Hl]; [constructor |]. constructor. apply elem_of_app. by left.
Qed.

(** Linking one in after the start. *)
Lemma seg_push n p x l y i :
  seg n p x l y -> i ∉ x :: l -> NoDup (x :: l) -> y ∉ l -> i <> y ->
  seg (fupd (fupd n i (n x)) x i) (fupd (fupd p i x) (n x) i) x (i :: l) y.
Proof.
  intros Hs Hi Hnd Hy Hiy. pose proof (seg_first _ _ _ _ _ Hs) as Hf.
  apply not_elem_of_cons in Hi as [Hix Hil]. apply NoDup_cons in Hnd as [Hx Hnd].
  assert (Hne : n x <> i) by (intros E; rewrite E in Hf; by apply elem_of_cons in Hf as [|]).
  simpl. rewrite fupd_eq. split_and!; [done | by rewrite fupd_ne, fupd_eq |].
  destruct l as [| z l]; simpl in *.
  - destruct Hs as [E1 E2]. rewrite E1 in *. rewrite fupd_ne, !fupd_eq by done. done.
  - destruct Hs as (E1 & E2 & Hs). rewrite E1 in *. rewrite fupd_ne, !fupd_eq by done. split_and!; [done | done |].
    apply not_elem_of_cons in Hil as [Hiz Hil]. apply not_elem_of_cons in Hx as [Hxz Hx].
    apply not_elem_of_cons in Hy as [Hyz Hy]. apply NoDup_cons in Hnd as [Hz _].
    apply (seg_ext n p); [| | done]; intros k Hk; apply elem_of_cons in Hk as [-> | Hk];
      rewrite !fupd_ne; try done; congruence.
Qed.

(** ** The ring in the cache *)

Definition setn (j v : nat) (bs : list buf) : list buf := alter (fun b => {| b with b_next := v |}) j bs.
Definition setp (j v : nat) (bs : list buf) : list buf := alter (fun b => {| b with b_prev := v |}) j bs.

(** What [bcache] holds of a buffer, but for the links. *)
Record bview := BView { v_flags : Z; v_dev : Z; v_blk : Z; v_ref : Z; v_data : list Z }.
Definition vw (b : buf) : bview := BView (b_flags b) (b_dev b) (b_blockno b) (b_refcnt b) (b_data b).

Record ring (bs : list buf) (ord : list nat) : Prop := {
  rg_len : length bs = S NBUF;
  rg_ord : ord ≡ₚ seq 0 NBUF;
  rg_seg : seg (nx bs) (pv bs) HEAD ord HEAD }.

Lemma nx_setn j v bs : (j < length bs)%nat -> nx (setn j v bs) = fupd (nx bs) j v.
Proof.
  intros Hj. apply functional_extensionality. intros k. unfold nx, setn, fupd.
  rewrite list_lookup_alter. case_decide; subst; [| by rewrite decide_False by done].
  rewrite decide_True by done. by destruct (lookup_lt_is_Some_2 bs k Hj) as [b ->].
Qed.
Lemma pv_setp j v bs : (j < length bs)%nat -> pv (setp j v bs) = fupd (pv bs) j v.
Proof.
  intros Hj. apply functional_extensionality. intros k. unfold pv, setp, fupd.
  rewrite list_lookup_alter. case_decide; subst; [| by rewrite decide_False by done].
  rewrite decide_True by done. by destruct (lookup_lt_is_Some_2 bs k Hj) as [b ->].
Qed.
Lemma pv_setn j v bs : pv (setn j v bs) = pv bs.
Proof.
  apply functional_extensionality. intros k. unfold pv, setn. rewrite list_lookup_alter.
  case_decide; subst; [| done]. by destruct (bs !! k).
Qed.
Lemma nx_setp j v bs : nx (setp j v bs) = nx bs.
Proof.
  apply functional_extensionality. intros k. unfold nx, setp. rewrite list_lookup_alter.
  case_decide; subst; [| done]. by destruct (bs !! k).
Qed.
Lemma vw_alter f j (bs : list buf) : (forall b, vw (f b) = vw b) -> vw <$> alter f j bs = vw <$> bs.
Proof.
  intros Hf. apply list_eq. intros k. rewrite !list_lookup_fmap, list_lookup_alter.
  case_decide; subst; [| done]. destruct (bs !! k); simpl; [by rewrite Hf | done].
Qed.

Lemma modb_alter s j f :
  (j < length (bcache s))%nat -> modb j f s = Ok tt (set_bcache (alter f j (bcache s)) s).
Proof.
  intros Hj. destruct (lookup_lt_is_Some_2 _ _ Hj) as [b Hb]. rewrite (modb_ok s j b f Hb).
  f_equal. f_equal. apply list_eq. intros k. rewrite list_lookup_alter.
  case_decide; subst; [by rewrite list_lookup_insert_eq, Hb | by rewrite list_lookup_insert_ne].
Qed.

Lemma set_bcache_bcache v w s : set_bcache v (set_bcache w s) = set_bcache v s.
Proof. by destruct s. Qed.

Lemma ring_lt bs ord i : ring bs ord -> i ∈ HEAD :: ord -> (i < length bs)%nat.
Proof.
  intros [-> Hp _]. rewrite elem_of_cons, Hp, elem_of_seq. unfold HEAD. lia.
Qed.
Lemma ring_nodup bs ord : ring bs ord -> NoDup (HEAD :: ord).
Proof.
  intros [_ Hp _]. apply NoDup_cons. rewrite Hp, elem_of_seq. split; [unfold HEAD; lia |].
  apply NoDup_seq.
Qed.

(** Moving a buffer to the front, as [brelse] does. *)
Definition relink (i : nat) (bs : list buf) : list buf :=
  let n := nx bs i in let p := pv bs i in
  let bs1 := setn p n (setp n p bs) in
  let f := nx bs1 HEAD in
  setn HEAD i (setp f i (setp i HEAD (setn i f bs1))).

Lemma setn_length j v bs : length (setn j v bs) = length bs.
Proof. apply length_alter. Qed.
Lemma setp_length j v bs : length (setp j v bs) = length bs.
Proof. apply length_alter. Qed.
Lemma vw_setn j v bs : vw <$> setn j v bs = vw <$> bs.
Proof. by apply vw_alter. Qed.
Lemma vw_setp j v bs : vw <$> setp j v bs = vw <$> bs.
Proof. by apply vw_alter. Qed.

(** Both neighbours of a buffer are in the ring. *)
Lemma ring_neighbours bs l1 i l2 :
  ring bs (l1 ++ i :: l2) -> (nx bs i < length bs)%nat /\ (pv bs i < length bs)%nat.
Proof.
  intros Hr. pose proof (rg_seg _ _ Hr) as [Hs1 Hs2]%seg_app.
  split; apply (ring_lt _ _ _ Hr).
  - apply seg_first in Hs2. apply elem_of_cons in Hs2 as [-> | Hs2]; [constructor |].
    constructor. apply elem_of_app. right. by constructor.
  - apply seg_last in Hs1. apply elem_of_cons in Hs1 as [-> | Hs1]; [constructor |].
    constructor. apply elem_of_app. by left.
Qed.

Definition unlink (i : nat) (bs : list buf) : list buf :=
  setn (pv bs i) (nx bs i) (setp (nx bs i) (pv bs i) bs).

Lemma unlink_seg bs l1 i l2 :
  ring bs (l1 ++ i :: l2) ->
  length (unlink i bs) = length bs /\
  seg (nx (unlink i bs)) (pv (unlink i bs)) HEAD (l1 ++ l2) HEAD /\
  (nx (unlink i bs) HEAD < length bs)%nat.
Proof.
  intros Hr. pose proof (ring_nodup _ _ Hr) as Hnd. destruct (ring_neighbours _ _ _ _ Hr) as [Hn Hp].
  pose proof (rg_seg _ _ Hr) as [Hs1 Hs2]%seg_app. unfold unlink.
  rewrite nx_setn, nx_setp, pv_setn, pv_setp, setn_length, setp_length by (by rewrite ?setp_length).
  assert (Hj : seg (fupd (nx bs) (pv bs i) (nx bs i)) (fupd (pv bs) (nx bs i) (pv bs i))
                   HEAD (l1 ++ l2) HEAD).
  { apply seg_join; try done. by apply NoDup_cons in Hnd as [? _]. }
  split_and!; [done | done |]. apply (ring_lt _ _ _ Hr).
  apply seg_first in Hj. apply elem_of_cons in Hj as [-> | Hj]; [constructor |]. constructor.
  apply elem_of_app in Hj as [? | ?]; apply elem_of_app; [by left | right; by constructor].
Qed.

Lemma relink_ring bs l1 i l2 :
  ring bs (l1 ++ i :: l2) ->
  ring (relink i bs) (i :: l1 ++ l2) /\ vw <$> relink i bs = vw <$> bs.
Proof.
  intros Hr. pose proof (ring_nodup _ _ Hr) as Hnd.
  destruct (unlink_seg _ _ _ _ Hr) as (Hl1 & Hj & Hf).
  assert (Hi : (i < length bs)%nat)
    by (apply (ring_lt _ _ _ Hr); constructor; apply elem_of_app; right; constructor).
  assert (HH : (HEAD < length bs)%nat) by (apply (ring_lt _ _ _ Hr); constructor).
  destruct Hr as [Hl Hperm Hs].
  rewrite <- Permutation_middle, Permutation_swap in Hnd. apply NoDup_cons in Hnd as [Hi' Hnd'].
  split; [| unfold relink; by rewrite !vw_setn, !vw_setp, !vw_setn, vw_setp]. split.
  - unfold relink. by rewrite !setn_length, !setp_length, !setn_length, setp_length.
  - rewrite <- Hperm. apply Permutation_middle.
  - unfold relink. cbv zeta. fold (unlink i bs).
    rewrite nx_setn by (rewrite !setp_length, setn_length; lia).
    rewrite !nx_setp, nx_setn, pv_setn by lia.
    rewrite pv_setp by (rewrite !setp_length, setn_length; lia).
    rewrite pv_setp, pv_setn by (rewrite setn_length; lia).
    apply NoDup_cons in Hnd' as HH'. apply seg_push; try done; [apply HH' |].
    intros ->. apply Hi'. constructor.
Qed.

(** The links [brelse] writes. *)
Lemma relink_run s i b l1 l2 :
  ring (bcache s) (l1 ++ i :: l2) -> bcache s !! i = Some b ->
  (modb (b_next b) (fun x => {| x with b_prev := b_prev b |}) ;;
   modb (b_prev b) (fun x => {| x with b_next := b_next b |}) ;;
   push_front i) s = Ok tt (set_bcache (relink i (bcache s)) s).
Proof.
  intros Hr Hb. destruct (ring_neighbours _ _ _ _ Hr) as [Hn Hp].
  assert (En : nx (bcache s) i = b_next b) by (unfold nx; by rewrite Hb).
  assert (Ep : pv (bcache s) i = b_prev b) by (unfold pv; by rewrite Hb).
  rewrite En in Hn. rewrite Ep in Hp.
  step by (by apply modb_alter). step by (apply modb_alter; simpl; by rewrite length_alter).
  cbn [bcache set_bcache]. rewrite set_bcache_bcache.
  destruct (unlink_seg _ _ _ _ Hr) as (_ & _ & Hf). unfold unlink in Hf. rewrite En, Ep in Hf.
  set (bs1 := alter _ _ (alter _ _ _)). fold (setp (b_next b) (b_prev b) (bcache s)) in bs1.
  fold (setn (b_prev b) (b_next b) (setp (b_next b) (b_prev b) (bcache s))) in bs1. fold bs1 in Hf.
  assert (Hl : length bs1 = length (bcache s)) by (unfold bs1; by rewrite setn_length, setp_length).
  assert (HH : (HEAD < length bs1)%nat) by (rewrite Hl; apply (ring_lt _ _ _ Hr); constructor).
  assert (Hi : (i < length bs1)%nat) by (rewrite Hl; by eapply lookup_lt_Some).
  rewrite <- Hl in Hf.
  unfold push_front. destruct (lookup_lt_is_Some_2 _ _ HH) as [h Hh].
  step by (by apply getb_ok). assert (Eh : b_next h = nx bs1 HEAD) by (unfold nx; by rewrite Hh).
  rewrite Eh.
  step by (by apply modb_alter). cbn [bcache set_bcache]. rewrite set_bcache_bcache.
  step by (apply modb_alter; simpl; by rewrite length_alter). cbn [bcache set_bcache]. rewrite set_bcache_bcache.
  step by (apply modb_alter; simpl; by rewrite !length_alter). cbn [bcache set_bcache]. rewrite set_bcache_bcache.
  rewrite modb_alter by (simpl; by rewrite !length_alter). cbn [bcache set_bcache]. rewrite set_bcache_bcache.
  unfold relink. rewrite En, Ep. reflexivity.
Qed.

(** ** Searching the ring *)

Definition hit (bs : list buf) (test : buf -> bool) (k : nat) : bool :=
  match bs !! k with Some b => test b | None => false end.

Lemma walk_seg s n p step test l : forall fuel x,
  (forall k b, bcache s !! k = Some b -> n k = step b) -> seg n p x l HEAD -> HEAD ∉ l ->
  (forall k, k ∈ l -> is_Some (bcache s !! k)) -> (length l < fuel)%nat ->
  walk fuel step test (n x) s = Ok (find (hit (bcache s) test) l) s.
Proof.
  induction l as [| z l IH]; intros fuel x Hn Hs HH Hb Hf; (destruct fuel as [| fuel]; [simpl in Hf; lia |]).
  - destruct Hs as [-> _]. cbn [walk find]. by rewrite Nat.eqb_refl.
  - destruct Hs as (-> & _ & Hs). apply not_elem_of_cons in HH as [Hz HH].
    cbn [walk find]. rewrite (proj2 (Nat.eqb_neq _ _)) by done.
    destruct (Hb z) as [b Eb]; [constructor |]. step by (by apply getb_ok).
    unfold hit at 1. rewrite Eb. destruct (test b); [done |].
    rewrite <- (Hn z b Eb). apply IH; try done; [| simpl in Hf; lia].
    intros k Hk. apply Hb. by constructor.
Qed.

Lemma ring_some bs ord k : ring bs ord -> k ∈ ord -> is_Some (bs !! k).
Proof. intros Hr Hk. apply lookup_lt_is_Some_2, (ring_lt _ _ _ Hr). by constructor. Qed.

Lemma ring_length bs ord : ring bs ord -> length ord = NBUF.
Proof. intros [_ Hp _]. by rewrite Hp, length_seq. Qed.

Lemma walk_next s ord test h :
  ring (bcache s) ord -> bcache s !! HEAD = Some h ->
  walk (S (S NBUF)) b_next test (b_next h) s = Ok (find (hit (bcache s) test) ord) s.
Proof.
  intros Hr Hh. replace (b_next h) with (nx (bcache s) HEAD) by (unfold nx; by rewrite Hh).
  eapply walk_seg; [| apply Hr | | by intros; eapply ring_some |].
  - intros k b Hb. unfold nx. by rewrite Hb.
  - by apply ring_nodup, NoDup_cons in Hr as [? _].
  - rewrite (ring_length _ _ Hr). lia.
Qed.

Lemma walk_prev s ord test h :
  ring (bcache s) ord -> bcache s !! HEAD = Some h ->
  walk (S (S NBUF)) b_prev test (b_prev h) s = Ok (find (hit (bcache s) test) (reverse ord)) s.
Proof.
  intros Hr Hh. replace (b_prev h) with (pv (bcache s) HEAD) by (unfold pv; by rewrite Hh).
  eapply walk_seg; [| apply seg_rev, Hr | | |].
  - intros k b Hb. unfold pv. by rewrite Hb.
  - rewrite elem_of_reverse. by apply ring_nodup, NoDup_cons in Hr as [? _].
  - intros k Hk. rewrite elem_of_reverse in Hk. by eapply ring_some.
  - rewrite length_reverse, (ring_length _ _ Hr). lia.
Qed.

(** ** The cache, for one process

    [H] lists the buffers the process has locked.  Every other buffer of disk 1
    is valid, and either holds what is on disk or, marked dirty, an update
    [pend] that is still to be logged.  [U] is a set of blocks the process is
    going to use: the least recently used buffers are spare, enough of them for
    the blocks of [U] that are not cached yet. *)

Definition bv (s : kstate) (k : nat) : option bview := vw <$> bcache s !! k.

Definition at_rest (d : Z -> list Z) (pend : Z -> option (list Z)) (v : bview) : Prop :=
  v_dev v = 1 ->
  v_flags v = B_VALID /\ v_data v = d (v_blk v) /\ pend (v_blk v) = None \/
  v_flags v = Z.lor B_VALID B_DIRTY /\ pend (v_blk v) = Some (v_data v).

Definition spare (s : kstate) (U : list Z) (k : nat) : Prop :=
  exists v, bv s k = Some v /\ (v_dev v = 1 -> v_flags v = B_VALID /\ v_blk v ∉ U).

Definition is_block (blk : Z) (b : buf) : bool := ((b_dev b =? 1) && (b_blockno b =? blk))%bool.
Definition cached (s : kstate) (blk : Z) : bool := existsb (is_block blk) (take NBUF (bcache s)).

Definition room (U : list Z) (H : list nat) (s : kstate) : Prop :=
  exists ord F V, ring (bcache s) ord /\ filter (.∉ H) ord = F ++ V /\ Forall (spare s U) V /\
    (length (filter (fun blk => cached s blk = false) U) <= length V)%nat.

Definition unique (s : kstate) : Prop :=
  forall j k v w, bv s j = Some v -> bv s k = Some w -> (j < NBUF)%nat -> (k < NBUF)%nat ->
    v_dev v = 1 -> v_dev w = 1 -> v_blk v = v_blk w -> j = k.

Record cstate (U : list Z) (pid : Z) (H : list nat) (pend : Z -> option (list Z)) (s : kstate) : Prop := {
  cs_calm : calm pid s;
  cs_idle : forall k v, bv s k = Some v -> (k < NBUF)%nat -> k ∉ H ->
    v_ref v = 0 /\ sl_locked (sleeplocks s (SlBuf k)) = 0 /\ at_rest (disk s) pend v;
  cs_held : forall k, k ∈ H -> exists v, bv s k = Some v /\ (k < NBUF)%nat /\
    v_ref v = 1 /\ sl_held pid s (SlBuf k) /\ v_dev v = 1;
  cs_nodup : NoDup H;
  cs_uniq : unique s;
  cs_pend : forall blk d, pend blk = Some d -> cached s blk = true;
  cs_room : room U H s }.

Lemma is_block_spec blk b : is_block blk b = true <-> b_dev b = 1 /\ b_blockno b = blk.
Proof. unfold is_block. rewrite andb_true_iff, !Z.eqb_eq. done. Qed.

Lemma cached_spec s blk :
  cached s blk = true <->
  exists k b, bcache s !! k = Some b /\ (k < NBUF)%nat /\ b_dev b = 1 /\ b_blockno b = blk.
Proof.
  unfold cached. rewrite existsb_exists. setoid_rewrite is_block_spec. split.
  - intros (b & Hin%list_elem_of_In & Hb). apply list_elem_of_lookup in Hin as [k Hk].
    apply lookup_take_Some in Hk as [Hk Hlt]. eauto 6.
  - intros (k & b & Hk & Hlt & Hb). exists b. split; [| done].
    apply list_elem_of_In, list_elem_of_lookup. exists k. by rewrite lookup_take_lt.
Qed.

Lemma find_block s ord blk :
  ring (bcache s) ord ->
  match find (hit (bcache s) (is_block blk)) ord with
  | Some k => exists b, bcache s !! k = Some b /\ (k < NBUF)%nat /\ b_dev b = 1 /\ b_blockno b = blk
  | None => cached s blk = false
  end.
Proof.
  intros Hr. destruct (find _ ord) as [k |] eqn:E.
  - apply find_some in E as [Hin Hk]. unfold hit in Hk. destruct (bcache s !! k) as [b |]; [| done].
    apply is_block_spec in Hk. exists b. split_and!; try naive_solver.
    apply list_elem_of_In in Hin. rewrite (rg_ord _ _ Hr), elem_of_seq in Hin. lia.
  - apply not_true_is_false. rewrite cached_spec. intros (k & b & Hk & Hlt & Hb).
    pose proof (find_none _ _ E k) as Hn. unfold hit in Hn. rewrite Hk, (proj2 (is_block_spec _ _) Hb) in Hn.
    discriminate Hn. apply list_elem_of_In. rewrite (rg_ord _ _ Hr), elem_of_seq. lia.
Qed.

Lemma find_last {A} (f : A -> bool) (P : A -> Prop) `{forall x, Decision (P x)} l L v :
  (forall x, x ∈ l -> f x = true <-> P x) -> filter P l = L ++ [v] -> find f (reverse l) = Some v.
Proof.
  revert L v. induction l as [| x l IH] using rev_ind; intros L v Hf Hl; [by destruct L |].
  rewrite reverse_snoc. simpl. rewrite filter_app in Hl.
  specialize (Hf x) as Hx. destruct (decide (P x)) as [Px | Px].
  - rewrite (filter_cons_True _ _ _ Px) in Hl. apply app_inj_tail in Hl as [_ <-].
    destruct (f x) eqn:E; [done |]. exfalso. destruct Hx as [_ Hx]; [set_solver |].
    by specialize (Hx Px).
  - rewrite (filter_cons_False _ _ _ Px), app_nil_r in Hl.
    destruct (f x) eqn:E; [destruct Hx as [Hx _]; [set_solver |]; by destruct Px; apply Hx |].
    apply (IH L); [| done]. intros y Hy. apply Hf. set_solver.
Qed.

(** ** [bget] *)

(** From [s] to [s'] the cache becomes [bs], buffer [k] is locked, and nothing else. *)
Record got (pid : Z) (s : kstate) (bs : list buf) (k : nat) (s' : kstate) : Prop := {
  got_calm : calm pid s';
  got_bcache : bcache s' = bs;
  got_disk : disk s' = disk s;
  got_disksize : disksize s' = disksize s;
  got_log : log s' = log s;
  got_inodes : inodes s' = inodes s;
  got_held : sl_held pid s' (SlBuf k);
  got_locks : forall l, l <> SlBuf k -> sleeplocks s' l = sleeplocks s l }.

Lemma cache_section pid s :
  calm pid s ->
  exists t, acquire LkBcache s = Ok tt t /\ bcache t = bcache s /\
    forall bs, release LkBcache (set_bcache bs t) = Ok tt (set_bcache bs (cli_touch s)).
Proof.
  intros [(i & c & p & q & Hr & _) Hf]. eexists. split; [by apply acquire_ok; [| apply Hf] |].
  split; [done |]. intros bs. by apply (release_after (set_bcache bs)).
Qed.

Section Bget.
Context `{Turns} `{Disk} (Hturns : (0 < max_turns)%nat).

Lemma bget_finish pid s t bs k :
  calm pid s ->
  (forall bs, release LkBcache (set_bcache bs t) = Ok tt (set_bcache bs (cli_touch s))) ->
  sl_locked (sleeplocks s (SlBuf k)) = 0 ->
  exists s', (release LkBcache ;; acquiresleep (SlBuf k) ;; ret k) (set_bcache bs t) = Ok k s' /\
    got pid s bs k s'.
Proof.
  intros Hs Hrel Hl. step by (apply Hrel).
  destruct (same_store_touch s) as [[? ? ? ? ?] Hsl].
  destruct (calm_acquiresleep pid (set_bcache bs (cli_touch s)) (SlBuf k)) as (s' & E & Hc & Hst & Hh & Ho).
  - done.
  - by apply (calm_frame (set_bcache _)), calm_touch.
  - simpl. by rewrite Hsl.
  - exists s'. split; [by step by (exact E) |]. destruct Hst as [E1 E2 E3 E4 E5]. unfold inodes in *. simpl in *.
    split; unfold inodes; try congruence. intros l Hne. rewrite Ho by done. by rewrite Hsl.
Qed.

(** A cached block: its buffer, one reference more. *)
Lemma bget_cached pid s ord blk k b :
  calm pid s -> ring (bcache s) ord ->
  find (hit (bcache s) (is_block blk)) ord = Some k -> bcache s !! k = Some b ->
  sl_locked (sleeplocks s (SlBuf k)) = 0 ->
  exists s', bget 1 blk s = Ok k s' /\
    got pid s (<[k := {| b with b_refcnt := b_refcnt b + 1 |}]> (bcache s)) k s'.
Proof.
  intros Hs Hr Hf Hb Hl. destruct (cache_section pid s Hs) as (t & Ha & Ebc & Hrel).
  rewrite <- Ebc in Hr, Hf, Hb. unfold bget. step by (exact Ha).
  destruct (lookup_lt_is_Some_2 (bcache t) HEAD) as [h Hh]; [rewrite (rg_len _ _ Hr); unfold HEAD; lia |].
  step by (by apply getb_ok). step by (by apply (walk_next t ord)). fold (is_block blk). rewrite Hf.
  step by (by apply modb_ok). rewrite Ebc. by apply bget_finish.
Qed.

(** A block that is not cached takes over the least recently used idle buffer. *)
Lemma bget_evict pid s ord blk k b :
  calm pid s -> ring (bcache s) ord ->
  find (hit (bcache s) (is_block blk)) ord = None ->
  find (hit (bcache s) (fun b => b_refcnt b =? 0)) (reverse ord) = Some k ->
  bcache s !! k = Some b -> sl_locked (sleeplocks s (SlBuf k)) = 0 ->
  exists s', bget 1 blk s = Ok k s' /\
    got pid s (<[k := {| b with b_dev := 1; b_blockno := blk; b_flags := 0; b_refcnt := 1 |}]>
                 (bcache s)) k s'.
Proof.
  intros Hs Hr Hf Hfi Hb Hl. destruct (cache_section pid s Hs) as (t & Ha & Ebc & Hrel).
  rewrite <- Ebc in Hr, Hf, Hfi, Hb. unfold bget. step by (exact Ha).
  destruct (lookup_lt_is_Some_2 (bcache t) HEAD) as [h Hh]; [rewrite (rg_len _ _ Hr); unfold HEAD; lia |].
  step by (by apply getb_ok). step by (by apply (walk_next t ord)). fold (is_block blk). rewrite Hf.
  step by (by apply (walk_prev t ord)). rewrite Hfi.
  step by (by apply modb_ok). rewrite Ebc. by apply bget_finish.
Qed.
End Bget.

(** ** Keeping the invariant *)

Lemma bv_lookup s k b : bcache s !! k = Some b -> bv s k = Some (vw b).
Proof. unfold bv. by intros ->. Qed.

Lemma bv_insert bs s k b' :
  bcache s = <[k := b']> bs -> (k < length bs)%nat ->
  bv s k = Some (vw b') /\ forall j, j <> k -> bv s j = vw <$> bs !! j.
Proof.
  intros E Hk. unfold bv. rewrite E. split; [by rewrite list_lookup_insert_eq |].
  intros j Hj. by rewrite list_lookup_insert_ne by done.
Qed.

Lemma ring_insert bs ord k b b' :
  ring bs ord -> bs !! k = Some b -> b_next b' = b_next b -> b_prev b' = b_prev b ->
  ring (<[k := b']> bs) ord.
Proof.
  intros [Hl Hp Hs] Hb Hn Hpv. split; [by rewrite length_insert | done |].
  assert (Hk : (k < length bs)%nat) by (by eapply lookup_lt_Some).
  apply (seg_ext (nx bs) (pv bs)); [| | done]; intros j _;
    unfold nx, pv; destruct (decide (j = k)) as [-> | Hne];
    rewrite ?list_lookup_insert_eq, ?list_lookup_insert_ne, ?Hb by done; done.
Qed.

Lemma cached_insert s s' k b b' blk :
  bcache s !! k = Some b -> bcache s' = <[k := b']> (bcache s) -> (k < NBUF)%nat ->
  cached s' blk = true <->
  is_block blk b' = true \/
  exists j c, j <> k /\ bcache s !! j = Some c /\ (j < NBUF)%nat /\ b_dev c = 1 /\ b_blockno c = blk.
Proof.
  intros Hb E Hk. assert (Hl : (k < length (bcache s))%nat) by (by eapply lookup_lt_Some).
  rewrite cached_spec, is_block_spec, E. split.
  - intros (j & c & Hj & Hlt & Hc). destruct (decide (j = k)) as [-> | Hne].
    + rewrite list_lookup_insert_eq in Hj by done. left. by simplify_eq.
    + rewrite list_lookup_insert_ne in Hj by done. right. eauto 10.
  - intros [Hd | (j & c & Hne & Hj & Hlt & Hc)].
    + exists k, b'. by rewrite list_lookup_insert_eq.
    + exists j, c. by rewrite list_lookup_insert_ne.
Qed.

(** An update that keeps a buffer's block keeps what is cached. *)
Lemma cached_keep s s' k b b' blk :
  bcache s !! k = Some b -> bcache s' = <[k := b']> (bcache s) -> (k < NBUF)%nat ->
  b_dev b' = b_dev b -> b_blockno b' = b_blockno b -> cached s' blk = cached s blk.
Proof.
  intros Hb E Hk Hd Hn. apply eq_true_iff_eq. rewrite (cached_insert s s' k b b' blk) by done.
  rewrite cached_spec, is_block_spec, Hd, Hn. split.
  - intros [? | (j & c & _ & ?)]; eauto 10.
  - intros (j & c & Hj & ?). destruct (decide (j = k)) as [-> | Hne]; [| eauto 10].
    rewrite Hb in Hj. simplify_eq. naive_solver.
Qed.

(** The idle buffers when one more is taken. *)
Lemma filter_held_cons (H ord : list nat) k :
  filter (.∉ k :: H) ord = filter (.≠ k) (filter (.∉ H) ord).
Proof.
  induction ord as [| x ord IH]; [done |]. rewrite !filter_cons.
  destruct (decide (x ∉ k :: H)) as [E | E]; destruct (decide (x ∉ H)) as [E' | E'];
    rewrite ?filter_cons; try destruct (decide (x ≠ k)); rewrite ?IH; try done; set_solver.
Qed.
Lemma filter_ne_id {A} `{EqDecision A} (k : A) (l : list A) : k ∉ l -> filter (.≠ k) l = l.
Proof. intros Hk. apply filter_all. intros x Hx ->. done. Qed.

Lemma filter_length_le {A} (P Q : A -> Prop) `{forall x, Decision (P x), forall x, Decision (Q x)} (l : list A) :
  (forall x, x ∈ l -> P x -> Q x) -> (length (filter P l) <= length (filter Q l))%nat.
Proof.
  induction l as [| x l IH]; intros HPQ; [done |].
  specialize (IH ltac:(intros; apply HPQ; [by constructor | done])).
  rewrite !filter_cons. specialize (HPQ x ltac:(constructor)).
  repeat case_decide; simpl; tauto || lia.
Qed.

Lemma filter_ext_in {A} (P Q : A -> Prop) `{forall x, Decision (P x), forall x, Decision (Q x)} (l : list A) :
  (forall x, x ∈ l -> P x <-> Q x) -> filter P l = filter Q l.
Proof.
  induction l as [| x l IH]; intros HPQ; [done |].
  specialize (IH ltac:(intros; apply HPQ; by constructor)).
  rewrite !filter_cons, IH. specialize (HPQ x ltac:(constructor)).
  repeat case_decide; tauto.
Qed.

Lemma spare_keep s s' U k b' V :
  bcache s' = <[k := b']> (bcache s) -> k ∉ V -> Forall (spare s U) V -> Forall (spare s' U) V.
Proof.
  intros E Hk. rewrite !Forall_forall. intros HV j Hj. destruct (HV j Hj) as (v & Hv & Hsp).
  exists v. split; [| done]. unfold bv in *. by rewrite E, list_lookup_insert_ne by (intros ->; done).
Qed.

Lemma room_cached U H s s' k b b' :
  room U H s -> bcache s !! k = Some b -> (k < NBUF)%nat -> b_dev b = 1 -> b_blockno b ∈ U ->
  bcache s' = <[k := b']> (bcache s) -> b_next b' = b_next b -> b_prev b' = b_prev b ->
  b_dev b' = b_dev b -> b_blockno b' = b_blockno b -> room U (k :: H) s'.
Proof.
  intros (ord & F & V & Hr & Hord & HV & Hc) Hb Hk Hd HU E Hn Hp Hd' Hn'.
  assert (HkV : k ∉ V).
  { intros Hin. rewrite Forall_forall in HV. destruct (HV k Hin) as (v & Hv & Hsp).
    rewrite (bv_lookup s k b Hb) in Hv. simplify_eq. by destruct (Hsp Hd). }
  exists ord, (filter (.≠ k) F), V. split_and!.
  - rewrite E. by eapply ring_insert.
  - by rewrite filter_held_cons, Hord, filter_app, (filter_ne_id k V).
  - by eapply spare_keep.
  - etrans; [| exact Hc]. apply filter_length_le. intros blk _.
    by rewrite (cached_keep s s' k b b').
Qed.

(** The least recently used idle buffer is spare, and taking it leaves room for the rest. *)
Lemma room_evict U H s blk :
  room U H s -> NoDup U -> blk ∈ U -> cached s blk = false ->
  exists ord L k, ring (bcache s) ord /\ filter (.∉ H) ord = L ++ [k] /\ spare s U k /\
    forall s' b b', bcache s !! k = Some b -> bcache s' = <[k := b']> (bcache s) ->
      b_next b' = b_next b -> b_prev b' = b_prev b -> b_dev b' = 1 -> b_blockno b' = blk ->
      room U (k :: H) s'.
Proof.
  intros (ord & F & V & Hr & Hord & HV & Hc) HU Hblk Hun.
  destruct V as [| k V _] using rev_ind.
  { exfalso. assert (Hin : blk ∈ filter (fun blk => cached s blk = false) U)
      by (by apply list_elem_of_filter).
    destruct (filter _ U); [by apply elem_of_nil in Hin | simpl in Hc; lia]. }
  assert (Hnd : NoDup (F ++ V ++ [k])).
  { rewrite <- Hord. apply NoDup_filter. by apply ring_nodup, NoDup_cons in Hr as [_ ?]. }
  assert (Hk : k ∉ F ++ V).
  { rewrite app_assoc in Hnd. apply NoDup_app in Hnd as (_ & Hd & _). intros Hin.
    apply (Hd k Hin). constructor. }
  apply Forall_app in HV as [HV [Hsp _]%Forall_cons].
  exists ord, (F ++ V), k. split_and!; [done | by rewrite <- app_assoc | done |].
  intros s' b b' Hb E Hn Hp Hd Hbl. exists ord, F, V.
  assert (Hlt : (k < NBUF)%nat).
  { assert (Hin : k ∈ filter (.∉ H) ord) by (rewrite Hord; set_solver).
    apply list_elem_of_filter in Hin as [_ Hin]. rewrite (rg_ord _ _ Hr), elem_of_seq in Hin. lia. }
  split_and!; [rewrite E; by eapply ring_insert | | eapply spare_keep; [done | set_solver | done] |].
  - rewrite filter_held_cons, Hord, app_assoc, filter_app, (filter_ne_id k (F ++ V)) by done.
    rewrite (filter_cons_False (.≠ k)) by naive_solver. by rewrite app_nil_r.
  - rewrite length_app in Hc. simpl in Hc.
    rewrite (filter_out_length blk) in Hc; [| by apply list_elem_of_filter | by apply NoDup_filter].
    rewrite list_filter_filter in Hc. etrans; [| apply Nat.succ_le_mono; rewrite Nat.add_1_r in Hc; exact Hc].
    apply filter_length_le. intros x Hx Hcx. rewrite <- not_true_iff_false in Hcx |- *.
    rewrite (cached_insert s s' k b b' x), is_block_spec, Hd, Hbl in Hcx by done.
    split; [intros ->; naive_solver |]. rewrite cached_spec. intros (j & c & Hj & Hjl & Hjd & Hjb).
    destruct (decide (j = k)) as [-> | Hne]; [| naive_solver].
    destruct Hsp as (v & Hv & Hspv). rewrite (bv_lookup s k c Hj) in Hv. simplify_eq.
    by destruct (Hspv Hjd).
Qed.

(** Which disk block each buffer is for: updates that keep this keep the
    uniqueness of buffers and the set of cached blocks. *)
Definition ident (v : bview) : Z * Z := (v_dev v, v_blk v).
Definition same_ident (s s' : kstate) : Prop := forall j, ident <$> bv s' j = ident <$> bv s j.
Lemma same_ident_sym s s' : same_ident s s' -> same_ident s' s.
Proof. intros Hs j. by rewrite Hs. Qed.

Lemma same_ident_view s s' j v' :
  same_ident s s' -> bv s' j = Some v' -> exists v, bv s j = Some v /\ v_dev v' = v_dev v /\ v_blk v' = v_blk v.
Proof.
  intros Hs Hv. specialize (Hs j). rewrite Hv in Hs. destruct (bv s j) as [v |]; [| done].
  exists v. by simplify_eq/=.
Qed.

Lemma unique_ident s s' : same_ident s s' -> unique s -> unique s'.
Proof.
  intros Hs Hu i j v w Hi Hj Hi' Hj' Hdv Hdw Heq.
  destruct (same_ident_view _ _ _ _ Hs Hi) as (v0 & ? & E1 & E2).
  destruct (same_ident_view _ _ _ _ Hs Hj) as (w0 & ? & E3 & E4).
  eapply (Hu i j v0 w0); congruence.
Qed.

Lemma cached_bv s x :
  cached s x = true <-> exists k v, bv s k = Some v /\ (k < NBUF)%nat /\ v_dev v = 1 /\ v_blk v = x.
Proof.
  rewrite cached_spec. split; intros (k & y & Hy & Hrest).
  - exists k, (vw y). by rewrite (bv_lookup s k y Hy).
  - unfold bv in Hy. apply fmap_Some in Hy as (b & Hb & ->). by exists k, b.
Qed.

Lemma cached_ident s s' x : same_ident s s' -> cached s' x = cached s x.
Proof.
  intros Hs. apply eq_true_iff_eq. rewrite !cached_bv.
  split; intros (k & v & Hv & ? & Hd & Hb).
  - destruct (same_ident_view _ _ _ _ Hs Hv) as (w & ? & E1 & E2). exists k, w. by rewrite <- E1, <- E2.
  - destruct (same_ident_view _ _ _ _ (same_ident_sym _ _ Hs) Hv) as (w & ? & E1 & E2).
    exists k, w. by rewrite <- E1, <- E2.
Qed.

Lemma same_ident_at s s' k v v' :
  bv s k = Some v -> bv s' k = Some v' -> ident v' = ident v -> (forall j, j <> k -> bv s' j = bv s j) ->
  same_ident s s'.
Proof.
  intros Hk Hk' Hi Ho j. destruct (decide (j = k)) as [-> | Hne]; [| by rewrite Ho].
  rewrite Hk, Hk'. simpl. by rewrite Hi.
Qed.

Lemma cstate_take U pid H pend s k b b' s' :
  cstate U pid H pend s -> (k ∉ H) -> (k < NBUF)%nat -> bcache s !! k = Some b ->
  got pid s (<[k := b']> (bcache s)) k s' -> room U (k :: H) s' ->
  b_refcnt b' = 1 -> b_dev b' = 1 ->
  (forall blk d, pend blk = Some d -> cached s' blk = true) ->
  (forall j v, j <> k -> bv s j = Some v -> (j < NBUF)%nat -> v_dev v = 1 -> v_blk v <> b_blockno b') ->
  cstate U pid (k :: H) pend s'.
Proof.
  intros Hcs Hk Hlt Hb Hgot Hroom Href Hdev Hpend Hu. pose proof Hgot as [Hcalm Ebc Edk _ _ _ Hh Hlk].
  assert (Hl : (k < length (bcache s))%nat) by (by eapply lookup_lt_Some).
  destruct (bv_insert _ s' k b' Ebc Hl) as [Hvk Hvo]. fold (bv s) in Hvo. split; try done.
  - intros j v Hv Hj [Hne Hin]%not_elem_of_cons. rewrite Hvo in Hv by done.
    rewrite Hlk, Edk by congruence. by apply (cs_idle _ _ _ _ _ Hcs).
  - intros j [-> | Hj]%elem_of_cons; [by exists (vw b') |].
    assert (j <> k) by (by intros ->). destruct (cs_held _ _ _ _ _ Hcs j Hj) as (v & Hv & ? & ? & Hs & ?).
    exists v. rewrite Hvo by done. split_and!; try done.
    unfold sl_held. rewrite Hlk by congruence. apply Hs.
  - apply NoDup_cons. split; [done | apply Hcs].
  - intros i j v w Hi Hj Hi' Hj' Hdv Hdw Hblk.
    destruct (decide (i = k)) as [-> | Hni]; destruct (decide (j = k)) as [-> | Hnj]; try done.
    + rewrite Hvk in Hi. rewrite Hvo in Hj by done. simplify_eq. exfalso. by apply (Hu j w).
    + rewrite Hvk in Hj. rewrite Hvo in Hi by done. simplify_eq. exfalso. by apply (Hu i v).
    + rewrite Hvo in Hi, Hj by done. by eapply (cs_uniq _ _ _ _ _ Hcs).
Qed.

(** A locked buffer may be changed at will; the disk, and the pending update, of
    its block with it. *)
Lemma cstate_held U pid H pend pend' s k b b' s' :
  cstate U pid H pend s -> k ∈ H -> bcache s !! k = Some b ->
  calm pid s' -> bcache s' = <[k := b']> (bcache s) -> sleeplocks s' = sleeplocks s ->
  b_next b' = b_next b -> b_prev b' = b_prev b -> b_refcnt b' = b_refcnt b ->
  b_dev b' = b_dev b -> b_blockno b' = b_blockno b ->
  (forall x, x <> b_blockno b -> disk s' x = disk s x /\ pend' x = pend x) ->
  cstate U pid H pend' s'.
Proof.
  intros Hcs Hk Hb Hcalm Ebc Esl Hn Hp Href Hdev Hblk Hx.
  assert (Hl : (k < length (bcache s))%nat) by (by eapply lookup_lt_Some).
  destruct (bv_insert _ s' k b' Ebc Hl) as [Hvk Hvo]. fold (bv s) in Hvo.
  destruct (cs_held _ _ _ _ _ Hcs k Hk) as (w & Hw & Hlt & Hr1 & Hsl & Hd1).
  rewrite (bv_lookup s k b Hb) in Hw. simplify_eq. simpl in *.
  assert (Hid : same_ident s s').
  { eapply (same_ident_at s s' k); [by apply bv_lookup | done | | done].
    unfold ident. simpl. by rewrite Hdev, Hblk. }
  split; try done; try apply Hcs.
  - intros j v Hv Hj Hin. assert (Hne : j <> k) by (by intros ->). rewrite Hvo in Hv by done. rewrite Esl.
    destruct (cs_idle _ _ _ _ _ Hcs j v Hv Hj Hin) as (? & ? & Hrest). split_and!; try done.
    intros Hd. destruct (Hx (v_blk v)) as [-> ->]; [| by apply Hrest].
    intros E. apply Hne. by eapply (cs_uniq _ _ _ _ _ Hcs j k v (vw b)); try apply bv_lookup.
  - intros j Hj. destruct (cs_held _ _ _ _ _ Hcs j Hj) as (v & Hv & ? & ? & ? & ?). unfold sl_held. rewrite Esl.
    destruct (decide (j = k)) as [-> | Hne]; [| exists v; by rewrite Hvo].
    exists (vw b'). simpl. rewrite Href, Hdev. split_and!; try done; apply Hsl.
  - apply (unique_ident s s' Hid), Hcs.
  - intros x d Hd. rewrite (cached_ident s s' x Hid). destruct (decide (x = b_blockno b)) as [-> | Hne].
    + apply cached_spec. by exists k, b.
    + destruct (Hx x Hne) as [_ E]. rewrite E in Hd. by eapply (cs_pend _ _ _ _ _ Hcs).
  - destruct (cs_room _ _ _ _ _ Hcs) as (ord & F & V & Hr & Hord & HV & Hc).
    exists ord, F, V. split_and!; [rewrite Ebc; by eapply ring_insert | done | |].
    + eapply spare_keep; [done | | done]. intros Hin.
      assert (Hin' : k ∈ filter (.∉ H) ord) by (rewrite Hord; set_solver).
      by apply list_elem_of_filter in Hin' as [? _].
    + etrans; [| exact Hc]. apply filter_length_le. intros x _. by rewrite (cached_ident s s' x Hid).
Qed.

(** ** [bread], [bwrite], [brelse] *)

Record same_world (s s' : kstate) : Prop := {
  sw_disksize : disksize s' = disksize s;
  sw_log : log s' = log s;
  sw_kept : kept s' = kept s }.

(** The size of the disk and the inodes. *)
Definition world (s : kstate) : Z * (list inode * superblock * (nat -> sleeplock)) := (disksize s, kept s).

Lemma same_world_eq s s' : same_world s s' -> world s' = world s.
Proof. intros [E _ E']. unfold world. congruence. Qed.
Lemma world_inv s s' : world s' = world s -> disksize s' = disksize s /\ kept s' = kept s.
Proof. unfold world. intros E. split; [by apply (f_equal fst) in E | by apply (f_equal snd) in E]. Qed.
Lemma world_size s N K : world s = (N, K) -> disksize s = N.
Proof. unfold world. congruence. Qed.

Section Operations.
Context {turns : Turns} {dk : Disk} {dspec : DiskSpec} (Hturns : (0 < max_turns)%nat).
Context (U : list Z) (HU : NoDup U) (pid : Z).

(** The idle buffers are those with no reference. *)
Lemma idle_hit H pend s ord k :
  cstate U pid H pend s -> ring (bcache s) ord -> k ∈ ord ->
  hit (bcache s) (fun b => b_refcnt b =? 0) k = true <-> k ∉ H.
Proof.
  intros Hcs Hr Hk. assert (Hlt : (k < NBUF)%nat) by (rewrite (rg_ord _ _ Hr), elem_of_seq in Hk; lia).
  destruct (ring_some _ _ _ Hr Hk) as [b Hb]. unfold hit. rewrite Hb, Z.eqb_eq.
  pose proof (bv_lookup s k b Hb) as Hv. split.
  - intros E Hin. destruct (cs_held _ _ _ _ _ Hcs k Hin) as (v & Hv' & _ & Hr1 & _).
    rewrite Hv in Hv'. simplify_eq. simpl in Hr1. lia.
  - intros Hin. by destruct (cs_idle _ _ _ _ _ Hcs k (vw b) Hv Hlt Hin).
Qed.

(** What [bread] gives, from [s] to [s']: buffer [k], locked, with the block's content. *)
Record has_read (H : list nat) (pend : Z -> option (list Z)) (s : kstate) (blk : Z)
    (k : nat) (s' : kstate) (v : bview) : Prop := {
  hr_fresh : k ∉ H;
  hr_state : cstate U pid (k :: H) pend s';
  hr_view : bv s' k = Some v;
  hr_dev : v_dev v = 1;
  hr_blk : v_blk v = blk;
  hr_rest : at_rest (disk s) pend v;
  hr_disk : disk s' = disk s;
  hr_world : same_world s s';
  hr_others : forall j, j ∈ H -> bv s' j = bv s j }.

Lemma bread_cached H pend s ord blk k b :
  cstate U pid H pend s -> blk ∈ U -> ring (bcache s) ord ->
  find (hit (bcache s) (is_block blk)) ord = Some k -> bcache s !! k = Some b -> (k < NBUF)%nat ->
  b_dev b = 1 -> b_blockno b = blk -> (k ∉ H) ->
  exists s' v, bread 1 blk s = Ok k s' /\ has_read H pend s blk k s' v.
Proof.
  intros Hcs Hblk Hr E Hb Hlt Hd Hbl Hk.
  destruct (cs_idle _ _ _ _ _ Hcs k (vw b) (bv_lookup _ _ _ Hb) Hlt Hk) as (Href & Hsl & Hrest).
  destruct (bget_cached Hturns pid s ord blk k b) as (s' & Hrun & Hgot); try done; [apply Hcs |].
  pose proof Hgot as [? Ebc Edk Eds Elg Eic ? Elk].
  assert (Hl : (k < length (bcache s))%nat) by (by eapply lookup_lt_Some).
  destruct (bv_insert _ s' k _ Ebc Hl) as [Hvk Hvo]. fold (bv s) in Hvo.
  exists s', (vw {| b with b_refcnt := b_refcnt b + 1 |}). simpl in Href. split.
  - unfold bread. step by (exact Hrun).
    step by (apply getb_ok; rewrite Ebc; by apply list_lookup_insert_eq). simpl.
    replace (Z.land (b_flags b) B_VALID =? 0) with false; [done |].
    destruct (Hrest Hd) as [[Ef _] | [Ef _]]; simpl in Ef; by rewrite Ef.
  - split; try done; [| split; try done; apply kept_eq; [done | intros i; by apply Elk] |].
    + eapply (cstate_take U pid H pend s k b); try done; simpl; rewrite ?Href; try done.
      * eapply (room_cached U H s s' k b); [apply Hcs | done | done | done | by rewrite Hbl | exact Ebc | done ..].
      * intros x d Hx. rewrite (cached_keep s s' k b _ x Hb Ebc) by done.
        by eapply (cs_pend _ _ _ _ _ Hcs).
      * intros j v Hne Hj Hjl Hdv Heq. apply Hne.
        by eapply (cs_uniq _ _ _ _ _ Hcs j k v (vw b)); try apply bv_lookup.
    + intros j Hj. apply Hvo. by intros ->.
Qed.

(** The state in which a spare buffer has been given to an uncached block. *)
Lemma evict_state H pend s ord blk k b b1 s1 :
  cstate U pid H pend s -> blk ∈ U -> cached s blk = false -> ring (bcache s) ord -> k ∈ ord ->
  (k ∉ H) -> bcache s !! k = Some b -> spare s U k -> room U (k :: H) s1 ->
  got pid s (<[k := b1]> (bcache s)) k s1 -> b_dev b1 = 1 -> b_blockno b1 = blk -> b_refcnt b1 = 1 ->
  cstate U pid (k :: H) pend s1.
Proof.
  intros Hcs Hblk Hun Hr Hin Hk Hb (v & Hv & Hsp) Hroom Hgot Hd1 Hb1 Hr1.
  assert (Hlt : (k < NBUF)%nat) by (rewrite (rg_ord _ _ Hr), elem_of_seq in Hin; lia).
  rewrite (bv_lookup s k b Hb) in Hv. simplify_eq.
  destruct (cs_idle _ _ _ _ _ Hcs k (vw b) (bv_lookup _ _ _ Hb) Hlt Hk) as (_ & _ & Hrest).
  rewrite <- not_true_iff_false, cached_spec in Hun.
  eapply (cstate_take U pid H pend s k b); try done.
  - intros x d Hx. apply (cached_insert s s1 k b b1); [done | apply Hgot | done |]. right.
    pose proof (cs_pend _ _ _ _ _ Hcs x d Hx) as Hc. apply cached_spec in Hc as (j & c & Hj & Hjl & Hjd & Hjb).
    exists j, c. split_and!; try done. intros ->. rewrite Hb in Hj. simplify_eq.
    destruct (Hsp Hjd) as [Hf _]. destruct (Hrest Hjd) as [(_ & _ & Hn) | (Hf' & _)];
      [simpl in *; congruence | rewrite Hf in Hf'; discriminate].
  - intros j w Hne Hj Hjl Hdw Heq. unfold bv in Hj. apply fmap_Some in Hj as (c & Hc & ->).
    apply Hun. exists j, c. by rewrite <- Heq.
Qed.

Lemma bread_evict H pend s blk :
  cstate U pid H pend s -> blk ∈ U -> 0 <= blk < disksize s -> cached s blk = false ->
  off (disk s) (bread 1 blk s) \/
  exists k s' v, bread 1 blk s = Ok k s' /\ has_read H pend s blk k s' v.
Proof.
  intros Hcs Hblk Hrange Hun.
  destruct (room_evict U H s blk) as (ord & L & k & Hr & Hord & Hsp & Hroom); try done; [apply Hcs |].
  assert (Hk : k ∈ filter (.∉ H) ord) by (rewrite Hord; set_solver).
  apply list_elem_of_filter in Hk as [Hk Hin]. destruct (ring_some _ _ _ Hr Hin) as [b Hb].
  assert (Hlt : (k < NBUF)%nat) by (rewrite (rg_ord _ _ Hr), elem_of_seq in Hin; lia).
  destruct (cs_idle _ _ _ _ _ Hcs k (vw b) (bv_lookup _ _ _ Hb) Hlt Hk) as (_ & Hsl & _).
  destruct (bget_evict Hturns pid s ord blk k b) as (s1 & Hrun & Hgot); try done.
  { apply Hcs. }
  { pose proof (find_block s ord blk Hr) as Hfind. destruct (find _ ord) as [j |]; [| done].
    destruct Hfind as (c & Hc). rewrite <- not_true_iff_false, cached_spec in Hun. naive_solver. }
  { eapply (find_last _ (.∉ H)); [| exact Hord]. intros j Hj. by eapply idle_hit. }
  set (b1 := {| b with b_dev := 1; b_blockno := blk; b_flags := 0; b_refcnt := 1 |}) in Hgot.
  pose proof Hgot as [Hcalm1 Ebc1 Edk1 Eds1 Elg1 Eic1 Hheld1 Elk1].
  assert (Hl : (k < length (bcache s))%nat) by (by eapply lookup_lt_Some).
  assert (Hb1 : bcache s1 !! k = Some b1) by (rewrite Ebc1; by apply list_lookup_insert_eq).
  assert (Hcs1 : cstate U pid (k :: H) pend s1) by (eapply (evict_state H pend s ord blk k b b1); try done; by eapply Hroom).
  unfold bread. unfold off. rewrite (bind_ok _ _ _ _ _ Hrun), (bind_ok _ _ _ _ _ (getb_ok s1 k b1 Hb1)).
  change (Z.land (b_flags b1) B_VALID =? 0) with true. cbn [when]. rewrite bind_assoc.
  destruct (iderw_read pid s1 k b1) as [(s2 & E & Ed) | (s2 & E & Hcalm2 & Esl2 & Ebc2 & Edk2 & Eds2 & Elg2 & Eic2)];
    try done; [split; try done; simpl; by rewrite Eds1 | |].
  - left. exists s2. split; [by apply bind_stop | by rewrite Ed].
  - right. set (b2 := {| b1 with b_flags := B_VALID; b_data := disk s1 (b_blockno b1) |}) in Ebc2.
    assert (Hl2 : (k < length (bcache s1))%nat) by (by eapply lookup_lt_Some).
    assert (Hb2 : bcache s2 !! k = Some b2) by (rewrite Ebc2; by apply list_lookup_insert_eq).
    exists k, s2, (vw b2). split.
    + step by (exact E). step by (by apply modb_ok). unfold ret. f_equal.
      etrans; [| apply set_bcache_id]. f_equal. by apply list_insert_id.
    + destruct (bv_insert _ s2 k _ Ebc2 Hl2) as [Hvk Hvo]. destruct (bv_insert _ s1 k _ Ebc1 Hl) as [_ Hvo1].
      split; try done; [| | by rewrite Edk2 | split; [congruence .. |]; apply kept_eq; [congruence | intros i; rewrite Esl2; by apply Elk1] |].
      * eapply (cstate_held U pid (k :: H) pend pend s1 k b1 b2); try done; [constructor |].
        intros. by rewrite Edk2.
      * intros _. left. split_and!; [done | simpl; by rewrite Edk1 |]. simpl.
        destruct (pend blk) as [d |] eqn:Hp; [| done].
        apply (cs_pend _ _ _ _ _ Hcs) in Hp. congruence.
      * intros j Hj. assert (j <> k) by (by intros ->). rewrite Hvo by done.
        fold (bv s1 j). by apply Hvo1.
Qed.

(** [bread] of a block of [U] that is not locked yet returns a locked, valid
    buffer for it, which holds the block's pending update or what is on disk. *)
Lemma bread_ok H pend s blk :
  cstate U pid H pend s -> blk ∈ U -> 0 <= blk < disksize s ->
  (forall k v, k ∈ H -> bv s k = Some v -> v_blk v <> blk) ->
  off (disk s) (bread 1 blk s) \/
  exists k s' v, bread 1 blk s = Ok k s' /\ has_read H pend s blk k s' v.
Proof.
  intros Hcs Hblk Hrange Hfresh.
  destruct (cs_room _ _ _ _ _ Hcs) as (ord & _ & _ & Hr & _).
  pose proof (find_block s ord blk Hr) as Hfind.
  destruct (find (hit (bcache s) (is_block blk)) ord) as [k |] eqn:E.
  - right. destruct Hfind as (b & Hb & Hlt & Hd & Hbl). exists k.
    eapply bread_cached; try done. intros Hin.
    by apply (Hfresh k (vw b) Hin (bv_lookup _ _ _ Hb)).
  - by apply bread_evict.
Qed.
End Operations.

Section Held.
Context (U : list Z) (pid : Z).

Lemma held_ready H pend s k b :
  cstate U pid H pend s -> k ∈ H -> bcache s !! k = Some b ->
  (k < NBUF)%nat /\ sl_held pid s (SlBuf k) /\ b_dev b = 1 /\ b_refcnt b = 1.
Proof.
  intros Hcs Hk Hb. destruct (cs_held _ _ _ _ _ Hcs k Hk) as (v & Hv & ? & ? & ? & ?).
  rewrite (bv_lookup s k b Hb) in Hv. by simplify_eq.
Qed.

(** Changing the data of a locked buffer. *)
Lemma set_bdata_ok H pend s k b d :
  cstate U pid H pend s -> k ∈ H -> bcache s !! k = Some b ->
  exists s', set_bdata k d s = Ok tt s' /\ cstate U pid H pend s' /\
    bcache s' = <[k := {| b with b_data := d |}]> (bcache s) /\ disk s' = disk s /\ same_world s s'.
Proof.
  intros Hcs Hk Hb. eexists. split; [by apply modb_ok |]. split_and!; try done.
  eapply (cstate_held U pid H pend pend s k b); try done.
  apply (calm_frame (set_bcache _)); [done | apply Hcs].
Qed.

(** [bwrite] of a locked valid buffer writes it to the disk. *)
Lemma bwrite_ok {dk : Disk} {dspec : DiskSpec} H pend s k b :
  cstate U pid H pend s -> k ∈ H -> bcache s !! k = Some b -> 0 <= b_blockno b < disksize s ->
  (b_flags b = B_VALID \/ b_flags b = Z.lor B_VALID B_DIRTY) ->
  off (disk s) (bwrite k s) \/
  exists s', bwrite k s = Ok tt s' /\ cstate U pid H (fupd pend (b_blockno b) None) s' /\
    bcache s' = <[k := {| b with b_flags := B_VALID |}]> (bcache s) /\
    disk s' = fupd (disk s) (b_blockno b) (b_data b) /\ same_world s s'.
Proof.
  intros Hcs Hk Hb Hrange Hfl. destruct (held_ready _ _ _ _ _ Hcs Hk Hb) as (Hlt & Hh & Hd & Href).
  assert (Hl : (k < length (bcache s))%nat) by (by eapply lookup_lt_Some).
  unfold bwrite, off. rewrite (bind_ok _ _ _ _ _ (calm_holdingsleep pid s _ (cs_calm _ _ _ _ _ Hcs) Hh)).
  cbn [negb]. destruct (same_store_touch s) as [[Ebc Edk Eds Elg Eic] Esl].
  pose proof (calm_touch _ _ (cs_calm _ _ _ _ _ Hcs)) as Hcalm.
  rewrite (bind_ok _ _ _ _ _ (modb_ok (cli_touch s) k b _ ltac:(by rewrite Ebc))).
  set (b1 := {| b with b_flags := Z.lor (b_flags b) B_DIRTY |}). rewrite Ebc.
  set (t := set_bcache _ (cli_touch s)).
  destruct (iderw_write pid t k b1) as [(s2 & E & Ed) | (s2 & E & Hcalm2 & Esl2 & Ebc2 & Edk2 & Eds2 & Elg2 & Eic2)].
  - by apply (calm_frame (set_bcache _)).
  - split; [| | done | simpl; by rewrite Eds].
    + simpl. by apply list_lookup_insert_eq.
    + unfold sl_held. simpl. by rewrite Esl.
  - simpl. by destruct Hfl as [-> | ->].
  - left. exists s2. split; [done |]. by rewrite Ed.
  - right. exists s2. simpl in *. rewrite list_insert_insert_eq in Ebc2.
    split_and!; [done | | done | by rewrite Edk2, Edk | split; [congruence .. |]; apply kept_eq; [rewrite Eic2; exact Eic | intros i; rewrite Esl2; simpl; by rewrite Esl]].
    eapply (cstate_held U pid H pend _ s k b); try done; [by rewrite Esl2 |].
    intros x Hx. by rewrite Edk2, Edk, !fupd_ne.
Qed.

Lemma room_release s (H : list nat) k ord (F V : list nat) :
  ring (bcache s) ord -> k ∈ ord -> k ∈ H -> filter (.∉ H) ord = F ++ V ->
  exists l1 l2, ord = l1 ++ k :: l2 /\
    filter (.∉ filter (.≠ k) H) (k :: l1 ++ l2) = k :: F ++ V.
Proof.
  intros Hr Hin Hk Hord. apply list_elem_of_split in Hin as (l1 & l2 & ->). exists l1, l2. split; [done |].
  apply ring_nodup, NoDup_cons in Hr as [_ Hnd].
  rewrite <- Permutation_middle in Hnd. apply NoDup_cons in Hnd as [Hkl _].
  rewrite filter_cons_True by (rewrite list_elem_of_filter; naive_solver). f_equal.
  rewrite <- Hord, filter_app, (filter_app _ l1), (filter_cons_False _ k) by naive_solver.
  f_equal; apply filter_ext_in; intros x Hx; rewrite list_elem_of_filter;
    (assert (x <> k) by (intros ->; set_solver)); tauto.
Qed.

Lemma cstate_release H pend s k b s' :
  cstate U pid H pend s -> k ∈ H -> bcache s !! k = Some b -> at_rest (disk s) pend (vw b) ->
  calm pid s' -> bcache s' = relink k (<[k := {| b with b_refcnt := 0 |}]> (bcache s)) ->
  disk s' = disk s -> sl_locked (sleeplocks s' (SlBuf k)) = 0 ->
  (forall l, l <> SlBuf k -> sleeplocks s' l = sleeplocks s l) ->
  cstate U pid (filter (.≠ k) H) pend s' /\ forall j, j <> k -> bv s' j = bv s j.
Proof.
  intros Hcs Hk Hb Hrest Hcalm Ebc Edk Hsk Hso.
  destruct (held_ready _ _ _ _ _ Hcs Hk Hb) as (Hlt & Hh & Hd & Href).
  set (b' := {| b with b_refcnt := 0 |}) in Ebc.
  destruct (cs_room _ _ _ _ _ Hcs) as (ord & F & V & Hr & Hord & HV & Hc).
  assert (Hin : k ∈ ord) by (rewrite (rg_ord _ _ Hr), elem_of_seq; lia).
  destruct (room_release s H k ord F V Hr Hin Hk Hord) as (l1 & l2 & -> & Hord').
  destruct (relink_ring (<[k := b']> (bcache s)) l1 k l2) as [Hring Hvw]; [by eapply ring_insert |].
  rewrite <- Ebc in Hring, Hvw.
  assert (Hbv : forall j, bv s' j = vw <$> <[k := b']> (bcache s) !! j)
    by (intros j; unfold bv; by rewrite <- !list_lookup_fmap, Hvw).
  assert (Hvk : bv s' k = Some (vw b'))
    by (rewrite Hbv, list_lookup_insert_eq by (by eapply lookup_lt_Some); done).
  assert (Hvo : forall j, j <> k -> bv s' j = bv s j)
    by (intros j Hj; by rewrite Hbv, list_lookup_insert_ne).
  assert (Hid : same_ident s s') by (eapply (same_ident_at s s' k); [by apply bv_lookup | done | done | done]).
  assert (Hel : forall j, j ∈ filter (.≠ k) H <-> j <> k /\ j ∈ H) by (intros j; by rewrite list_elem_of_filter).
  split; [| done]. split; try done.
  - intros j v Hv Hj Hnin. destruct (decide (j = k)) as [-> | Hne].
    + rewrite Hvk in Hv. simplify_eq. by rewrite Edk.
    + rewrite Hvo in Hv by done. rewrite Hso, Edk by congruence. apply (cs_idle _ _ _ _ _ Hcs); naive_solver.
  - intros j [Hne Hj]%Hel. destruct (cs_held _ _ _ _ _ Hcs j Hj) as (v & Hv & ?). exists v.
    rewrite Hvo by done. unfold sl_held. by rewrite Hso by congruence.
  - apply NoDup_filter, Hcs.
  - apply (unique_ident s s' Hid), Hcs.
  - intros x d Hx. rewrite (cached_ident s s' x Hid). by eapply (cs_pend _ _ _ _ _ Hcs).
  - exists (k :: l1 ++ l2), (k :: F), V. split_and!; [done | by rewrite Hord' | |].
    + apply Forall_forall. intros j Hj. rewrite Forall_forall in HV. destruct (HV j Hj) as (v & Hv & Hsp).
      exists v. rewrite Hvo; [done |]. intros ->.
      assert (Hin' : k ∈ filter (.∉ H) (l1 ++ k :: l2)) by (rewrite Hord; set_solver).
      by apply list_elem_of_filter in Hin' as [? _].
    + etrans; [| exact Hc]. apply filter_length_le. intros x _. by rewrite (cached_ident s s' x Hid).
Qed.

(** [brelse] of a buffer whose data is on disk, or pending, makes it the most recently used idle one. *)
Lemma brelse_ok H pend s k b :
  cstate U pid H pend s -> k ∈ H -> bcache s !! k = Some b -> at_rest (disk s) pend (vw b) ->
  exists s', brelse k s = Ok tt s' /\ cstate U pid (filter (.≠ k) H) pend s' /\
    disk s' = disk s /\ same_world s s' /\ forall j, j <> k -> bv s' j = bv s j.
Proof.
  intros Hcs Hk Hb Hrest. destruct (held_ready _ _ _ _ _ Hcs Hk Hb) as (Hlt & Hh & Hd & Href).
  unfold brelse. step by (eapply calm_holdingsleep; [apply Hcs | done]). cbn [negb].
  destruct (same_store_touch s) as [[Ebc Edk Eds Elg Eic] Esl].
  destruct (calm_releasesleep pid (cli_touch s) (SlBuf k)) as (s1 & E1 & Hc1 & [Eb1 Ed1 En1 Eg1 EiEg1] & Hf1 & Ho1);
    [apply calm_touch, Hcs |].
  step by (exact E1). destruct (cache_section pid s1 Hc1) as (t & Ha & Et & Hrel). step by (exact Ha).
  rewrite Ebc in Eb1. rewrite Eb1 in Et.
  step by (apply modb_ok; by rewrite Et). rewrite Et, Href. cbn [Z.sub Z.add Z.opp Pos.sub Z.pos_sub].
  set (b' := {| b with b_refcnt := 0 |}).
  assert (Hl : (k < length (bcache s))%nat) by (by eapply lookup_lt_Some).
  step by (apply getb_ok; simpl; by apply list_lookup_insert_eq). change (b_refcnt b' =? 0) with true. cbn [when].
  destruct (cs_room _ _ _ _ _ Hcs) as (ord & F & V & Hr & _).
  assert (Hin : k ∈ ord) by (rewrite (rg_ord _ _ Hr), elem_of_seq; lia).
  apply list_elem_of_split in Hin as (l1 & l2 & ->).
  step by (apply (relink_run _ k b' l1 l2); simpl; [by eapply ring_insert | by apply list_lookup_insert_eq]).
  simpl. rewrite set_bcache_bcache, Hrel. eexists. split; [done |].
  destruct (same_store_touch s1) as [[Ebc1 Edk1 Eds1 Elg1 Eic1] Esl1].
  edestruct (cstate_release H pend s k b) as [Hcs' Hvo]; [done | done | done | done | ..].
  6: { split_and!; [exact Hcs' | simpl; congruence | split; [simpl; congruence .. |]; apply kept_eq; [unfold inodes in *; simpl; congruence |] | exact Hvo].
       intros i. simpl. rewrite Esl1, Ho1 by done. by rewrite Esl. }
  - by apply (calm_frame (set_bcache _)), calm_touch.
  - done.
  - simpl. congruence.
  - simpl. by rewrite Esl1.
  - intros l Hl'. simpl. rewrite Esl1, Ho1 by done. by rewrite Esl.
Qed.
End Held.
