(* ===== verification/Log.v ===== *)
(** [log.c]: the redo log, with [readsb] of [fs.c], which [initlog] calls. *)

From S2P Require Import Prelude Params Mem Machine Spinlock Console Proc ProcSpec Sleeplock.
From S2P Require Import Ide Bio.

Section Log.
Context `{Turns} `{Disk}.

(** ** Operations *)

Definition sb_of_block (d : list Z) : superblock :=
  mkSuperblock (lget32 d 0) (lget32 d 4) (lget32 d 8) (lget32 d 12)
               (lget32 d 16) (lget32 d 20) (lget32 d 24).

Definition readsb (dev : Z) : M superblock :=
  bp <- bread dev 1 ;;
  d <- bdata bp ;;
  brelse bp ;;
  ret (sb_of_block d).

Definition modlog (f : logst -> logst) : M unit := modify (fun s => set_log (f (log s)) s).

(** [log.lh.n = n] and [log.lh.block[i] = b]; the array has [LOGSIZE] entries. *)
Definition set_lh_n (n : Z) (l : logst) : logst :=
  {| l with log_lh := {| (log_lh l) with lh_n := n |} |}.
Definition set_lh_block (i b : Z) : M unit :=
  if ((i <? 0) || (LOGSIZE <=? i))%bool then fault
  else modlog (fun l => {| l with log_lh :=
         {| (log_lh l) with lh_block := <[Z.to_nat i := b]> (lh_block (log_lh l)) |} |}).
Definition get_lh_block (i : Z) : M Z :=
  l <- gets log ;;
  if i <? 0 then fault else unwrap (lh_block (log_lh l) !! Z.to_nat i).

(** The indices [0 .. n-1] of a loop on an [int] counter. *)
Definition upto (n : Z) : list Z := seqZ 0 n.

Definition install_trans : M unit :=
  l <- gets log ;;
  forM (upto (lh_n (log_lh l))) (fun tail =>
    l <- gets log ;;
    lbuf <- bread (log_dev l) (u32 (log_start l + tail + 1)) ;;
    b <- get_lh_block tail ;;
    dbuf <- bread (log_dev l) b ;;
    d <- bdata lbuf ;;
    set_bdata dbuf d ;;
    bwrite dbuf ;;
    brelse lbuf ;;
    brelse dbuf).

Definition read_head : M unit :=
  l <- gets log ;;
  buf <- bread (log_dev l) (log_start l) ;;
  d <- bdata buf ;;
  modlog (set_lh_n (i32 (lget32 d 0))) ;;
  forM (upto (i32 (lget32 d 0))) (fun i => set_lh_block i (lget32 d (4 + 4 * i))) ;;
  brelse buf.

Definition write_head : M unit :=
  l <- gets log ;;
  buf <- bread (log_dev l) (log_start l) ;;
  d <- bdata buf ;;
  set_bdata buf (lset32 d 0 (lh_n (log_lh l))) ;;
  forM (upto (lh_n (log_lh l))) (fun i =>
    b <- get_lh_block i ;;
    d <- bdata buf ;;
    set_bdata buf (lset32 d (4 + 4 * i) b)) ;;
  bwrite buf ;;
  brelse buf.

Definition recover_from_log : M unit :=
  read_head ;;
  install_trans ;;
  modlog (set_lh_n 0) ;;
  write_head.

(** [initlog]; [sizeof(struct logheader)] is [4 + 4 * LOGSIZE]. *)
Definition initlog (dev : Z) : M unit :=
  if BSIZE <=? 4 + 4 * LOGSIZE then panic "initlog: too big logheader"
  else
    initlock LkLog "log" ;;
    sb <- readsb dev ;;
    modlog (fun l => {| l with log_start := sb_logstart sb; log_size := sb_nlog sb; log_dev := dev |}) ;;
    recover_from_log.

Definition begin_op : M unit :=
  acquire LkLog ;;
  loop_until max_turns (
    l <- gets log ;;
    if negb (log_committing l =? 0) then sleep ChLog LkLog ;; ret None
    else if LOGSIZE <? lh_n (log_lh l) + (log_outstanding l + 1) * MAXOPBLOCKS then
      sleep ChLog LkLog ;; ret None
    else
      modlog (fun l => {| l with log_outstanding := log_outstanding l + 1 |}) ;;
      release LkLog ;;
      ret (Some tt)).

Definition write_log : M unit :=
  l <- gets log ;;
  forM (upto (lh_n (log_lh l))) (fun tail =>
    l <- gets log ;;
    to <- bread (log_dev l) (u32 (log_start l + tail + 1)) ;;
    b <- get_lh_block tail ;;
    from <- bread (log_dev l) b ;;
    d <- bdata from ;;
    set_bdata to d ;;
    bwrite to ;;
    brelse from ;;
    brelse to).

Definition commit : M unit :=
  l <- gets log ;;
  when (0 <? lh_n (log_lh l))
    (write_log ;;
     write_head ;;
     install_trans ;;
     modlog (set_lh_n 0) ;;
     write_head).

Definition end_op : M unit :=
  acquire LkLog ;;
  modlog (fun l => {| l with log_outstanding := log_outstanding l - 1 |}) ;;
  l <- gets log ;;
  if negb (log_committing l =? 0) then panic "log.committing"
  else
    do_commit <- (if log_outstanding l =? 0 then
                    modlog (fun l => {| l with log_committing := 1 |}) ;; ret true
                  else wakeup ChLog ;; ret false) ;;
    release LkLog ;;
    when do_commit
      (commit ;;
       acquire LkLog ;;
       modlog (fun l => {| l with log_committing := 0 |}) ;;
       wakeup ChLog ;;
       release LkLog).

(** The absorption loop of [log_write]: the index of the block in the log, or the end. *)
Fixpoint log_index (bs : list Z) (n : nat) (blockno : Z) : nat :=
  match n, bs with
  | S n', b :: bs' => if b =? blockno then O else S (log_index bs' n' blockno)
  | _, _ => O
  end.

Definition log_write (i : nat) : M unit :=
  l <- gets log ;;
  if ((LOGSIZE <=? lh_n (log_lh l)) || (log_size l - 1 <=? lh_n (log_lh l)))%bool
  then panic "too big a transaction"
  else if log_outstanding l <? 1 then panic "log_write outside of trans"
  else
    acquire LkLog ;;
    b <- getb i ;;
    l <- gets log ;;
    let k := Z.of_nat (log_index (lh_block (log_lh l)) (Z.to_nat (lh_n (log_lh l))) (b_blockno b)) in
    set_lh_block k (b_blockno b) ;;
    when (k =? lh_n (log_lh l)) (modlog (set_lh_n (lh_n (log_lh l) + 1))) ;;
    modb i (fun b => {| b with b_flags := Z.lor (b_flags b) B_DIRTY |}) ;;
    release LkLog.
End Log.
