(* ===== verification/LogSpec.v ===== *)
(** Crash safety of the log: whenever the power fails, recovery finds either
    none or all of a transaction on the disk. *)

From stdpp Require Import sets.
From S2P Require Import Prelude Params Mem Machine Spinlock Console Proc ProcSpec Sleeplock Ide.
From S2P Require Import Quiet Bio BioSpec Log.
From Stdlib Require Import FunctionalExtensionality.

(** ** Executions that may be cut short

    [exec C Q o]: the outcome [o] is a result satisfying [Q], or the power
    failed with a disk satisfying [C]. *)

Definition exec {A} (C : (Z -> list Z) -> Prop) (Q : A -> kstate -> Prop) (o : outcome A) : Prop :=
  match o with
  | Ok a s => Q a s
  | Stop PowerOff s => C (disk s)
  | _ => False
  end.

Lemma exec_bind {A B} C Q (m : M A) (f : A -> M B) s :
  exec C (fun a s' => exec C Q (f a s')) (m s) -> exec C Q (bind m f s).
Proof. unfold bind. destruct (m s) as [| [] |]; simpl; done. Qed.

Lemma exec_mono {A} C C' Q Q' (o : outcome A) :
  exec C Q o -> (forall d, C d -> C' d) -> (forall a s, Q a s -> Q' a s) -> exec C' Q' o.
Proof. destruct o as [| [] |]; simpl; naive_solver. Qed.

Lemma exec_off {A} (C : (Z -> list Z) -> Prop) Q d (o : outcome A) : off d o -> C d -> exec C Q o.
Proof. intros (s & -> & <-). done. Qed.

Lemma exec_ok {A} C (Q : A -> kstate -> Prop) (o : outcome A) a s : o = Ok a s -> Q a s -> exec C Q o.
Proof. by intros ->. Qed.

(** A counting loop with an invariant. *)
Lemma exec_upto C (I : Z -> kstate -> Prop) (body : Z -> M unit) n s :
  0 <= n -> I 0 s ->
  (forall i s, 0 <= i < n -> I i s -> exec C (fun _ s' => I (i + 1) s') (body i s)) ->
  exec C (fun _ s' => I n s') (forM (upto n) body s).
Proof.
  intros Hn HI Hbody. unfold upto.
  assert (Hgen : forall k i s, 0 <= i -> i + Z.of_nat k = n -> I i s ->
            exec C (fun _ s' => I n s') (forM (seqZ i (Z.of_nat k)) body s)).
  { clear s HI. induction k as [| k IH]; intros i s Hi Hk HI.
    - simpl. by replace n with i by lia.
    - rewrite seqZ_cons by lia. cbn [forM]. apply exec_bind.
      eapply exec_mono; [apply Hbody; [lia | done] | done |]. intros [] s' HI'.
      replace (Z.pred (Z.of_nat (S k))) with (Z.of_nat k) by lia.
      replace (Z.succ i) with (i + 1) by lia. by apply IH; [lia | lia |]. }
  specialize (Hgen (Z.to_nat n) 0 s). rewrite Z2Nat.id in Hgen by lia. by apply Hgen.
Qed.

(** ** The cache operations *)

Section Steps.
Context {turns : Turns} {dk : Disk} {dspec : DiskSpec} (Hturns : (0 < max_turns)%nat).
Context (U : list Z) (HU : NoDup U) (pid : Z).

Lemma bread_exec C Q H pend s blk :
  cstate U pid H pend s -> blk ∈ U -> 0 <= blk < disksize s ->
  (forall k v, k ∈ H -> bv s k = Some v -> v_blk v <> blk) ->
  C (disk s) -> (forall k s' v, has_read U pid H pend s blk k s' v -> Q k s') ->
  exec C Q (bread 1 blk s).
Proof.
  intros Hcs HbU Hr Hf HC HQ.
  destruct (bread_ok Hturns U HU pid H pend s blk) as [Ho | (k & s' & v & -> & Hk)]; try done.
  - by eapply exec_off.
  - by eapply HQ.
Qed.

End Steps.

Section Copy.
Context {dk : Disk} {dspec : DiskSpec} (U : list Z) (pid : Z).

(** Copying one locked buffer to another, on to the disk, and unlocking both. *)
Definition copy_out (src dst : nat) : M unit :=
  d <- bdata src ;; set_bdata dst d ;; bwrite dst ;; brelse src ;; brelse dst.

Lemma copy_out_exec C Q H pend s src dst v w :
  cstate U pid H pend s -> bv s src = Some v -> bv s dst = Some w -> src <> dst ->
  H = [src; dst] \/ H = [dst; src] ->
  at_rest (disk s) pend v -> at_rest (disk s) pend w -> 0 <= v_blk w < disksize s ->
  C (disk s) ->
  (forall s', cstate U pid [] (fupd pend (v_blk w) None) s' ->
     disk s' = fupd (disk s) (v_blk w) (v_data v) -> same_world s s' -> Q tt s') ->
  exec C Q (copy_out src dst s).
Proof.
  intros Hcs Hv Hw Hne HH Hrv Hrw Hr HC HQ. unfold copy_out, bdata.
  unfold bv in Hv, Hw. apply fmap_Some in Hv as (bs & Hbs & ->). apply fmap_Some in Hw as (bd & Hbd & ->).
  assert (Hs : src ∈ H /\ dst ∈ H) by (destruct HH as [-> | ->]; set_solver). destruct Hs as [Hsrc Hdst].
  destruct (held_ready _ _ _ _ _ _ _ Hcs Hsrc Hbs) as (Hls & _ & Hds & _).
  destruct (held_ready _ _ _ _ _ _ _ Hcs Hdst Hbd) as (Hld & _ & Hdd & _).
  assert (Hblk : b_blockno bs <> b_blockno bd).
  { intros E. apply Hne. by eapply (cs_uniq _ _ _ _ _ Hcs src dst (vw bs) (vw bd)); try apply bv_lookup. }
  rewrite bind_assoc, (bind_ok _ _ _ _ _ (getb_ok s src bs Hbs)), bind_ret.
  destruct (set_bdata_ok U pid H pend s dst bd (b_data bs) Hcs Hdst Hbd)
    as (s1 & E1 & Hcs1 & Ebc1 & Edk1 & [Eds1 Elg1 Eic1]).
  rewrite (bind_ok _ _ _ _ _ E1).
  assert (Hl : (dst < length (bcache s))%nat) by (by eapply lookup_lt_Some).
  apply exec_bind.
  destruct (bwrite_ok U pid H pend s1 dst {| bd with b_data := b_data bs |}) as
    [Ho | (s2 & -> & Hcs2 & Ebc2 & Edk2 & [Eds2 Elg2 Eic2])]; try done.
  { rewrite Ebc1. by apply list_lookup_insert_eq. }
  { simpl. by rewrite Eds1. }
  { simpl. destruct (Hrw Hdd) as [(E & _) | (E & _)]; auto. }
  { eapply exec_off; [done | by rewrite Edk1]. }
  cbn [exec]. cbn in Edk2, Hcs2. set (bd' := {| bd with b_flags := B_VALID; b_data := b_data bs |}).
  rewrite Ebc1, list_insert_insert_eq in Ebc2. rewrite Edk1 in Edk2.
  destruct (brelse_ok U pid H _ s2 src bs Hcs2 Hsrc) as (s3 & E3 & Hcs3 & Edk3 & [Eds3 Elg3 Eic3] & Hv3).
  { by rewrite Ebc2, list_lookup_insert_ne. }
  { intros Hd. simpl. rewrite Edk2, !fupd_ne by done. by apply Hrv. }
  rewrite (bind_ok _ _ _ _ _ E3). clear E3.
  assert (Hb3 : bv s3 dst = Some (vw bd')).
  { rewrite Hv3 by done. apply bv_lookup. rewrite Ebc2. by apply list_lookup_insert_eq. }
  unfold bv in Hb3. apply fmap_Some in Hb3 as (b3 & Hb3 & Evw).
  destruct (brelse_ok U pid (filter (.≠ src) H) _ s3 dst b3 Hcs3) as (s4 & -> & Hcs4 & Edk4 & [Eds4 Elg4 Eic4] & _).
  { apply list_elem_of_filter. done. }
  { done. }
  { rewrite <- Evw. intros _. left. simpl. rewrite Edk3, Edk2, !fupd_eq. done. }
  apply HQ; [| by rewrite Edk4, Edk3 | split; congruence].
  replace (filter (.≠ dst) (filter (.≠ src) H)) with (@nil nat) in Hcs4; [done |].
  destruct HH as [-> | ->]; rewrite !filter_cons; repeat case_decide; rewrite ?filter_cons;
    repeat case_decide; try done; naive_solver.
Qed.
End Copy.

(** ** The log on disk *)

(** Writing blocks one after the other. *)
Definition apply_all (d : Z -> list Z) (ups : list (Z * list Z)) : Z -> list Z :=
  foldl (fun d u => fupd d u.1 u.2) d ups.

Lemma apply_all_notin d ups x : (x ∉ ups.*1) -> apply_all d ups x = d x.
Proof.
  revert d. induction ups as [| [b v] ups IH]; intros d; [done |]. simpl.
  intros [Hx Hn]%not_elem_of_cons. unfold apply_all in *. simpl. rewrite IH by done. by apply fupd_ne.
Qed.

Lemma apply_all_in d ups x v : NoDup ups.*1 -> (x, v) ∈ ups -> apply_all d ups x = v.
Proof.
  revert d. induction ups as [| [b w] ups IH]; intros d Hnd Hin; [by apply elem_of_nil in Hin |].
  simpl in Hnd. apply NoDup_cons in Hnd as [Hb Hnd]. unfold apply_all in *. simpl.
  apply elem_of_cons in Hin as [[= -> ->] | Hin]; [| by apply IH].
  change (apply_all (fupd d b w) ups b = w). rewrite apply_all_notin by done. apply fupd_eq.
Qed.

Section Format.
Context (st : Z).

(** The header on disk: the number of logged blocks and their home addresses. *)
Definition hdr_n (d : Z -> list Z) : Z := i32 (lget32 (d st) 0).
Definition hdr_block (d : Z -> list Z) (i : Z) : Z := lget32 (d st) (4 + 4 * i).

(** What recovery makes of a disk, but for the header: the logged blocks copied home. *)
Definition replay (d : Z -> list Z) : Z -> list Z :=
  apply_all d ((fun i => (hdr_block d i, d (st + 1 + i))) <$> upto (hdr_n d)).

(** The header block with a list of home addresses written into it. *)
Definition put_blocks (bs : list Z) (h : list Z) (k : nat) : list Z :=
  foldl (fun h i => lset32 h (4 + 4 * i) (bs !!! Z.to_nat i)) h (seqZ 0 (Z.of_nat k)).
Definition encode (h : list Z) (bs : list Z) : list Z :=
  put_blocks bs (lset32 h 0 (Z.of_nat (length bs))) (length bs).

Lemma put_blocks_S bs h k :
  put_blocks bs h (S k) = lset32 (put_blocks bs h k) (4 + 4 * Z.of_nat k) (bs !!! k).
Proof.
  unfold put_blocks. replace (Z.of_nat (S k)) with (Z.of_nat k + 1) by lia.
  rewrite seqZ_app, foldl_app, Z.add_0_l, (seqZ_cons (Z.of_nat k) 1) by lia.
  change (seqZ _ (Z.pred 1)) with (@nil Z). cbn [foldl]. by rewrite Nat2Z.id.
Qed.

Lemma put_blocks_length bs h k : length (put_blocks bs h k) = length h.
Proof. induction k as [| k IH]; [done |]. by rewrite put_blocks_S, length_lset32. Qed.

Lemma put_blocks_ne bs h k off :
  0 <= off -> off + 4 <= 4 \/ 4 + 4 * Z.of_nat k <= off -> lget32 (put_blocks bs h k) off = lget32 h off.
Proof.
  intros Hoff. induction k as [| k IH]; intros Hd; [done |].
  rewrite put_blocks_S, lget32_lset32_ne by lia. apply IH. lia.
Qed.

Lemma put_blocks_eq bs h k i :
  (i < k)%nat -> 4 + 4 * Z.of_nat k <= Z.of_nat (length h) ->
  lget32 (put_blocks bs h k) (4 + 4 * Z.of_nat i) = u32 (bs !!! i).
Proof.
  induction k as [| k IH]; intros Hi Hl; [lia |]. rewrite put_blocks_S.
  destruct (decide (i = k)) as [-> | Hne].
  - rewrite lget32_lset32; [done | lia | rewrite put_blocks_length; lia].
  - rewrite lget32_lset32_ne by lia. apply IH; lia.
Qed.

Lemma encode_length h bs : length (encode h bs) = length h.
Proof. unfold encode. by rewrite put_blocks_length, length_lset32. Qed.

Lemma encode_n h bs :
  4 <= Z.of_nat (length h) -> lget32 (encode h bs) 0 = u32 (Z.of_nat (length bs)).
Proof. intros Hl. unfold encode. rewrite put_blocks_ne by lia. apply lget32_lset32; lia. Qed.

Lemma encode_block h bs i :
  (i < length bs)%nat -> 4 + 4 * Z.of_nat (length bs) <= Z.of_nat (length h) ->
  lget32 (encode h bs) (4 + 4 * Z.of_nat i) = u32 (bs !!! i).
Proof. intros Hi Hl. apply put_blocks_eq; [done | by rewrite length_lset32]. Qed.
End Format.

(** ** The operations of [log.c] *)

(** Bounds on block numbers, from the size of the disk. *)
Ltac by_world := repeat match goal with H : world _ = (_, _) |- _ => apply world_size in H end; lia.
Ltac same_world := unfold world in *; congruence.

Section Journal.
Context {turns : Turns} {dk : Disk} {dspec : DiskSpec} (Hturns : (0 < max_turns)%nat).
Context (pid st sz N : Z) (bs : list Z).

#[local] Abbreviation n := (Z.of_nat (length bs)).

(** The log occupies the [sz] blocks from [st] on; the logged blocks lie elsewhere. *)
Record layout : Prop := {
  ly_st : 0 <= st;
  ly_fit : n < sz <= LOGSIZE + 1;
  ly_end : st + sz <= N <= 2147483648;
  ly_home : Forall (fun b => 0 <= b < N /\ (b < st \/ st + sz <= b)) bs;
  ly_nodup : NoDup bs }.

(** The blocks a commit uses. *)
Definition used : list Z := st :: ((fun i => st + 1 + i) <$> upto n) ++ bs.

(** The in-memory header lists the blocks [hb]. *)
Record lists (hb : list Z) (l : logst) : Prop := {
  li_start : log_start l = st;
  li_dev : log_dev l = 1;
  li_n : lh_n (log_lh l) = Z.of_nat (length hb);
  li_blocks : take (length hb) (lh_block (log_lh l)) = hb }.

Context (Hly : layout) (U : list Z) (HU : NoDup U) (HsubU : forall x, x ∈ used -> x ∈ U).
Context (K : list inode * superblock * (nat -> sleeplock)).

Lemma home_range b : b ∈ bs -> 0 <= b < N /\ (b < st \/ st + sz <= b).
Proof. intros Hb. pose proof (ly_home Hly) as Hh. rewrite Forall_forall in Hh. by apply Hh. Qed.

Lemma used_log i : 0 <= i < n -> st + 1 + i ∈ used.
Proof.
  intros Hi. apply elem_of_cons. right. apply elem_of_app. left. apply list_elem_of_fmap.
  exists i. split; [done |]. unfold upto. apply elem_of_seqZ. lia.
Qed.

Lemma used_nodup : NoDup used.
Proof using Hly.
  clear Hturns.
  assert (Hin : forall x, x ∈ (fun i => st + 1 + i) <$> upto n -> st + 1 <= x < st + 1 + n).
  { intros x (i & -> & Hi)%list_elem_of_fmap. unfold upto in Hi. apply elem_of_seqZ in Hi. lia. }
  pose proof (ly_fit Hly). unfold used. apply NoDup_cons. split.
  - intros [Hx | Hx]%elem_of_app; [apply Hin in Hx; lia |]. apply home_range in Hx. lia.
  - apply NoDup_app. split_and!; [| | apply Hly].
    + apply NoDup_fmap_2; [intros ???; lia | apply NoDup_seqZ].
    + intros x Hx Hb. apply Hin in Hx. apply home_range in Hb. lia.
Qed.

Lemma lookup_block hb l i s :
  log s = l -> lists hb l -> 0 <= i < Z.of_nat (length hb) -> get_lh_block i s = Ok (hb !!! Z.to_nat i) s.
Proof.
  intros Hl Hli Hi. unfold get_lh_block. rewrite bind_gets, (proj2 (Z.ltb_ge _ _)), Hl by lia.
  destruct (lookup_lt_is_Some_2 hb (Z.to_nat i)) as [b Hb]; [lia |].
  rewrite (list_lookup_total_correct _ _ _ Hb). rewrite <- (li_blocks hb l Hli) in Hb at 1.
  apply lookup_take_Some in Hb as [Hb _]. by rewrite Hb.
Qed.

(** A locked header buffer with content [h]. *)
Record holds (pend : Z -> option (list Z)) (d : Z -> list Z) (l : logst) (k : nat) (h : list Z) (s : kstate) : Prop := {
  ho_state : cstate U pid [k] pend s;
  ho_view : bv s k = Some (BView B_VALID 1 st 1 h);
  ho_disk : disk s = d;
  ho_log : log s = l;
  ho_size : world s = (N, K) }.

Lemma holds_read pend s l k s' v :
  has_read U pid [] pend s st k s' v -> log s = l -> world s = (N, K) -> pend st = None ->
  holds pend (disk s) l k (disk s st) s'.
Proof.
  intros [_ Hcs Hv Hdv Hbl Hrest Hdk [Hsz Hlg Hkp] _] Hl Hn Hp. split; [done | | same_world ..].
  destruct (cs_held _ _ _ _ _ Hcs k ltac:(constructor)) as (w & Hw & _ & Hr1 & _). rewrite Hv in Hw. simplify_eq.
  destruct (Hrest Hdv) as [(Hfl & Hda & _) | (_ & Hp')]; [| congruence].
  rewrite Hv. destruct w. simpl in *. by subst.
Qed.

Lemma holds_set pend d l k h h' s :
  holds pend d l k h s -> exists s', set_bdata k h' s = Ok tt s' /\ holds pend d l k h' s'.
Proof.
  intros [Hcs Hv Hd Hl Hn]. unfold bv in Hv. apply fmap_Some in Hv as (b & Hb & Eb).
  destruct (set_bdata_ok U pid [k] pend s k b h') as (s' & E & Hcs' & Ebc & Edk & [Eds Elg Ekp]); try done.
  { constructor. }
  exists s'. split; [done |]. split; [done | | same_world ..]. unfold vw in Eb. injection Eb as E1 E2 E3 E4 E5.
  unfold bv. rewrite Ebc, list_lookup_insert_eq by (by eapply lookup_lt_Some). unfold vw. simpl. congruence.
Qed.

Lemma holds_data pend d l k h s : holds pend d l k h s -> bdata k s = Ok h s.
Proof.
  intros [_ Hv _ _ _]. unfold bv in Hv. apply fmap_Some in Hv as (b & Hb & Eb).
  unfold bdata. step by (by apply getb_ok). by injection Eb as ?????; subst.
Qed.

(** Writing the header buffer out and unlocking it. *)
Lemma holds_write C Q pend d l k h s :
  holds pend d l k h s -> pend st = None -> C d ->
  (forall s', cstate U pid [] pend s' -> disk s' = fupd d st h -> log s' = l -> world s' = (N, K) -> Q tt s') ->
  exec C Q ((bwrite k ;; brelse k) s).
Proof.
  intros [Hcs Hv Hd Hl Hn] Hp HC HQ. unfold bv in Hv. apply fmap_Some in Hv as (b & Hb & Eb).
  unfold vw in Eb. injection Eb as E1 E2 E3 E4 E5. pose proof Hly as [? ? ? _ _].
  assert (Hk : k ∈ [k]) by constructor. apply exec_bind.
  destruct (bwrite_ok U pid [k] pend s k b) as [Ho | (s1 & -> & Hcs1 & Ebc1 & Edk1 & [Eds1 Elg1 Eic1])]; try done.
  { by_world. }
  { auto. }
  { eapply exec_off; [done | by rewrite Hd]. }
  cbn [exec]. rewrite <- E3, (fupd_id pend) in Hcs1 by done.
  destruct (brelse_ok U pid [k] pend s1 k {| b with b_flags := B_VALID |} Hcs1 Hk)
    as (s2 & -> & Hcs2 & Edk2 & [Eds2 Elg2 Eic2] & _).
  { rewrite Ebc1. apply list_lookup_insert_eq. by eapply lookup_lt_Some. }
  { intros _. left. simpl. rewrite Edk1, <- E3, fupd_eq. done. }
  cbn [exec]. apply HQ; [| same_world ..].
  by rewrite (filter_cons_False (.≠ k)) in Hcs2 by naive_solver.
Qed.

Lemma write_head_exec C Q hb pend s l :
  cstate U pid [] pend s -> log s = l -> lists hb l -> world s = (N, K) -> pend st = None -> C (disk s) ->
  (forall s', cstate U pid [] pend s' -> disk s' = fupd (disk s) st (encode (disk s st) hb) ->
     log s' = l -> world s' = (N, K) -> Q tt s') ->
  exec C Q (write_head s).
Proof.
  intros Hcs Hl Hli Hds Hp HC HQ. unfold write_head.
  rewrite bind_gets, Hl, (li_dev hb l Hli), (li_start hb l Hli), (li_n hb l Hli). pose proof Hly as [? ? ? _ _].
  apply exec_bind. eapply (bread_exec Hturns U HU pid); [done | apply HsubU; constructor | by_world | | done |].
  { intros k v Hk. by apply elem_of_nil in Hk. }
  intros k s1 v Hread. assert (Ho : holds pend (disk s) l k (disk s st) s1) by (by eapply holds_read).
  rewrite (bind_ok _ _ _ _ _ (holds_data _ _ _ _ _ _ Ho)).
  destruct (holds_set _ _ _ _ _ (lset32 (disk s st) 0 (Z.of_nat (length hb))) _ Ho) as (s2 & E2 & Ho2).
  rewrite (bind_ok _ _ _ _ _ E2). apply exec_bind.
  eapply exec_mono; [| done |].
  - apply (exec_upto C (fun i => holds pend (disk s) l k
             (put_blocks hb (lset32 (disk s st) 0 (Z.of_nat (length hb))) (Z.to_nat i)))); [lia | done |].
    intros i t Hi Ht. rewrite (bind_ok _ _ _ _ _ (lookup_block hb l i t (ho_log _ _ _ _ _ _ Ht) Hli Hi)).
    rewrite (bind_ok _ _ _ _ _ (holds_data _ _ _ _ _ _ Ht)).
    destruct (holds_set _ _ _ _ _ (lset32 (put_blocks hb (lset32 (disk s st) 0 (Z.of_nat (length hb))) (Z.to_nat i)) (4 + 4 * i)
      (hb !!! Z.to_nat i)) _ Ht) as (t' & -> & Ht'). cbn [exec].
    replace (Z.to_nat (i + 1)) with (S (Z.to_nat i)) by lia.
    rewrite put_blocks_S. by rewrite Z2Nat.id by lia.
  - intros [] s3 Ho3. rewrite Nat2Z.id in Ho3. by eapply holds_write.
Qed.

(** *** Copying between the log and the home blocks *)

Lemma two_reads C Q (k : nat -> nat -> M unit) pend s l i :
  cstate U pid [] pend s -> log s = l -> lists bs l -> world s = (N, K) -> 0 <= i < n -> C (disk s) ->
  (forall k1 k2 s2 v1 v2, cstate U pid [k2; k1] pend s2 ->
     bv s2 k1 = Some v1 -> bv s2 k2 = Some v2 -> k1 <> k2 ->
     v_dev v1 = 1 -> v_dev v2 = 1 -> v_blk v1 = st + 1 + i -> v_blk v2 = bs !!! Z.to_nat i ->
     at_rest (disk s) pend v1 -> at_rest (disk s) pend v2 ->
     disk s2 = disk s -> log s2 = l -> world s2 = (N, K) -> exec C Q (k k1 k2 s2)) ->
  exec C Q ((l <- gets log ;;
             k1 <- bread (log_dev l) (u32 (log_start l + i + 1)) ;;
             b <- get_lh_block i ;;
             k2 <- bread (log_dev l) b ;;
             k k1 k2) s).
Proof.
  intros Hcs Hl Hli Hn Hi HC HK. pose proof Hly as [? ? ? _ _].
  rewrite bind_gets, Hl, (li_dev bs l Hli), (li_start bs l Hli), u32_small by (unfold is_u32; lia).
  replace (st + i + 1) with (st + 1 + i) by lia.
  apply exec_bind. eapply (bread_exec Hturns U HU pid); [done | by apply HsubU, used_log | by_world | | done |].
  { intros j v Hj. by apply elem_of_nil in Hj. }
  intros k1 s1 v1 [_ Hcs1 Hv1 Hdv1 Hb1 Hr1 Hd1 [Hz1 Hg1 Hi1] _].
  rewrite (bind_ok _ _ _ _ _ (lookup_block bs l i s1 ltac:(congruence) Hli Hi)).
  assert (Hbin : bs !!! Z.to_nat i ∈ bs) by (apply list_elem_of_lookup_total_2; lia).
  apply exec_bind. eapply (bread_exec Hturns U HU pid); [done | | | | by rewrite Hd1 |].
  - apply HsubU. unfold used. set_solver.
  - apply home_range in Hbin. by_world.
  - intros j v ->%list_elem_of_singleton Hv. rewrite Hv1 in Hv. simplify_eq. apply home_range in Hbin. lia.
  - intros k2 s2 v2 [Hf Hcs2 Hv2 Hdv2 Hb2 Hr2 Hd2 [Hz2 Hg2 Hi2] Ho2].
    rewrite Hd1 in Hr2. apply (HK k1 k2 s2 v1 v2); try done; try same_world.
    + rewrite Ho2; [done | constructor].
    + intros ->. apply Hf. constructor.
Qed.

Definition logs : list Z := (fun i => st + 1 + i) <$> upto n.

Lemma logs_lookup i : 0 <= i < n -> logs !! Z.to_nat i = Some (st + 1 + i).
Proof.
  intros Hi. unfold logs, upto. rewrite list_lookup_fmap, lookup_seqZ_lt by lia. simpl. f_equal. lia.
Qed.
Lemma logs_length : length logs = length bs.
Proof. unfold logs, upto. rewrite length_fmap, length_seqZ. lia. Qed.
Lemma logs_range x : x ∈ logs -> st < x <= st + n.
Proof. unfold logs, upto. intros (i & -> & Hi)%list_elem_of_fmap. apply elem_of_seqZ in Hi. lia. Qed.

Lemma apply_all_snoc d ups i b v :
  ups !! i = Some (b, v) -> apply_all d (take (S i) ups) = fupd (apply_all d (take i ups)) b v.
Proof. intros Hi. unfold apply_all. by rewrite (take_S_r _ _ _ Hi), foldl_app. Qed.

Context (ds : list (list Z)) (Hds : length ds = length bs).

Lemma zip_lookup (l : list Z) i :
  length l = length bs -> 0 <= i < n ->
  zip l ds !! Z.to_nat i = Some (l !!! Z.to_nat i, ds !!! Z.to_nat i).
Proof.
  intros Hl Hi. apply lookup_zip_with_Some. exists (l !!! Z.to_nat i), (ds !!! Z.to_nat i).
  split_and!; [done | apply list_lookup_lookup_total_lt; lia ..].
Qed.

(** [write_log] copies the pending updates into the log. *)
Lemma write_log_exec (C : (Z -> list Z) -> Prop) Q pend s l :
  cstate U pid [] pend s -> log s = l -> lists bs l -> world s = (N, K) ->
  (forall i, 0 <= i < n -> pend (bs !!! Z.to_nat i) = Some (ds !!! Z.to_nat i)) ->
  (forall x, pend x <> None -> x ∈ bs) ->
  (forall i, C (apply_all (disk s) (take i (zip logs ds)))) ->
  (forall s', cstate U pid [] pend s' -> disk s' = apply_all (disk s) (zip logs ds) ->
     log s' = l -> world s' = (N, K) -> Q tt s') ->
  exec C Q (write_log s).
Proof.
  intros Hcs Hl Hli Hn Hpend Hpin HC HQ. unfold write_log. rewrite bind_gets, Hl, (li_n bs l Hli).
  eapply exec_mono; [apply (exec_upto C (fun i t => cstate U pid [] pend t /\
      disk t = apply_all (disk s) (take (Z.to_nat i) (zip logs ds)) /\ log t = l /\ world t = (N, K))) | done |].
  - lia.
  - done.
  - intros i t Hi (Hct & Hdt & Hlt & Hnt).
    apply (two_reads C _ (fun to from => copy_out from to) pend t l i); try done; [by rewrite Hdt |].
    intros k1 k2 s2 v1 v2 Hcs2 Hv1 Hv2 Hne Hd1 Hd2 Hb1 Hb2 Hr1 Hr2 Hdk2 Hl2 Hn2.
    eapply (copy_out_exec U pid); [done | done | done | done | auto | by rewrite Hdk2 | by rewrite Hdk2 | | |].
    + rewrite Hb1. pose proof Hly as [? ? ? _ _]. by_world.
    + rewrite Hdk2, Hdt. apply HC.
    + intros s' Hcs' Hdk' [Hz' Hg' Hk']. rewrite Hb1, Hdk2, Hdt in Hdk'. rewrite Hb1, fupd_id in Hcs'.
      * split_and!; [done | | congruence | same_world].
        replace (Z.to_nat (i + 1)) with (S (Z.to_nat i)) by lia.
        rewrite (apply_all_snoc _ _ _ _ _ (zip_lookup logs i logs_length Hi)), Hdk'.
        rewrite (list_lookup_total_correct _ _ _ (logs_lookup i Hi)). f_equal.
        destruct (Hr2 Hd2) as [(_ & _ & Hp) | (_ & Hp)]; rewrite Hb2, Hpend in Hp by done; congruence.
      * destruct (pend (st + 1 + i)) eqn:E; [| done]. exfalso.
        assert (Hin : st + 1 + i ∈ bs) by (apply Hpin; congruence).
        apply home_range in Hin. pose proof Hly as [? ? ? _ _]. lia.
  - intros [] s' (Hcs' & Hd' & Hl' & Hn'). apply HQ; try done. rewrite Hd', Nat2Z.id, take_ge; [done |].
    rewrite length_zip_with, logs_length. lia.
Qed.

(** The updates still pending when the first [i] blocks are installed. *)
Definition pendi (pend : Z -> option (list Z)) (i : nat) (x : Z) : option (list Z) :=
  if decide (x ∈ take i bs) then None else pend x.

Lemma pendi_S pend i :
  0 <= i < n -> pendi pend (S (Z.to_nat i)) = fupd (pendi pend (Z.to_nat i)) (bs !!! Z.to_nat i) None.
Proof.
  intros Hi. apply functional_extensionality. intros x. unfold pendi, fupd.
  rewrite (take_S_r bs (Z.to_nat i) (bs !!! Z.to_nat i)) by (apply list_lookup_lookup_total_lt; lia).
  repeat case_decide; set_solver.
Qed.

Lemma pendi_all pend : (forall x, pend x <> None -> x ∈ bs) -> pendi pend (length bs) = fun _ => None.
Proof.
  intros Hp. apply functional_extensionality. intros x. unfold pendi. rewrite take_ge by lia.
  case_decide; [done |]. destruct (pend x) eqn:E; [| done]. exfalso. naive_solver.
Qed.

Lemma log_not_home i : 0 <= i < n -> st + 1 + i ∉ bs.
Proof. intros Hi Hin. apply home_range in Hin. pose proof Hly as [? ? ? _ _]. lia. Qed.

Lemma zip_take_fst (l : list Z) i x : x ∈ (take i (zip l ds)).*1 -> x ∈ l.
Proof.
  intros ([a b] & -> & Hin)%list_elem_of_fmap. apply elem_of_take in Hin as (j & Hj & _).
  apply lookup_zip_with_Some in Hj as (? & ? & [= -> ->] & Hl & _). by eapply list_elem_of_lookup_2.
Qed.

(** [install_trans] copies the log to the home blocks. *)
Lemma install_trans_exec (C : (Z -> list Z) -> Prop) Q pend s l :
  cstate U pid [] pend s -> log s = l -> lists bs l -> world s = (N, K) ->
  (forall i, 0 <= i < n -> disk s (st + 1 + i) = ds !!! Z.to_nat i) ->
  (forall x, pend x <> None -> x ∈ bs) ->
  (forall i, C (apply_all (disk s) (take i (zip bs ds)))) ->
  (forall s', cstate U pid [] (fun _ => None) s' -> disk s' = apply_all (disk s) (zip bs ds) ->
     log s' = l -> world s' = (N, K) -> Q tt s') ->
  exec C Q (install_trans s).
Proof.
  intros Hcs Hl Hli Hn Hlog Hpin HC HQ. unfold install_trans. rewrite bind_gets, Hl, (li_n bs l Hli).
  eapply exec_mono; [apply (exec_upto C (fun i t => cstate U pid [] (pendi pend (Z.to_nat i)) t /\
      disk t = apply_all (disk s) (take (Z.to_nat i) (zip bs ds)) /\ log t = l /\ world t = (N, K))) | done |].
  - lia.
  - by split_and!.
  - intros i t Hi (Hct & Hdt & Hlt & Hnt).
    apply (two_reads C _ (fun to from => copy_out to from) _ t l i Hct); try done; [by rewrite Hdt |].
    intros k1 k2 s2 v1 v2 Hcs2 Hv1 Hv2 Hne Hd1 Hd2 Hb1 Hb2 Hr1 Hr2 Hdk2 Hl2 Hn2.
    eapply (copy_out_exec U pid); [done | done | done | done | auto | by rewrite Hdk2 | by rewrite Hdk2 | | |].
    + rewrite Hb2, (world_size _ _ _ Hn2). apply home_range, list_elem_of_lookup_total_2. lia.
    + rewrite Hdk2, Hdt. apply HC.
    + intros s' Hcs' Hdk' [Hz' Hg' Hk']. rewrite Hb2, Hdk2, Hdt in Hdk'. rewrite Hb2 in Hcs'.
      replace (Z.to_nat (i + 1)) with (S (Z.to_nat i)) by lia. split_and!; [| | congruence | same_world].
      * by rewrite pendi_S.
      * rewrite (apply_all_snoc _ _ _ _ _ (zip_lookup bs i eq_refl Hi)), Hdk'. f_equal.
        rewrite <- Hlog by done. destruct (Hr1 Hd1) as [(_ & -> & _) | (_ & Hp)].
        -- rewrite Hb1, Hdt. apply apply_all_notin. intros Hx. by apply (log_not_home i Hi), (zip_take_fst _ _ _ Hx).
        -- rewrite Hb1 in Hp. exfalso. apply (log_not_home i Hi), Hpin. unfold pendi in Hp. case_decide; congruence.
  - intros [] s' (Hcs' & Hd' & Hl' & Hn'). apply HQ; try done.
    + rewrite Nat2Z.id in Hcs'. by rewrite pendi_all in Hcs'.
    + rewrite Hd', Nat2Z.id, take_ge; [done |]. rewrite length_zip_with. lia.
Qed.

(** *** The disk at the points where the power may fail *)

(** A block outside the log. *)
Definition outside (x : Z) : Prop := x < st \/ st + sz <= x.

Lemma replay_clean d : hdr_n st d = 0 -> replay st d = d.
Proof. unfold replay. by intros ->. Qed.

Lemma outside_log x : outside x -> x <> st /\ (x ∉ logs).
Proof.
  intros Hx. pose proof Hly as [? ? ? _ _]. split; [unfold outside in Hx; lia |].
  intros Hin%logs_range. unfold outside in Hx. lia.
Qed.

Lemma zip_fst (l : list Z) : length l = length bs -> (zip l ds).*1 = l.
Proof. intros Hl. apply fst_zip. lia. Qed.

(** A header that lists [bs] makes recovery write the logged blocks home. *)
Record decodes (d : Z -> list Z) : Prop := {
  de_n : hdr_n st d = n;
  de_block : forall i, 0 <= i < n -> hdr_block st d i = bs !!! Z.to_nat i }.

Lemma encode_decodes d h :
  d st = encode h bs -> 4 + 4 * n <= Z.of_nat (length h) -> decodes d.
Proof.
  intros Hst Hh. pose proof Hly as [? Hfit Hend _ _]. unfold LOGSIZE, MAXOPBLOCKS in Hfit. split.
  - unfold hdr_n. rewrite Hst, encode_n, i32_u32 by lia. apply i32_small. unfold is_i32. lia.
  - intros i Hi. unfold hdr_block. rewrite Hst. rewrite <- (Z2Nat.id i) at 1 by lia.
    rewrite encode_block by lia. apply u32_small.
    assert (Hin : bs !!! Z.to_nat i ∈ bs) by (apply list_elem_of_lookup_total_2; lia). apply home_range in Hin.
    unfold is_u32. lia.
Qed.

Lemma replay_full d :
  decodes d -> (forall i, 0 <= i < n -> d (st + 1 + i) = ds !!! Z.to_nat i) ->
  replay st d = apply_all d (zip bs ds).
Proof.
  intros [Hn Hblk] Hlog. unfold replay. rewrite Hn. f_equal. apply list_eq. intros j.
  rewrite list_lookup_fmap. unfold upto. destruct (decide (j < length bs)%nat) as [Hj | Hj].
  - rewrite lookup_seqZ_lt by lia. simpl. replace j with (Z.to_nat (Z.of_nat j)) at 3 by lia.
    rewrite zip_lookup, Z.add_0_l, Hblk, Hlog by (done || lia). done.
  - rewrite lookup_seqZ_ge by lia. symmetry. apply lookup_ge_None. rewrite length_zip_with. lia.
Qed.

Lemma apply_zip_in x : x ∈ bs -> exists v, forall d, apply_all d (zip bs ds) x = v.
Proof.
  intros [j Hj]%list_elem_of_lookup.
  destruct (lookup_lt_is_Some_2 ds j) as [v Hv]; [rewrite Hds; by eapply lookup_lt_Some |].
  exists v. intros d. apply apply_all_in; [rewrite zip_fst by done; apply Hly |].
  eapply list_elem_of_lookup_2, lookup_zip_with_Some. exists x, v. by split_and!.
Qed.

Lemma cstate_set_log H pend v s : cstate U pid H pend s -> cstate U pid H pend (set_log v s).
Proof.
  intros [Hc Hi Hh Hn Hu Hp (ord & F & V & Hr)]. split; try done; [by apply (calm_frame (set_log v)) |].
  by exists ord, F, V.
Qed.

(** Emptying the log, the last step of a commit and of recovery. *)
Lemma clear_exec (C : (Z -> list Z) -> Prop) (Q : unit -> kstate -> Prop) hb s l :
  cstate U pid [] (fun _ => None) s -> log s = l -> lists hb l -> world s = (N, K) ->
  (4 <= length (disk s st))%nat -> C (disk s) ->
  (forall s', cstate U pid [] (fun _ => None) s' -> log s' = set_lh_n 0 l -> world s' = (N, K) ->
     hdr_n st (disk s') = 0 -> length (disk s' st) = length (disk s st) ->
     (forall x, x <> st -> disk s' x = disk s x) -> Q tt s') ->
  exec C Q ((modlog (set_lh_n 0) ;; write_head) s).
Proof.
  intros Hcs Hl [Hst Hdv _ _] Hn Hlen4 HC HQ. unfold modlog. rewrite bind_modify.
  assert (Hli : lists [] (set_lh_n 0 (log s))) by (rewrite Hl; by split).
  eapply (write_head_exec _ _ []); [by apply cstate_set_log | done | done | done | done | done |].
  intros s' Hcs' Hd' Hl' Hn'. apply HQ; [done | by rewrite Hl', Hl | done | | by rewrite Hd', fupd_eq, encode_length |].
  - unfold hdr_n. rewrite Hd', fupd_eq, encode_n; [done |]. simpl. lia.
  - intros x Hx. rewrite Hd'. by apply fupd_ne.
Qed.

(** *** Recovery *)

Lemma holds_set_log pend d l k h s v : holds pend d l k h s -> holds pend d v k h (set_log v s).
Proof. intros [Hcs Hv Hd Hl Hn]. split; try done. by apply cstate_set_log. Qed.

Lemma holds_release pend d l k s :
  holds pend d l k (d st) s -> pend st = None ->
  exists s', brelse k s = Ok tt s' /\ cstate U pid [] pend s' /\ disk s' = d /\ log s' = l /\ world s' = (N, K).
Proof.
  intros [Hcs Hv Hd Hl Hn] Hp. unfold bv in Hv. apply fmap_Some in Hv as (b & Hb & Eb).
  unfold vw in Eb. injection Eb as E1 E2 E3 E4 E5.
  destruct (brelse_ok U pid [k] pend s k b Hcs) as (s' & E & Hcs' & Ed & [Ez Eg Ek] & _); [constructor | done | |].
  { intros _. left. simpl. rewrite <- E1, <- E3, <- E5, Hd. done. }
  exists s'. split; [done |]. split_and!; [| same_world ..].
  by rewrite (filter_cons_False (.≠ k)) in Hcs' by naive_solver.
Qed.

(** The in-memory header while [read_head] fills it. *)
Record filling (i : Z) (l : logst) : Prop := {
  fi_start : log_start l = st;
  fi_dev : log_dev l = 1;
  fi_n : lh_n (log_lh l) = n;
  fi_length : length (lh_block (log_lh l)) = Z.to_nat LOGSIZE;
  fi_blocks : take (Z.to_nat i) (lh_block (log_lh l)) = take (Z.to_nat i) bs }.

Lemma fill_block pend d k s l i v :
  holds pend d l k (d st) s -> filling i l -> 0 <= i < n -> v = bs !!! Z.to_nat i ->
  exists s' l', set_lh_block i v s = Ok tt s' /\ holds pend d l' k (d st) s' /\ filling (i + 1) l'.
Proof.
  intros Hh [Hst Hdv Hn Hl Hb] Hi ->. pose proof Hly as [? ? ? _ _].
  unfold set_lh_block, modlog. rewrite (proj2 (Z.ltb_ge i 0)), (proj2 (Z.leb_gt LOGSIZE i)) by lia.
  eexists _, _. split; [done |]. split; [by eapply holds_set_log |]. rewrite (ho_log _ _ _ _ _ _ Hh).
  split; try done; simpl; [by rewrite length_insert |].
  replace (Z.to_nat (i + 1)) with (S (Z.to_nat i)) by lia.
  rewrite (take_S_r bs _ (bs !!! Z.to_nat i)) by (apply list_lookup_lookup_total_lt; lia).
  rewrite (take_S_r _ _ (bs !!! Z.to_nat i)) by (apply list_lookup_insert_eq; unfold LOGSIZE in *; lia).
  by rewrite take_insert_ge, Hb by lia.
Qed.

Lemma read_head_exec (C : (Z -> list Z) -> Prop) Q s :
  cstate U pid [] (fun _ => None) s -> world s = (N, K) -> decodes (disk s) ->
  log_start (log s) = st -> log_dev (log s) = 1 -> length (lh_block (log_lh (log s))) = Z.to_nat LOGSIZE ->
  C (disk s) ->
  (forall s', cstate U pid [] (fun _ => None) s' -> disk s' = disk s -> lists bs (log s') ->
     world s' = (N, K) -> Q tt s') ->
  exec C Q (read_head s).
Proof.
  intros Hcs Hn Hde Hst Hdv Hll HC HQ. unfold read_head. rewrite bind_gets, Hdv, Hst.
  pose proof Hly as [? ? ? _ _]. apply exec_bind.
  eapply (bread_exec Hturns U HU pid); [done | apply HsubU; constructor | by_world | | done |].
  { intros k v Hk. by apply elem_of_nil in Hk. }
  intros k s1 v Hread. apply (holds_read _ _ (log s)) in Hread; [| done ..].
  rewrite (bind_ok _ _ _ _ _ (holds_data _ _ _ _ _ _ Hread)). unfold modlog. rewrite bind_modify.
  fold (hdr_n st (disk s)). rewrite (de_n _ Hde), (ho_log _ _ _ _ _ _ Hread). apply exec_bind.
  eapply exec_mono; [apply (exec_upto C (fun i t => exists l, holds (fun _ => None) (disk s) l k (disk s st) t /\
      filling i l)) | done |].
  - lia.
  - exists (set_lh_n n (log s)). split; [by eapply holds_set_log | by split].
  - intros i t Hi (l & Hh & Hf). fold (hdr_block st (disk s) i). rewrite (de_block _ Hde i Hi).
    destruct (fill_block _ _ _ _ _ _ _ Hh Hf Hi eq_refl) as (t' & l' & -> & Hh' & Hf'). by exists l'.
  - intros [] t (l & Hh & Hf). destruct (holds_release _ _ _ _ _ Hh eq_refl) as (t' & -> & Hc & Hd & Hl & Hz).
    cbn [exec]. apply HQ; try done. rewrite Hl. destruct Hf as [? ? ? ? Hb]. split; try done.
    rewrite Nat2Z.id in Hb. by rewrite Hb, take_ge by lia.
Qed.

Lemma installing d i :
  decodes d -> (forall j, 0 <= j < n -> d (st + 1 + j) = ds !!! Z.to_nat j) ->
  replay st (apply_all d (take i (zip bs ds))) = replay st d.
Proof.
  intros [Hn Hblk] Hlog. set (d' := apply_all d _). pose proof Hly as [? ? ? _ _].
  assert (Hst : d' st = d st) by (apply apply_all_notin; intros Hin%zip_take_fst%home_range; lia).
  rewrite (replay_full d), (replay_full d').
  - apply functional_extensionality. intros x. destruct (decide (x ∈ bs)) as [Hin | Hnin].
    + destruct (apply_zip_in x Hin) as [v Hv]. by rewrite !Hv.
    + rewrite !(apply_all_notin _ (zip bs ds)) by (by rewrite zip_fst).
      apply apply_all_notin. by intros Hin%zip_take_fst.
  - split; unfold hdr_n, hdr_block in *; by rewrite Hst.
  - intros j Hj. rewrite <- Hlog by done. apply apply_all_notin.
    intros Hin%zip_take_fst. by apply (log_not_home j Hj).
  - done.
  - done.
Qed.

Lemma recover_exec s d :
  cstate U pid [] (fun _ => None) s -> world s = (N, K) -> disk s = d -> decodes d ->
  log_start (log s) = st -> log_dev (log s) = 1 -> length (lh_block (log_lh (log s))) = Z.to_nat LOGSIZE ->
  (forall i, 0 <= i < n -> d (st + 1 + i) = ds !!! Z.to_nat i) -> (4 <= length (d st))%nat ->
  exec (fun d' => forall x, outside x -> replay st d' x = replay st d x)
    (fun _ s' => cstate U pid [] (fun _ => None) s' /\
       hdr_n st (disk s') = 0 /\ forall x, outside x -> disk s' x = replay st d x)
    (recover_from_log s).
Proof.
  intros Hcs Hn Hd Hde Hst Hdv Hll Hlog Hl4. unfold recover_from_log. subst d. pose proof Hly as [? ? ? _ _].
  apply exec_bind. eapply read_head_exec; try done. intros s1 Hcs1 Hd1 Hli1 Hn1.
  apply exec_bind. eapply (install_trans_exec _ _ (fun _ => None) s1); try done.
  { by rewrite Hd1. }
  { intros i x Hx. by rewrite Hd1, installing. }
  intros s2 Hcs2 Hd2 Hl2 Hn2. rewrite Hd1 in Hd2.
  assert (E2 : disk s2 = replay st (disk s)) by (by rewrite replay_full).
  assert (Hst2 : disk s2 st = disk s st)
    by (rewrite Hd2; apply apply_all_notin; rewrite zip_fst by done; intros Hin%home_range; lia).
  eapply (clear_exec _ _ bs s2); try done.
  - by rewrite Hst2.
  - intros x Hx. rewrite Hd2, <- (take_ge (zip bs ds) (length (zip bs ds))) by lia. by rewrite installing.
  - intros s3 Hcs3 Hl3 _ Hh3 _ Hd3. split_and!; try done. intros x Hx.
    destruct (outside_log x Hx) as [Hxs _]. by rewrite Hd3, E2.
Qed.

Context (d0 : Z -> list Z) (Hclean : hdr_n st d0 = 0) (Hlen : length (d0 st) = Z.to_nat BSIZE).

Lemma header_fits : 4 + 4 * n <= Z.of_nat (length (d0 st)).
Proof. pose proof Hly as [? Hfit ? _ _]. rewrite Hlen. unfold BSIZE, LOGSIZE, MAXOPBLOCKS in *. lia. Qed.

(** What the disk holds after the transaction. *)
Definition d1 : Z -> list Z := apply_all d0 (zip bs ds).

(** A disk from which recovery gives the old blocks, or the new ones. *)
Definition old_or_new (d : Z -> list Z) : Prop :=
  length (d st) = Z.to_nat BSIZE /\
  (hdr_n st d = 0 /\ (forall x, outside x -> d x = d0 x) \/
   decodes d /\ (forall x, outside x -> replay st d x = d1 x)).

(** Before the commit point it is the old ones, after it the new ones. *)
Lemma old_before i : old_or_new (apply_all d0 (take i (zip logs ds))).
Proof.
  assert (Hst : apply_all d0 (take i (zip logs ds)) st = d0 st).
  { apply apply_all_notin. intros Hin%zip_take_fst%logs_range. lia. }
  split; [by rewrite Hst |]. left. split; [unfold hdr_n; by rewrite Hst |].
  intros x Hx. apply apply_all_notin. intros Hin%zip_take_fst. by apply (outside_log x Hx).
Qed.

Lemma replay_after d x :
  d st = encode (d0 st) bs -> (forall i, 0 <= i < n -> d (st + 1 + i) = ds !!! Z.to_nat i) ->
  (forall x, outside x -> (x ∉ bs) -> d x = d0 x) -> outside x -> replay st d x = d1 x.
Proof.
  intros Hst Hlog Hother Hx. rewrite (replay_full d) by (done || by eapply encode_decodes, header_fits).
  unfold d1. destruct (decide (x ∈ bs)) as [Hin | Hnin].
  - destruct (apply_zip_in x Hin) as [v Hv]. by rewrite !Hv.
  - rewrite !apply_all_notin by (by rewrite zip_fst). by apply Hother.
Qed.

(** The disk once the header is written, and while the blocks are installed. *)
Definition dC : Z -> list Z := fupd (apply_all d0 (zip logs ds)) st (encode (d0 st) bs).

Lemma dC_installed i :
  let d := apply_all dC (take i (zip bs ds)) in
  d st = encode (d0 st) bs /\ (forall j, 0 <= j < n -> d (st + 1 + j) = ds !!! Z.to_nat j) /\
  (forall x, outside x -> (x ∉ bs) -> d x = d0 x).
Proof.
  pose proof Hly as [? ? ? _ _]. intros d. split_and!.
  - unfold d. rewrite apply_all_notin; [by apply fupd_eq |].
    intros Hin%zip_take_fst%home_range. lia.
  - intros j Hj. unfold d. rewrite apply_all_notin; [| intros Hin%zip_take_fst; by apply (log_not_home j Hj)].
    unfold dC. rewrite fupd_ne by lia. apply apply_all_in.
    + rewrite zip_fst by apply logs_length. unfold logs. apply NoDup_fmap_2; [intros ???; lia | apply NoDup_seqZ].
    + apply (list_elem_of_lookup_2 _ (Z.to_nat j)). rewrite (zip_lookup logs j logs_length Hj).
      by rewrite (list_lookup_total_correct _ _ _ (logs_lookup j Hj)).
  - intros x Hx Hb. destruct (outside_log x Hx) as [Hxs Hxl]. unfold d.
    rewrite apply_all_notin by (intros Hin%zip_take_fst; done). unfold dC. rewrite fupd_ne by done.
    apply apply_all_notin. by rewrite zip_fst by apply logs_length.
Qed.

Lemma dC_all x : outside x -> apply_all dC (zip bs ds) x = d1 x.
Proof.
  intros Hx. destruct (dC_installed 0) as (Hst & Hlog & Ho). simpl in Hst, Hlog, Ho.
  rewrite <- (replay_after dC x) by done. by rewrite (replay_full dC) by (done || by eapply encode_decodes, header_fits).
Qed.

Lemma new_after i : old_or_new (apply_all dC (take i (zip bs ds))).
Proof.
  destruct (dC_installed i) as (Hst & Hlog & Ho). split; [by rewrite Hst, encode_length |].
  right. split; [by eapply encode_decodes, header_fits |]. intros x Hx. by apply replay_after.
Qed.

Lemma set_lh_n_id l : lh_n (log_lh l) = 0 -> set_lh_n 0 l = l.
Proof. destruct l as [? ? ? ? ? [? ?]]. simpl. by intros ->. Qed.

Lemma commit_exec pend s l :
  cstate U pid [] pend s -> log s = l -> lists bs l -> world s = (N, K) -> disk s = d0 ->
  (forall i, 0 <= i < n -> pend (bs !!! Z.to_nat i) = Some (ds !!! Z.to_nat i)) ->
  (forall x, pend x <> None -> x ∈ bs) ->
  exec old_or_new
    (fun _ s' => cstate U pid [] (fun _ => None) s' /\ log s' = set_lh_n 0 l /\ world s' = (N, K) /\
       hdr_n st (disk s') = 0 /\ length (disk s' st) = Z.to_nat BSIZE /\ forall x, outside x -> disk s' x = d1 x)
    (commit s).
Proof.
  intros Hcs Hl Hli Hn Hd Hpend Hpin. pose proof Hly as [? Hfit Hend _ _].
  assert (Hpst : pend st = None).
  { destruct (pend st) eqn:E; [| done]. assert (Hin : st ∈ bs) by (apply Hpin; congruence).
    apply home_range in Hin. lia. }
  unfold commit. rewrite bind_gets, Hl, (li_n bs l Hli).
  destruct (Z.ltb_spec 0 n) as [Hpos | Hz]; cbn [when].
  2: { assert (Hnil : bs = []) by (apply nil_length_inv; lia). simpl. unfold d1. rewrite Hnil, Hd in *.
       split_and!; try done; [| by rewrite Hl, set_lh_n_id by apply (li_n [] l Hli)].
       replace (fun _ => None) with pend; [done |]. apply functional_extensionality. intros x.
       destruct (pend x) eqn:E; [| done]. exfalso. apply (not_elem_of_nil x), Hpin. congruence. }
  apply exec_bind. eapply write_log_exec; try done.
  { intros i. rewrite Hd. apply old_before. }
  intros s1 Hcs1 Hd1 Hl1 Hn1. rewrite Hd in Hd1.
  apply exec_bind. eapply (write_head_exec _ _ bs); try done.
  { rewrite Hd1, <- (take_ge (zip logs ds) (length (zip logs ds))) by lia. apply old_before. }
  intros s2 Hcs2 Hd2 Hl2 Hn2.
  assert (E2 : disk s2 = dC).
  { rewrite Hd2, Hd1. unfold dC. do 2 f_equal. apply apply_all_notin. rewrite zip_fst by apply logs_length.
    intros Hin%logs_range. lia. }
  clear Hd2. apply exec_bind. eapply install_trans_exec; try done.
  { intros i Hi. rewrite E2. by apply (dC_installed 0). }
  { intros i. rewrite E2. apply new_after. }
  intros s3 Hcs3 Hd3 Hl3 Hn3. rewrite E2 in Hd3.
  assert (Hst3 : disk s3 st = encode (d0 st) bs).
  { rewrite Hd3, <- (take_ge (zip bs ds) (length (zip bs ds))) by lia. apply dC_installed. }
  eapply clear_exec; try done.
  - pose proof header_fits. rewrite Hst3, encode_length. lia.
  - rewrite Hd3, <- (take_ge (zip bs ds) (length (zip bs ds))) by lia. apply new_after.
  - intros s4 Hcs4 Hl4 Hw4 Hh4 Hlen4 Hd4. split_and!; try done; [by rewrite Hlen4, Hst3, encode_length |]. intros x Hx. destruct (outside_log x Hx) as [Hxs _].
    rewrite Hd4, Hd3 by done. by apply dC_all.
Qed.
End Journal.
