(* ===== verification/Transaction.v ===== *)
(** Transactions on the log, end to end: the blocks a system call changes reach
    the disk all together or not at all, whenever the power fails. *)

From stdpp Require Import sets.
From S2P Require Import Prelude Params Mem Machine Spinlock Console Proc ProcSpec Sleeplock Ide.
From S2P Require Import Quiet Bio BioSpec Log LogSpec.
From Stdlib Require Import FunctionalExtensionality.

(** ** Adding to a transaction *)

Lemma log_index_in bs n x i :
  list_find (fun b => b = x) (take n bs) = Some (i, x) -> log_index bs n x = i.
Proof.
  revert n i. induction bs as [| b bs IH]; intros [| n] i; simpl; try done.
  destruct (decide (b = x)) as [-> | Hne].
  - rewrite Z.eqb_refl. by intros [= <-].
  - rewrite (proj2 (Z.eqb_neq _ _)) by done. intros ([j y] & Hj & [= -> <-])%fmap_Some. f_equal. by apply IH.
Qed.

Lemma log_index_out bs n x :
  x ∉ take n bs -> (n <= length bs)%nat -> log_index bs n x = n.
Proof.
  revert n. induction bs as [| b bs IH]; intros [| n]; simpl; try done; [lia |].
  intros [Hx Hin]%not_elem_of_cons Hl. rewrite (proj2 (Z.eqb_neq _ _)) by congruence. f_equal. apply IH; [done | lia].
Qed.

(** The list of logged blocks after [log_write]: a block already there is absorbed. *)
Definition absorb (bs : list Z) (x : Z) : list Z := if decide (x ∈ bs) then bs else bs ++ [x].

Lemma set_log_log v w s : set_log v (set_log w s) = set_log v s.
Proof. by destruct s. Qed.

Section Logging.
Context (U : list Z) (pid st : Z).

(** The update of the in-memory header. *)
Lemma enlist t l bs x :
  log t = l -> lists st bs l -> length (lh_block (log_lh l)) = Z.to_nat LOGSIZE ->
  Z.of_nat (length bs) < LOGSIZE ->
  let j := Z.of_nat (log_index (lh_block (log_lh l)) (Z.to_nat (lh_n (log_lh l))) x) in
  exists l', (set_lh_block j x ;; when (j =? lh_n (log_lh l)) (modlog (set_lh_n (lh_n (log_lh l) + 1)))) t
      = Ok tt (set_log l' t) /\
    lists st (absorb bs x) l' /\ length (lh_block (log_lh l')) = Z.to_nat LOGSIZE /\
    log_size l' = log_size l /\ log_outstanding l' = log_outstanding l /\ log_committing l' = log_committing l.
Proof.
  intros Hl [Hst Hdv Hn Hbl] Hll Hfit. cbv zeta. rewrite Hn, Nat2Z.id. unfold absorb.
  set (j := Z.of_nat (log_index _ _ x)).
  destruct (decide (x ∈ bs)) as [Hin | Hnin].
  - destruct (list_find_elem_of (fun b => b = x) bs x Hin eq_refl) as [[i y] Hi].
    pose proof Hi as (Hlk & -> & _)%list_find_Some. pose proof (lookup_lt_Some _ _ _ Hlk) as Hlt.
    assert (Ej : j = Z.of_nat i).
    { unfold j. f_equal. apply log_index_in. by rewrite Hbl. }
    assert (Hlx : lh_block (log_lh l) !! i = Some x) by (rewrite <- Hbl in Hlk; by apply lookup_take_Some in Hlk as [? _]).
    rewrite Ej. unfold set_lh_block. rewrite (proj2 (Z.ltb_ge _ _)), (proj2 (Z.leb_gt _ _)) by lia. cbn [orb].
    rewrite (proj2 (Z.eqb_neq _ _)) by lia. cbn [when]. unfold modlog. rewrite bind_modify, Hl, Nat2Z.id.
    eexists. split; [done |]. rewrite list_insert_id by done. split_and!; try done.
  - assert (Ej : j = Z.of_nat (length bs)).
    { unfold j. f_equal. apply log_index_out; [by rewrite Hbl |]. rewrite Hll. unfold LOGSIZE in *. lia. }
    rewrite Ej. unfold set_lh_block. rewrite (proj2 (Z.ltb_ge _ _)), (proj2 (Z.leb_gt _ _)) by lia. cbn [orb].
    rewrite Z.eqb_refl. cbn [when]. unfold modlog. rewrite bind_modify. unfold modify. simpl.
    rewrite set_log_log, Hl, Nat2Z.id. eexists. split; [done |]. split_and!; try done; simpl; [| by rewrite length_insert].
    split; try done; simpl; rewrite length_app; simpl; [lia |].
    rewrite Nat.add_1_r. rewrite (take_S_r _ _ x) by (apply list_lookup_insert_eq; unfold LOGSIZE in *; lia).
    by rewrite take_insert_ge, Hbl by lia.
Qed.

Lemma log_write_ok H pend s k b bs :
  cstate U pid H pend s -> k ∈ H -> bcache s !! k = Some b ->
  lists st bs (log s) -> length (lh_block (log_lh (log s))) = Z.to_nat LOGSIZE ->
  Z.of_nat (length bs) < LOGSIZE -> Z.of_nat (length bs) < log_size (log s) - 1 ->
  1 <= log_outstanding (log s) ->
  exists s', log_write k s = Ok tt s' /\
    cstate U pid H (fupd pend (b_blockno b) (Some (b_data b))) s' /\
    bcache s' = <[k := {| b with b_flags := Z.lor (b_flags b) B_DIRTY |}]> (bcache s) /\
    disk s' = disk s /\ disksize s' = disksize s /\ kept s' = kept s /\
    lists st (absorb bs (b_blockno b)) (log s') /\
    length (lh_block (log_lh (log s'))) = Z.to_nat LOGSIZE /\
    log_size (log s') = log_size (log s) /\ log_outstanding (log s') = log_outstanding (log s) /\
    log_committing (log s') = log_committing (log s).
Proof.
  intros Hcs Hk Hb [Hst Hdv Hn Hbl] Hll Hfit Hsz Hout. unfold log_write.
  rewrite bind_gets, Hn, (proj2 (Z.leb_gt _ _)), (proj2 (Z.leb_gt _ _)), (proj2 (Z.ltb_ge _ _)) by lia. cbn [orb].
  pose proof (cs_calm _ _ _ _ _ Hcs) as [(i & c & p & q & Hr & _) Hf].
  step by (apply acquire_ok; [exact Hr | apply Hf]). step by (apply getb_ok; exact Hb).
  rewrite bind_gets. set (t := locked_by i c LkLog s).
  destruct (enlist t (log s) bs (b_blockno b)) as (l' & El & Hli' & Hll' & Hsz' & Hout' & Hcm'); try done.
  cbv zeta. change (log t) with (log s). rewrite <- bind_assoc, (bind_ok _ _ _ _ _ El).
  step by (apply modb_ok; exact Hb). change (bcache (set_log l' t)) with (bcache s).
  eexists. split; [exact (release_after (fun s => set_bcache _ (set_log l' s)) s i c LkLog Hr (Hf _)) |].
  destruct (same_store_touch s) as [[Ebc Edk Eds Elg Eic] Esl].
  split_and!; try done; [| apply kept_eq; [done | intros; simpl; by rewrite Esl]].
  eapply (cstate_held U pid H pend _ s k b); try done.
  - apply (calm_frame (fun s => set_bcache _ (set_log l' s))); [done | apply calm_touch, Hcs].
  - intros x Hx. simpl. by rewrite Edk, fupd_ne.
Qed.
End Logging.

(** ** Transactions *)

(** Changing one block, as the file system does inside a system call. *)
Definition update_block `{Turns} `{Disk} (blk : Z) (f : list Z -> list Z) : M unit :=
  bp <- bread 1 blk ;; d <- bdata bp ;; set_bdata bp (f d) ;; log_write bp ;; brelse bp.

Definition transaction `{Turns} `{Disk} (ups : list (Z * (list Z -> list Z))) : M unit :=
  forM ups (fun u => update_block u.1 u.2) ;; commit.

(** What it means for the disk: the blocks changed, in order. *)
Definition effect (d : Z -> list Z) (ups : list (Z * (list Z -> list Z))) : Z -> list Z :=
  foldl (fun d u => fupd d u.1 (u.2 (d u.1))) d ups.
Definition touched (ups : list (Z * (list Z -> list Z))) : list Z := foldl (fun bs u => absorb bs u.1) [] ups.

Lemma absorb_length bs x : (length (absorb bs x) <= S (length bs))%nat.
Proof. unfold absorb. case_decide; [lia | rewrite length_app; simpl; lia]. Qed.

Lemma absorb_elem bs x y : y ∈ absorb bs x <-> y ∈ bs \/ y = x.
Proof. unfold absorb. case_decide; set_solver. Qed.
Lemma absorb_nodup bs x : NoDup bs -> NoDup (absorb bs x).
Proof.
  intros Hnd. unfold absorb. case_decide; [done |]. apply NoDup_app. split_and!; [done | set_solver | apply NoDup_singleton].
Qed.
Lemma touched_snoc ups u : touched (ups ++ [u]) = absorb (touched ups) u.1.
Proof. unfold touched. by rewrite foldl_app. Qed.
Lemma effect_snoc d ups u : effect d (ups ++ [u]) = fupd (effect d ups) u.1 (u.2 (effect d ups u.1)).
Proof. unfold effect. by rewrite foldl_app. Qed.

Lemma touched_nodup ups : NoDup (touched ups).
Proof. induction ups as [| u ups IH] using rev_ind; [constructor |]. rewrite touched_snoc. by apply absorb_nodup. Qed.

Lemma effect_untouched d ups x : (x ∉ touched ups) -> effect d ups x = d x.
Proof.
  induction ups as [| u ups IH] using rev_ind; [done |]. rewrite touched_snoc, absorb_elem, effect_snoc.
  intros Hx. rewrite fupd_ne by naive_solver. apply IH. naive_solver.
Qed.

Lemma touched_length ups ups' : (length (touched ups) <= length (touched (ups ++ ups')))%nat.
Proof.
  induction ups' as [| u ups' IH] using rev_ind; [by rewrite app_nil_r |].
  rewrite app_assoc, touched_snoc. unfold absorb. case_decide; [done |]. rewrite length_app. lia.
Qed.

Lemma touched_mem ups u ups' : u.1 ∈ touched (ups ++ u :: ups').
Proof.
  induction ups' as [| v ups' IH] using rev_ind; [rewrite touched_snoc, absorb_elem; by right |].
  rewrite app_comm_cons, app_assoc, touched_snoc, absorb_elem. by left.
Qed.

(** The updates made so far, not yet written. *)
Definition pending (d : Z -> list Z) (ups : list (Z * (list Z -> list Z))) (x : Z) : option (list Z) :=
  if decide (x ∈ touched ups) then Some (effect d ups x) else None.

Lemma pending_snoc d ups u :
  pending d (ups ++ [u]) = fupd (pending d ups) u.1 (Some (u.2 (effect d ups u.1))).
Proof.
  apply functional_extensionality. intros x. unfold pending. rewrite touched_snoc, effect_snoc.
  destruct (decide (x = u.1)) as [-> | Hne].
  - rewrite decide_True by (apply absorb_elem; by right). by rewrite !fupd_eq.
  - rewrite !fupd_ne by done. unfold pending.
    destruct (decide (x ∈ touched ups)) as [Hin | Hnin].
    + by rewrite decide_True by (apply absorb_elem; by left).
    + rewrite decide_False; [done |]. rewrite absorb_elem. naive_solver.
Qed.

Lemma exec_forM {I} C (P : list I -> kstate -> Prop) (body : I -> M unit) l s :
  P [] s ->
  (forall l1 u l2 s, l = l1 ++ u :: l2 -> P l1 s -> exec C (fun _ s' => P (l1 ++ [u]) s') (body u s)) ->
  exec C (fun _ s' => P l s') (forM l body s).
Proof.
  intros HP Hbody.
  assert (Hgen : forall l2 l1 s, l = l1 ++ l2 -> P l1 s -> exec C (fun _ s' => P l s') (forM l2 body s)).
  { clear s HP. induction l2 as [| u l2 IH]; intros l1 s Hl HP.
    - rewrite app_nil_r in Hl. by subst.
    - cbn [forM]. apply exec_bind. eapply exec_mono; [by eapply Hbody | done |]. intros [] s' HP'.
      apply (IH (l1 ++ [u])); [by rewrite <- app_assoc | done]. }
  by apply (Hgen l []).
Qed.

Section Run.
Context {turns : Turns} {dk : Disk} {dspec : DiskSpec} (Hturns : (0 < max_turns)%nat).
Context (pid st sz N : Z) (d0 : Z -> list Z) (all : list (Z * (list Z -> list Z))).
Context (Hly : layout st sz N (touched all)) (Hroom : Z.of_nat (length (touched all)) < sz - 1).

(** The log in the middle of a transaction that has logged [bs]. *)
Record open_log (bs : list Z) (l : logst) : Prop := {
  ol_lists : lists st bs l;
  ol_length : length (lh_block (log_lh l)) = Z.to_nat LOGSIZE;
  ol_size : log_size l = sz;
  ol_open : 1 <= log_outstanding l }.

Record in_tx (ups : list (Z * (list Z -> list Z))) (s : kstate) : Prop := {
  tx_state : cstate (used st (touched all)) pid [] (pending d0 ups) s;
  tx_log : open_log (touched ups) (log s);
  tx_disk : disk s = d0;
  tx_size : disksize s = N }.

Lemma update_block_exec (C : (Z -> list Z) -> Prop) ups u rest s :
  all = ups ++ u :: rest -> in_tx ups s -> C d0 ->
  exec C (fun _ s' => in_tx (ups ++ [u]) s') (update_block u.1 u.2 s).
Proof.
  intros Hall [Hcs [Hli Hll Hsz Hop] Hd Hn] HC. unfold update_block.
  assert (Hin : u.1 ∈ touched all) by (rewrite Hall; apply touched_mem).
  assert (Hfit : (length (touched ups) <= length (touched all))%nat) by (rewrite Hall; apply touched_length).
  pose proof (home_range st sz N (touched all) Hly _ Hin) as [Hr _]. pose proof Hly as [? ? ? _ _].
  apply exec_bind. eapply (bread_exec Hturns _ (used_nodup st sz N _ Hly) pid); [done | | lia | | by rewrite Hd |].
  { unfold used. set_solver. }
  { intros k v Hk. by apply elem_of_nil in Hk. }
  intros k s1 v [_ Hcs1 Hv Hdv Hb Hrest Hd1 [Hz1 Hg1 Hi1] _]. assert (Hk : k ∈ [k]) by constructor.
  unfold bv in Hv. apply fmap_Some in Hv as (b & Hbc & ->). simpl in Hdv, Hb.
  assert (Hdata : b_data b = effect d0 ups u.1).
  { destruct (Hrest Hdv) as [(_ & Hda & Hp) | (_ & Hp)]; simpl in *; rewrite Hb in *; unfold pending in Hp;
      case_decide as Ht; [done | | by simplify_eq | done]. by rewrite effect_untouched, <- Hd by done. }
  unfold bdata. rewrite bind_assoc, (bind_ok _ _ _ _ _ (getb_ok s1 k b Hbc)), bind_ret, Hdata.
  destruct (set_bdata_ok _ pid [k] _ s1 k b (u.2 (effect d0 ups u.1)) Hcs1 Hk Hbc)
    as (s2 & E2 & Hcs2 & Ebc2 & Edk2 & [Eds2 Elg2 Eic2]).
  rewrite (bind_ok _ _ _ _ _ E2). clear E2.
  assert (Hl1 : (k < length (bcache s1))%nat) by (by eapply lookup_lt_Some).
  destruct (log_write_ok _ pid st [k] _ s2 k {| b with b_data := u.2 (effect d0 ups u.1) |} (touched ups) Hcs2 Hk)
    as (s3 & E3 & Hcs3 & Ebc3 & Edk3 & Eds3 & _ & Hli3 & Hll3 & Hsz3 & Hop3 & _).
  { rewrite Ebc2. by apply list_lookup_insert_eq. }
  1-5: rewrite ?Elg2, ?Hg1; done || lia.
  rewrite (bind_ok _ _ _ _ _ E3). clear E3.
  simpl in Hcs3. rewrite Hb, <- pending_snoc in Hcs3. rewrite Ebc2, list_insert_insert_eq in Ebc3.
  set (b3 := {| b with b_flags := Z.lor (b_flags b) B_DIRTY; b_data := u.2 (effect d0 ups u.1) |}).
  destruct (brelse_ok _ pid [k] _ s3 k b3 Hcs3 Hk) as (s4 & -> & Hcs4 & Edk4 & [Eds4 Elg4 Eic4] & _).
  { rewrite Ebc3. by apply list_lookup_insert_eq. }
  { intros _. right. simpl. rewrite Hb, pending_snoc, fupd_eq. split; [| done].
    destruct (Hrest Hdv) as [(Ef & _) | (Ef & _)]; simpl in Ef; by rewrite Ef. }
  rewrite (filter_cons_False (.≠ k)) in Hcs4 by naive_solver.
  split; [done | | congruence | congruence]. rewrite touched_snoc, Elg4. simpl in Hli3. rewrite Hb in Hli3.
  split; [done | done | congruence | rewrite Hop3; congruence].
Qed.

(** The contents the transaction gives the blocks it touches. *)
Definition results : list (list Z) := effect d0 all <$> touched all.

Lemma results_effect x : d1 (touched all) results d0 x = effect d0 all x.
Proof.
  unfold d1, results. destruct (decide (x ∈ touched all)) as [Hin | Hnin].
  - apply apply_all_in; [rewrite fst_zip by (rewrite length_fmap; lia); apply touched_nodup |].
    apply list_elem_of_lookup in Hin as [j Hj]. eapply list_elem_of_lookup_2, lookup_zip_with_Some.
    exists x, (effect d0 all x). split_and!; [done | exact Hj |]. by rewrite list_lookup_fmap, Hj.
  - rewrite effect_untouched by done. apply apply_all_notin. by rewrite fst_zip by (rewrite length_fmap; lia).
Qed.

Lemma transaction_exec s :
  in_tx [] s -> hdr_n st d0 = 0 -> length (d0 st) = Z.to_nat BSIZE ->
  exec (old_or_new st sz (touched all) results d0)
    (fun _ s' => hdr_n st (disk s') = 0 /\ forall x, outside st sz x -> disk s' x = effect d0 all x)
    (transaction all s).
Proof.
  intros Htx Hclean Hlen. unfold transaction. apply exec_bind. eapply exec_mono.
  - apply (exec_forM (fun d => d = d0) in_tx); [done |]. intros l1 u l2 t Hall Ht.
    by eapply update_block_exec.
  - intros d ->. split; [done |]. by left.
  - intros [] t [Hcs [Hli _ _ _] Hd Hn]. eapply exec_mono;
      [eapply (commit_exec Hturns pid st sz N (touched all) Hly (used st (touched all)) (used_nodup st sz N _ Hly)
         (fun _ H => H) (kept t)); try done | done |].
    + unfold results. by rewrite length_fmap.
    + unfold world. by rewrite Hn.
    + intros i Hi. unfold pending, results.
      assert (Hin : touched all !!! Z.to_nat i ∈ touched all) by (apply list_elem_of_lookup_total_2; lia).
      rewrite decide_True by done. f_equal. symmetry. apply list_lookup_total_correct.
      by rewrite list_lookup_fmap, (list_lookup_lookup_total_lt (touched all)) by lia.
    + intros x. unfold pending. by case_decide.
    + intros [] s' (_ & Hl & _ & Hh & _ & Hx). split; [done |]. intros x Ho.
      by rewrite Hx, results_effect.
Qed.
End Run.

(** ** Crash and recovery *)

Lemma sublist_filter_length {A} (P : A -> Prop) `{forall x, Decision (P x)} (l1 l2 : list A) :
  sublist l1 l2 -> (length (filter P l1) <= length (filter P l2))%nat.
Proof. induction 1; rewrite ?filter_cons; repeat case_decide; simpl; lia. Qed.

(** Using fewer blocks needs less room. *)
Lemma cstate_weaken U U' pid H pend s : sublist U' U -> cstate U pid H pend s -> cstate U' pid H pend s.
Proof.
  intros Hsub [Hc Hi Hh Hn Hu Hp (ord & F & V & Hr & Hord & HV & Hle)]. split; try done.
  exists ord, F, V. split_and!; try done.
  - eapply Forall_impl; [exact HV |]. intros k (v & Hv & Hsp). exists v. split; [done |]. intros Hd.
    destruct (Hsp Hd) as [? Hnin]. split; [done |]. intros Hin. apply Hnin. by eapply elem_of_sublist.
  - etrans; [| exact Hle]. by apply sublist_filter_length.
Qed.

(** The machine after a restart: the cache is empty or clean, the log not read yet. *)
Record rebooted (pid st N : Z) (U : list Z) (d : Z -> list Z) (s : kstate) : Prop := {
  re_state : cstate U pid [] (fun _ => None) s;
  re_disk : disk s = d;
  re_size : disksize s = N;
  re_start : log_start (log s) = st;
  re_dev : log_dev (log s) = 1;
  re_length : length (lh_block (log_lh (log s))) = Z.to_nat LOGSIZE }.

Section Recover.
Context {turns : Turns} {dk : Disk} {dspec : DiskSpec} (Hturns : (0 < max_turns)%nat).
Context (pid st sz N : Z) (bs : list Z) (Hly : layout st sz N bs).

(** Recovery from a disk whose header lists [bs], and from one with an empty log. *)
Lemma recover_full d s :
  rebooted pid st N (used st bs) d s -> decodes st bs d -> length (d st) = Z.to_nat BSIZE ->
  exec (fun d' => forall x, outside st sz x -> replay st d' x = replay st d x)
    (fun _ s' => hdr_n st (disk s') = 0 /\ forall x, outside st sz x -> disk s' x = replay st d x)
    (recover_from_log s).
Proof.
  intros [Hcs Hd Hn Hst Hdv Hll] Hde Hlen.
  eapply exec_mono; [eapply (recover_exec Hturns pid st sz N bs Hly (used st bs) (used_nodup st sz N bs Hly) (fun _ H => H) (kept s)
    ((fun i => d (st + 1 + i)) <$> upto (Z.of_nat (length bs)))); try done | done |].
  - unfold upto. rewrite length_fmap, length_seqZ. lia.
  - unfold world. by rewrite Hn.
  - intros i Hi. symmetry. apply list_lookup_total_correct. unfold upto.
    rewrite list_lookup_fmap, lookup_seqZ_lt by lia. simpl. do 2 f_equal. lia.
  - rewrite Hlen. unfold BSIZE. lia.
  - by intros [] s' (_ & ? & ?).
Qed.
End Recover.

(** C5: transactions are atomic. Let a process that has opened a transaction
    change the blocks [all] through [bread], [log_write] and [brelse] and commit,
    and let the power fail before any disk transfer ([cut] is arbitrary). If the
    machine stays on, the disk outside the log then holds all the changes. If
    not, then recovery on the restarted machine, which may lose power again,
    makes the disk outside the log either what it was before the transaction or
    what it is with all its changes; and no execution panics or gets stuck. *)
Theorem transaction_atomic (turns : Turns) cut cut' img pid pid' st sz N d0 all s :
  (0 < max_turns)%nat ->
  layout st sz N (touched all) -> Z.of_nat (length (touched all)) < sz - 1 ->
  hdr_n st d0 = 0 -> length (d0 st) = Z.to_nat BSIZE ->
  in_tx pid st sz N d0 all [] s ->
  exec
    (fun d => forall s2, rebooted pid' st N (used st (touched all)) d s2 ->
       exec
         (fun d' => (forall x, outside st sz x -> replay st d' x = d0 x) \/
                    (forall x, outside st sz x -> replay st d' x = effect d0 all x))
         (fun _ s3 => hdr_n st (disk s3) = 0 /\
            ((forall x, outside st sz x -> disk s3 x = d0 x) \/
             (forall x, outside st sz x -> disk s3 x = effect d0 all x)))
         (@recover_from_log turns (cut_disk cut' (Memide.mem_disk img)) s2))
    (fun _ s1 => hdr_n st (disk s1) = 0 /\ forall x, outside st sz x -> disk s1 x = effect d0 all x)
    (@transaction turns (cut_disk cut (Memide.mem_disk img)) all s).
Proof.
  intros Ht Hly Hroom Hclean Hlen Htx.
  eapply exec_mono; [by eapply transaction_exec; try done; try apply _ | |].
  2: { by intros [] s1 []. }
  intros d [Hld [[Hh Hold] | [Hde Hnew]]] s2 Hre.
  - assert (Hly0 : layout st sz N []).
    { destruct Hly as [? ? ? _ _]. split; simpl; [done | lia | done | constructor | constructor]. }
    destruct Hre as [Hcs Hd Hn Hst Hdv Hll].
    eapply exec_mono; [eapply (recover_full Ht pid' st sz N [] Hly0 d s2); try done | |].
    + split; try done. eapply cstate_weaken; [| exact Hcs].
      unfold used. simpl. constructor. apply sublist_nil_l.
    + split; [done | simpl; lia].
    + intros d' Hd'. left. intros x Hx. by rewrite Hd', replay_clean, Hold.
    + intros [] s3 [Hh3 Hx3]. split; [done |]. left. intros x Hx. by rewrite Hx3, replay_clean, Hold.
  - eapply exec_mono; [by eapply (recover_full Ht pid' st sz N (touched all) Hly d s2) | |].
    + intros d' Hd'. right. intros x Hx. by rewrite Hd', Hnew, results_effect.
    + intros [] s3 [Hh3 Hx3]. split; [done |]. right. intros x Hx. by rewrite Hx3, Hnew, results_effect.
Qed.

(** ** The cache after boot *)

(** The buffers as [binit] links them: all free, the last one first. *)
Definition cold_buf (k : nat) : buf :=
  mkBuf 0 0 0 0 (S k) (match k with O => NBUF | S j => j end) None (replicate 512 0).
Definition cold_bufs : list buf :=
  (cold_buf <$> seq 0 NBUF) ++ [mkBuf 0 0 0 0 0 (NBUF - 1) None (replicate 512 0)].

Lemma binit_cold : match binit kstate0 with Ok _ s => bcache s = cold_bufs | _ => False end.
Proof. vm_compute. reflexivity. Qed.

Lemma cold_ring : ring cold_bufs (reverse (seq 0 NBUF)).
Proof.
  split; [vm_compute; reflexivity | by rewrite reverse_Permutation |].
  vm_compute. repeat split.
Qed.

Lemma cold_view s k v :
  bcache s = cold_bufs -> bv s k = Some v -> (k < NBUF)%nat -> v_ref v = 0 /\ v_dev v = 0.
Proof.
  intros E Hv Hk. unfold bv in Hv. rewrite E in Hv. unfold cold_bufs in Hv.
  rewrite lookup_app_l in Hv by (rewrite length_fmap, length_seq; lia).
  rewrite list_lookup_fmap, lookup_seq_lt in Hv by done. by simplify_eq/=.
Qed.

(** With the cache empty there is room for any [NBUF] blocks. *)
Lemma cold_cstate U pid s :
  calm pid s -> bcache s = cold_bufs -> (forall l, sl_locked (sleeplocks s l) = 0) ->
  (length U <= NBUF)%nat -> cstate U pid [] (fun _ => None) s.
Proof.
  intros Hc E Hl HU. split; try done.
  - intros k v Hv Hk _. destruct (cold_view s k v E Hv Hk) as [Hr Hd]. split_and!; [done | done |].
    intros Hd'. congruence.
  - intros k Hk. by apply elem_of_nil in Hk.
  - constructor.
  - intros j k v w Hj _ Hlj _ Hd. destruct (cold_view s j v E Hj Hlj). congruence.
  - exists (reverse (seq 0 NBUF)), [], (reverse (seq 0 NBUF)). split_and!.
    + rewrite E. apply cold_ring.
    + rewrite filter_all; [done |]. intros x _. apply not_elem_of_nil.
    + apply Forall_forall. intros k Hk. rewrite elem_of_reverse, elem_of_seq in Hk.
      assert (Hlt : (k < NBUF)%nat) by lia.
      destruct (ring_some _ _ k cold_ring) as [b Hb]; [rewrite elem_of_reverse, elem_of_seq; lia |].
      rewrite <- E in Hb. exists (vw b). split; [by apply bv_lookup |].
      intros Hd. destruct (cold_view s k (vw b) E (bv_lookup _ _ _ Hb) Hlt). congruence.
    + rewrite length_reverse, length_seq. etrans; [| exact HU]. apply length_filter.
Qed.

Definition two_blocks : list (Z * (list Z -> list Z)) :=
  [(100, fun d => <[0%nat := 7]> d); (101, fun d => <[1%nat := 9]> d)].
Definition tx_machine : kstate :=
  set_log (mkLog 2 30 1 0 1 (mkLogheader 0 (replicate (Z.to_nat LOGSIZE) 0)))
    (set_disksize 1000 (set_bcache cold_bufs
      (one_cpu {| cpu0 with c_proc := Some 0%nat |} [live RUNNING 7 0 10]))).

Lemma tx_machine_calm : calm 7 tx_machine.
Proof.
  apply (calm_frame (fun s => set_log _ (set_disksize _ (set_bcache _ s)))); [done |]. split.
  - eexists 0%nat, _, 0%nat, _. split_and!; [by apply one_cpu_runs | done | done | done].
  - by intros l.
Qed.

Lemma tx_machine_in_tx : in_tx 7 2 30 1000 (fun _ => replicate 512 0) two_blocks [] tx_machine.
Proof.
  split; [| by split | done | done].
  apply (cold_cstate _ 7); [apply tx_machine_calm | done | done | vm_compute; lia].
Qed.

Lemma transaction_atomic_witness :
  in_tx 7 2 30 1000 (fun _ => replicate 512 0) two_blocks [] tx_machine /\
  exec (fun _ => True) (fun _ s1 => disk s1 100 = <[0%nat := 7]> (replicate 512 0))
    (@transaction 1%nat (cut_disk (fun _ => false) (Memide.mem_disk 0)) two_blocks tx_machine).
Proof.
  split; [apply tx_machine_in_tx |].
  eapply exec_mono; [apply (transaction_atomic 1%nat (fun _ => false) (fun _ => false) 0 7 7 2 30 1000
    (fun _ => replicate 512 0) two_blocks tx_machine) | done |].
  - unfold max_turns. lia.
  - split; try (vm_compute; (lia || done)).
    + change (touched two_blocks) with [100; 101]. repeat (constructor; [lia |]). constructor.
    + apply touched_nodup.
  - vm_compute. reflexivity.
  - vm_compute. reflexivity.
  - vm_compute. reflexivity.
  - apply tx_machine_in_tx.
  - intros [] s1 [_ Hx]. rewrite Hx by (unfold outside; lia). reflexivity.
Defined.

(** ** A transaction that loses an update *)

(** Reading blocks within a transaction. *)
Definition read_blocks `{Turns} `{Disk} (bs : list Z) : M unit :=
  forM bs (fun blk => k <- bread 1 blk ;; brelse k).


(** ** Reserving log space *)

