(* ===== verification/Inode.v ===== *)
(** [fs.c], first half: disk blocks, the on-disk inodes and the inode cache. *)

From S2P Require Import Prelude Params Mem CString Machine Spinlock Console Proc ProcSpec.
From S2P Require Import Sleeplock Ide Bio Log.

Section Inode.
Context `{Turns} `{Disk}.

(** ** Blocks *)

Definition bzero (dev bno : Z) : M unit :=
  bp <- bread dev bno ;;
  set_bdata bp (replicate (Z.to_nat BSIZE) 0) ;;
  log_write bp ;;
  brelse bp.

(** The inner loop of [balloc]: the first block of the bitmap block [d], which
    describes the blocks from [b] on, that is free. *)
Definition bit_free (d : list Z) (bi : Z) : bool :=
  Z.land (lget8 d (bi / 8)) (Z.shiftl 1 (bi mod 8)) =? 0.
Definition free_bit (d : list Z) (b size : Z) : option Z :=
  snd <$> list_find (fun bi => (b + bi <? size) && bit_free d bi = true)%bool (seqZ 0 BPB).

(** The values of [b] in the outer loop. *)
Definition bitmap_starts (size : Z) : list Z := (fun k => k * BPB) <$> seqZ 0 ((size + BPB - 1) / BPB).

Definition balloc (dev : Z) : M Z :=
  sb <- gets sb ;;
  r <- for_ret (bitmap_starts (sb_size sb)) (fun b =>
    bp <- bread dev (BBLOCK b sb) ;;
    d <- bdata bp ;;
    match free_bit d b (sb_size sb) with
    | Some bi =>
        set_bdata bp (lset8 d (bi / 8) (Z.lor (lget8 d (bi / 8)) (Z.shiftl 1 (bi mod 8)))) ;;
        log_write bp ;;
        brelse bp ;;
        bzero dev (b + bi) ;;
        ret (Some (b + bi))
    | None => brelse bp ;; ret None
    end) ;;
  match r with Some b => ret b | None => panic "balloc: out of blocks" end.

Definition bfree (dev b : Z) : M unit :=
  sb <- gets sb ;;
  bp <- bread dev (BBLOCK b sb) ;;
  d <- bdata bp ;;
  let bi := b mod BPB in
  if bit_free d bi then panic "freeing free block"
  else
    set_bdata bp (lset8 d (bi / 8)
      (Z.land (lget8 d (bi / 8)) (Z.lnot (Z.shiftl 1 (bi mod 8))))) ;;
    log_write bp ;;
    brelse bp.

(** ** Inodes on disk *)

(** [struct dinode] number [inum % IPB] of an inode block. *)
Definition dinode_off (inum : Z) : Z := SIZEOF_DINODE * (inum mod IPB).
Definition get_dinode (d : list Z) (inum : Z) : dinode :=
  let o := dinode_off inum in
  mkDinode (i16 (lget16 d o)) (i16 (lget16 d (o + 2))) (i16 (lget16 d (o + 4)))
           (i16 (lget16 d (o + 6))) (lget32 d (o + 8))
           ((fun k => lget32 d (o + 12 + 4 * k)) <$> seqZ 0 (NDIRECT + 1)).
Definition put_dinode (d : list Z) (inum : Z) (di : dinode) : list Z :=
  let o := dinode_off inum in
  let d := lset16 d o (di_type di) in
  let d := lset16 d (o + 2) (di_major di) in
  let d := lset16 d (o + 4) (di_minor di) in
  let d := lset16 d (o + 6) (di_nlink di) in
  let d := lset32 d (o + 8) (di_size di) in
  foldl (fun d k => lset32 d (o + 12 + 4 * k) (default 0 (di_addrs di !! Z.to_nat k)))
        d (seqZ 0 (NDIRECT + 1)).

Definition dinode0 : dinode := mkDinode 0 0 0 0 0 (replicate (Z.to_nat (NDIRECT + 1)) 0).

Definition iinit (dev : Z) : M unit :=
  initlock LkIcache "icache" ;;
  forM (seq 0 NINODE) (fun i => initsleeplock (SlInode i) "inode") ;;
  sb <- readsb dev ;;
  modify (set_sb sb) ;;
  cprintf (str "sb: size %d nblocks %d ninodes %d nlog %d logstart %d inodestart %d bmap start %d" ++ [10])
    [VInt (sb_size sb); VInt (sb_nblocks sb); VInt (sb_ninodes sb); VInt (sb_nlog sb);
     VInt (sb_logstart sb); VInt (sb_inodestart sb); VInt (sb_bmapstart sb)].

(** ** The inode cache *)

Definition iget (dev inum : Z) : M nat :=
  acquire LkIcache ;;
  found <- gets (fun s =>
    list_find (fun ip => 0 < i_ref ip /\ i_dev ip = dev /\ i_inum ip = inum) (icache s)) ;;
  match found with
  | Some (i, _) =>
      modi i (fun ip => {| ip with i_ref := i_ref ip + 1 |}) ;;
      release LkIcache ;;
      ret i
  | None =>
      empty <- gets (fun s => list_find (fun ip => i_ref ip = 0) (icache s)) ;;
      match empty with
      | Some (i, _) =>
          modi i (fun ip => {| ip with i_dev := dev; i_inum := inum; i_ref := 1; i_valid := 0 |}) ;;
          release LkIcache ;;
          ret i
      | None => panic "iget: no inodes"
      end
  end.

Definition ialloc (dev type : Z) : M nat :=
  sb <- gets sb ;;
  r <- for_ret (seqZ 1 (sb_ninodes sb - 1)) (fun inum =>
    bp <- bread dev (IBLOCK inum sb) ;;
    d <- bdata bp ;;
    if di_type (get_dinode d inum) =? 0 then
      set_bdata bp (put_dinode d inum {| dinode0 with di_type := type |}) ;;
      log_write bp ;;
      brelse bp ;;
      i <- iget dev inum ;;
      ret (Some i)
    else brelse bp ;; ret None) ;;
  match r with Some i => ret i | None => panic "ialloc: no inodes" end.

Definition iupdate (i : nat) : M unit :=
  ip <- geti i ;;
  sb <- gets sb ;;
  bp <- bread (i_dev ip) (IBLOCK (i_inum ip) sb) ;;
  d <- bdata bp ;;
  set_bdata bp (put_dinode d (i_inum ip)
    (mkDinode (i_type ip) (i_major ip) (i_minor ip) (i_nlink ip) (i_size ip) (i_addrs ip))) ;;
  log_write bp ;;
  brelse bp.

Definition idup (i : nat) : M nat :=
  acquire LkIcache ;;
  modi i (fun ip => {| ip with i_ref := i_ref ip + 1 |}) ;;
  release LkIcache ;;
  ret i.

(** [ilock] and [iunlock]; callers of the model never pass a null inode. *)
Definition ilock (i : nat) : M unit :=
  ip <- geti i ;;
  if i_ref ip <? 1 then panic "ilock"
  else
    acquiresleep (SlInode i) ;;
    ip <- geti i ;;
    when (i_valid ip =? 0)
      (sb <- gets sb ;;
       bp <- bread (i_dev ip) (IBLOCK (i_inum ip) sb) ;;
       d <- bdata bp ;;
       let di := get_dinode d (i_inum ip) in
       modi i (fun ip => {| ip with i_type := di_type di; i_major := di_major di;
         i_minor := di_minor di; i_nlink := di_nlink di; i_size := di_size di;
         i_addrs := di_addrs di |}) ;;
       brelse bp ;;
       modi i (fun ip => {| ip with i_valid := 1 |}) ;;
       ip <- geti i ;;
       if i_type ip =? 0 then panic "ilock: no type" else ret tt).

Definition iunlock (i : nat) : M unit :=
  h <- holdingsleep (SlInode i) ;;
  ip <- geti i ;;
  if (negb h || (i_ref ip <? 1))%bool then panic "iunlock"
  else releasesleep (SlInode i).
End Inode.

(** ** Sizes *)

(** Words at [b], [b + 4], ... filled in one after the other. *)
Lemma lset32_all_length f (ks : list Z) b : forall d,
  length (foldl (fun d k => lset32 d (b + 4 * k) (f k)) d ks) = length d.
Proof. induction ks as [| k ks IH]; intros d; simpl; [done |]. by rewrite IH, length_lset32. Qed.

Lemma put_dinode_length d inum di : length (put_dinode d inum di) = length d.
Proof.
  unfold put_dinode. rewrite (lset32_all_length (fun k => default 0 (di_addrs di !! Z.to_nat k))).
  by rewrite length_lset32, !length_lset16.
Qed.
