(* ===== verification/ConsoleDev.v ===== *)
(** Console input and the console device: [kbd.c] with the tables of [kbd.h],
    the input half of [console.c], and the interrupt entry points of [uart.c]. *)

From S2P Require Import Prelude Params Mem CString Machine Spinlock Console Apic Proc ProcSpec.
From S2P Require Import Sleeplock Ide Bio Log Inode.

(** ** The keyboard *)

Abbreviation KBSTATP := (0x64) (only parsing).
Abbreviation KBS_DIB := (0x01) (only parsing).
Abbreviation KBDATAP := (0x60) (only parsing).
Abbreviation SHIFT := (1) (only parsing).
Abbreviation CTL := (2) (only parsing).
Abbreviation ALT := (4) (only parsing).
Abbreviation CAPSLOCK := (8) (only parsing).
Abbreviation NUMLOCK := (16) (only parsing).
Abbreviation SCROLLLOCK := (32) (only parsing).
Abbreviation E0ESC := (64) (only parsing).

(** A 256-entry [uchar] table: the leading entries, then designated ones. *)
Definition keymap (dense : list Z) (sparse : list (Z * Z)) : list Z :=
  foldl (fun t kv => <[Z.to_nat kv.1 := u8 kv.2]> t)
        ((u8 <$> dense) ++ replicate (256 - length dense) 0) sparse.

Definition shiftcode : list Z := keymap []
  [(0x1D, CTL); (0x2A, SHIFT); (0x36, SHIFT); (0x38, ALT); (0x9D, CTL); (0xB8, ALT)].
Definition togglecode : list Z := keymap [] [(0x3A, CAPSLOCK); (0x45, NUMLOCK); (0x46, SCROLLLOCK)].

Definition normalmap : list Z := keymap
   [ 0; 27; 49; 50; 51; 52; 53; 54; 55; 56; 57; 48; 45; 61; 8; 9;
     113; 119; 101; 114; 116; 121; 117; 105; 111; 112; 91; 93; 10; 0; 97; 115;
     100; 102; 103; 104; 106; 107; 108; 59; 39; 96; 0; 92; 122; 120; 99; 118;
     98; 110; 109; 44; 46; 47; 0; 42; 0; 32; 0; 0; 0; 0; 0; 0;
     0; 0; 0; 0; 0; 0; 0; 55; 56; 57; 45; 52; 53; 54; 43; 49;
     50; 51; 48; 46; 0; 0; 0; 0 ]
   [ (0x9C, 10); (0xB5, 47); (0xC8, 226); (0xD0, 227); (0xC9, 230); (0xD1, 231); (0xCB, 228);
     (0xCD, 229); (0x97, 224); (0xCF, 225); (0xD2, 232); (0xD3, 233) ].
Definition shiftmap : list Z := keymap
   [ 0; 27; 33; 64; 35; 36; 37; 94; 38; 42; 40; 41; 95; 43; 8; 9;
     81; 87; 69; 82; 84; 89; 85; 73; 79; 80; 123; 125; 10; 0; 65; 83;
     68; 70; 71; 72; 74; 75; 76; 58; 34; 126; 0; 124; 90; 88; 67; 86;
     66; 78; 77; 60; 62; 63; 0; 42; 0; 32; 0; 0; 0; 0; 0; 0;
     0; 0; 0; 0; 0; 0; 0; 55; 56; 57; 45; 52; 53; 54; 43; 49;
     50; 51; 48; 46; 0; 0; 0; 0 ]
   [ (0x9C, 10); (0xB5, 47); (0xC8, 226); (0xD0, 227); (0xC9, 230); (0xD1, 231); (0xCB, 228);
     (0xCD, 229); (0x97, 224); (0xCF, 225); (0xD2, 232); (0xD3, 233) ].
Definition ctlmap : list Z := keymap
   [ 0; 0; 0; 0; 0; 0; 0; 0; 0; 0; 0; 0; 0; 0; 0; 0;
     17; 23; 5; 18; 20; 25; 21; 9; 15; 16; 0; 0; 13; 0; 1; 19;
     4; 6; 7; 8; 10; 11; 12; 0; 0; 0; 0; 28; 26; 24; 3; 22;
     2; 14; 13; 0; 0; -17; 0; 0 ]
   [ (0x9C, 13); (0xB5, -17); (0xC8, 226); (0xD0, 227); (0xC9, 230); (0xD1, 231); (0xCB, 228);
     (0xCD, 229); (0x97, 224); (0xCF, 225); (0xD2, 232); (0xD3, 233) ].

Definition charcode (i : Z) : list Z :=
  if i =? 0 then normalmap else if i =? 1 then shiftmap else ctlmap.

Definition tbl (t : list Z) (i : Z) : Z := default 0 (t !! Z.to_nat i).

(** The state change of [kbdgetc] for a scan code: new shift state and result. *)
Definition kbd_step (shift data : Z) : Z * Z :=
  if data =? 0xE0 then (Z.lor shift E0ESC, 0)
  else if negb (Z.land data 0x80 =? 0) then
    let data := if negb (Z.land shift E0ESC =? 0) then data else Z.land data 0x7F in
    (Z.land shift (Z.lnot (Z.lor (tbl shiftcode data) E0ESC)), 0)
  else
    let '(data, shift) :=
      if negb (Z.land shift E0ESC =? 0) then (Z.lor data 0x80, Z.land shift (Z.lnot E0ESC))
      else (data, shift) in
    let shift := Z.lor shift (tbl shiftcode data) in
    let shift := Z.lxor shift (tbl togglecode data) in
    let c := tbl (charcode (Z.land shift (Z.lor CTL SHIFT))) data in
    let c := if negb (Z.land shift CAPSLOCK =? 0) then
               if ((97 <=? c) && (c <=? 122))%bool then c - 32
               else if ((65 <=? c) && (c <=? 90))%bool then c + 32 else c
             else c in
    (shift, c).

Definition kbdgetc : M Z :=
  st <- inb KBSTATP ;;
  if Z.land st KBS_DIB =? 0 then ret (-1)
  else
    data <- inb KBDATAP ;;
    sh <- gets kbd_shift ;;
    let '(sh', c) := kbd_step sh data in
    modify (set_kbd_shift sh') ;;
    ret c.

(** ** The input line *)

Definition INPUT_BUF : Z := 128.
Definition in_at (i : inputst) (k : Z) : Z := default 0 (in_buf i !! Z.to_nat (k mod INPUT_BUF)).
Definition modin (f : inputst -> inputst) : M unit := modify (fun s => set_input (f (input s)) s).

(** The loop of control-U; the line has at most [INPUT_BUF] characters. *)
Fixpoint kill_line (fuel : nat) : M unit :=
  match fuel with
  | O => stop_with OutOfFuel
  | S fuel' =>
      i <- gets input ;;
      if (negb (in_e i =? in_w i) && negb (in_at i (u32 (in_e i - 1)) =? 10))%bool then
        modin (fun i => {| i with in_e := u32 (in_e i - 1) |}) ;;
        consputc BACKSPACE ;;
        kill_line fuel'
      else ret tt
  end.

(** One character from the keyboard or the serial line; the result says
    whether it asked for a process listing. *)
Definition console_char (c : Z) : M bool :=
  if c =? 16 (* control-P *) then ret true
  else if c =? 21 (* control-U *) then kill_line (S (Z.to_nat INPUT_BUF)) ;; ret false
  else if ((c =? 8) || (c =? 127))%bool (* backspace *) then
    i <- gets input ;;
    when (negb (in_e i =? in_w i))
      (modin (fun i => {| i with in_e := u32 (in_e i - 1) |}) ;; consputc BACKSPACE) ;;
    ret false
  else
    i <- gets input ;;
    when (negb (c =? 0) && (u32 (in_e i - in_r i) <? INPUT_BUF))%bool
      (let c := if c =? 13 then 10 else c in
       modin (fun i => {| i with in_buf := <[Z.to_nat (in_e i mod INPUT_BUF) := u8 c]> (in_buf i);
                                 in_e := u32 (in_e i + 1) |}) ;;
       consputc c ;;
       i <- gets input ;;
       when ((c =? 10) || (c =? 4) || (in_e i =? u32 (in_r i + INPUT_BUF)))%bool
         (modin (fun i => {| i with in_w := in_e i |}) ;; wakeup ChInput)) ;;
    ret false.

Section Device.
Context `{Turns} `{Disk}.

(** The loop over the pending characters of [getc]. *)
Fixpoint consoleintr_loop (turns : nat) (getc : M Z) (doprocdump : bool) : M bool :=
  match turns with
  | O => stop_with OutOfFuel
  | S turns' =>
      c <- getc ;;
      if 0 <=? c then
        d <- console_char c ;;
        consoleintr_loop turns' getc (doprocdump || d)
      else ret doprocdump
  end.

Definition consoleintr (getc : M Z) : M unit :=
  acquire LkCons ;;
  d <- consoleintr_loop max_turns getc false ;;
  release LkCons ;;
  when d procdump.

Definition kbdintr : M unit := consoleintr kbdgetc.
Definition uartintr : M unit := consoleintr uartgetc.

(** ** The console device

    The destination of a read is a function [put] that stores bytes at an
    offset of the caller's buffer. *)

(** Wait until there is input: [false] when the process has been killed. *)
Definition wait_input : M bool :=
  loop_until max_turns (
    i <- gets input ;;
    if in_r i =? in_w i then
      p <- curproc ;;
      pr <- getp p ;;
      if negb (p_killed pr =? 0) then ret (Some false)
      else sleep ChInput LkCons ;; ret None
    else ret (Some true)).

(** The reading loop: [n] bytes are still wanted of [target]. The result is
    the [n] the loop leaves with, or [None] when killed. *)
Fixpoint consoleread_loop (k : nat) (put : Z -> list Z -> M unit) (target n : Z) : M (option Z) :=
  match k with
  | O => ret (Some n)
  | S k' =>
      ok <- wait_input ;;
      if negb ok then ret None
      else
        i <- gets input ;;
        let c := in_at i (in_r i) in
        modin (fun i => {| i with in_r := u32 (in_r i + 1) |}) ;;
        if c =? 4 then
          when (n <? target) (modin (fun i => {| i with in_r := u32 (in_r i - 1) |})) ;;
          ret (Some n)
        else
          put (target - n) [c] ;;
          if c =? 10 then ret (Some (n - 1)) else consoleread_loop k' put target (n - 1)
  end.

Definition consoleread (ip : nat) (put : Z -> list Z -> M unit) (n : Z) : M Z :=
  iunlock ip ;;
  acquire LkCons ;;
  r <- consoleread_loop (Z.to_nat n) put n n ;;
  release LkCons ;;
  ilock ip ;;
  match r with Some n' => ret (n - n') | None => ret (-1) end.

(** [get k m] gives [m] bytes at offset [k] of the caller's buffer. *)
Definition consolewrite (ip : nat) (get : Z -> Z -> M (list Z)) (n : Z) : M Z :=
  iunlock ip ;;
  acquire LkCons ;;
  forM (seqZ 0 n) (fun i => b <- get i 1 ;; consputc (Z.land (default 0 (head b)) 0xff)) ;;
  release LkCons ;;
  ilock ip ;;
  ret n.

Definition consoleinit : M unit :=
  initlock LkCons "console" ;;
  modify (fun s => set_devsw (<[CONSOLE := mkDevsw (Some Consoleread) (Some Consolewrite)]> (devsw s)) s) ;;
  modify (set_cons_locking true) ;;
  ioapicenable IRQ_KBD 0.
End Device.
