(* ===== verification/ConsoleSpec.v ===== *)
(** The console's line editing and reading: the circular buffer of [console.c]
    with its three free-running indices is a list of complete lines and a line
    that is being edited. *)

From S2P Require Import Prelude Params Mem Machine Spinlock Console Apic Proc ProcSpec Sleeplock Ide.
From S2P Require Import Bio Log Inode ConsoleDev.

(** ** The terminal

    What can be read, and the line being typed. *)

Definition tty : Type := list Z * list Z.

Definition has_room (t : tty) : bool := Z.of_nat (length (t.1 ++ t.2)) <? INPUT_BUF.

(** A key. *)
Definition edit (c : Z) (t : tty) : tty :=
  if c =? 16 then t
  else if c =? 21 then (t.1, [])
  else if ((c =? 8) || (c =? 127))%bool then (t.1, removelast t.2)
  else if (negb (c =? 0) && has_room t)%bool then
    let c := if c =? 13 then 10 else c in
    let line := t.2 ++ [c] in
    if ((c =? 10) || (c =? 4) || negb (has_room (t.1, line)))%bool then (t.1 ++ line, []) else (t.1, line)
  else t.

(** Reading at most [n] bytes, when [target] were asked for in all: the bytes up to
    the end of a line or an end-of-file mark, which is left for the next read
    unless it comes first; and what stays. *)
Fixpoint take_line (n : nat) (first : bool) (l : list Z) : list Z * list Z :=
  match n, l with
  | O, _ => ([], l)
  | S n', c :: l' =>
      if c =? 4 then ([], if first then l' else l)
      else if c =? 10 then ([c], l')
      else let '(a, r) := take_line n' false l' in (c :: a, r)
  | S _, [] => ([], [])
  end.

(** Enough has been typed for a read of [n] bytes. *)
Definition complete (n : nat) (l : list Z) : Prop := (n <= length l)%nat \/ 10 ∈ l \/ 4 ∈ l.

(** ** The circular buffer *)

Record ring_ok (t : tty) (i : inputst) : Prop := {
  in_len : length (in_buf i) = Z.to_nat INPUT_BUF;
  in_fit : Z.of_nat (length (t.1 ++ t.2)) <= INPUT_BUF;
  in_r32 : is_u32 (in_r i);
  in_weq : in_w i = u32 (in_r i + Z.of_nat (length t.1));
  in_eeq : in_e i = u32 (in_r i + Z.of_nat (length (t.1 ++ t.2)));
  in_cells : forall j c, (t.1 ++ t.2) !! j = Some c -> in_buf i !! Z.to_nat ((in_r i + Z.of_nat j) mod INPUT_BUF) = Some c }.

(** The line being typed is not finished. *)
Definition in_ok (t : tty) (i : inputst) : Prop := ring_ok t i /\ (10 ∉ t.2).

Lemma u32_cell x : u32 x mod INPUT_BUF = x mod INPUT_BUF.
Proof. unfold u32, INPUT_BUF. zdiv. Qed.

(** Two cells of the buffer at most its size apart. *)
Lemma cell_ne r j k : 0 <= j < INPUT_BUF -> 0 <= k < INPUT_BUF -> j <> k ->
  Z.to_nat ((r + j) mod INPUT_BUF) <> Z.to_nat ((r + k) mod INPUT_BUF).
Proof. unfold INPUT_BUF. intros Hj Hk Hne E. apply Hne. zdiv. Qed.

Lemma in_ok_line_empty t i : ring_ok t i -> (in_e i =? in_w i) = match t.2 with [] => true | _ => false end.
Proof.
  intros [_ Hfit Hr Hw He _]. rewrite Hw, He. rewrite length_app in *. unfold is_u32, INPUT_BUF, u32 in *.
  destruct t as [d [| x l]]; cbn [fst snd length] in *.
  - rewrite Nat.add_0_r. apply Z.eqb_refl.
  - apply Z.eqb_neq. zdiv.
Qed.

(** The last character of the line being typed, and the buffer without it. *)
Lemma in_ok_last t i l c :
  in_ok t i -> t.2 = l ++ [c] ->
  in_at i (u32 (in_e i - 1)) = c /\ c <> 10 /\ in_ok (t.1, l) {| i with in_e := u32 (in_e i - 1) |}.
Proof.
  intros [[Hlen Hfit Hr Hw He Hcells] Hline] Hl. destruct t as [d l']. cbn [fst snd] in *. subst l'.
  rewrite app_assoc, (length_app (d ++ l)) in *. cbn [length] in *. apply not_elem_of_app in Hline as [Hline Hc].
  assert (u32 (in_e i - 1) = u32 (in_r i + Z.of_nat (length (d ++ l)))) as E1 by (rewrite He; unfold u32; zdiv).
  split; [| split; [by rewrite list_elem_of_singleton in Hc |]].
  - unfold in_at. rewrite E1, u32_cell, (Hcells (length (d ++ l)) c); [done |]. by rewrite list_lookup_middle.
  - split; [| done]. split; cbn [in_buf in_r in_w in_e fst snd]; try done; [lia |].
    intros j x Hj. apply Hcells. by apply lookup_app_l_Some.
Qed.

(** One character more. *)
Lemma ring_ok_type t i c :
  ring_ok t i -> has_room t = true -> is_byte c ->
  ring_ok (t.1, t.2 ++ [c]) {| i with in_buf := <[Z.to_nat (in_e i mod INPUT_BUF) := u8 c]> (in_buf i); in_e := u32 (in_e i + 1) |}.
Proof.
  intros [Hlen Hfit Hr Hw He Hcells] Hroom Hc. unfold has_room in Hroom. apply Z.ltb_lt in Hroom.
  destruct t as [d l]. cbn [fst snd] in *. rewrite u8_small by done.
  split; cbn [in_buf in_r in_w in_e fst snd]; rewrite ?app_assoc, ?(length_app (d ++ l)); cbn [length]; try done.
  - by rewrite length_insert.
  - lia.
  - rewrite He. unfold u32. zdiv.
  - intros j x Hj. rewrite He, u32_cell. destruct (decide (j = length (d ++ l))) as [-> | Hne].
    + rewrite list_lookup_middle in Hj by done. injection Hj as ->. rewrite list_lookup_insert_eq; [done |].
      rewrite Hlen. unfold INPUT_BUF. zdiv.
    + assert (j < length (d ++ l))%nat as Hlt by (apply lookup_lt_Some in Hj; rewrite length_app in Hj; simpl in Hj; lia).
      rewrite lookup_app_l in Hj by done. rewrite list_lookup_insert_ne; [by apply Hcells |].
      apply cell_ne; lia.
Qed.

(** A finished line can be read. *)
Lemma ring_ok_commit t i : ring_ok t i -> in_ok (t.1 ++ t.2, []) {| i with in_w := in_e i |}.
Proof.
  intros [Hlen Hfit Hr Hw He Hcells]. split; [| apply not_elem_of_nil].
  split; cbn [in_buf in_r in_w in_e fst snd]; rewrite ?app_nil_r; done.
Qed.

(** The oldest character is taken. *)
Lemma in_ok_take c d l i :
  in_ok (c :: d, l) i -> in_at i (in_r i) = c /\ in_ok (d, l) {| i with in_r := u32 (in_r i + 1) |}.
Proof.
  intros [[Hlen Hfit Hr Hw He Hcells] Hline]. cbn [fst snd] in *. split.
  - unfold in_at. specialize (Hcells 0%nat c eq_refl). rewrite Z.add_0_r in Hcells. by rewrite Hcells.
  - split; [| done]. cbn [app length] in *.
    split; cbn [in_buf in_r in_w in_e fst snd]; try done; [lia | apply u32_range | | |].
    + rewrite Hw. unfold u32. zdiv.
    + rewrite He. unfold u32. zdiv.
    + intros j x Hj. rewrite <- (Hcells (S j) x Hj). f_equal. f_equal. rewrite <- (u32_cell (in_r i + Z.of_nat (S j))).
      rewrite <- (u32_cell (u32 (in_r i + 1) + Z.of_nat j)). f_equal. unfold u32. zdiv.
Qed.

(** Nothing to read. *)
Lemma in_ok_empty t i : ring_ok t i -> (in_r i =? in_w i) = match t.1 with [] => true | _ => false end.
Proof.
  intros [_ Hfit Hr Hw _ _]. rewrite Hw. rewrite length_app in *. unfold is_u32, INPUT_BUF, u32 in *.
  destruct t as [[| x d] l]; cbn [fst snd length] in *.
  - rewrite Z.add_0_r, Z.mod_small by done. apply Z.eqb_refl.
  - apply Z.eqb_neq. zdiv.
Qed.

(** ** Keys *)

Lemma consputc_any c s :
  console_ok s -> exists d, consputc c s = Ok tt (set_io d s) /\ console_ok (set_io d s).
Proof.
  intros Hok. destruct (decide (c = BACKSPACE)) as [-> | Hne].
  - pose proof Hok as [Hl Hu Hcur]. unfold consputc. rewrite bind_gets, Hl. cbn [Z.eqb Pos.eqb].
    destruct (uartputc_ok 8 s Hu) as (s1 & H1 & [d1 ->] & Hc1 & _).
    destruct (uartputc_ok 32 (set_io d1 s) Hu) as (s2 & H2 & [d2 ->] & Hc2 & _).
    destruct (uartputc_ok 8 (set_io d2 (set_io d1 s)) Hu) as (s3 & H3 & [d3 ->] & Hc3 & _).
    rewrite !set_io_io in *.
    destruct (cgaputc_ok BACKSPACE (set_io d3 s)) as (d4 & H4 & Hc4 & _).
    { unfold cursor_ok in *. rewrite Hc3, Hc2, Hc1. done. }
    exists d4. rewrite set_io_io in H4. split.
    + rewrite bind_assoc, (bind_ok _ _ _ _ _ H1), bind_assoc, (bind_ok _ _ _ _ _ H2), (bind_ok _ _ _ _ _ H3). exact H4.
    + apply console_ok_io; [done |]. rewrite Hc4. apply cursor_next_ok. rewrite Hc3, Hc2, Hc1. exact Hcur.
  - destruct (consputc_ok c s Hok Hne) as (s' & H & [d ->] & Hok' & _). by exists d.
Qed.

(** The console's lock is held by this processor, and the process table's is free. *)
Record tty_state (t : tty) (s : kstate) : Prop := {
  ts_in : in_ok t (input s);
  ts_cpu : exists i c, in_section s i c;
  ts_lock : lock_free s LkPtable;
  ts_cons : console_ok s }.

Lemma tty_io t d s : tty_state t s -> console_ok (set_io d s) -> tty_state t (set_io d s).
Proof.
  intros [Hi (n & c & Hc) Hl _] Hok. split; [done | | | done].
  - exists n, c. by apply (in_section_frame (set_io d)).
  - by apply (cf_lock_free (set_io d)).
Qed.

Lemma tty_input t t' v s : tty_state t s -> in_ok t' v -> tty_state t' (set_input v s).
Proof.
  intros [_ (n & c & Hc) Hl [H1 H2 H3]] Hv. split; [done | | | by split].
  - exists n, c. by apply (in_section_frame (set_input v)).
  - by apply (cf_lock_free (set_input v)).
Qed.

Lemma tty_ptable t v s : tty_state t s -> tty_state t (set_ptable v s).
Proof.
  intros [Hi (n & c & Hc) Hl [H1 H2 H3]]. split; [done | | | by split].
  - exists n, c. by apply (in_section_frame (set_ptable v)).
  - by apply (cf_lock_free (set_ptable v)).
Qed.

Lemma kill_line_ok l : forall d s fuel,
  tty_state (d, l) s -> (length l < fuel)%nat ->
  exists s', kill_line fuel s = Ok tt s' /\ tty_state (d, []) s' /\ ptable s' = ptable s.
Proof.
  induction l as [| c l IH] using rev_ind; intros d s fuel Hs Hf; (destruct fuel as [| fuel]; [lia |]);
    cbn [kill_line]; rewrite bind_gets, (in_ok_line_empty _ _ (proj1 (ts_in _ _ Hs))).
  - cbn. by exists s.
  - destruct (in_ok_last _ _ l c (ts_in _ _ Hs) eq_refl) as (Hat & Hne & Hin). rewrite Hat, (proj2 (Z.eqb_neq c 10)) by done.
    replace (match (d, l ++ [c]).2 with [] => true | _ => false end) with false by (simpl; by destruct l). cbn [negb andb].
    unfold modin. rewrite bind_modify. set (s1 := set_input _ s).
    assert (tty_state (d, l) s1) as Hs1 by (by apply (tty_input (d, l ++ [c]))).
    destruct (consputc_any BACKSPACE s1 (ts_cons _ _ Hs1)) as (io1 & E & Hok). rewrite (bind_ok _ _ _ _ _ E).
    destruct (IH d (set_io io1 s1) fuel) as (s' & E' & Hs' & Hp); [by apply tty_io | rewrite length_app in Hf; simpl in Hf; lia |].
    by exists s'.
Qed.

(** What a key does to the sleeping processes. *)
Definition woken (t t' : tty) (s s' : kstate) : Prop :=
  ptable s' = if decide (t'.1 = t.1) then ptable s else wake (Some ChInput) <$> ptable s.

Lemma type_ok c t s :
  tty_state t s -> has_room t = true -> is_byte c -> c <> 0 ->
  let c' := if c =? 13 then 10 else c in
  let line := t.2 ++ [c'] in
  let t' := if ((c' =? 10) || (c' =? 4) || negb (has_room (t.1, line)))%bool then (t.1 ++ line, []) else (t.1, line) in
  exists s', (modin (fun i => {| i with in_buf := <[Z.to_nat (in_e i mod INPUT_BUF) := u8 c']> (in_buf i);
                                        in_e := u32 (in_e i + 1) |}) ;;
       consputc c' ;;
       i <- gets input ;;
       when ((c' =? 10) || (c' =? 4) || (in_e i =? u32 (in_r i + INPUT_BUF)))%bool
         (modin (fun i => {| i with in_w := in_e i |}) ;; wakeup ChInput)) s = Ok tt s' /\
    tty_state t' s' /\ woken t t' s s'.
Proof.
  intros Hs Hroom Hc H0 c' line t'. destruct t as [d l]. cbn [fst snd] in *.
  assert (is_byte c') as Hc' by (unfold c', is_byte in *; destruct (c =? 13); lia).
  pose proof (ring_ok_type _ _ c' (proj1 (ts_in _ _ Hs)) Hroom Hc') as Hring. cbn [fst snd] in Hring. fold line in Hring.
  unfold modin. rewrite bind_modify. set (v := mkInput _ _ _ _) in Hring |- *. set (s1 := set_input _ s).
  assert (console_ok s1) as Hok1 by (destruct Hs as [_ _ _ [? ? ?]]; by split).
  destruct (consputc_any c' s1 Hok1) as (io1 & E & Hok). rewrite (bind_ok _ _ _ _ _ E), bind_gets. clear E.
  change (input (set_io io1 s1)) with v.
  assert ((in_e v =? u32 (in_r v + INPUT_BUF)) = negb (has_room (d, line))) as ->.
  { rewrite (in_eeq _ _ Hring). pose proof (in_fit _ _ Hring) as Hfit. pose proof (in_r32 _ _ Hring) as Hr. unfold has_room.
    cbn [fst snd] in *. set (n := length (d ++ line)) in *. unfold is_u32, INPUT_BUF, u32 in *.
    destruct (Z.ltb_spec (Z.of_nat n) 128); cbn [negb]; [apply Z.eqb_neq | apply Z.eqb_eq]; zdiv. }
  unfold t'. destruct (_ || _)%bool eqn:Eend; cbn [when].
  - rewrite bind_modify. pose proof (ring_ok_commit _ _ Hring) as Hin. cbn [fst snd] in Hin.
    assert (tty_state (d ++ line, []) (set_input {| v with in_w := in_e v |} (set_io io1 s1))) as Hs2.
    { destruct Hs as [_ (n & cc & Hcc) Hlk _]. split; [exact Hin | | | by destruct Hok; split].
      - exists n, cc. by apply (in_section_frame (fun s => set_input _ (set_io _ (set_input _ s)))).
      - by apply (cf_lock_free (fun s => set_input _ (set_io _ (set_input _ s)))). }
    pose proof Hs2 as [_ (n & cc & Hcc) Hlk _]. eexists. split; [by apply (wakeup_in _ n cc) |].
    split; [by apply tty_ptable |]. unfold woken. cbn [fst snd]. rewrite decide_False; [done |].
    unfold line. intros E. apply (f_equal length) in E. rewrite !length_app in E. simpl in E. lia.
  - eexists. split; [done |]. split; [| unfold woken; cbn [fst]; by rewrite decide_True].
    apply orb_false_iff in Eend as [Eend _]. apply orb_false_iff in Eend as [E10 _]. apply Z.eqb_neq in E10.
    apply tty_io; [| done]. apply (tty_input (d, l)); [done |]. split; [done |]. cbn [snd]. unfold line.
    apply not_elem_of_app. split; [apply Hs |]. rewrite list_elem_of_singleton. congruence.
Qed.

Lemma console_char_ok c t s :
  tty_state t s -> is_byte c ->
  exists s', console_char c s = Ok (c =? 16) s' /\ tty_state (edit c t) s' /\ woken t (edit c t) s s'.
Proof.
  intros Hs Hc. unfold console_char, edit, woken. destruct (c =? 16) eqn:E16; [exists s; by rewrite decide_True |].
  destruct (c =? 21).
  { destruct t as [d l]. destruct (kill_line_ok l d s (S (Z.to_nat INPUT_BUF)) Hs) as (s' & E & Hs' & Hp).
    - destruct Hs as [[[_ Hfit _ _ _ _] _] _ _ _]. cbn [fst snd] in Hfit. rewrite length_app in Hfit. unfold INPUT_BUF in *. lia.
    - exists s'. rewrite (bind_ok _ _ _ _ _ E). cbn [fst]. by rewrite decide_True. }
  destruct ((c =? 8) || (c =? 127))%bool.
  { rewrite bind_gets, (in_ok_line_empty _ _ (proj1 (ts_in _ _ Hs))). destruct t as [d l].
    destruct l as [| x l _] using rev_ind; [exists s; simpl; by rewrite decide_True |].
    replace (match (d, l ++ [x]).2 with [] => true | _ => false end) with false by (simpl; by destruct l). cbn [negb when].
    destruct (in_ok_last _ _ l x (ts_in _ _ Hs) eq_refl) as (_ & _ & Hin). unfold modin. rewrite bind_assoc, bind_modify.
    assert (tty_state (d, l) (set_input {| (input s) with in_e := u32 (in_e (input s) - 1) |} s)) as Hs1 by (by apply (tty_input (d, l ++ [x]))).
    destruct (consputc_any BACKSPACE _ (ts_cons _ _ Hs1)) as (io1 & E & Hok). rewrite (bind_ok _ _ _ _ _ E).
    cbn [fst snd]. rewrite removelast_last. eexists. split; [done |]. rewrite decide_True by done. split; [by apply tty_io | done]. }
  rewrite bind_gets.
  assert ((u32 (in_e (input s) - in_r (input s)) <? INPUT_BUF) = has_room t) as ->.
  { destruct (proj1 (ts_in _ _ Hs)) as [_ Hfit Hr _ -> _]. unfold has_room. f_equal. unfold u32, is_u32, INPUT_BUF in *. zdiv. }
  destruct (negb (c =? 0) && has_room t)%bool eqn:Etype; cbn [when]; [| exists s; by rewrite decide_True].
  apply andb_true_iff in Etype as [Hne Hroom]. rewrite negb_true_iff, Z.eqb_neq in Hne.
  destruct (type_ok c t s Hs Hroom Hc Hne) as (s' & E & Hs' & Hw). exists s'. cbv zeta. rewrite (bind_ok _ _ _ _ _ E). done.
Qed.

(** ** Typing and reading *)

Definition type_keys (cs : list Z) (t : tty) : tty := foldl (fun t c => edit c t) t cs.

(** The characters of one interrupt or of several, one after the other. *)
Lemma console_chars_ok cs : forall t s,
  tty_state t s -> Forall is_byte cs ->
  exists s', forM cs (fun c => console_char c ;; ret tt) s = Ok tt s' /\ tty_state (type_keys cs t) s'.
Proof.
  induction cs as [| c cs IH]; intros t s Hs Hcs; [by exists s |]. apply Forall_cons in Hcs as [Hc Hcs].
  destruct (console_char_ok c t s Hs Hc) as (s1 & E1 & Hs1 & _). destruct (IH _ _ Hs1 Hcs) as (s' & E & Hs').
  exists s'. cbn [forM type_keys foldl]. rewrite bind_assoc, (bind_ok _ _ _ _ _ E1), bind_ret. by split.
Qed.

(** A buffer of the reader. *)
Definition store_at (a k : Z) (b : list Z) : M unit := modify (fun s => set_mem (stn (mem s) (a + k) b) s).

Lemma tty_mem t v s : tty_state t s -> tty_state t (set_mem v s).
Proof.
  intros [Hi (n & c & Hc) Hl [H1 H2 H3]]. split; [done | | | by split].
  - exists n, c. by apply (in_section_frame (set_mem v)).
  - by apply (cf_lock_free (set_mem v)).
Qed.

Section Reading.
Context {turns : Turns} (Hturns : (0 < max_turns)%nat).

Lemma wait_input_ok c d l s : tty_state (c :: d, l) s -> wait_input s = Ok true s.
Proof using Hturns.
  intros Hs. unfold wait_input. destruct max_turns as [| m]; [lia |]. cbn [loop_until].
  rewrite bind_assoc, bind_gets, (in_ok_empty _ _ (proj1 (ts_in _ _ Hs))). cbn [fst]. by rewrite bind_ret.
Qed.

Lemma complete_tail n c l : complete (S n) (c :: l) -> c <> 10 -> c <> 4 -> complete n l.
Proof. unfold complete. rewrite !elem_of_cons. simpl. intros [? | [[? | ?] | [? | ?]]]; [left; lia | | | |]; intuition congruence. Qed.

Lemma consoleread_loop_ok a l target n : forall d s,
  tty_state (d, l) s -> Z.of_nat n <= target -> complete n d ->
  let r := take_line n (Z.of_nat n =? target) d in
  exists s', consoleread_loop n (store_at a) target (Z.of_nat n) s = Ok (Some (Z.of_nat (n - length r.1))) s' /\
    tty_state (r.2, l) s' /\ mem s' = stn (mem s) (a + (target - Z.of_nat n)) r.1.
Proof using Hturns.
  induction n as [| n IH]; intros d s Hs Hle Hcomp r; [by exists s |].
  destruct d as [| c d]; [unfold complete in Hcomp; simpl in Hcomp; rewrite !elem_of_nil in Hcomp; lia |].
  cbn [consoleread_loop]. rewrite (bind_ok _ _ _ _ _ (wait_input_ok c d l s Hs)). cbn [negb]. rewrite bind_gets.
  destruct (in_ok_take c d l _ (ts_in _ _ Hs)) as [-> Hin]. unfold modin. rewrite bind_modify.
  set (s1 := set_input _ s). assert (tty_state (d, l) s1) as Hs1 by (by apply (tty_input (c :: d, l))).
  unfold r. cbn [take_line]. destruct (Z.eqb_spec c 4) as [-> | H4].
  { destruct (Z.eqb_spec (Z.of_nat (S n)) target) as [Ht | Ht]; cbn [fst snd length].
    - rewrite (proj2 (Z.ltb_ge _ _)) by lia. cbn [when]. rewrite bind_ret. exists s1. by rewrite Nat.sub_0_r.
    - rewrite (proj2 (Z.ltb_lt _ _)) by lia. cbn [when]. rewrite bind_modify. rewrite Nat.sub_0_r.
      eexists. split; [done |]. split; [| done]. apply (tty_input (d, l)); [done |]. cbn [input set_input s1].
      replace (mkInput _ _ _ _) with (input s); [apply (ts_in _ _ Hs) |].
      destruct (input s) as [b r0 w0 e0] eqn:Ei. pose proof (in_r32 _ _ (proj1 (ts_in _ _ Hs))) as Hr. rewrite Ei in Hr. cbn [in_r] in Hr.
      cbn [in_buf in_r in_w in_e]. f_equal. unfold u32, is_u32 in *. zdiv. }
  unfold store_at at 1. rewrite bind_modify. set (s2 := set_mem _ s1).
  assert (tty_state (d, l) s2) as Hs2 by (by apply tty_mem).
  destruct (Z.eqb_spec c 10) as [-> | H10].
  { cbn [fst snd length]. exists s2. split; [f_equal; f_equal; lia |]. by split. }
  destruct (IH d s2 Hs2) as (s' & E & Hs' & Hm); [lia | by eapply complete_tail |].
  rewrite (proj2 (Z.eqb_neq (Z.of_nat n) target)) in * by lia.
  destruct (take_line n false d) as [x rest]. cbn [fst snd length] in *. exists s'.
  replace (Z.of_nat (S n) - 1) with (Z.of_nat n) by lia. split; [exact E |]. split; [done |]. rewrite Hm. cbn [stn mem set_mem s2 s1 set_input].
  f_equal. lia.
Qed.
End Reading.

(** C31: the console's line discipline.  Whatever keys arrive, control-U, backspace,
    carriage return and a full buffer among them, the circular buffer holds what a
    terminal with an editable line and a queue of finished lines holds; and a read of
    [n] bytes that finds a line, an end-of-file mark or [n] bytes takes the oldest
    line, up to its end or to the mark, stores exactly these bytes in the reader's
    buffer, returns how many of the [n] are missing, and leaves the rest and the line
    being typed as they were; an end-of-file mark behind data is kept for the next
    read.  The indices may wrap around at 2^32 at any point. *)
Theorem console_line_discipline {turns : Turns} cs t s n a :
  (0 < max_turns)%nat -> tty_state t s -> Forall is_byte cs ->
  exists s1, forM cs (fun c => console_char c ;; ret tt) s = Ok tt s1 /\ tty_state (type_keys cs t) s1 /\
    (complete n (type_keys cs t).1 ->
     let '(line, rest) := take_line n true (type_keys cs t).1 in
     exists s2, consoleread_loop n (store_at a) (Z.of_nat n) (Z.of_nat n) s1 = Ok (Some (Z.of_nat (n - length line))) s2 /\
       mem s2 = stn (mem s1) a line /\ tty_state (rest, (type_keys cs t).2) s2).
Proof.
  intros Ht Hs Hcs. destruct (console_chars_ok cs t s Hs Hcs) as (s1 & E1 & Hs1). exists s1. split_and!; [done | done |].
  intros Hcomp. destruct (type_keys cs t) as [d l]. cbn [fst snd] in *.
  destruct (consoleread_loop_ok Ht a l (Z.of_nat n) n d s1 Hs1) as (s2 & E2 & Hs2 & Hm); [lia | done |].
  rewrite Z.eqb_refl in *. destruct (take_line n true d) as [line rest]. exists s2.
  rewrite Z.sub_diag, Z.add_0_r in Hm. by split_and!.
Qed.

(** A terminal whose indices are about to wrap around. *)
Definition tty_machine : kstate :=
  set_input (mkInput (replicate 128 0) 4294967295 4294967295 4294967295)
    (set_uart true (set_ptable [] (set_cpus [ {| cpu0 with c_ncli := 1 |} ] (set_ncpu 1 kstate0)))).

Lemma tty_machine_ok : tty_state ([], []) tty_machine.
Proof.
  split.
  - split; [| apply not_elem_of_nil]. split; try reflexivity; unfold is_u32, INPUT_BUF; simpl; try lia.
    intros j c Hj. rewrite lookup_nil in Hj. discriminate.
  - exists 0%nat, {| cpu0 with c_ncli := 1 |}. split; [split; [reflexivity | simpl; lia | reflexivity] | simpl; lia].
  - split; reflexivity.
  - split; [reflexivity | reflexivity |]. unfold cursor_ok. simpl. lia.
Qed.

(** "lx", backspace, "s", return, "q": a read of ten bytes gets "ls" and the newline. *)
Lemma console_line_discipline_witness :
  exists s1 s2, forM [108; 120; 8; 115; 13; 113] (fun c => console_char c ;; ret tt) tty_machine = Ok tt s1 /\
    @consoleread_loop 1%nat 10 (store_at 4096) 10 10 s1 = Ok (Some 7) s2 /\
    ldn (mem s2) 4096 3 = [108; 115; 10] /\ tty_state ([], [113]) s2.
Proof.
  destruct (@console_line_discipline 1%nat [108; 120; 8; 115; 13; 113] ([], []) tty_machine 10 4096) as (s1 & E1 & _ & Hr).
  - unfold max_turns. lia.
  - apply tty_machine_ok.
  - repeat constructor; lia.
  - destruct Hr as (s2 & E2 & Hm & Hs2).
    { right. left. vm_compute. repeat constructor. }
    exists s1, s2. split; [exact E1 | split; [exact E2 | split; [| exact Hs2]]]. rewrite Hm. reflexivity.
Defined.
