(* ===== verification/Fs.v ===== *)
(** [fs.c], second half: inode contents, directories and path names.

    The buffer a caller passes to [readi] or [writei] may be in user memory, in
    a page of the kernel or a local structure; it is a function that stores or
    fetches bytes at an offset. *)

From S2P Require Import Prelude Params Mem CString Machine Spinlock Console Vm Proc ProcSpec.
From S2P Require Import Sleeplock Ide Bio Log Inode ConsoleDev.

(** A destination that drops the bytes: the caller uses the bytes [readi] returns. *)
Definition put_local (k : Z) (b : list Z) : M unit := ret tt.
(** A source whose bytes are in a local structure. *)
Definition get_local (src : list Z) (k m : Z) : M (list Z) := ret (lsub src k m).

Section Fs.
Context `{Turns} `{Disk}.

(** ** Inode contents *)

Definition set_addr (i : nat) (k : Z) (a : Z) : M unit :=
  modi i (fun ip => {| ip with i_addrs := <[Z.to_nat k := a]> (i_addrs ip) |}).
Definition get_addr (i : nat) (k : Z) : M Z :=
  ip <- geti i ;; unwrap (i_addrs ip !! Z.to_nat k).

Definition bmap (i : nat) (bn : Z) : M Z :=
  ip <- geti i ;;
  if bn <? NDIRECT then
    addr <- get_addr i bn ;;
    if addr =? 0 then a <- balloc (i_dev ip) ;; set_addr i bn a ;; ret a
    else ret addr
  else
    let bn := bn - NDIRECT in
    if bn <? NINDIRECT then
      addr <- get_addr i NDIRECT ;;
      addr <- (if addr =? 0 then a <- balloc (i_dev ip) ;; set_addr i NDIRECT a ;; ret a
               else ret addr) ;;
      bp <- bread (i_dev ip) addr ;;
      d <- bdata bp ;;
      let addr := lget32 d (4 * bn) in
      addr <- (if addr =? 0 then
                 a <- balloc (i_dev ip) ;;
                 d <- bdata bp ;;
                 set_bdata bp (lset32 d (4 * bn) a) ;;
                 log_write bp ;;
                 ret a
               else ret addr) ;;
      brelse bp ;;
      ret addr
    else panic "bmap: out of range".

Definition itrunc (i : nat) : M unit :=
  ip <- geti i ;;
  forM (seqZ 0 NDIRECT) (fun k =>
    a <- get_addr i k ;;
    when (negb (a =? 0)) (bfree (i_dev ip) a ;; set_addr i k 0)) ;;
  a <- get_addr i NDIRECT ;;
  when (negb (a =? 0))
    (bp <- bread (i_dev ip) a ;;
     d <- bdata bp ;;
     forM (seqZ 0 NINDIRECT) (fun j =>
       let b := lget32 d (4 * j) in
       when (negb (b =? 0)) (bfree (i_dev ip) b)) ;;
     brelse bp ;;
     a <- get_addr i NDIRECT ;;
     bfree (i_dev ip) a ;;
     set_addr i NDIRECT 0) ;;
  modi i (fun ip => {| ip with i_size := 0 |}) ;;
  iupdate i.

Definition iput (i : nat) : M unit :=
  acquiresleep (SlInode i) ;;
  ip <- geti i ;;
  when (negb (i_valid ip =? 0) && (i_nlink ip =? 0))%bool
    (acquire LkIcache ;;
     ip <- geti i ;;
     let r := i_ref ip in
     release LkIcache ;;
     when (r =? 1)
       (itrunc i ;;
        modi i (fun ip => {| ip with i_type := 0 |}) ;;
        iupdate i ;;
        modi i (fun ip => {| ip with i_valid := 0 |}))) ;;
  releasesleep (SlInode i) ;;
  acquire LkIcache ;;
  modi i (fun ip => {| ip with i_ref := i_ref ip - 1 |}) ;;
  release LkIcache.

Definition iunlockput (i : nat) : M unit := iunlock i ;; iput i.

(** [stati]; the only caller passes a [struct stat] of user memory, at [st]:
    [int dev; uint ino; short type; short nlink; uint size]. *)
Definition stati (i : nat) (st : Z) : M unit :=
  ip <- geti i ;;
  ust32 st (i_dev ip) ;;
  ust32 (st + 4) (i_inum ip) ;;
  ust16 (st + 8) (i_type ip) ;;
  ust16 (st + 10) (i_nlink ip) ;;
  ust32 (st + 12) (i_size ip).

(** The copying loop of [readi]; every turn but the last reaches the end of a
    block, so [n / BSIZE + 2] turns are enough. *)
Fixpoint readi_loop (fuel : nat) (i : nat) (put : Z -> list Z -> M unit) (tot off n : Z)
  : M (list Z) :=
  match fuel with
  | O => stop_with OutOfFuel
  | S fuel' =>
      if tot <? n then
        ip <- geti i ;;
        a <- bmap i (off / BSIZE) ;;
        bp <- bread (i_dev ip) a ;;
        let m := Z.min (n - tot) (BSIZE - off mod BSIZE) in
        d <- bdata bp ;;
        put tot (lsub d (off mod BSIZE) m) ;;
        brelse bp ;;
        r <- readi_loop fuel' i put (tot + m) (off + m) n ;;
        ret (lsub d (off mod BSIZE) m ++ r)
      else ret []
  end.
Definition turns_for (n : Z) : nat := S (S (S (Z.to_nat (n / BSIZE)))).

(** [readi]: the count it returns and the bytes it copied. *)
Definition readi (i : nat) (put : Z -> list Z -> M unit) (off n : Z) : M (Z * list Z) :=
  ip <- geti i ;;
  if i_type ip =? T_DEV then
    if ((i_major ip <? 0) || (NDEV <=? i_major ip))%bool then ret (-1, [])
    else
      dv <- gets (fun s => devsw s !! Z.to_nat (i_major ip)) ;;
      dv <- unwrap dv ;;
      match dev_read dv with
      | None => ret (-1, [])
      | Some Consoleread => r <- consoleread i put n ;; ret (r, [])
      end
  else if ((i_size ip <? off) || (u32 (off + n) <? off))%bool then ret (-1, [])
  else
    let n := if i_size ip <? u32 (off + n) then i_size ip - off else n in
    r <- readi_loop (turns_for n) i put 0 off n ;;
    ret (n, r).

Fixpoint writei_loop (fuel : nat) (i : nat) (get : Z -> Z -> M (list Z)) (tot off n : Z) : M Z :=
  match fuel with
  | O => stop_with OutOfFuel
  | S fuel' =>
      if tot <? n then
        ip <- geti i ;;
        a <- bmap i (off / BSIZE) ;;
        bp <- bread (i_dev ip) a ;;
        let m := Z.min (n - tot) (BSIZE - off mod BSIZE) in
        src <- get tot m ;;
        d <- bdata bp ;;
        set_bdata bp (lblit d (off mod BSIZE) src) ;;
        log_write bp ;;
        brelse bp ;;
        writei_loop fuel' i get (tot + m) (off + m) n
      else ret off
  end.

Definition writei (i : nat) (get : Z -> Z -> M (list Z)) (off n : Z) : M Z :=
  ip <- geti i ;;
  if i_type ip =? T_DEV then
    if ((i_major ip <? 0) || (NDEV <=? i_major ip))%bool then ret (-1)
    else
      dv <- gets (fun s => devsw s !! Z.to_nat (i_major ip)) ;;
      dv <- unwrap dv ;;
      match dev_write dv with
      | None => ret (-1)
      | Some Consolewrite => consolewrite i get n
      end
  else if ((i_size ip <? off) || (u32 (off + n) <? off))%bool then ret (-1)
  else if MAXFILE * BSIZE <? u32 (off + n) then ret (-1)
  else
    off <- writei_loop (turns_for n) i get 0 off n ;;
    ip <- geti i ;;
    when ((0 <? n) && (i_size ip <? off))%bool
      (modi i (fun ip => {| ip with i_size := off |}) ;; iupdate i) ;;
    ret n.

(** ** Directories *)

Definition namecmp (s t : list Z) : option Z := strncmp s t DIRSIZ.

Definition dirent_of (d : list Z) : dirent := mkDirent (lget16 d 0) (lsub d 2 14).
Definition dirent_bytes (de : dirent) : list Z :=
  [de_inum de mod 256; de_inum de / 256 mod 256] ++ de_name de.

(** The offsets of the entries of a directory of [size] bytes. *)
Definition dir_offsets (size : Z) : list Z :=
  (fun k => k * SIZEOF_DIRENT) <$> seqZ 0 ((size + SIZEOF_DIRENT - 1) / SIZEOF_DIRENT).

(** [dirlookup]: the inode and the offset of the entry. *)
Definition dirlookup (dp : nat) (name : list Z) : M (option (nat * Z)) :=
  d <- geti dp ;;
  if negb (i_type d =? T_DIR) then panic "dirlookup not DIR"
  else
    for_ret (dir_offsets (i_size d)) (fun off =>
      r <- readi dp put_local off SIZEOF_DIRENT ;;
      if negb (r.1 =? SIZEOF_DIRENT) then panic "dirlookup read"
      else
        let de := dirent_of r.2 in
        if de_inum de =? 0 then ret None
        else
          c <- unwrap (namecmp name (de_name de)) ;;
          if c =? 0 then ip <- iget (i_dev d) (de_inum de) ;; ret (Some (ip, off))
          else ret None).

Definition dirlink (dp : nat) (name : list Z) (inum : Z) : M Z :=
  r <- dirlookup dp name ;;
  match r with
  | Some (ip, _) => iput ip ;; ret (-1)
  | None =>
      d <- geti dp ;;
      empty <- for_ret (dir_offsets (i_size d)) (fun off =>
        r <- readi dp put_local off SIZEOF_DIRENT ;;
        if negb (r.1 =? SIZEOF_DIRENT) then panic "dirlink read"
        else if de_inum (dirent_of r.2) =? 0 then ret (Some off) else ret None) ;;
      let off := default (SIZEOF_DIRENT * ((i_size d + SIZEOF_DIRENT - 1) / SIZEOF_DIRENT)) empty in
      nm <- unwrap (strncpy (replicate DIRSIZ 0) name (Z.of_nat DIRSIZ)) ;;
      r <- writei dp (get_local (dirent_bytes (mkDirent (u16 inum) nm))) off SIZEOF_DIRENT ;;
      if negb (r =? SIZEOF_DIRENT) then panic "dirlink" else ret 0
  end.

(** ** Path names

    A path is the list of its characters, without the terminator. *)

Fixpoint skip_slashes (path : list Z) : list Z :=
  match path with c :: path' => if c =? 47 then skip_slashes path' else path | [] => [] end.

(** The characters up to the next slash, and the rest. *)
Fixpoint split_elem (path : list Z) : list Z * list Z :=
  match path with
  | c :: path' =>
      if c =? 47 then ([], path)
      else let '(e, r) := split_elem path' in (c :: e, r)
  | [] => ([], [])
  end.

(** [skipelem]: the name buffer it fills (up to its terminator, which a name of
    [DIRSIZ] characters does not get) and the rest of the path. *)
Definition skipelem (path : list Z) : option (list Z * list Z) :=
  match skip_slashes path with
  | [] => None
  | path =>
      let '(s, rest) := split_elem path in
      let name := if (DIRSIZ <=? length s)%nat then take DIRSIZ s else s ++ [0] in
      Some (name, skip_slashes rest)
  end.

(** The loop of [namex]; each turn consumes an element, so the length of the
    path bounds the turns. The result is the inode and the last name. *)
Fixpoint namex_loop (fuel : nat) (nameiparent : bool) (path : list Z) (ip : nat)
  : M (option (nat * list Z)) :=
  match fuel with
  | O => stop_with OutOfFuel
  | S fuel' =>
      match skipelem path with
      | None => if nameiparent then iput ip ;; ret None else ret (Some (ip, []))
      | Some (name, path) =>
          ilock ip ;;
          d <- geti ip ;;
          if negb (i_type d =? T_DIR) then iunlockput ip ;; ret None
          else if (nameiparent && bool_decide (path = []))%bool then
            iunlock ip ;; ret (Some (ip, name))
          else
            next <- dirlookup ip name ;;
            iunlockput ip ;;
            match next with
            | None => ret None
            | Some (next, _) => namex_loop fuel' nameiparent path next
            end
      end
  end.

Definition namex (path : list Z) (nameiparent : bool) : M (option (nat * list Z)) :=
  ip <- (if bool_decide (head path = Some 47) then iget ROOTDEV ROOTINO
         else
           p <- curproc ;;
           pr <- getp p ;;
           cwd <- unwrap (p_cwd pr) ;;
           idup cwd) ;;
  namex_loop (S (length path)) nameiparent path ip.

Definition namei (path : list Z) : M (option nat) :=
  r <- namex path false ;; ret (fst <$> r).

Definition nameiparent (path : list Z) : M (option (nat * list Z)) := namex path true.
End Fs.
