(* ===== verification/PathSpec.v ===== *)
(** Path names: the elements [skipelem] takes off a path one by one, as [namex]
    uses it, are the names the path was put together from. *)

From S2P Require Import Prelude Params Mem Machine Spinlock Console Proc ProcSpec Sleeplock Ide.
From S2P Require Import Bio Log Inode ConsoleDev Fs.

(** The names [namex] looks up for a path; [fuel] as in [namex_loop]. *)
Fixpoint path_names (fuel : nat) (path : list Z) : option (list (list Z)) :=
  match fuel with
  | O => None
  | S fuel' =>
      match skipelem path with
      | None => Some []
      | Some (name, rest) => cons name <$> path_names fuel' rest
      end
  end.

(** What a directory entry holds of a name: cut at [DIRSIZ], terminated if shorter. *)
Definition entry_name (s : list Z) : list Z :=
  if (DIRSIZ <=? length s)%nat then take DIRSIZ s else s ++ [0].

Definition slashes (k : nat) : list Z := replicate k 47.

(** A path put together: names, each after some slashes, and trailing slashes. *)
Definition put_path (segs : list (nat * list Z)) (trail : nat) : list Z :=
  concat ((fun s => slashes s.1 ++ s.2) <$> segs) ++ slashes trail.

(** Names are not empty and have no slash; slashes separate one from the next. *)
Definition is_name (s : list Z) : Prop := s <> [] /\ 47 ∉ s.
Definition well_separated (segs : list (nat * list Z)) : Prop :=
  Forall (fun s => is_name s.2) segs /\ Forall (fun s => (1 <= s.1)%nat) (tail segs).

Lemma skip_slashes_put k path : skip_slashes (slashes k ++ path) = skip_slashes path.
Proof. induction k as [| k IH]; [done |]. simpl. exact IH. Qed.

Lemma skip_slashes_name s path : is_name s -> skip_slashes (s ++ path) = s ++ path.
Proof.
  intros [Hne Hs]. destruct s as [| c s]; [done |]. simpl.
  apply not_elem_of_cons in Hs as [Hc _]. by rewrite (proj2 (Z.eqb_neq _ _)).
Qed.

Lemma split_elem_put s rest :
  47 ∉ s -> (rest = [] \/ head rest = Some 47) -> split_elem (s ++ rest) = (s, rest).
Proof.
  intros Hs Hr. induction s as [| c s IH]; simpl.
  - destruct rest as [| c rest]; [done |]. destruct Hr as [| [= ->]]; done.
  - apply not_elem_of_cons in Hs as [Hc Hs]. rewrite (proj2 (Z.eqb_neq _ _)), IH by done. done.
Qed.

(** One element. *)
Lemma skipelem_put k s rest :
  is_name s -> (rest = [] \/ head rest = Some 47) ->
  skipelem (slashes k ++ s ++ rest) = Some (entry_name s, skip_slashes rest).
Proof.
  intros Hs Hr. unfold skipelem. rewrite skip_slashes_put, skip_slashes_name by done.
  destruct (s ++ rest) as [| c path] eqn:E.
  - apply app_eq_nil in E as [-> _]. by destruct Hs.
  - rewrite <- E, split_elem_put by (done || apply Hs). done.
Qed.

Lemma skipelem_slashes k : skipelem (slashes k) = None.
Proof. unfold skipelem. rewrite <- (app_nil_r (slashes k)), skip_slashes_put. done. Qed.

(** Leading slashes do not matter. *)
Lemma skipelem_skip path : skipelem (skip_slashes path) = skipelem path.
Proof.
  unfold skipelem. f_equal. assert (E : skip_slashes (skip_slashes path) = skip_slashes path); [| by rewrite E].
  induction path as [| c path IH]; [done |]. simpl. destruct (c =? 47) eqn:E; [done |]. simpl. by rewrite E.
Qed.

Lemma path_names_skip fuel path : path_names fuel (skip_slashes path) = path_names fuel path.
Proof. destruct fuel; simpl; [done |]. by rewrite skipelem_skip. Qed.

Lemma put_path_rest seg segs trail :
  well_separated (seg :: segs) -> put_path segs trail = [] \/ head (put_path segs trail) = Some 47.
Proof.
  intros [_ Hsep]. destruct segs as [| [[| k] s] segs]; simpl in *.
  - destruct trail; auto.
  - apply Forall_cons in Hsep as [Hk _]. simpl in Hk. lia.
  - by right.
Qed.

(** C21: paths round-trip. Put together from any names (not empty, without
    slashes) with any number of slashes before, between and after them, a path is
    taken apart by [skipelem], within as many turns of [namex]'s loop as the path
    has characters, into exactly those names, in order, each cut to [DIRSIZ]
    characters as directory entries are. *)
Theorem path_roundtrip segs trail :
  well_separated segs ->
  path_names (S (length (put_path segs trail))) (put_path segs trail) = Some (entry_name <$> segs.*2).
Proof.
  intros Hwf. assert (Hgen : forall fuel, (length (put_path segs trail) < fuel)%nat ->
    path_names fuel (put_path segs trail) = Some (entry_name <$> segs.*2)); [| apply Hgen; lia].
  induction segs as [| [k s] segs IH]; intros fuel Hf; (destruct fuel as [| fuel]; [lia |]).
  - unfold put_path. simpl. by rewrite skipelem_slashes.
  - assert (E : put_path ((k, s) :: segs) trail = slashes k ++ s ++ put_path segs trail)
      by (unfold put_path; simpl; by rewrite <- !app_assoc).
    rewrite E in *. pose proof Hwf as [[Hs Hall]%Forall_cons Hsep]. simpl in Hs, Hsep.
    cbn [path_names]. rewrite skipelem_put by (done || by eapply put_path_rest).
    rewrite path_names_skip, IH; [done | | ].
    + split; [done |]. by destruct segs as [| ? segs]; [| apply Forall_cons in Hsep as [_ ?]].
    + rewrite !length_app in Hf. destruct Hs as [Hne _]. destruct s; [done |]. simpl in Hf. lia.
Qed.

Lemma path_roundtrip_witness :
  well_separated [(2%nat, [97]); (1%nat, [98; 98]); (3%nat, [99])] /\
  path_names 13 (put_path [(2%nat, [97]); (1%nat, [98; 98]); (3%nat, [99])] 2) =
    Some [[97; 0]; [98; 98; 0]; [99; 0]].
Proof.
  assert (Hwf : well_separated [(2%nat, [97]); (1%nat, [98; 98]); (3%nat, [99])]).
  { unfold well_separated, is_name. apply (bool_decide_unpack _). vm_compute. exact I. }
  split; [exact Hwf |]. exact (path_roundtrip [(2%nat, [97]); (1%nat, [98; 98]); (3%nat, [99])] 2 Hwf).
Defined.
