(* ===== verification/FileSpec.v ===== *)
(** The contents of a file: [readi] returns the bytes of the blocks the inode
    names, and [writei] replaces them, through the buffer cache and the log. *)

From stdpp Require Import sets.
From S2P Require Import Prelude Params Mem Machine Spinlock Console Vm Proc ProcSpec Sleeplock Ide.
From S2P Require Import Quiet Bio BioSpec Log LogSpec Transaction Inode ConsoleDev Fs.
From Stdlib Require Import FunctionalExtensionality.

(** ** Files *)

(** The content of a block: its pending update, or what is on disk. *)
Definition view (d : Z -> list Z) (pend : Z -> option (list Z)) (blk : Z) : list Z := default (d blk) (pend blk).

Definition addr_at (ip : inode) (k : Z) : Z := default 0 (i_addrs ip !! Z.to_nat k).

(** The block that holds the [bn]th block of a file. *)
Definition block_of (w : Z -> list Z) (ip : inode) (bn : Z) : Z :=
  if bn <? NDIRECT then addr_at ip bn else lget32 (w (addr_at ip NDIRECT)) (4 * (bn - NDIRECT)).

Definition byte_of (w : Z -> list Z) (ip : inode) (k : Z) : Z := lget8 (w (block_of w ip (k / BSIZE))) (k mod BSIZE).
Definition range_of (w : Z -> list Z) (ip : inode) (off n : Z) : list Z := map (byte_of w ip) (seqZ off n).

(** The blocks [bn] of the file from [b0] to [b1] are allocated, among the blocks
    [U], which are whole and on the disk. *)
Record laid_out (U : list Z) (N : Z) (w : Z -> list Z) (ip : inode) (b0 b1 : Z) : Prop := {
  lo_dev : i_dev ip = 1;
  lo_addrs : length (i_addrs ip) = 13%nat;
  lo_max : 0 <= b0 /\ b1 < MAXFILE;
  lo_whole : forall blk, blk ∈ U -> length (w blk) = Z.to_nat BSIZE /\ 0 <= blk < N;
  lo_blocks : forall bn, b0 <= bn <= b1 -> block_of w ip bn <> 0 /\ block_of w ip bn ∈ U;
  lo_indirect : NDIRECT <= b1 -> addr_at ip NDIRECT <> 0 /\ addr_at ip NDIRECT ∈ U }.

Lemma get_addr_ok s i ip k :
  icache s !! i = Some ip -> length (i_addrs ip) = 13%nat -> 0 <= k <= 12 -> get_addr i k s = Ok (addr_at ip k) s.
Proof.
  intros Hi Hl Hk. unfold get_addr. rewrite (bind_ok _ _ _ _ _ (geti_ok s i ip Hi)). unfold addr_at.
  destruct (lookup_lt_is_Some_2 (i_addrs ip) (Z.to_nat k)) as [a Ha]; [lia |]. by rewrite Ha.
Qed.

(** A piece of a block. *)
Lemma lsub_bytes d o m :
  length d = Z.to_nat BSIZE -> 0 <= o -> 0 <= m -> o + m <= BSIZE -> lsub d o m = map (lget8 d) (seqZ o m).
Proof.
  intros Hd Ho Hm Hle. unfold lsub. apply list_eq. intros j. change (map (lget8 d) (seqZ o m)) with (lget8 d <$> seqZ o m).
  rewrite list_lookup_fmap. destruct (decide (Z.of_nat j < m)) as [Hj | Hj].
  - rewrite lookup_take_lt, lookup_drop, lookup_seqZ_lt by lia. simpl. unfold lget8.
    destruct (lookup_lt_is_Some_2 d (Z.to_nat (o + Z.of_nat j))) as [x Hx]; [lia |].
    rewrite Hx. simpl. rewrite <- Hx. f_equal. lia.
  - rewrite lookup_take_ge, lookup_seqZ_ge by lia. done.
Qed.

(** The part of a file that lies in one block. *)
Lemma range_in_block w ip off m :
  0 <= off -> 0 <= m -> off mod BSIZE + m <= BSIZE -> length (w (block_of w ip (off / BSIZE))) = Z.to_nat BSIZE ->
  lsub (w (block_of w ip (off / BSIZE))) (off mod BSIZE) m = range_of w ip off m.
Proof.
  intros Ho Hm Hle Hl. rewrite lsub_bytes by (done || (unfold BSIZE in *; zdiv)). unfold range_of.
  replace (seqZ off m) with (map (fun k => k + BSIZE * (off / BSIZE)) (seqZ (off mod BSIZE) m)).
  - rewrite map_map. apply map_ext_in. intros k Hk. rewrite <- list_elem_of_In, elem_of_seqZ in Hk. unfold byte_of, BSIZE in *.
    replace ((k + 512 * (off / 512)) / 512) with (off / 512) by zdiv.
    replace ((k + 512 * (off / 512)) mod 512) with k by zdiv. done.
  - apply list_eq. intros j. change (map ?f ?l) with (f <$> l). rewrite list_lookup_fmap.
    destruct (decide (Z.of_nat j < m)) as [Hj | Hj].
    + rewrite !lookup_seqZ_lt by lia. simpl. f_equal. unfold BSIZE. zdiv.
    + rewrite !lookup_seqZ_ge by lia. done.
Qed.

Lemma range_app w ip off m n : 0 <= m -> 0 <= n -> range_of w ip off (m + n) = range_of w ip off m ++ range_of w ip (off + m) n.
Proof. intros. unfold range_of. by rewrite seqZ_app, map_app by lia. Qed.

(** ** Reading *)

Section Reading.
Context {turns : Turns} {dk : Disk} {dspec : DiskSpec} (Hturns : (0 < max_turns)%nat).
Context (U : list Z) (HU : NoDup U) (pid : Z).

(** No buffer is locked, and the disk, the log and the inodes are as in [s0]. *)
Record still (pend : Z -> option (list Z)) (s0 s : kstate) : Prop := {
  sl_cache : cstate U pid [] pend s;
  sl_disk : disk s = disk s0;
  sl_world : same_world s0 s }.

(** Buffer [k] is locked and holds block [blk], whose content is [d]. *)
Record opened (pend : Z -> option (list Z)) (s0 s : kstate) (k : nat) (b : buf) (blk : Z) (d : list Z) : Prop := {
  op_cache : cstate U pid [k] pend s;
  op_buf : bcache s !! k = Some b;
  op_dev : b_dev b = 1;
  op_blk : b_blockno b = blk;
  op_data : b_data b = d;
  op_rest : at_rest (disk s0) pend (vw b);
  op_disk : disk s = disk s0;
  op_world : same_world s0 s }.

Lemma still_icache pend s0 s : still pend s0 s -> icache s = icache s0.
Proof. intros [_ _ [_ _ Hi]]. by apply kept_icache. Qed.

Lemma bread_view C Q pend s0 s blk :
  still pend s0 s -> blk ∈ U -> 0 <= blk < disksize s0 -> C (disk s0) ->
  (forall k s' b, opened pend s0 s' k b blk (view (disk s0) pend blk) -> Q k s') ->
  exec C Q (bread 1 blk s).
Proof using Hturns HU dspec.
  intros [Hcs Hd [Hz Hg Hi]] HbU Hr HC HQ.
  eapply (bread_exec Hturns U HU pid); [done | done | by rewrite Hz | | by rewrite Hd |].
  { intros k v Hk. by apply elem_of_nil in Hk. }
  intros k s1 v [_ Hcs1 Hv Hdv Hb Hrest Hd1 [Hz1 Hg1 Hi1] _]. unfold bv in Hv. apply fmap_Some in Hv as (b & Hbc & ->).
  simpl in Hdv, Hb. eapply HQ. split; try done.
  - destruct (Hrest Hdv) as [(_ & Hda & Hp) | (_ & Hp)]; simpl in *; rewrite Hb in *; unfold view; rewrite Hp; simpl; congruence.
  - by rewrite <- Hd.
  - congruence.
  - split; congruence.
Qed.

Lemma brelse_still pend s0 s k b blk d :
  opened pend s0 s k b blk d -> exists s', brelse k s = Ok tt s' /\ still pend s0 s'.
Proof.
  intros [Hcs Hb Hdv Hblk Hda Hrest Hd [Hz Hg Hi]].
  destruct (brelse_ok U pid [k] pend s k b Hcs) as (s' & E & Hcs' & Hd' & [Hz' Hg' Hi'] & _);
    [constructor | done | by rewrite Hd |].
  exists s'. split; [done |]. rewrite (filter_cons_False (.≠ k)) in Hcs' by naive_solver.
  split; [done | congruence | split; congruence].
Qed.

(** [bmap] of a block that is there. *)
Lemma bmap_exec C Q pend s0 s i ip b0 b1 bn :
  still pend s0 s -> icache s0 !! i = Some ip -> laid_out U (disksize s0) (view (disk s0) pend) ip b0 b1 ->
  b0 <= bn <= b1 -> C (disk s0) ->
  (forall s', still pend s0 s' -> Q (block_of (view (disk s0) pend) ip bn) s') ->
  exec C Q (bmap i bn s).
Proof using Hturns HU dspec.
  intros Hst Hi [Hdev Hlen Hmax Hwhole Hblocks Hind] Hbn HC HQ. set (w := view (disk s0) pend) in *.
  assert (icache s !! i = Some ip) as Hi' by (by rewrite (still_icache _ _ _ Hst)).
  unfold bmap. rewrite (bind_ok _ _ _ _ _ (geti_ok s i ip Hi')). destruct (Hblocks bn Hbn) as [Hne HinU].
  unfold block_of in Hne, HinU. destruct (Z.ltb_spec bn NDIRECT) as [Hlt | Hge].
  - unfold NDIRECT in Hlt. rewrite (bind_ok _ _ _ _ _ (get_addr_ok s i ip bn Hi' Hlen ltac:(lia))).
    rewrite (proj2 (Z.eqb_neq _ _)) by done. cbn [exec ret]. replace (addr_at ip bn) with (block_of w ip bn); [by apply HQ |].
    unfold block_of. by rewrite (proj2 (Z.ltb_lt bn NDIRECT)) by (unfold NDIRECT; lia).
  - cbv zeta. rewrite (proj2 (Z.ltb_lt (bn - NDIRECT) NINDIRECT)) by (unfold MAXFILE in Hmax; lia).
    destruct (Hind ltac:(lia)) as [HneI HinI].
    rewrite (bind_ok _ _ _ _ _ (get_addr_ok s i ip NDIRECT Hi' Hlen ltac:(unfold NDIRECT; lia))).
    rewrite (proj2 (Z.eqb_neq (addr_at ip NDIRECT) 0)) by done. rewrite bind_ret. rewrite Hdev.
    apply exec_bind. apply (bread_view C _ pend s0); [done | done | by apply Hwhole | done |]. intros k s1 b Hop.
    unfold bdata. rewrite bind_assoc, (bind_ok _ _ _ _ _ (getb_ok s1 k b (op_buf _ _ _ _ _ _ _ Hop))), bind_ret.
    rewrite (op_data _ _ _ _ _ _ _ Hop). rewrite (proj2 (Z.eqb_neq _ 0)) by done. rewrite bind_ret.
    destruct (brelse_still _ _ _ _ _ _ _ Hop) as (s2 & E & Hst2). rewrite (bind_ok _ _ _ _ _ E). cbn [exec ret].
    replace (lget32 _ _) with (block_of w ip bn); [by apply HQ |].
    unfold block_of. by rewrite (proj2 (Z.ltb_ge bn NDIRECT)).
Qed.

Lemma readi_loop_exec C pend s0 i ip b0 b1 fuel : forall Q s tot off n,
  still pend s0 s -> icache s0 !! i = Some ip -> laid_out U (disksize s0) (view (disk s0) pend) ip b0 b1 ->
  0 <= tot <= n -> 0 <= off -> b0 <= off / BSIZE -> (tot < n -> (off + (n - tot) - 1) / BSIZE <= b1) ->
  (0 < fuel)%nat -> (tot < n -> (off mod BSIZE + (n - tot) + BSIZE - 1) / BSIZE < Z.of_nat fuel) -> C (disk s0) ->
  (forall s', still pend s0 s' -> Q (range_of (view (disk s0) pend) ip off (n - tot)) s') ->
  exec C Q (readi_loop fuel i put_local tot off n s).
Proof using Hturns HU dspec.
  induction fuel as [| fuel IH]; intros Q s tot off n Hst Hi Hlo Htot Hoff Hb0 Hb1 Hf0 Hf HC HQ; [lia |].
  cbn [readi_loop]. destruct (Z.ltb_spec tot n) as [Hlt | Hge].
  2:{ cbn [exec ret]. replace (n - tot) with 0 in HQ by lia. by apply HQ. }
  specialize (Hb1 Hlt). specialize (Hf Hlt). set (w := view (disk s0) pend) in *. pose proof Hlo as [Hdev Hlen Hmax Hwhole Hblocks Hind].
  assert (icache s !! i = Some ip) as Hi' by (by rewrite (still_icache _ _ _ Hst)).
  rewrite (bind_ok _ _ _ _ _ (geti_ok s i ip Hi')). rewrite Hdev.
  assert (b0 <= off / BSIZE <= b1) as Hbn by (unfold BSIZE in *; zdiv).
  destruct (Hblocks _ Hbn) as [_ HinU]. apply exec_bind. apply (bmap_exec C _ pend s0 s i ip b0 b1); try done. intros s1 Hst1.
  apply exec_bind. apply (bread_view C _ pend s0); [done | done | by apply Hwhole | done |]. intros k s2 b Hop.
  set (m := Z.min (n - tot) (BSIZE - off mod BSIZE)).
  assert (0 < m <= n - tot /\ off mod BSIZE + m <= BSIZE) as [Hm Hmb].
  { pose proof (Z.mod_pos_bound off BSIZE ltac:(done)). unfold m. lia. }
  unfold bdata. rewrite bind_assoc, (bind_ok _ _ _ _ _ (getb_ok s2 k b (op_buf _ _ _ _ _ _ _ Hop))), bind_ret.
  rewrite (op_data _ _ _ _ _ _ _ Hop). unfold put_local at 1. rewrite bind_ret.
  destruct (brelse_still _ _ _ _ _ _ _ Hop) as (s3 & E & Hst3). rewrite (bind_ok _ _ _ _ _ E).
  apply exec_bind. apply (IH _ s3 (tot + m) (off + m) n); try done; try lia.
  - unfold BSIZE in *. zdiv.
  - intros Hlt'. replace (off + m + (n - (tot + m)) - 1) with (off + (n - tot) - 1) by lia. done.
  - unfold BSIZE in *. zdiv.
  - intros Hlt'. unfold m, BSIZE in *. zdiv.
  - intros s4 Hst4. cbn [exec ret]. specialize (HQ s4 Hst4).
    replace (n - tot) with (m + (n - (tot + m))) in HQ by lia. rewrite range_app in HQ by lia.
    rewrite range_in_block; [exact HQ | done | lia | done |]. by apply Hwhole.
Qed.
End Reading.

(** ** Writing, as a change of the contents *)

(** The file's blocks from [b0] to [b1] are different from each other and from the
    block of their addresses. *)
Definition separate (w : Z -> list Z) (ip : inode) (b0 b1 : Z) : Prop :=
  (forall bn bn', b0 <= bn <= b1 -> b0 <= bn' <= b1 -> block_of w ip bn = block_of w ip bn' -> bn = bn') /\
  (forall bn, b0 <= bn <= b1 -> NDIRECT <= b1 -> block_of w ip bn <> addr_at ip NDIRECT).

(** The contents [w'] are [w] with the bytes [src] at [off] of the file. *)
Record written (U : list Z) (ip : inode) (b0 b1 : Z) (w w' : Z -> list Z) (off : Z) (src : list Z) : Prop := {
  wr_blocks : forall bn, b0 <= bn <= b1 -> block_of w' ip bn = block_of w ip bn;
  wr_whole : forall blk, blk ∈ U -> length (w' blk) = length (w blk);
  wr_bytes : forall k, b0 <= k / BSIZE <= b1 ->
    byte_of w' ip k = if decide (off <= k < off + Z.of_nat (length src)) then lget8 src (k - off) else byte_of w ip k;
  wr_others : forall blk, (forall bn, b0 <= bn <= b1 -> blk <> block_of w ip bn) -> w' blk = w blk }.

Lemma written_nil U ip b0 b1 w off : written U ip b0 b1 w w off [].
Proof. split; try done. intros k _. rewrite decide_False; [done | simpl; lia]. Qed.

Lemma lget8_app_l a b k : 0 <= k < Z.of_nat (length a) -> lget8 (a ++ b) k = lget8 a k.
Proof. intros. unfold lget8. by rewrite lookup_app_l by lia. Qed.
Lemma lget8_app_r a b k : Z.of_nat (length a) <= k -> lget8 (a ++ b) k = lget8 b (k - Z.of_nat (length a)).
Proof. intros. unfold lget8. rewrite lookup_app_r by lia. do 2 f_equal. lia. Qed.

Lemma written_app U ip b0 b1 w w1 w2 off src1 src2 :
  written U ip b0 b1 w w1 off src1 -> written U ip b0 b1 w1 w2 (off + Z.of_nat (length src1)) src2 ->
  written U ip b0 b1 w w2 off (src1 ++ src2).
Proof.
  intros [Hb1 Hw1 Hk1 Ho1] [Hb2 Hw2 Hk2 Ho2]. split.
  - intros bn Hbn. by rewrite Hb2, Hb1.
  - intros blk Hblk. by rewrite Hw2, Hw1.
  - intros k Hk. rewrite (Hk2 k Hk), (Hk1 k Hk). rewrite length_app.
    repeat case_decide; try lia; try done.
    + rewrite lget8_app_r by lia. f_equal. lia.
    + rewrite lget8_app_l by lia. done.
  - intros blk Hblk. rewrite Ho2; [by apply Ho1 |]. intros bn Hbn. rewrite Hb1 by done. by apply Hblk.
Qed.

(** The bytes of a block with a range replaced. *)
Lemma lblit_bytes d o src k :
  0 <= o -> 0 <= k -> o + Z.of_nat (length src) <= Z.of_nat (length d) ->
  lget8 (lblit d o src) k = if decide (o <= k < o + Z.of_nat (length src)) then lget8 src (k - o) else lget8 d k.
Proof.
  intros Ho Hk Hl. unfold lblit, lget8.
  assert (length (take (Z.to_nat o) d) = Z.to_nat o) as Hlt by (rewrite length_take; lia). case_decide.
  - rewrite lookup_app_r, lookup_app_l by (rewrite Hlt; lia). do 2 f_equal. rewrite Hlt. lia.
  - destruct (decide (k < o)).
    + rewrite lookup_app_l by (rewrite Hlt; lia). rewrite lookup_take_lt by lia. done.
    + rewrite lookup_app_r, lookup_app_r by (rewrite Hlt; lia). rewrite lookup_drop, Hlt. do 2 f_equal. lia.
Qed.

Lemma length_lblit d o src : 0 <= o -> o + Z.of_nat (length src) <= Z.of_nat (length d) -> length (lblit d o src) = length d.
Proof. intros Ho Hl. unfold lblit. rewrite !length_app, length_take, length_drop. lia. Qed.

(** Replacing a range inside one block. *)
Lemma written_chunk U ip b0 b1 w off src :
  separate w ip b0 b1 -> 0 <= off -> b0 <= off / BSIZE <= b1 -> 
  length (w (block_of w ip (off / BSIZE))) = Z.to_nat BSIZE -> off mod BSIZE + Z.of_nat (length src) <= BSIZE ->
  let blk := block_of w ip (off / BSIZE) in
  written U ip b0 b1 w (fupd w blk (lblit (w blk) (off mod BSIZE) src)) off src.
Proof.
  intros [Hinj Hind] Hoff Hbn Hwh Hle blk. set (w' := fupd w blk _). pose proof (Z.mod_pos_bound off BSIZE ltac:(done)) as Hmod.
  assert (forall bn, b0 <= bn <= b1 -> block_of w' ip bn = block_of w ip bn) as Hblocks.
  { intros bn Hbn'. unfold block_of. destruct (Z.ltb_spec bn NDIRECT); [done |]. unfold w'. rewrite fupd_ne; [done |].
    intros E. apply (Hind (off / BSIZE)); [done | lia | done]. }
  split; [done | | |].
  - intros x _. unfold w'. destruct (decide (x = blk)) as [-> | Hne]; [| by rewrite fupd_ne].
    rewrite fupd_eq. apply length_lblit; [lia |]. unfold blk. rewrite Hwh. unfold BSIZE in *. lia.
  - intros k Hk. unfold byte_of. rewrite Hblocks by done.
    destruct (decide (k / BSIZE = off / BSIZE)) as [E | Hne].
    + rewrite E. fold blk. unfold w'. rewrite fupd_eq. rewrite lblit_bytes; [| lia | apply Z.mod_pos_bound; done | fold blk in Hwh; rewrite Hwh; unfold BSIZE in *; lia].
      pose proof (Z.div_mod k BSIZE ltac:(done)) as Dk. pose proof (Z.div_mod off BSIZE ltac:(done)) as Do. rewrite E in Dk.
      repeat case_decide; try lia. f_equal. lia.
    + unfold w'. rewrite fupd_ne by (intros E; apply Hne; by apply Hinj). rewrite decide_False; [done |].
      intros Hin. apply Hne. pose proof (Z.div_mod off BSIZE ltac:(done)) as Do. symmetry.
      apply (Z.div_unique k BSIZE (off / BSIZE) (k - BSIZE * (off / BSIZE))); unfold BSIZE in *; lia.
  - intros x Hx. unfold w'. rewrite fupd_ne; [done |]. by apply Hx.
Qed.

Lemma laid_out_written U N ip b0 b1 w w' off src :
  laid_out U N w ip b0 b1 -> written U ip b0 b1 w w' off src -> laid_out U N w' ip b0 b1.
Proof.
  intros [Hdev Hlen Hmax Hwhole Hblocks Hind] [Hb Hw Hk Ho]. split; try done.
  - intros blk Hblk. rewrite Hw by done. by apply Hwhole.
  - intros bn Hbn. rewrite Hb by done. by apply Hblocks.
Qed.

Lemma laid_out_sub U N w ip b0 b1 c0 c1 : laid_out U N w ip b0 b1 -> b0 <= c0 -> c1 <= b1 -> laid_out U N w ip c0 c1.
Proof.
  intros [Hdev Hlen Hmax Hwhole Hblocks Hind] H0 H1. split; try done; [lia | |].
  - intros bn Hbn. apply Hblocks. lia.
  - intros Hn. apply Hind. lia.
Qed.

Lemma separate_written U ip b0 b1 w w' off src :
  separate w ip b0 b1 -> written U ip b0 b1 w w' off src -> separate w' ip b0 b1.
Proof.
  intros [Hinj Hind] [Hb _ _ _]. split.
  - intros bn bn' H1 H2. rewrite !Hb by done. by apply Hinj.
  - intros bn H1. rewrite Hb by done. by apply Hind.
Qed.

(** ** [writei] *)

Lemma view_fupd d pend blk x : view d (fupd pend blk (Some x)) = fupd (view d pend) blk x.
Proof.
  apply functional_extensionality. intros y. unfold view, fupd. by case_decide.
Qed.

Section Writing.
Context {turns : Turns} {dk : Disk} {dspec : DiskSpec} (Hturns : (0 < max_turns)%nat).
Context (U : list Z) (HU : NoDup U) (pid st sz : Z) (Hsz : sz <= LOGSIZE + 1).

(** Inside a transaction that has logged the blocks [bs]. *)
Record writing (pend : Z -> option (list Z)) (bs : list Z) (s0 s : kstate) : Prop := {
  wi_cache : cstate U pid [] pend s;
  wi_disk : disk s = disk s0;
  wi_disksize : disksize s = disksize s0;
  wi_kept : kept s = kept s0;
  wi_log : open_log st sz bs (log s) }.

Lemma writing_still pend bs s0 s : writing pend bs s0 s -> still U pid pend s s.
Proof. intros [H1 _ _ _ _]. by split. Qed.

Lemma still_writing pend bs s0 s s' : writing pend bs s0 s -> still U pid pend s s' -> writing pend bs s0 s'.
Proof. intros [H1 H2 H3 H4 H5] [G1 G2 [G3 G4 G5]]. split; [done | congruence ..| by rewrite G4]. Qed.

Lemma seq3_ok {A} (m1 m2 m3 : M unit) (k : M A) s s' :
  (m1 ;; m2 ;; m3) s = Ok tt s' -> (m1 ;; m2 ;; m3 ;; k) s = k s'.
Proof.
  unfold bind. destruct (m1 s) as [[] s1 | |]; cbn [obind]; [| discriminate ..].
  destruct (m2 s1) as [[] s2 | |]; cbn [obind]; [| discriminate ..]. by intros ->.
Qed.

(** Changing a locked buffer, logging and releasing it. *)
Lemma log_block pend bs s0 s1 s k b blk d x :
  writing pend bs s0 s1 -> opened U pid pend s1 s k b blk d -> Z.of_nat (length bs) < sz - 1 ->
  exists s', (set_bdata k x ;; log_write k ;; brelse k) s = Ok tt s' /\
    writing (fupd pend blk (Some x)) (absorb bs blk) s0 s'.
Proof using Hsz Hturns dspec.
  intros [_ Hd1 Hz1 Hi1 [Hli Hll Hlsz Hop]] [Hcs Hb Hdv Hblk Hda Hrest Hd [Hz Hg Hi]] Hroom.
  assert (Hk : k ∈ [k]) by constructor.
  destruct (set_bdata_ok U pid [k] pend s k b x Hcs Hk Hb) as (s2 & E2 & Hcs2 & Ebc2 & Edk2 & [Eds2 Elg2 Eic2]).
  rewrite (bind_ok _ _ _ _ _ E2). clear E2. assert (Hl : (k < length (bcache s))%nat) by (by eapply lookup_lt_Some).
  destruct (log_write_ok U pid st [k] pend s2 k {| b with b_data := x |} bs Hcs2 Hk)
    as (s3 & E3 & Hcs3 & Ebc3 & Edk3 & Eds3 & Eic3 & Hli3 & Hll3 & Hsz3 & Hop3 & _).
  { rewrite Ebc2. by apply list_lookup_insert_eq. }
  1-5: rewrite ?Elg2, ?Hg; done || lia.
  rewrite (bind_ok _ _ _ _ _ E3). clear E3. simpl in Hcs3, Hli3. rewrite Hblk in Hcs3, Hli3.
  rewrite Ebc2, list_insert_insert_eq in Ebc3.
  set (b3 := {| b with b_flags := Z.lor (b_flags b) B_DIRTY; b_data := x |}).
  destruct (brelse_ok U pid [k] _ s3 k b3 Hcs3 Hk) as (s4 & -> & Hcs4 & Edk4 & [Eds4 Elg4 Eic4] & _).
  { rewrite Ebc3. by apply list_lookup_insert_eq. }
  { intros _. right. simpl. rewrite Hblk, fupd_eq. split; [| done].
    destruct (Hrest Hdv) as [(Ef & _) | (Ef & _)]; simpl in Ef; by rewrite Ef. }
  rewrite (filter_cons_False (.≠ k)) in Hcs4 by naive_solver.
  exists s4. split; [done |]. split; [done | congruence | congruence | congruence |]. rewrite Elg4.
  split; [done | done | congruence | rewrite Hop3; congruence].
Qed.

Lemma lsub_split data tot m n :
  0 <= tot -> 0 <= m -> 0 <= n -> lsub data tot (m + n) = lsub data tot m ++ lsub data (tot + m) n.
Proof.
  intros. unfold lsub. replace (Z.to_nat (m + n)) with (Z.to_nat m + Z.to_nat n)%nat by lia.
  replace (Z.to_nat (tot + m)) with (Z.to_nat tot + Z.to_nat m)%nat by lia.
  by rewrite <- drop_drop, take_take_drop.
Qed.

Lemma length_lsub data tot m :
  0 <= tot -> 0 <= m -> tot + m <= Z.of_nat (length data) -> length (lsub data tot m) = Z.to_nat m.
Proof. intros. unfold lsub. rewrite length_take, length_drop. lia. Qed.

Lemma writei_loop_exec C s0 i ip b0 b1 data fuel : forall Q pend bs s tot off n,
  writing pend bs s0 s -> icache s0 !! i = Some ip ->
  laid_out U (disksize s0) (view (disk s0) pend) ip b0 b1 -> separate (view (disk s0) pend) ip b0 b1 ->
  0 <= tot <= n -> n = Z.of_nat (length data) -> 0 <= off -> b0 <= off / BSIZE ->
  (tot < n -> (off + (n - tot) - 1) / BSIZE <= b1) ->
  (0 < fuel)%nat -> (tot < n -> (off mod BSIZE + (n - tot) + BSIZE - 1) / BSIZE < Z.of_nat fuel) ->
  (tot < n -> Z.of_nat (length bs) + (off mod BSIZE + (n - tot) + BSIZE - 1) / BSIZE <= sz - 1) -> C (disk s0) ->
  (forall pend' bs' s', writing pend' bs' s0 s' ->
     written U ip b0 b1 (view (disk s0) pend) (view (disk s0) pend') off (lsub data tot (n - tot)) ->
     Z.of_nat (length bs') <= Z.of_nat (length bs) + (if tot <? n then (off mod BSIZE + (n - tot) + BSIZE - 1) / BSIZE else 0) ->
     Q (off + (n - tot)) s') ->
  exec C Q (writei_loop fuel i (get_local data) tot off n s).
Proof using Hturns HU dspec Hsz.
  induction fuel as [| fuel IH]; intros Q pend bs s tot off n Hwr Hi Hlo Hsep Htot Hn Hoff Hb0 Hb1 Hf0 Hf Hroom HC HQ; [lia |].
  cbn [writei_loop]. destruct (Z.ltb_spec tot n) as [Hlt | Hge].
  2:{ cbn [exec ret]. replace (n - tot) with 0 in HQ by lia. rewrite !Z.add_0_r in HQ.
      eapply HQ; [exact Hwr | apply written_nil | done]. }
  specialize (Hb1 Hlt). specialize (Hf Hlt). specialize (Hroom Hlt). pose proof Hlo as [Hdev Hlen Hmax Hwhole Hblocks Hind].
  pose proof Hwr as [Hcs Hd Hz Hic Hlog]. assert (icache s !! i = Some ip) as Hi' by (by rewrite (kept_icache _ _ Hic)).
  rewrite (bind_ok _ _ _ _ _ (geti_ok s i ip Hi')). rewrite Hdev. rewrite <- Hd, <- Hz in Hlo.
  assert (b0 <= off / BSIZE <= b1) as Hbn by (unfold BSIZE in *; zdiv).
  destruct (Hblocks _ Hbn) as [_ HinU]. destruct (Hwhole _ HinU) as [Hwl Hrange].
  apply exec_bind. apply (bmap_exec Hturns U HU pid C _ pend s s i ip b0 b1); try done; [by rewrite Hd |].
  rewrite Hd. intros s1 Hst1.
  set (blk := block_of (view (disk s0) pend) ip (off / BSIZE)) in *.
  assert (writing pend bs s0 s1) as Hwr1 by (by eapply still_writing).
  apply exec_bind. apply (bread_view Hturns U HU pid C _ pend s1 s1); [by eapply writing_still | done | | |].
  { rewrite (wi_disksize _ _ _ _ Hwr1). done. } { by rewrite (wi_disk _ _ _ _ Hwr1). }
  intros k s2 b Hop. rewrite (wi_disk _ _ _ _ Hwr1) in Hop.
  set (m := Z.min (n - tot) (BSIZE - off mod BSIZE)).
  assert (0 < m <= n - tot /\ off mod BSIZE + m <= BSIZE) as [Hm Hmb].
  { pose proof (Z.mod_pos_bound off BSIZE ltac:(done)). unfold m. lia. }
  unfold get_local at 1. rewrite bind_ret. unfold bdata.
  rewrite bind_assoc, (bind_ok _ _ _ _ _ (getb_ok s2 k b (op_buf _ _ _ _ _ _ _ _ _ Hop))), bind_ret.
  rewrite (op_data _ _ _ _ _ _ _ _ _ Hop). set (src := lsub data tot m).
  assert (length src = Z.to_nat m) as Hsrc by (apply length_lsub; lia).
  assert (1 <= (off mod BSIZE + (n - tot) + BSIZE - 1) / BSIZE) as Hcount by (unfold BSIZE in *; zdiv).
  edestruct (log_block pend bs s0 s1 s2 k b blk) as (s3 & E & Hwr3); [exact Hwr1 | exact Hop | lia |].
  rewrite (seq3_ok _ _ _ _ _ _ E). clear E.
  pose proof (written_chunk U ip b0 b1 (view (disk s0) pend) off src Hsep Hoff Hbn Hwl ltac:(lia)) as Hch.
  fold blk in Hch. cbv zeta in Hch. rewrite <- view_fupd in Hch. rewrite Hd, Hz in Hlo.
  eapply (IH _ _ _ s3 (tot + m) (off + m) n); [exact Hwr3 | done | by eapply laid_out_written | by eapply separate_written | lia | done | lia | | | | | | done |].
  - unfold BSIZE in *. zdiv.
  - intros Hlt'. by replace (off + m + (n - (tot + m)) - 1) with (off + (n - tot) - 1) by lia.
  - unfold BSIZE in *. zdiv.
  - intros Hlt'. unfold m, BSIZE in *. zdiv.
  - intros Hlt'. pose proof (absorb_length bs blk). unfold m, BSIZE in *. zdiv.
  - intros pend' bs' s' Hwr' Hw' Hbs'. replace (off + (n - tot)) with (off + m + (n - (tot + m))) in HQ by lia.
    eapply HQ; [exact Hwr' | |].
    2:{ pose proof (absorb_length bs blk).
        destruct (Z.ltb_spec (tot + m) n); unfold m, BSIZE in *; zdiv. }
    replace (n - tot) with (m + (n - (tot + m))) by lia. rewrite lsub_split by lia.
    eapply written_app; [exact Hch |]. fold src. rewrite Hsrc, Z2Nat.id by lia. exact Hw'.
Qed.

(** What [iupdate] writes for an inode. *)
Definition dinode_of (ip : inode) : dinode :=
  mkDinode (i_type ip) (i_major ip) (i_minor ip) (i_nlink ip) (i_size ip) (i_addrs ip).

End Writing.

(** ** The operations *)

Section Operations.
Context {turns : Turns} {dk : Disk} {dspec : DiskSpec} (Hturns : (0 < max_turns)%nat).
Context (U : list Z) (HU : NoDup U) (pid : Z).

Lemma turns_enough off n : 0 <= off -> 0 <= n -> (off mod BSIZE + n + BSIZE - 1) / BSIZE < Z.of_nat (turns_for n).
Proof. intros. unfold turns_for. rewrite !Nat2Z.inj_succ, Z2Nat.id by (unfold BSIZE; zdiv). unfold BSIZE. zdiv. Qed.

Lemma readi_exec C Q pend s0 s i ip off n :
  still U pid pend s0 s -> icache s0 !! i = Some ip -> i_type ip <> T_DEV ->
  0 <= off <= i_size ip -> 0 <= n -> off + n < 4294967296 -> is_u32 (i_size ip) ->
  laid_out U (disksize s0) (view (disk s0) pend) ip (off / BSIZE) ((off + Z.min n (i_size ip - off) - 1) / BSIZE) ->
  C (disk s0) ->
  (forall s', still U pid pend s0 s' ->
     Q (Z.min n (i_size ip - off), range_of (view (disk s0) pend) ip off (Z.min n (i_size ip - off))) s') ->
  exec C Q (readi i put_local off n s).
Proof using Hturns HU dspec.
  intros Hst Hi Hty Hoff Hn Hsum Hsize Hlo HC HQ. unfold readi. unfold is_u32 in Hsize.
  assert (icache s !! i = Some ip) as Hi' by (by rewrite (still_icache _ _ _ _ _ Hst)).
  rewrite (bind_ok _ _ _ _ _ (geti_ok s i ip Hi')). rewrite (proj2 (Z.eqb_neq _ _)) by done.
  rewrite u32_small by (unfold is_u32; lia). rewrite (proj2 (Z.ltb_ge (i_size ip) off)), (proj2 (Z.ltb_ge (off + n) off)) by lia.
  cbn [orb]. cbv zeta.
  replace (if i_size ip <? off + n then i_size ip - off else n) with (Z.min n (i_size ip - off))
    by (destruct (Z.ltb_spec (i_size ip) (off + n)); lia).
  set (n' := Z.min n (i_size ip - off)) in *. apply exec_bind.
  eapply (readi_loop_exec Hturns U HU pid C pend s0 i ip); [exact Hst | done | exact Hlo | lia | lia | done | | unfold turns_for; lia | | done |].
  - intros _. by replace (off + (n' - 0) - 1) with (off + n' - 1) by lia.
  - intros _. rewrite Z.sub_0_r. apply turns_enough; lia.
  - intros s' Hst'. rewrite Z.sub_0_r. cbn [exec ret]. by apply HQ.
Qed.

End Operations.

(** [readi] of a file or directory returns the bytes of the file from the
    offset on, as many as asked for but none beyond the end of the file: they come
    from the direct blocks and, past the twelfth, from the blocks the indirect
    block names, block boundaries anywhere in the range; a block changed in the
    current transaction is read as changed.  An offset beyond the end, or a range
    that wraps around, gives -1.  Nothing on the disk, in the log or in the inode
    changes. *)
Theorem readi_spec {turns : Turns} {dk : Disk} {dspec : DiskSpec} U pid pend s i ip off n :
  (0 < max_turns)%nat -> NoDup U -> cstate U pid [] pend s -> icache s !! i = Some ip -> i_type ip <> T_DEV ->
  is_u32 off -> is_u32 n -> is_u32 (i_size ip) ->
  let w := view (disk s) pend in
  let n' := Z.min n (i_size ip - off) in
  (i_size ip < off \/ 4294967296 <= off + n -> readi i put_local off n s = Ok (-1, []) s) /\
  (off <= i_size ip -> off + n < 4294967296 ->
   laid_out U (disksize s) w ip (off / BSIZE) ((off + n' - 1) / BSIZE) ->
   exec (fun d => d = disk s) (fun r s' => r = (n', range_of w ip off n') /\ still U pid pend s s')
     (readi i put_local off n s)).
Proof.
  intros Ht HU Hcs Hi Hty Hoff Hn Hsize w n'. unfold is_u32 in *. split.
  - intros Hbad. unfold readi. rewrite (bind_ok _ _ _ _ _ (geti_ok s i ip Hi)), (proj2 (Z.eqb_neq _ _)) by done.
    replace ((i_size ip <? off) || (u32 (off + n) <? off))%bool with true; [done |]. symmetry. apply orb_true_iff.
    rewrite !Z.ltb_lt. destruct Hbad as [Hbad | Hbad]; [by left |]. right. unfold u32. zdiv.
  - intros Hle Hsum Hlo. apply (readi_exec Ht U HU pid _ _ pend s s i ip); try done; lia.
Qed.


(** ** A file of 600 bytes in the blocks 100 and 101 *)

Definition small_file : inode := mkInode 1 5 1 1 2 0 0 1 600 ([100; 101] ++ replicate 11 0).
Definition file_machine : kstate := set_icache [small_file] tx_machine.

Lemma calm_icache pid v s : calm pid s -> calm pid (set_icache v s).
Proof. by apply (calm_frame (set_icache v)). Qed.

Lemma file_machine_cstate : cstate [100; 101] 7 [] (fun _ => None) file_machine.
Proof.
  apply (cold_cstate [100; 101] 7); [| reflexivity | reflexivity | unfold NBUF; simpl; lia].
  apply calm_icache, tx_machine_calm.
Qed.

Lemma small_file_block bn : 0 <= bn <= 1 -> block_of (view (disk file_machine) (fun _ => None)) small_file bn = 100 + bn.
Proof. intros Hbn. assert (bn = 0 \/ bn = 1) as [-> | ->] by lia; reflexivity. Qed.

Lemma small_file_laid_out :
  laid_out [100; 101] 1000 (view (disk file_machine) (fun _ => None)) small_file 0 1.
Proof.
  split.
  - reflexivity.
  - reflexivity.
  - change MAXFILE with 140. lia.
  - intros blk Hblk. rewrite !elem_of_cons, elem_of_nil in Hblk. split; [reflexivity | lia].
  - intros bn Hbn. rewrite small_file_block, !elem_of_cons by done. lia.
  - unfold NDIRECT. lia.
Qed.

Lemma readi_spec_witness :
  exec (fun d => d = disk file_machine) (fun r s' => r = (50, replicate 50 0))
    (@readi 1%nat (Memide.mem_disk 0) 0 put_local 500 50 file_machine).
Proof.
  destruct (@readi_spec 1%nat (Memide.mem_disk 0) _ [100; 101] 7 (fun _ => None) file_machine 0 small_file 500 50) as [_ H].
  - unfold max_turns. lia.
  - apply NoDup_cons. split; [by intros ?%list_elem_of_singleton | apply NoDup_singleton].
  - apply file_machine_cstate.
  - reflexivity.
  - unfold T_DEV. simpl. lia.
  - unfold is_u32. lia.
  - unfold is_u32. lia.
  - unfold is_u32. simpl. lia.
  - eapply exec_mono; [apply H | done |].
    + simpl. lia.
    + lia.
    + apply (laid_out_sub _ _ _ _ 0 1); [apply small_file_laid_out | vm_compute; discriminate | vm_compute; discriminate].
    + intros r s' [-> _]. vm_compute. reflexivity.
Defined.

Lemma file_machine_writing : writing [100; 101] 7 2 30 (fun _ => None) [] file_machine file_machine.
Proof. split; [apply file_machine_cstate | reflexivity | reflexivity | reflexivity |]. split; [split; reflexivity | reflexivity | reflexivity | simpl; lia]. Qed.

