(* ===== verification/FsAbs.v ===== *)
(** The file system without its machinery.

    The operations of [fs.c] on the contents of the blocks and the inodes in
    memory, as a process inside a transaction sees them: there are no buffers to
    find, no log and no locks of the cache.  What the machinery limits stays: a
    transaction has room for so many blocks, a block that is in use is not read
    again, an inode is locked once.  An operation that would panic, deadlock or
    pass a limit has no result.  FsRefine.v proves that the kernel's operations
    behave like these. *)

From stdpp Require Import sets.
From S2P Require Import Prelude Params Mem CString Machine Bio BioSpec Log LogSpec Transaction Inode ConsoleDev Fs FileSpec.

(** ** States and programs *)

Record fstate := FState {
  f_blk : Z -> list Z;      (** the contents of the blocks *)
  f_log : list Z;           (** the blocks changed in the transaction *)
  f_open : list Z;          (** the blocks in use *)
  f_ic : list inode;        (** the inodes in memory *)
  f_held : nat -> bool;     (** the inodes this process has locked *)
  f_sb : superblock }.

Definition F (A : Type) : Type := fstate -> option (A * fstate).
Definition fret {A} (a : A) : F A := fun σ => Some (a, σ).
Definition fbind {A B} (m : F A) (k : A -> F B) : F B := fun σ => '(a, σ') ← m σ; k a σ'.
Definition ffail {A} : F A := fun _ => None.

Declare Scope fs_scope.
Delimit Scope fs_scope with fs.
Notation "'let!' x ':=' m 'in' k" := (fbind m (fun x => k))
  (at level 10, x binder, m at level 100, k at level 200) : fs_scope.
Notation "'do!' m 'in' k" := (fbind m (fun _ => k)) (at level 10, m at level 100, k at level 200) : fs_scope.
Local Open Scope fs_scope.

Definition fwhen (b : bool) (m : F unit) : F unit := if b then m else fret tt.
Definition fsome {A} (o : option A) : F A := match o with Some a => fret a | None => ffail end.

Fixpoint ffor {I} (l : list I) (body : I -> F unit) : F unit :=
  match l with
  | [] => fret tt
  | i :: l' => do! body i in ffor l' body
  end.

Fixpoint ffor_ret {I R} (l : list I) (body : I -> F (option R)) : F (option R) :=
  match l with
  | [] => fret None
  | i :: l' => let! r := body i in match r with Some x => fret (Some x) | None => ffor_ret l' body end
  end.

(** The blocks the process may use, the size of the disk, and the number of
    blocks a transaction may change. *)
Class Limits := { fs_set : list Z; fs_blocks : Z; fs_max : Z }.

Section Operations.
Context `{Limits}.

(** ** Blocks *)

Definition fopen (dev blk : Z) : F unit := fun σ =>
  if decide (dev = 1 /\ blk ∈ fs_set /\ 0 <= blk < fs_blocks /\ blk ∉ f_open σ)
  then Some (tt, {| σ with f_open := blk :: f_open σ |}) else None.
Definition fdata (blk : Z) : F (list Z) := fun σ => if decide (blk ∈ f_open σ) then Some (f_blk σ blk, σ) else None.
(** Changing a block and logging it. *)
Definition fput (blk : Z) (d : list Z) : F unit := fun σ =>
  if decide (blk ∈ f_open σ /\ Z.of_nat (length (f_log σ)) < fs_max)
  then Some (tt, {| σ with f_blk := fupd (f_blk σ) blk d; f_log := absorb (f_log σ) blk |}) else None.
Definition fclose (blk : Z) : F unit := fun σ =>
  match f_open σ with
  | b :: bs => if decide (b = blk) then Some (tt, {| σ with f_open := bs |}) else None
  | [] => None
  end.

Definition fsb : F superblock := fun σ => Some (f_sb σ, σ).

Definition fbzero (dev bno : Z) : F unit :=
  do! fopen dev bno in do! fput bno (replicate (Z.to_nat BSIZE) 0) in fclose bno.

Definition fballoc (dev : Z) : F Z :=
  let! sb := fsb in
  let! r := ffor_ret (bitmap_starts (sb_size sb)) (fun b =>
    do! fopen dev (BBLOCK b sb) in
    let! d := fdata (BBLOCK b sb) in
    match free_bit d b (sb_size sb) with
    | Some bi =>
        do! fput (BBLOCK b sb) (lset8 d (bi / 8) (Z.lor (lget8 d (bi / 8)) (Z.shiftl 1 (bi mod 8)))) in
        do! fclose (BBLOCK b sb) in
        do! fbzero dev (b + bi) in
        fret (Some (b + bi))
    | None => do! fclose (BBLOCK b sb) in fret None
    end) in
  fsome r.

Definition fbfree (dev b : Z) : F unit :=
  let! sb := fsb in
  do! fopen dev (BBLOCK b sb) in
  let! d := fdata (BBLOCK b sb) in
  let bi := b mod BPB in
  if bit_free d bi then ffail
  else
    do! fput (BBLOCK b sb) (lset8 d (bi / 8) (Z.land (lget8 d (bi / 8)) (Z.lnot (Z.shiftl 1 (bi mod 8))))) in
    fclose (BBLOCK b sb).

(** ** Inodes *)

Definition fgeti (i : nat) : F inode := fun σ => ip ← f_ic σ !! i; Some (ip, σ).
Definition fmodi (i : nat) (f : inode -> inode) : F unit := fun σ =>
  ip ← f_ic σ !! i; Some (tt, {| σ with f_ic := <[i := f ip]> (f_ic σ) |}).

Definition figet (dev inum : Z) : F nat := fun σ =>
  match list_find (fun ip => 0 < i_ref ip /\ i_dev ip = dev /\ i_inum ip = inum) (f_ic σ) with
  | Some (i, ip) => Some (i, {| σ with f_ic := <[i := {| ip with i_ref := i_ref ip + 1 |}]> (f_ic σ) |})
  | None =>
      match list_find (fun ip => i_ref ip = 0) (f_ic σ) with
      | Some (i, ip) =>
          Some (i, {| σ with f_ic := <[i := {| ip with i_dev := dev; i_inum := inum; i_ref := 1; i_valid := 0 |}]> (f_ic σ) |})
      | None => None
      end
  end.

Definition fialloc (dev type : Z) : F nat :=
  let! sb := fsb in
  let! r := ffor_ret (seqZ 1 (sb_ninodes sb - 1)) (fun inum =>
    do! fopen dev (IBLOCK inum sb) in
    let! d := fdata (IBLOCK inum sb) in
    if di_type (get_dinode d inum) =? 0 then
      do! fput (IBLOCK inum sb) (put_dinode d inum {| dinode0 with di_type := type |}) in
      do! fclose (IBLOCK inum sb) in
      let! i := figet dev inum in
      fret (Some i)
    else do! fclose (IBLOCK inum sb) in fret None) in
  fsome r.

Definition fiupdate (i : nat) : F unit :=
  let! ip := fgeti i in
  let! sb := fsb in
  do! fopen (i_dev ip) (IBLOCK (i_inum ip) sb) in
  let! d := fdata (IBLOCK (i_inum ip) sb) in
  do! fput (IBLOCK (i_inum ip) sb) (put_dinode d (i_inum ip) (dinode_of ip)) in
  fclose (IBLOCK (i_inum ip) sb).

Definition fidup (i : nat) : F nat := do! fmodi i (fun ip => {| ip with i_ref := i_ref ip + 1 |}) in fret i.

(** Locking an inode that is free, and unlocking one that is held. *)
Definition flock (i : nat) : F unit := fun σ =>
  if f_held σ i then None else Some (tt, {| σ with f_held := fupd (f_held σ) i true |}).
Definition funlock (i : nat) : F unit := fun σ =>
  if f_held σ i then Some (tt, {| σ with f_held := fupd (f_held σ) i false |}) else None.

Definition filock (i : nat) : F unit :=
  let! ip := fgeti i in
  if i_ref ip <? 1 then ffail
  else
    do! flock i in
    let! ip := fgeti i in
    fwhen (i_valid ip =? 0)
      (let! sb := fsb in
       do! fopen (i_dev ip) (IBLOCK (i_inum ip) sb) in
       let! d := fdata (IBLOCK (i_inum ip) sb) in
       let di := get_dinode d (i_inum ip) in
       do! fmodi i (fun ip => {| ip with i_type := di_type di; i_major := di_major di;
         i_minor := di_minor di; i_nlink := di_nlink di; i_size := di_size di; i_addrs := di_addrs di |}) in
       do! fclose (IBLOCK (i_inum ip) sb) in
       do! fmodi i (fun ip => {| ip with i_valid := 1 |}) in
       let! ip := fgeti i in
       if i_type ip =? 0 then ffail else fret tt).

Definition fiunlock (i : nat) : F unit :=
  let! ip := fgeti i in
  if i_ref ip <? 1 then ffail else funlock i.

(** ** Contents *)

Definition fset_addr (i : nat) (k a : Z) : F unit :=
  fmodi i (fun ip => {| ip with i_addrs := <[Z.to_nat k := a]> (i_addrs ip) |}).
Definition fget_addr (i : nat) (k : Z) : F Z := let! ip := fgeti i in fsome (i_addrs ip !! Z.to_nat k).

Definition fbmap (i : nat) (bn : Z) : F Z :=
  let! ip := fgeti i in
  if bn <? NDIRECT then
    let! addr := fget_addr i bn in
    if addr =? 0 then let! a := fballoc (i_dev ip) in do! fset_addr i bn a in fret a
    else fret addr
  else
    let bn := bn - NDIRECT in
    if bn <? NINDIRECT then
      let! addr := fget_addr i NDIRECT in
      let! addr := (if addr =? 0 then let! a := fballoc (i_dev ip) in do! fset_addr i NDIRECT a in fret a
                    else fret addr) in
      do! fopen (i_dev ip) addr in
      let! d := fdata addr in
      let! r := (if lget32 d (4 * bn) =? 0 then
                   let! a := fballoc (i_dev ip) in
                   let! d := fdata addr in
                   do! fput addr (lset32 d (4 * bn) a) in
                   fret a
                 else fret (lget32 d (4 * bn))) in
      do! fclose addr in
      fret r
    else ffail.

Definition fitrunc (i : nat) : F unit :=
  let! ip := fgeti i in
  do! ffor (seqZ 0 NDIRECT) (fun k =>
    let! a := fget_addr i k in
    fwhen (negb (a =? 0)) (do! fbfree (i_dev ip) a in fset_addr i k 0)) in
  let! a := fget_addr i NDIRECT in
  do! fwhen (negb (a =? 0))
    (do! fopen (i_dev ip) a in
     let! d := fdata a in
     do! ffor (seqZ 0 NINDIRECT) (fun j =>
       let b := lget32 d (4 * j) in
       fwhen (negb (b =? 0)) (fbfree (i_dev ip) b)) in
     do! fclose a in
     let! a := fget_addr i NDIRECT in
     do! fbfree (i_dev ip) a in
     fset_addr i NDIRECT 0) in
  do! fmodi i (fun ip => {| ip with i_size := 0 |}) in
  fiupdate i.

Definition fiput (i : nat) : F unit :=
  do! flock i in
  let! ip := fgeti i in
  do! fwhen (negb (i_valid ip =? 0) && (i_nlink ip =? 0))%bool
    (let! ip := fgeti i in
     fwhen (i_ref ip =? 1)
       (do! fitrunc i in
        do! fmodi i (fun ip => {| ip with i_type := 0 |}) in
        do! fiupdate i in
        fmodi i (fun ip => {| ip with i_valid := 0 |}))) in
  do! funlock i in
  fmodi i (fun ip => {| ip with i_ref := i_ref ip - 1 |}).

Definition fiunlockput (i : nat) : F unit := do! fiunlock i in fiput i.

Fixpoint freadi_loop (fuel : nat) (i : nat) (tot off n : Z) : F (list Z) :=
  match fuel with
  | O => ffail
  | S fuel' =>
      if tot <? n then
        let! ip := fgeti i in
        let! a := fbmap i (off / BSIZE) in
        do! fopen (i_dev ip) a in
        let m := Z.min (n - tot) (BSIZE - off mod BSIZE) in
        let! d := fdata a in
        do! fclose a in
        let! r := freadi_loop fuel' i (tot + m) (off + m) n in
        fret (lsub d (off mod BSIZE) m ++ r)
      else fret []
  end.

(** Reading and writing files and directories; devices are not covered. *)
Definition freadi (i : nat) (off n : Z) : F (Z * list Z) :=
  let! ip := fgeti i in
  if i_type ip =? T_DEV then ffail
  else if ((i_size ip <? off) || (u32 (off + n) <? off))%bool then fret (-1, [])
  else
    let n := if i_size ip <? u32 (off + n) then i_size ip - off else n in
    let! r := freadi_loop (turns_for n) i 0 off n in
    fret (n, r).

Fixpoint fwritei_loop (fuel : nat) (i : nat) (src : list Z) (tot off n : Z) : F Z :=
  match fuel with
  | O => ffail
  | S fuel' =>
      if tot <? n then
        let! ip := fgeti i in
        let! a := fbmap i (off / BSIZE) in
        do! fopen (i_dev ip) a in
        let m := Z.min (n - tot) (BSIZE - off mod BSIZE) in
        let! d := fdata a in
        do! fput a (lblit d (off mod BSIZE) (lsub src tot m)) in
        do! fclose a in
        fwritei_loop fuel' i src (tot + m) (off + m) n
      else fret off
  end.

Definition fwritei (i : nat) (src : list Z) (off n : Z) : F Z :=
  let! ip := fgeti i in
  if i_type ip =? T_DEV then ffail
  else if ((i_size ip <? off) || (u32 (off + n) <? off))%bool then fret (-1)
  else if MAXFILE * BSIZE <? u32 (off + n) then fret (-1)
  else
    let! off := fwritei_loop (turns_for n) i src 0 off n in
    let! ip := fgeti i in
    do! fwhen ((0 <? n) && (i_size ip <? off))%bool
      (do! fmodi i (fun ip => {| ip with i_size := off |}) in fiupdate i) in
    fret n.

(** ** Directories and paths *)

Definition fdirlookup (dp : nat) (name : list Z) : F (option (nat * Z)) :=
  let! d := fgeti dp in
  if negb (i_type d =? T_DIR) then ffail
  else
    ffor_ret (dir_offsets (i_size d)) (fun off =>
      let! r := freadi dp off SIZEOF_DIRENT in
      if negb (r.1 =? SIZEOF_DIRENT) then ffail
      else
        let de := dirent_of r.2 in
        if de_inum de =? 0 then fret None
        else
          let! c := fsome (namecmp name (de_name de)) in
          if c =? 0 then let! ip := figet (i_dev d) (de_inum de) in fret (Some (ip, off))
          else fret None).

Definition fdirlink (dp : nat) (name : list Z) (inum : Z) : F Z :=
  let! r := fdirlookup dp name in
  match r with
  | Some (ip, _) => do! fiput ip in fret (-1)
  | None =>
      let! d := fgeti dp in
      let! empty := ffor_ret (dir_offsets (i_size d)) (fun off =>
        let! r := freadi dp off SIZEOF_DIRENT in
        if negb (r.1 =? SIZEOF_DIRENT) then ffail
        else if de_inum (dirent_of r.2) =? 0 then fret (Some off) else fret None) in
      let off := default (SIZEOF_DIRENT * ((i_size d + SIZEOF_DIRENT - 1) / SIZEOF_DIRENT)) empty in
      let! nm := fsome (strncpy (replicate DIRSIZ 0) name (Z.of_nat DIRSIZ)) in
      let! r := fwritei dp (dirent_bytes (mkDirent (u16 inum) nm)) off SIZEOF_DIRENT in
      if negb (r =? SIZEOF_DIRENT) then ffail else fret 0
  end.

Fixpoint fnamex_loop (fuel : nat) (nameiparent : bool) (path : list Z) (ip : nat) : F (option (nat * list Z)) :=
  match fuel with
  | O => ffail
  | S fuel' =>
      match skipelem path with
      | None => if nameiparent then do! fiput ip in fret None else fret (Some (ip, []))
      | Some (name, path) =>
          do! filock ip in
          let! d := fgeti ip in
          if negb (i_type d =? T_DIR) then do! fiunlockput ip in fret None
          else if (nameiparent && bool_decide (path = []))%bool then
            do! fiunlock ip in fret (Some (ip, name))
          else
            let! next := fdirlookup ip name in
            do! fiunlockput ip in
            match next with
            | None => fret None
            | Some (next, _) => fnamex_loop fuel' nameiparent path next
            end
      end
  end.

(** A path from the root. *)
Definition fnamex (path : list Z) (nameiparent : bool) : F (option (nat * list Z)) :=
  if bool_decide (head path = Some 47) then
    let! ip := figet ROOTDEV ROOTINO in fnamex_loop (S (length path)) nameiparent path ip
  else ffail.
End Operations.
