(* ===== verification/FsRefine.v ===== *)
(** The kernel's file system refines the one without its machinery: run by one
    process inside a transaction, each operation of [fs.c] has the result and the
    effect of its counterpart in FsAbs.v, or the power fails before anything has
    reached the disk. *)

From stdpp Require Import sets.
From S2P Require Import Prelude Params Mem CString Machine Spinlock Console Vm Proc ProcSpec Sleeplock Ide.
From S2P Require Import Quiet Bio BioSpec Log LogSpec Transaction Inode ConsoleDev Fs FileSpec FsAbs.
From Stdlib Require Import FunctionalExtensionality.

Lemma snd_unique (hs : list (nat * Z)) j k x : NoDup hs.*2 -> (j, x) ∈ hs -> (k, x) ∈ hs -> j = k.
Proof.
  intros Hnd Hj Hk. apply list_elem_of_lookup in Hj as [a Ha]. apply list_elem_of_lookup in Hk as [b Hb].
  assert (a = b) as ->; [| congruence]. eapply (NoDup_lookup hs.*2); [done | |]; by rewrite list_lookup_fmap, ?Ha, ?Hb.
Qed.

Create HintDb refine discriminated.
#[export] Hint Constants Opaque : refine.

Section Rules.
Context {turns : Turns} {dk : Disk} {dspec : DiskSpec} (Hturns : (0 < max_turns)%nat).
Context {limits : Limits} (U : list Z) (HU : NoDup U) (Hsub : forall x, x ∈ fs_set -> x ∈ U).
Context (pid st sz : Z) (Hroom : fs_max <= LOGSIZE /\ fs_max <= sz - 1) (d0 : Z -> list Z).

(** ** The states the two have in common *)

Definition pend_of (σ : fstate) (x : Z) : option (list Z) := if decide (x ∈ f_log σ) then Some (f_blk σ x) else None.

(** The buffer [kb.1] is locked and holds block [kb.2]. *)
Definition holds_block (σ : fstate) (s : kstate) (kb : nat * Z) : Prop :=
  exists v, bv s kb.1 = Some v /\ v_dev v = 1 /\ v_blk v = kb.2 /\ v_data v = f_blk σ kb.2 /\ at_rest d0 (pend_of σ) v.

(** The log of a transaction with a single open operation. *)
Record one_op (bs : list Z) (l : logst) : Prop := {
  oo_open : open_log st sz bs l;
  oo_single : log_outstanding l = 1;
  oo_idle : log_committing l = 0 }.

Record abs (hs : list (nat * Z)) (σ : fstate) (s : kstate) : Prop := {
  ab_cache : cstate U pid hs.*1 (pend_of σ) s;
  ab_open : f_open σ = hs.*2;
  ab_apart : NoDup hs.*2;
  ab_set : forall x, x ∈ hs.*2 -> x ∈ fs_set /\ 0 <= x < fs_blocks;
  ab_bufs : Forall (holds_block σ s) hs;
  ab_disk : disk s = d0;
  ab_size : disksize s = fs_blocks;
  ab_rest : forall x, x ∈ fs_set -> x ∉ f_log σ -> f_blk σ x = d0 x;
  ab_logged : NoDup (f_log σ) /\ (forall x, x ∈ f_log σ -> x ∈ fs_set) /\ Z.of_nat (length (f_log σ)) <= Z.max 0 fs_max;
  ab_log : one_op (f_log σ) (log s);
  ab_inodes : inodes s = (f_ic σ, f_sb σ);
  ab_locks : forall i, if f_held σ i then sl_held pid s (SlInode i) else sl_locked (sleeplocks s (SlInode i)) = 0 }.

(** ** Refinement

    [ref h h' m p]: with the buffers [h] (and any others) locked, [m] does what
    [p] does, and leaves the buffers [h'] (and those others) locked. *)

Definition ref {A} (h h' : list (nat * Z)) (m : M A) (p : F A) : Prop :=
  forall hs σ s a σ', abs (h ++ hs) σ s -> p σ = Some (a, σ') ->
    exec (fun d => d = d0) (fun a' s' => a' = a /\ abs (h' ++ hs) σ' s') (m s).

Lemma ref_ret {A} h (a : A) : ref h h (ret a) (fret a).
Proof. intros hs σ s a' σ' Hab E. injection E as -> ->. by split. Qed.

Lemma ref_bind {A B} h h1 h2 (m : M A) (f : A -> M B) p (g : A -> F B) :
  ref h h1 m p -> (forall a, ref h1 h2 (f a) (g a)) -> ref h h2 (bind m f) (fbind p g).
Proof.
  intros Hm Hf hs σ s b σ2 Hab E. unfold fbind in E. destruct (p σ) as [[a σ1] |] eqn:Ep; [| done].
  apply exec_bind. eapply exec_mono; [by eapply Hm | done |]. intros a' s1 [-> Hab1]. by eapply Hf.
Qed.

Lemma ref_ffail {A} h h' (m : M A) : ref h h' m ffail.
Proof. by intros hs σ s a σ' _ E. Qed.

Lemma ref_unwrap {A} h (o : option A) : ref h h (unwrap o) (fsome o).
Proof. destruct o; [apply ref_ret | apply ref_ffail]. Qed.

Lemma ref_if {A} h h' (b : bool) (m1 m2 : M A) p1 p2 :
  (b = true -> ref h h' m1 p1) -> (b = false -> ref h h' m2 p2) -> ref h h' (if b then m1 else m2) (if b then p1 else p2).
Proof. destruct b; auto. Qed.

Lemma ref_when h (b : bool) m p : ref h h m p -> ref h h (when b m) (fwhen b p).
Proof. destruct b; [done |]. intros _. apply ref_ret. Qed.

Lemma ref_forM {I} h (l : list I) body fbody :
  (forall i, ref h h (body i) (fbody i)) -> ref h h (forM l body) (ffor l fbody).
Proof. intros Hb. induction l as [| i l IH]; [apply ref_ret |]. by eapply ref_bind. Qed.

Lemma ref_for_ret {I R} h (l : list I) (body : I -> M (option R)) fbody :
  (forall i, ref h h (body i) (fbody i)) -> ref h h (for_ret l body) (ffor_ret l fbody).
Proof.
  intros Hb. induction l as [| i l IH]; [apply ref_ret |]. eapply ref_bind; [done |].
  intros [x |]; [apply ref_ret | done].
Qed.

Lemma ref_assoc {A B D} h h' (m : M A) (f : A -> M B) (k : B -> M D) p :
  ref h h' (bind m (fun a => bind (f a) k)) p -> ref h h' (bind (bind m f) k) p.
Proof. intros Hr hs σ s a σ' Hab E. rewrite bind_assoc. by eapply Hr. Qed.

Lemma ref_ret_l {A B} h h' (a : A) (f : A -> M B) p : ref h h' (f a) p -> ref h h' (bind (ret a) f) p.
Proof. intros Hr hs σ s b σ' Hab E. rewrite bind_ret. by eapply Hr. Qed.

Lemma ref_gets_sb h : ref h h (gets sb) fsb.
Proof.
  intros hs σ s a σ' Hab E. injection E as <- <-. simpl. split; [| done].
  pose proof (ab_inodes _ _ _ Hab) as Hi. unfold inodes in Hi. congruence.
Qed.

(** ** Buffers *)

Lemma abs_icache hs σ s : abs hs σ s -> icache s = f_ic σ.
Proof. intros Hab. pose proof (ab_inodes _ _ _ Hab) as Hi. unfold inodes in Hi. congruence. Qed.

Lemma abs_kept hs σ s s' :
  abs hs σ s -> kept s' = kept s ->
  inodes s' = (f_ic σ, f_sb σ) /\
  (forall i, if f_held σ i then sl_held pid s' (SlInode i) else sl_locked (sleeplocks s' (SlInode i)) = 0).
Proof.
  intros Hab Hk. split; [rewrite (kept_inodes _ _ Hk); by apply (ab_inodes _ _ _ Hab) |].
  intros i. pose proof (ab_locks _ _ _ Hab i) as Hl. unfold sl_held in *. by rewrite (kept_locks _ _ i Hk).
Qed.

Lemma held_in hs (σ : fstate) s k blk : abs hs σ s -> (k, blk) ∈ hs -> holds_block σ s (k, blk) /\ k ∈ hs.*1 /\ blk ∈ f_open σ.
Proof.
  intros Hab Hin. split_and!.
  - by apply (proj1 (Forall_forall _ _) (ab_bufs _ _ _ Hab)).
  - by apply (list_elem_of_fmap_2 fst _ (k, blk)).
  - rewrite (ab_open _ _ _ Hab). by apply (list_elem_of_fmap_2 snd _ (k, blk)).
Qed.

(** The other locked buffers. *)
Lemma held_frame σ σ' s s' hs :
  Forall (holds_block σ s) hs ->
  (forall kb, kb ∈ hs -> f_blk σ' kb.2 = f_blk σ kb.2 /\ pend_of σ' kb.2 = pend_of σ kb.2) ->
  (forall kb, kb ∈ hs -> bv s' kb.1 = bv s kb.1) -> Forall (holds_block σ' s') hs.
Proof.
  rewrite !Forall_forall. intros Hb Hσ Hs kb Hin. destruct (Hb kb Hin) as (v & Hv & Hdv & Hbl & Hda & Hre).
  destruct (Hσ kb Hin) as [E1 E2]. exists v. rewrite (Hs kb Hin), E1. split_and!; try done.
  intros Hd. rewrite Hbl, E2, <- Hbl. by apply Hre.
Qed.

Lemma ref_bread {A} h h' dev blk (f : nat -> M A) p :
  (forall k, ref ((k, blk) :: h) h' (f k) p) ->
  ref h h' (bind (bread dev blk) f) (fbind (fopen dev blk) (fun _ => p)).
Proof using Hturns HU Hsub dspec.
  intros Hf hs σ s a σ' Hab E. unfold fbind, fopen in E. case_decide as Hc; [| done].
  destruct Hc as (-> & HinU & Hr & Hno). cbn in E. pose proof Hab as [Hcs Hop Hnd Hset Hb Hd Hz Hre Hlg Hl Hi Hlk].
  apply exec_bind. eapply (bread_exec Hturns U HU pid); [exact Hcs | by apply Hsub | lia | | done |].
  { intros k v Hk Hv Heq. apply Hno. apply list_elem_of_fmap in Hk as ([k' b'] & -> & Hk).
    destruct (proj1 (Forall_forall _ _) Hb _ Hk) as (w & Hw & _ & Hbw & _). simpl in *. rewrite Hv in Hw. simplify_eq.
    rewrite Hop. by apply (list_elem_of_fmap_2 snd _ (k', v_blk w)). }
  intros k s1 v [Hfr Hcs1 Hv1 Hdv Hbk Hrest Hd1 [Hz1 Hlg1 Hk1] Hoth]. eapply (Hf k hs); [| exact E].
  destruct (abs_kept _ _ _ _ Hab Hk1) as [Hi1 Hlk1]. rewrite <- app_comm_cons. split; rewrite ?fmap_cons; cbn [fst snd]; try done; try congruence.
  - cbn. by rewrite Hop.
  - constructor; [by rewrite <- Hop | done].
  - intros x. rewrite elem_of_cons. intros [-> | Hx]; [done | by apply Hset].
  - constructor.
    + exists v. simpl. split_and!; try done; [| by rewrite <- Hd].
      destruct (Hrest Hdv) as [(_ & Hda & Hp) | (_ & Hp)]; rewrite Hbk in *; unfold pend_of in Hp; case_decide as Hin; try done.
      * rewrite Hda, Hd. symmetry. by apply Hre.
      * congruence.
    + eapply (held_frame σ); [exact Hb | done |]. intros [j x] Hj. apply Hoth. by apply (list_elem_of_fmap_2 fst _ (j, x)).
  - cbn. by rewrite Hlg1.
Qed.

Lemma ref_bdata h k blk : (k, blk) ∈ h -> ref h h (bdata k) (fdata blk).
Proof.
  intros Hin hs σ s a σ' Hab E. unfold fdata in E. case_decide; [| done]. injection E as <- <-.
  destruct (held_in _ _ _ k blk Hab) as ((v & Hv & _ & _ & Hda & _) & _); [rewrite elem_of_app; by left |].
  simpl in *. unfold bv in Hv. apply fmap_Some in Hv as (b & Hb & ->).
  unfold bdata. rewrite (bind_ok _ _ _ _ _ (getb_ok s k b Hb)). by split.
Qed.

(** Changing a locked buffer and logging the change. *)
Lemma ref_put {A} h h' k blk d (m : M A) p :
  (k, blk) ∈ h -> ref h h' m p ->
  ref h h' (set_bdata k d ;; log_write k ;; m) (fbind (fput blk d) (fun _ => p)).
Proof using Hroom Hturns.
  intros Hin Hm hs σ s a σ' Hab E. unfold fbind, fput in E. case_decide as Hc; [| done]. destruct Hc as [_ Hfit]. cbn in E.
  assert ((k, blk) ∈ h ++ hs) as Hin' by (rewrite elem_of_app; by left).
  destruct (held_in _ _ _ k blk Hab Hin') as ((v & Hv & Hdv & Hbl & Hda & Hrest) & Hk & _). simpl in *.
  pose proof Hab as [Hcs Hop Hnd Hset Hb Hd Hz Hre (Hlg & HlU & Hlen) [[Hli Hll Hsz Hou] Hou1 Hcm] Hi Hlk].
  unfold bv in Hv. apply fmap_Some in Hv as (b & Hbc & ->). simpl in Hdv, Hbl, Hda.
  assert (Hl : (k < length (bcache s))%nat) by (by eapply lookup_lt_Some).
  destruct (set_bdata_ok U pid _ _ s k b d Hcs Hk Hbc) as (s2 & E2 & Hcs2 & Ebc2 & Edk2 & [Eds2 Elg2 Eic2]).
  rewrite (bind_ok _ _ _ _ _ E2). clear E2.
  destruct (log_write_ok U pid st _ _ s2 k {| b with b_data := d |} (f_log σ) Hcs2 Hk)
    as (s3 & E3 & Hcs3 & Ebc3 & Edk3 & Eds3 & Eic3 & Hli3 & Hll3 & Hsz3 & Hop3 & Hcm3).
  { rewrite Ebc2. by apply list_lookup_insert_eq. }
  1-5: rewrite ?Elg2; done || lia.
  rewrite (bind_ok _ _ _ _ _ E3). clear E3. simpl in Hcs3, Hli3. rewrite Hbl in Hcs3, Hli3.
  rewrite Ebc2, list_insert_insert_eq in Ebc3. eapply (Hm hs); [| exact E]. clear E Hm.
  set (σ1 := {| σ with f_blk := _; f_log := _ |}).
  assert (Hpend : pend_of σ1 = fupd (pend_of σ) blk (Some d)).
  { apply functional_extensionality. intros x. unfold σ1, pend_of at 1. cbn. destruct (decide (x = blk)) as [-> | Hne].
    - rewrite !fupd_eq, decide_True; [done |]. apply absorb_elem. by right.
    - rewrite !fupd_ne by done. unfold pend_of. apply decide_ext. rewrite absorb_elem. tauto. }
  destruct (abs_kept _ _ _ s3 Hab ltac:(congruence)) as [Hi3 Hlk3].
  destruct (bv_insert _ s3 k _ Ebc3 Hl) as [Hvk Hvo]. fold (bv s) in Hvo.
  split; try done; try congruence.
  - apply Forall_forall. intros [j x] Hj. destruct (decide (j = k)) as [-> | Hne].
    + assert (x = blk) as ->.
      { destruct (held_in _ _ _ k x Hab Hj) as ((w & Hw & _ & Hwb & _) & _ & _). simpl in *.
        rewrite (bv_lookup s k b Hbc) in Hw. injection Hw as <-. by rewrite <- Hbl, <- Hwb. }
      eexists. split; [exact Hvk |]. cbn. rewrite fupd_eq. split_and!; try done.
      intros _. right. cbn. rewrite Hbl, Hpend, fupd_eq. split; [| done].
      destruct (Hrest Hdv) as [(Ef & _) | (Ef & _)]; simpl in Ef; by rewrite Ef.
    + assert (x <> blk) as Hnx.
      { intros ->. apply Hne. by apply (snd_unique (h ++ hs) j k blk). }
      destruct (held_in _ _ _ j x Hab Hj) as ((w & Hw & Hwd & Hwb & Hwda & Hwr) & _ & _). simpl in *.
      exists w. rewrite Hvo by done. simpl. rewrite fupd_ne by done. split_and!; try done.
      intros Hdw. rewrite Hpend, fupd_ne by congruence. by apply Hwr.
  - intros x HxU Hx. cbn in *. rewrite absorb_elem in Hx. rewrite fupd_ne by naive_solver. apply Hre; naive_solver.
  - cbn. split_and!; [by apply absorb_nodup | | pose proof (absorb_length (f_log σ) blk); lia].
    intros x. rewrite absorb_elem. intros [Hx | ->]; [by apply HlU |].
    apply (Hset blk). by apply (list_elem_of_fmap_2 snd _ (k, blk)).
  - split; [split; try done; congruence || lia | congruence | congruence].
Qed.

Lemma ref_brelse h k blk : ref ((k, blk) :: h) h (brelse k) (fclose blk).
Proof using Type.
  clear dspec Hroom.
  intros hs σ s [] σ' Hab E. rewrite <- app_comm_cons in Hab. unfold fclose in E.
  destruct (held_in _ _ _ k blk Hab) as ((v & Hv & Hdv & Hbl & Hda & Hrest) & Hk & _); [constructor |]. simpl in Hv, Hbl, Hda.
  pose proof Hab as [Hcs Hop Hnd Hset Hb Hd Hz Hre Hlg Hl Hi Hlk]. rewrite (fmap_cons fst) in Hk, Hcs.
  rewrite (fmap_cons snd) in Hop, Hnd, Hset. cbn [fst snd] in *. rewrite Hop in E. case_decide; [| done]. injection E as <-.
  unfold bv in Hv. apply fmap_Some in Hv as (b & Hbc & ->).
  destruct (brelse_ok U pid _ _ s k b Hcs Hk Hbc) as (s1 & -> & Hcs1 & Edk1 & [Eds1 Elg1 Eic1] & Hv1); [by rewrite Hd |].
  cbn [exec]. split; [done |]. pose proof (cs_nodup _ _ _ _ _ Hcs) as [Hkn _]%NoDup_cons.
  rewrite (filter_cons_False (.≠ k)), filter_ne_id in Hcs1 by (done || naive_solver).
  destruct (abs_kept _ _ _ s1 Hab Eic1) as [Hi1 Hlk1].
  apply NoDup_cons in Hnd as [_ Hnd]. apply Forall_cons in Hb as [_ Hb].
  split; try done; try congruence.
  - intros x Hx. apply Hset. by constructor.
  - eapply (held_frame σ); [exact Hb | done |]. intros [j x] Hj. apply Hv1. cbn. intros ->. apply Hkn.
    by apply (list_elem_of_fmap_2 fst _ (k, x)).
  - cbn. by rewrite Elg1.
Qed.

(** ** Inodes *)

(** What does not touch the buffers, the disk and the log. *)
Lemma cstate_outside hs pend s s' :
  cstate U pid hs pend s -> calm pid s' -> bcache s' = bcache s -> disk s' = disk s ->
  (forall k, sleeplocks s' (SlBuf k) = sleeplocks s (SlBuf k)) -> cstate U pid hs pend s'.
Proof.
  intros [Hc Hi Hh Hn Hu Hp (ord & G & V & Hr & Hord & HV & Hle)] Hc' Eb Ed El.
  assert (Ebv : forall k, bv s' k = bv s k) by (intros k; unfold bv; by rewrite Eb).
  assert (Ecd : forall x, cached s' x = cached s x) by (intros x; unfold cached; by rewrite Eb).
  split; try done.
  - intros k v. rewrite Ebv, El, Ed. apply Hi.
  - intros k Hk. unfold sl_held. rewrite Ebv, El. by apply Hh.
  - intros j k v w. rewrite !Ebv. apply Hu.
  - intros blk d. rewrite Ecd. apply Hp.
  - exists ord, G, V. rewrite Eb. split_and!; try done.
    + eapply Forall_impl; [exact HV |]. intros k. unfold spare. by rewrite Ebv.
    + etrans; [| exact Hle]. apply filter_length_le. intros x _. by rewrite Ecd.
Qed.

Lemma abs_outside hs σ s s' ic held :
  abs hs σ s -> calm pid s' -> bcache s' = bcache s -> disk s' = disk s -> disksize s' = disksize s -> log s' = log s ->
  (forall k, sleeplocks s' (SlBuf k) = sleeplocks s (SlBuf k)) ->
  inodes s' = (ic, f_sb σ) ->
  (forall i, if held i : bool then sl_held pid s' (SlInode i) else sl_locked (sleeplocks s' (SlInode i)) = 0) ->
  abs hs {| σ with f_ic := ic; f_held := held |} s'.
Proof.
  intros [Hcs Hop Hnd Hset Hb Hd Hz Hre Hlg Hl Hi Hlk] Hc Eb Ed En El Esl Ei Hh.
  split; try done; try congruence.
  - by eapply (cstate_outside _ _ s).
  - eapply (held_frame σ); [exact Hb | done |]. intros kb _. unfold bv. by rewrite Eb.
  - cbn. by rewrite El.
Qed.

Lemma ref_geti h i : ref h h (geti i) (fgeti i).
Proof.
  intros hs σ s a σ' Hab E. unfold fgeti in E. destruct (f_ic σ !! i) as [ip |] eqn:Ei; [| done]. injection E as -> ->.
  rewrite (geti_ok s i a); [by split |]. by rewrite (abs_icache _ _ _ Hab).
Qed.

Lemma abs_set_icache hs σ s ic : abs hs σ s -> abs hs {| σ with f_ic := ic |} (set_icache ic s).
Proof.
  intros Hab. apply (abs_outside hs σ s _ ic (f_held σ) Hab); try done.
  - apply calm_icache, (cs_calm _ _ _ _ _ (ab_cache _ _ _ Hab)).
  - pose proof (ab_inodes _ _ _ Hab) as Hi. unfold inodes in *. simpl. congruence.
  - apply (ab_locks _ _ _ Hab).
Qed.

Lemma ref_modi h i f : ref h h (modi i f) (fmodi i f).
Proof.
  intros hs σ s a σ' Hab E. unfold fmodi in E. destruct (f_ic σ !! i) as [ip |] eqn:Ei; [| done]. injection E as <- <-.
  unfold modi. rewrite (abs_icache _ _ _ Hab), Ei. cbn [exec]. split; [done |]. by apply abs_set_icache.
Qed.

(** The critical sections of the inode cache. *)
Lemma icache_section hs σ s :
  abs hs σ s ->
  exists t, acquire LkIcache s = Ok tt t /\ icache t = f_ic σ /\
    forall ic, exists s', release LkIcache (set_icache ic t) = Ok tt s' /\ abs hs {| σ with f_ic := ic |} s'.
Proof.
  intros Hab. pose proof (cs_calm _ _ _ _ _ (ab_cache _ _ _ Hab)) as Hcalm.
  pose proof Hcalm as [(i & c & p & q & Hr & _) Hf]. eexists. split; [by apply acquire_ok; [| apply Hf] |].
  split; [by apply (abs_icache _ _ _ Hab) |]. intros ic. eexists.
  split; [by apply (release_after (set_icache ic)) |]. destruct (same_store_touch s) as [[Ebc Edk Eds Elg Eic] Esl].
  apply (abs_outside hs σ s _ ic (f_held σ) Hab); try done.
  - by apply calm_icache, calm_touch.
  - intros k. simpl. by rewrite Esl.
  - pose proof (ab_inodes _ _ _ Hab) as Hi. unfold inodes in *. simpl. congruence.
  - intros j. pose proof (ab_locks _ _ _ Hab j) as Hj. unfold sl_held in *. simpl. by rewrite Esl.
Qed.
Lemma ref_locked_modi {A} h h' i f (m : M A) p :
  ref h h' m p ->
  ref h h' (acquire LkIcache ;; modi i f ;; release LkIcache ;; m) (fbind (fmodi i f) (fun _ => p)).
Proof.
  intros Hm hs σ s a σ' Hab E. unfold fbind, fmodi in E. destruct (f_ic σ !! i) as [ip |] eqn:Ei; [| done]. cbn in E.
  destruct (icache_section _ _ _ Hab) as (t & Ha & Et & Hrel). rewrite (bind_ok _ _ _ _ _ Ha).
  destruct (Hrel (<[i := f ip]> (f_ic σ))) as (s1 & Hs1 & Hab1).
  assert (modi i f t = Ok tt (set_icache (<[i := f ip]> (f_ic σ)) t)) as Hmo by (unfold modi; by rewrite Et, Ei).
  rewrite (bind_ok _ _ _ _ _ Hmo), (bind_ok _ _ _ _ _ Hs1). by eapply Hm.
Qed.

Lemma ref_locked_modi_last h i f : ref h h (acquire LkIcache ;; modi i f ;; release LkIcache) (fmodi i f).
Proof.
  intros hs σ s [] σ' Hab E. pose proof (ref_locked_modi h h i f (ret tt) (fret tt) (ref_ret _ _) hs σ s tt σ' Hab) as Hr.
  unfold fbind in Hr. rewrite E in Hr. specialize (Hr eq_refl). unfold bind in *.
  destruct (acquire LkIcache s) as [[] s1 | [] |]; try done. cbn [obind] in *.
  destruct (modi i f s1) as [[] s2 | [] |]; try done. cbn [obind] in *. by destruct (release LkIcache s2) as [[] s3 | [] |].
Qed.

Lemma ref_peek {A} h h' i (f : inode -> M A) g :
  (forall ip, ref h h' (f ip) (g ip)) ->
  ref h h' (acquire LkIcache ;; ip <- geti i ;; release LkIcache ;; f ip) (fbind (fgeti i) g).
Proof.
  intros Hf hs σ s a σ' Hab E. unfold fbind, fgeti in E. destruct (f_ic σ !! i) as [ip |] eqn:Ei; [| done]. cbn in E.
  destruct (icache_section _ _ _ Hab) as (t & Ha & Et & Hrel). rewrite (bind_ok _ _ _ _ _ Ha).
  destruct (Hrel (f_ic σ)) as (s1 & Hs1 & Hab1). assert (set_icache (f_ic σ) t = t) as Hid by (rewrite <- Et; by destruct t).
  rewrite Hid in Hs1. rewrite (bind_ok _ _ _ _ _ (geti_ok t i ip ltac:(by rewrite Et))), (bind_ok _ _ _ _ _ Hs1).
  eapply (Hf ip hs); [exact Hab1 |]. by destruct σ.
Qed.

Lemma ref_iget h dev inum : ref h h (iget dev inum) (figet dev inum).
Proof.
  intros hs σ s a σ' Hab E. unfold iget. destruct (icache_section _ _ _ Hab) as (t & Ha & Et & Hrel).
  rewrite (bind_ok _ _ _ _ _ Ha), bind_gets, Et. unfold figet in E.
  destruct (list_find _ (f_ic σ)) as [[i ip] |] eqn:Hfind.
  - injection E as <- <-. pose proof Hfind as (Hi & _)%list_find_Some. destruct (Hrel (<[i := {| ip with i_ref := i_ref ip + 1 |}]> (f_ic σ))) as (s1 & Hs1 & Hab1).
    erewrite (bind_ok _ _ t tt); [| unfold modi; by rewrite Et, Hi]. rewrite (bind_ok _ _ _ _ _ Hs1). by split.
  - rewrite bind_gets, Et. destruct (list_find (fun ip => i_ref ip = 0) (f_ic σ)) as [[i ip] |] eqn:Hfree; [| done]. injection E as <- <-.
    pose proof Hfree as (Hi & _)%list_find_Some.
    destruct (Hrel (<[i := {| ip with i_dev := dev; i_inum := inum; i_ref := 1; i_valid := 0 |}]> (f_ic σ))) as (s1 & Hs1 & Hab1).
    erewrite (bind_ok _ _ t tt); [| unfold modi; by rewrite Et, Hi]. rewrite (bind_ok _ _ _ _ _ Hs1). by split.
Qed.

(** Sleep locks of inodes. *)
Lemma ref_lock h i : ref h h (acquiresleep (SlInode i)) (flock i).
Proof using Hturns.
  intros hs σ s [] σ' Hab E. unfold flock in E. destruct (f_held σ i) eqn:Eh; [done |]. injection E as <-.
  pose proof (ab_locks _ _ _ Hab i) as Hl. rewrite Eh in Hl.
  destruct (calm_acquiresleep pid s (SlInode i) Hturns) as (s1 & -> & Hc1 & [E1 E2 E3 E4 E5] & Hh & Ho); [apply (ab_cache _ _ _ Hab) | done |].
  cbn [exec]. split; [done |]. eapply (abs_outside _ σ s s1 (f_ic σ) _ Hab); try done.
  - intros k. by apply Ho.
  - rewrite E5. apply (ab_inodes _ _ _ Hab).
  - intros j. destruct (decide (j = i)) as [-> | Hne]; [by rewrite fupd_eq |]. rewrite fupd_ne by done. unfold sl_held.
    rewrite !Ho by congruence. apply (ab_locks _ _ _ Hab).
Qed.

Lemma ref_unlock h i : ref h h (releasesleep (SlInode i)) (funlock i).
Proof.
  intros hs σ s [] σ' Hab E. unfold funlock in E. destruct (f_held σ i) eqn:Eh; [| done]. injection E as <-.
  destruct (calm_releasesleep pid s (SlInode i)) as (s1 & -> & Hc1 & [E1 E2 E3 E4 E5] & Hh & Ho); [apply (ab_cache _ _ _ Hab) |].
  cbn [exec]. split; [done |]. eapply (abs_outside _ σ s s1 (f_ic σ) _ Hab); try done.
  - intros k. by apply Ho.
  - rewrite E5. apply (ab_inodes _ _ _ Hab).
  - intros j. destruct (decide (j = i)) as [-> | Hne]; [by rewrite fupd_eq |]. rewrite fupd_ne by done. unfold sl_held.
    rewrite !Ho by congruence. apply (ab_locks _ _ _ Hab).
Qed.

Lemma abs_touch hs σ s : abs hs σ s -> abs hs σ (cli_touch s).
Proof.
  intros Hab. destruct (same_store_touch s) as [[E1 E2 E3 E4 E5] Esl].
  replace σ with {| σ with f_ic := f_ic σ; f_held := f_held σ |} by (by destruct σ).
  eapply (abs_outside _ σ s _ _ _ Hab); try done.
  - apply calm_touch, (ab_cache _ _ _ Hab).
  - intros k. by rewrite Esl.
  - rewrite E5. apply (ab_inodes _ _ _ Hab).
  - intros i. unfold sl_held. rewrite Esl. apply (ab_locks _ _ _ Hab).
Qed.

Lemma ref_iunlock h i : ref h h (iunlock i) (fiunlock i).
Proof.
  intros hs σ s [] σ' Hab E. unfold fiunlock, fbind, fgeti in E. destruct (f_ic σ !! i) as [ip |] eqn:Ei; [| done]. cbn in E.
  destruct (i_ref ip <? 1) eqn:Hr; [done |]. pose proof (ab_locks _ _ _ Hab i) as Hl.
  assert (f_held σ i = true) as Hh by (unfold funlock in E; by destruct (f_held σ i)). rewrite Hh in Hl.
  unfold iunlock. rewrite (bind_ok _ _ _ _ _ (calm_holdingsleep pid s _ (cs_calm _ _ _ _ _ (ab_cache _ _ _ Hab)) Hl)).
  pose proof (abs_touch _ _ _ Hab) as Hab1.
  rewrite (bind_ok _ _ _ _ _ (geti_ok _ i ip ltac:(by rewrite (abs_icache _ _ _ Hab1)))), Hr. cbn [negb orb].
  by eapply (ref_unlock h i).
Qed.
End Rules.

(** ** The operations *)

#[export] Hint Resolve ref_ret ref_ffail ref_unwrap ref_gets_sb ref_geti ref_modi ref_locked_modi_last ref_brelse ref_iget
  ref_lock ref_unlock ref_iunlock : refine.
#[export] Hint Extern 1 (ref _ _ _ _ _ _ _ (bdata _) (fdata _)) => apply ref_bdata; solve [repeat constructor] : refine.

Ltac refine_step :=
  match goal with
  | |- forall _, _ => intros
  | |- ref _ _ _ _ _ _ _ (match ?x with _ => _ end) _ =>
      lazymatch type of x with bool => apply ref_if | _ => destruct x; cbn [fsome] end
  | |- ref _ _ _ _ _ _ _ (bind (put_local _ _) _) _ => apply ref_ret_l
  | |- ref _ _ _ _ _ _ _ (bind (get_local _ _ _) _) _ => apply ref_ret_l
  | |- _ = true -> _ => intros _
  | |- _ = false -> _ => intros _
  | |- ref _ _ _ _ _ _ _ (bind (bread _ _) _) _ => apply ref_bread; [assumption .. |]
  | |- ref _ _ _ _ _ _ _ (bind (set_bdata _ _) _) _ => apply ref_put; [assumption | assumption | solve [repeat constructor] |]
  | |- ref _ _ _ _ _ _ _ (bind (acquire _) _) _ =>
      first [solve [auto with refine nocore] | apply ref_locked_modi | apply ref_peek]
  | |- ref _ _ _ _ _ _ _ (when _ _) _ => apply ref_when
  | |- ref _ _ _ _ _ _ _ (forM _ _) _ => apply ref_forM
  | |- ref _ _ _ _ _ _ _ (for_ret _ _) _ => apply ref_for_ret
  | |- ref _ _ _ _ _ _ _ (bind _ _) _ => eapply ref_bind; [solve [auto with refine nocore] |]
  | |- ref _ _ _ _ _ _ _ (bind (bind _ _) _) (fbind (fbind _ _) _) => eapply ref_bind
  | |- ref _ _ _ _ _ _ _ (bind (bind _ _) _) _ => apply ref_assoc
  | |- ref _ _ _ _ _ _ _ (bind _ _) _ => eapply ref_bind
  | |- _ => solve [auto with refine nocore]
  end.
Ltac refi := repeat refine_step.

Section Operations.
Context {turns : Turns} {dk : Disk} {dspec : DiskSpec} (Hturns : (0 < max_turns)%nat).
Context {limits : Limits} (U : list Z) (HU : NoDup U) (Hsub : forall x, x ∈ fs_set -> x ∈ U).
Context (pid st sz : Z) (Hroom : fs_max <= LOGSIZE /\ fs_max <= sz - 1) (d0 : Z -> list Z).

#[local] Abbreviation refop := (ref U pid st sz d0).

Lemma ref_bzero h dev b : refop h h (bzero dev b) (fbzero dev b).
Proof using Hturns HU Hsub Hroom dspec. unfold bzero, fbzero. refi. Qed.
#[local] Hint Resolve ref_bzero : refine.

Lemma ref_balloc h dev : refop h h (balloc dev) (fballoc dev).
Proof using Hturns HU Hsub Hroom dspec. unfold balloc, fballoc. refi. Qed.
#[local] Hint Resolve ref_balloc : refine.
Lemma ref_bfree h dev b : refop h h (bfree dev b) (fbfree dev b).
Proof using Hturns HU Hsub Hroom dspec. unfold bfree, fbfree. refi. Qed.

Lemma ref_ialloc h dev type : refop h h (ialloc dev type) (fialloc dev type).
Proof using Hturns HU Hsub Hroom dspec. unfold ialloc, fialloc. refi. Qed.

Lemma ref_iupdate h i : refop h h (iupdate i) (fiupdate i).
Proof using Hturns HU Hsub Hroom dspec. unfold iupdate, fiupdate. refi. Qed.

Lemma ref_idup h i : refop h h (idup i) (fidup i).
Proof. unfold idup, fidup. refi. Qed.

Lemma ref_ilock h i : refop h h (ilock i) (filock i).
Proof using Hturns HU Hsub Hroom dspec. unfold ilock, filock. refi. Qed.

Lemma ref_set_addr h i k a : refop h h (set_addr i k a) (fset_addr i k a).
Proof. apply ref_modi. Qed.
Lemma ref_get_addr h i k : refop h h (get_addr i k) (fget_addr i k).
Proof. unfold get_addr, fget_addr. refi. Qed.
#[local] Hint Resolve ref_bfree ref_ialloc ref_iupdate ref_idup ref_ilock ref_set_addr ref_get_addr : refine.

Lemma ref_bmap h i bn : refop h h (bmap i bn) (fbmap i bn).
Proof using Hturns HU Hsub Hroom dspec. unfold bmap, fbmap. refi. Qed.

Lemma ref_itrunc h i : refop h h (itrunc i) (fitrunc i).
Proof using Hturns HU Hsub Hroom dspec. unfold itrunc, fitrunc. refi. Qed.
#[local] Hint Resolve ref_bmap ref_itrunc : refine.

Lemma ref_iput h i : refop h h (iput i) (fiput i).
Proof using Hturns HU Hsub Hroom dspec. unfold iput, fiput. refi. Qed.
#[local] Hint Resolve ref_iput : refine.

Lemma ref_iunlockput h i : refop h h (iunlockput i) (fiunlockput i).
Proof using Hturns HU Hsub Hroom dspec. unfold iunlockput, fiunlockput. refi. Qed.
#[local] Hint Resolve ref_iunlockput : refine.
Lemma ref_readi_loop h i fuel : forall tot off n, refop h h (readi_loop fuel i put_local tot off n) (freadi_loop fuel i tot off n).
Proof using Hturns HU Hsub Hroom dspec.
  induction fuel as [| fuel IH]; intros tot off n; cbn [readi_loop freadi_loop]; refi.
Qed.
#[local] Hint Resolve ref_readi_loop : refine.

Lemma ref_readi h i off n : refop h h (readi i put_local off n) (freadi i off n).
Proof using Hturns HU Hsub Hroom dspec. unfold readi, freadi. refi. Qed.

Lemma ref_writei_loop h i src fuel : forall tot off n,
  refop h h (writei_loop fuel i (get_local src) tot off n) (fwritei_loop fuel i src tot off n).
Proof using Hturns HU Hsub Hroom dspec.
  induction fuel as [| fuel IH]; intros tot off n; cbn [writei_loop fwritei_loop]; refi.
Qed.
#[local] Hint Resolve ref_readi ref_writei_loop : refine.

Lemma ref_writei h i src off n : refop h h (writei i (get_local src) off n) (fwritei i src off n).
Proof using Hturns HU Hsub Hroom dspec. unfold writei, fwritei. refi. Qed.
#[local] Hint Resolve ref_writei : refine.

Lemma ref_dirlookup h dp name : refop h h (dirlookup dp name) (fdirlookup dp name).
Proof using Hturns HU Hsub Hroom dspec. unfold dirlookup, fdirlookup. refi. Qed.
#[local] Hint Resolve ref_dirlookup : refine.

Lemma ref_dirlink h dp name inum : refop h h (dirlink dp name inum) (fdirlink dp name inum).
Proof using Hturns HU Hsub Hroom dspec. unfold dirlink, fdirlink. refi. Qed.

Lemma ref_namex_loop h np fuel : forall path ip, refop h h (namex_loop fuel np path ip) (fnamex_loop fuel np path ip).
Proof using Hturns HU Hsub Hroom dspec. induction fuel as [| fuel IH]; intros path ip; cbn [namex_loop fnamex_loop]; refi. Qed.
#[local] Hint Resolve ref_dirlink ref_namex_loop : refine.

Lemma ref_namex h path np : refop h h (namex path np) (fnamex path np).
Proof using Hturns HU Hsub Hroom dspec. unfold namex, fnamex. destruct (bool_decide _); refi. Qed.
End Operations.

#[export] Hint Resolve ref_bzero ref_balloc ref_bfree ref_ialloc ref_iupdate ref_idup ref_ilock ref_set_addr ref_get_addr
  ref_bmap ref_itrunc ref_iput ref_iunlockput ref_readi ref_writei ref_dirlookup ref_dirlink ref_namex_loop ref_namex : refine.
