(* ===== verification/FsTx.v ===== *)
(** System calls of the file system as transactions: an operation of FsAbs.v
    between [begin_op] and [end_op] happens on the disk completely or not at all,
    and a sequence of them in order. *)

From stdpp Require Import sets.
From S2P Require Import Prelude Params Mem CString Machine Spinlock Console Vm Proc ProcSpec Sleeplock Ide.
From S2P Require Import Quiet Bio BioSpec Log LogSpec Transaction Inode ConsoleDev Fs FileSpec FsAbs FsRefine.
From Stdlib Require Import FunctionalExtensionality.

(** The operation [m] as a transaction of its own. *)
Definition tx `{Turns} `{Disk} {A} (m : M A) : M A := begin_op ;; a <- m ;; end_op ;; ret a.

(** Its counterpart starts and ends with nothing logged. *)
Definition unlogged (σ : fstate) : fstate := {| σ with f_log := [] |}.
Definition ftx {A} (p : F A) : F A := fun σ => '(a, σ') ← p σ; Some (a, unlogged σ').

(** Transactions one after the other. *)
Fixpoint txs `{Turns} `{Disk} {A} (ms : list (M A)) : M (list A) :=
  match ms with
  | [] => ret []
  | m :: ms' => a <- tx m ;; l <- txs ms' ;; ret (a :: l)
  end.
Fixpoint ftxs {A} (ps : list (F A)) : F (list A) :=
  match ps with
  | [] => fret []
  | p :: ps' => fbind (ftx p) (fun a => fbind (ftxs ps') (fun l => fret (a :: l)))
  end.

(** The log lies in the [sz] blocks from [st] on, apart from the blocks of the
    file system. *)
Record log_area `{Limits} (st sz : Z) : Prop := {
  la_start : 0 <= st;
  la_fit : 0 <= fs_max < sz /\ sz <= LOGSIZE + 1;
  la_end : st + sz <= fs_blocks <= 2147483648;
  la_home : Forall (fun b => 0 <= b < fs_blocks /\ (b < st \/ st + sz <= b)) fs_set;
  la_nodup : NoDup fs_set }.

(** The blocks the transactions use, with those of the log. *)
Definition fs_used `{Limits} (st : Z) : list Z := st :: ((fun i => st + 1 + i) <$> upto fs_max) ++ fs_set.

Section Transactions.
Context {turns : Turns} {dk : Disk} {dspec : DiskSpec} (Hturns : (0 < max_turns)%nat).
Context {limits : Limits} (pid st sz : Z) (Hla : log_area st sz).

#[local] Abbreviation U := (fs_used st).

Lemma fs_used_nodup : NoDup U.
Proof using Hla.
  clear Hturns. destruct Hla as [? ? ? Hh Hnd]. rewrite Forall_forall in Hh.
  assert (Hin : forall x, x ∈ (fun i => st + 1 + i) <$> upto fs_max -> st + 1 <= x < st + 1 + fs_max).
  { intros x (i & -> & Hi)%list_elem_of_fmap. unfold upto in Hi. apply elem_of_seqZ in Hi. lia. }
  unfold fs_used. apply NoDup_cons. split.
  - intros [Hx | Hx]%elem_of_app; [apply Hin in Hx; lia |]. apply Hh in Hx. lia.
  - apply NoDup_app. split_and!; [apply NoDup_fmap_2; [intros ???; lia | apply NoDup_seqZ] | | done].
    intros x Hx Hb. apply Hin in Hx. apply Hh in Hb. lia.
Qed.

Lemma fs_set_used x : x ∈ fs_set -> x ∈ U.
Proof. clear. intros Hx. unfold fs_used. rewrite elem_of_cons, elem_of_app. auto. Qed.

(** Between transactions. *)
Record idle_log (l : logst) : Prop := {
  il_lists : lists st [] l;
  il_length : length (lh_block (log_lh l)) = Z.to_nat LOGSIZE;
  il_size : log_size l = sz;
  il_none : log_outstanding l = 0;
  il_idle : log_committing l = 0 }.

Record ready (σ : fstate) (s : kstate) : Prop := {
  rq_cache : cstate U pid [] (fun _ => None) s;
  rq_closed : f_open σ = [] /\ f_log σ = [];
  rq_blocks : forall x, x ∈ fs_set -> f_blk σ x = disk s x;
  rq_size : disksize s = fs_blocks;
  rq_log : idle_log (log s);
  rq_header : hdr_n st (disk s) = 0 /\ length (disk s st) = Z.to_nat BSIZE;
  rq_inodes : inodes s = (f_ic σ, f_sb σ);
  rq_locks : forall i, if f_held σ i then sl_held pid s (SlInode i) else sl_locked (sleeplocks s (SlInode i)) = 0 }.

Lemma log_section s :
  calm pid s ->
  exists i c, acquire LkLog s = Ok tt (locked_by i c LkLog s) /\ runs_on s i c /\
    forall l, release LkLog (set_log l (locked_by i c LkLog s)) = Ok tt (set_log l (cli_touch s)).
Proof.
  intros [(i & c & p & q & Hr & _) Hf]. exists i, c. split; [by apply acquire_ok; [| apply Hf] |]. split; [done |].
  intros l. by apply (release_after (set_log l)).
Qed.

(** The state after a section that changed the log only. *)
Lemma touched_log s l pend :
  cstate U pid [] pend s ->
  let s' := set_log l (cli_touch s) in
  cstate U pid [] pend s' /\ disk s' = disk s /\ world s' = world s /\ log s' = l.
Proof.
  intros Hcs s'. destruct (same_store_touch s) as [[E1 E2 E3 E4 E5] Esl]. split_and!; try done.
  - apply (cstate_outside U pid _ _ s); try done.
    + apply (calm_frame (set_log l)); [done | apply calm_touch, (cs_calm _ _ _ _ _ Hcs)].
    + intros k. simpl. by rewrite Esl.
  - unfold world. f_equal; [done |]. apply kept_eq; [done |]. intros i. simpl. by rewrite Esl.
Qed.

Lemma begin_op_ok σ s : ready σ s -> exists s', begin_op s = Ok tt s' /\ abs U pid st sz (disk s) [] σ s'.
Proof using Hturns Hla.
  intros [Hcs [Hop Hlg] Hb Hz [Hli Hll Hsz Hno Hid] Hh Hi Hlk]. destruct (log_section s) as (i & c & Ha & _ & Hrel); [apply Hcs |].
  unfold begin_op. rewrite (bind_ok _ _ _ _ _ Ha). destruct max_turns as [| k]; [lia |]. cbn [loop_until].
  rewrite bind_assoc, bind_gets. change (log (locked_by i c LkLog s)) with (log s). rewrite Hid, Hno, (li_n _ _ _ Hli).
  change (negb (0 =? 0)) with false. change (LOGSIZE <? Z.of_nat (length []) + (0 + 1) * MAXOPBLOCKS) with false. cbn [negb].
  unfold modlog. rewrite bind_assoc, bind_modify, bind_assoc. change (log (locked_by i c LkLog s)) with (log s).
  rewrite (bind_ok _ _ _ _ _ (Hrel _)), bind_ret. eexists. split; [done |].
  set (l := {| (log s) with log_outstanding := log_outstanding (log s) + 1 |}).
  destruct (touched_log s l _ Hcs) as (Hcs' & Hd' & Hw' & Hl'). apply world_inv in Hw' as [Hz' Hk'].
  split; try done; try congruence.
  - replace (pend_of σ) with (fun _ : Z => @None (list Z)); [done |]. apply functional_extensionality. intros x.
    unfold pend_of. by rewrite Hlg, decide_False by apply not_elem_of_nil.
  - constructor.
  - intros x Hx. by apply elem_of_nil in Hx.
  - intros x Hx _. by apply Hb.
  - rewrite Hlg. split_and!; [constructor | | simpl; lia]. intros x Hx. by apply elem_of_nil in Hx.
  - rewrite Hlg, Hl'. split; [split; [by destruct Hli; split | done | done | simpl; lia] | simpl; lia | done].
  - by rewrite (kept_inodes _ _ Hk').
  - intros j. pose proof (Hlk j) as Hj. unfold sl_held in *. by rewrite (kept_locks _ _ j Hk').
Qed.
(** *** [end_op] of the only open operation commits *)

(** The updates of a transaction, and the layout its commit needs. *)
Definition updates (σ : fstate) : list (list Z) := f_blk σ <$> f_log σ.

Lemma tx_layout d0 σ s : abs U pid st sz d0 [] σ s -> layout st sz fs_blocks (f_log σ).
Proof using Hla.
  clear Hturns. intros Hab. destruct (ab_logged _ _ _ _ _ _ _ _ Hab) as (Hnd & Hin & Hlen). destruct Hla as [? ? ? Hh _].
  rewrite Forall_forall in Hh. split; try done; [lia |]. apply Forall_forall. intros x Hx. by apply Hh, Hin.
Qed.

Lemma used_sub d0 σ s x : abs U pid st sz d0 [] σ s -> x ∈ used st (f_log σ) -> x ∈ U.
Proof using Hla.
  clear Hturns. intros Hab. destruct (ab_logged _ _ _ _ _ _ _ _ Hab) as (Hnd & Hin & Hlen). destruct Hla as [? ? ? _ _].
  unfold used, fs_used. rewrite !elem_of_cons, !elem_of_app. intros [-> | [Hx | Hx]]; [by left | right; left | right; right; by apply Hin].
  apply list_elem_of_fmap in Hx as (i & -> & Hi). apply list_elem_of_fmap. exists i. split; [done |].
  unfold upto in *. rewrite elem_of_seqZ in *. lia.
Qed.

(** The disk [d] after a power failure in the transaction that leads to [σ]: it
    is untouched, or the commit has begun. *)
Definition recoverable (d0 : Z -> list Z) (σ : fstate) (d : Z -> list Z) : Prop :=
  d = d0 \/ exists s, abs U pid st sz d0 [] σ s /\ old_or_new st sz (f_log σ) (updates σ) d0 d.

Lemma updates_apply d0 σ s x :
  abs U pid st sz d0 [] σ s -> x ∈ fs_set -> d1 (f_log σ) (updates σ) d0 x = f_blk σ x.
Proof using Type.
  clear Hturns. intros Hab HxU. destruct (ab_logged _ _ _ _ _ _ _ _ Hab) as (Hnd & Hin & _). unfold d1, updates.
  destruct (decide (x ∈ f_log σ)) as [Hx | Hx].
  - apply apply_all_in; [by rewrite fst_zip by (rewrite length_fmap; lia) |].
    apply list_elem_of_lookup in Hx as [j Hj]. eapply list_elem_of_lookup_2, lookup_zip_with_Some.
    exists x, (f_blk σ x). split_and!; [done | exact Hj |]. by rewrite list_lookup_fmap, Hj.
  - rewrite (ab_rest _ _ _ _ _ _ _ _ Hab x) by done. apply apply_all_notin. by rewrite fst_zip by (rewrite length_fmap; lia).
Qed.
(** Waking the processes that wait for the log, and leaving its critical section. *)
Lemma wake_release s i c l :
  calm pid s -> runs_on s i c ->
  exists s', (wakeup ChLog ;; release LkLog) (set_log l (locked_by i c LkLog s)) = Ok tt s' /\
    calm pid s' /\ bcache s' = bcache s /\ disk s' = disk s /\ world s' = world s /\ log s' = l /\
    forall k, sleeplocks s' (SlBuf k) = sleeplocks s (SlBuf k).
Proof.
  intros Hc Hr. destruct (in_section_locked s i c LkLog Hr) as (c' & Hin & _).
  step by (apply (wakeup_in _ i c'); [by apply (in_section_frame (set_log l)) | by apply (calm_free _ _ Hc)]).
  eexists. split; [exact (release_after (fun s => set_ptable _ (set_log l s)) s i c LkLog Hr (calm_free _ _ Hc _)) |].
  destruct (same_store_touch s) as [[E1 E2 E3 E4 E5] Esl]. split_and!; try done.
  - change (ptable (set_log l (locked_by i c LkLog s))) with (ptable s).
    replace (ptable s) with (ptable (set_log l (cli_touch s))) by (by destruct (cli_touch_eq s) as (cs & -> & _)).
    apply calm_wake, (calm_frame (set_log l)); [done | by apply calm_touch].
  - unfold world. f_equal; [done |]. apply kept_eq; [done |]. intros j. simpl. by rewrite Esl.
  - intros k. simpl. by rewrite Esl.
Qed.

Lemma end_op_exec d0 σ s :
  abs U pid st sz d0 [] σ s -> hdr_n st d0 = 0 -> length (d0 st) = Z.to_nat BSIZE ->
  exec (recoverable d0 σ)
    (fun _ s' => ready (unlogged σ) s' /\ forall x, outside st sz x -> x ∉ fs_set -> disk s' x = d0 x)
    (end_op s).
Proof using Hturns Hla dspec.
  intros Hab Hh0 Hlen0. pose proof (tx_layout _ _ _ Hab) as Hly. pose proof Hab as [Hcs Hop _ _ _ Hd Hz Hre (Hnd & Hin & _) Hlog Hi Hlk].
  destruct Hlog as [[Hli Hll Hsz _] Hou Hcm]. destruct (log_section s) as (i & c & Ha & _ & Hrel); [apply Hcs |].
  unfold end_op. rewrite (bind_ok _ _ _ _ _ Ha). unfold modlog. rewrite bind_modify, bind_gets. cbn [log set_log].
  change (log (locked_by i c LkLog s)) with (log s). cbn [log_committing log_outstanding]. rewrite Hcm, Hou.
  change (negb (0 =? 0)) with false. change (1 - 1 =? 0) with true. cbn [negb].
  rewrite bind_assoc, bind_modify, bind_ret. rewrite set_log_log. rewrite (bind_ok _ _ _ _ _ (Hrel _)). cbn [when].
  set (l := mkLog (log_start (log s)) (log_size (log s)) 0 1 (log_dev (log s)) (log_lh (log s))).
  match goal with |- context [set_log ?x (cli_touch s)] => change x with l end.
  destruct (touched_log s l _ Hcs) as (Hcs1 & Hd1 & Hw1 & Hl1). set (s1 := set_log l (cli_touch s)) in *.
  apply exec_bind. eapply exec_mono; [eapply (commit_exec Hturns pid st sz fs_blocks (f_log σ) Hly U fs_used_nodup
    (fun x => used_sub _ _ _ x Hab) (kept s) (updates σ)); [by unfold updates; rewrite length_fmap | done | done | exact Hcs1 | exact Hl1 | | | congruence | |] | |].
  { destruct Hli. by split. }
  { rewrite Hw1. unfold world. by rewrite Hz. }
  { intros k Hk. unfold updates. assert (Hx : f_log σ !!! Z.to_nat k ∈ f_log σ) by (apply list_elem_of_lookup_total_2; lia).
    unfold pend_of. rewrite decide_True by done. f_equal. symmetry. apply list_lookup_total_correct.
    by rewrite list_lookup_fmap, (list_lookup_lookup_total_lt (f_log σ)) by lia. }
  { intros x. unfold pend_of. by case_decide. }
  { intros d Hod. right. by exists s. }
  intros [] s2 (Hcs2 & Hl2 & Hw2 & Hh2 & Hlen2 & Hx2).
  destruct (log_section s2) as (i2 & c2 & Ha2 & Hr2 & _); [apply Hcs2 |].
  rewrite (bind_ok _ _ _ _ _ Ha2), bind_modify. change (log (locked_by i2 c2 LkLog s2)) with (log s2). rewrite Hl2.
  match goal with |- context [set_log ?x _] => set (l3 := x) end.
  destruct (wake_release s2 i2 c2 l3) as (s3 & -> & Hc3 & Hb3 & Hd3 & Hw3 & Hl3 & Hsl3); [apply Hcs2 | done |].
  cbn [exec]. apply world_inv in Hw3 as [Hz3 Hk3]. assert (kept s3 = kept s) as Hk by (unfold world in Hw2; congruence).
  split; [| intros x Hx Hxn; rewrite Hd3, Hx2 by done; apply apply_all_notin; intros Hxl; apply Hxn, Hin;
    unfold updates in Hxl; by rewrite fst_zip in Hxl by (rewrite length_fmap; lia)].
  split; try done.
  - by apply (cstate_outside U pid _ _ s2).
  - intros x Hx. rewrite Hd3, Hx2; [symmetry; exact (updates_apply d0 σ s x Hab Hx) |].
    pose proof (la_home _ _ Hla) as Hh. rewrite Forall_forall in Hh. by apply Hh.
  - rewrite Hz3. by apply world_size in Hw2.
  - rewrite Hl3. destruct Hli. by split.
  - by rewrite Hd3.
  - by rewrite (kept_inodes _ _ Hk).
  - intros j. pose proof (Hlk j) as Hj. unfold sl_held in *. by rewrite (kept_locks _ _ j Hk).
Qed.

(** *** A transaction *)

(** [m] refines [p], whatever is on the disk. *)
Definition refines {A} (m : M A) (p : F A) : Prop := forall d0, ref U pid st sz d0 [] [] m p.

Lemma tx_exec {A} (m : M A) p σ s a σ' :
  refines m p -> ready σ s -> p σ = Some (a, σ') ->
  exec (recoverable (disk s) σ')
    (fun r s' => r = a /\ ready (unlogged σ') s' /\ forall x, outside st sz x -> x ∉ fs_set -> disk s' x = disk s x)
    (tx m s).
Proof using Hturns Hla dspec.
  intros Hm Hrdy Hp. destruct (begin_op_ok σ s Hrdy) as (s1 & E1 & Hab1). destruct (rq_header _ _ Hrdy) as [Hh Hlen].
  unfold tx. rewrite (bind_ok _ _ _ _ _ E1). apply exec_bind.
  eapply exec_mono; [exact (Hm (disk s) [] σ s1 a σ' Hab1 Hp) | |].
  - intros d ->. by left.
  - intros a' s2 [-> Hab2]. apply exec_bind. eapply exec_mono; [by apply (end_op_exec (disk s) σ' s2) | done |].
    by intros [] s3 [Hrdy3 Hx3].
Qed.

(** *** Recovery *)

Lemma layout_nil : layout st sz fs_blocks [].
Proof using Hla. clear Hturns. destruct Hla as [? ? ? _ _]. split; simpl; [done | lia | done | constructor | constructor]. Qed.

Lemma recover_to pid' bs d s :
  layout st sz fs_blocks bs -> (forall x, x ∈ used st bs -> x ∈ U) ->
  rebooted pid' st fs_blocks U d s -> decodes st bs d -> length (d st) = Z.to_nat BSIZE ->
  exec (fun d' => forall x, outside st sz x -> replay st d' x = replay st d x)
    (fun _ s' => hdr_n st (disk s') = 0 /\ forall x, outside st sz x -> disk s' x = replay st d x)
    (recover_from_log s).
Proof using Hturns Hla dspec.
  intros Hly Hsub [Hcs Hd Hn Hst Hdv Hll] Hde Hlen.
  eapply exec_mono; [eapply (recover_exec Hturns pid' st sz fs_blocks bs Hly U fs_used_nodup Hsub (kept s)
    ((fun i => d (st + 1 + i)) <$> upto (Z.of_nat (length bs)))); try done | done |].
  - unfold upto. rewrite length_fmap, length_seqZ. lia.
  - unfold world. by rewrite Hn.
  - intros i Hi. symmetry. apply list_lookup_total_correct. unfold upto.
    rewrite list_lookup_fmap, lookup_seqZ_lt by lia. simpl. do 2 f_equal. lia.
  - rewrite Hlen. unfold BSIZE. lia.
  - by intros [] s' (_ & ? & ?).
Qed.

(** The blocks of the file system after a recovery are those of [σ] or of [σ']. *)
Definition blocks_are (d : Z -> list Z) (σ : fstate) : Prop := forall x, x ∈ fs_set -> d x = f_blk σ x.

Lemma recover_tx pid' σ σ' d0 d s :
  blocks_are d0 σ -> hdr_n st d0 = 0 -> length (d0 st) = Z.to_nat BSIZE ->
  recoverable d0 σ' d -> rebooted pid' st fs_blocks U d s ->
  exec (fun d' => blocks_are (replay st d') σ \/ blocks_are (replay st d') σ')
    (fun _ s' => hdr_n st (disk s') = 0 /\ (blocks_are (disk s') σ \/ blocks_are (disk s') σ'))
    (recover_from_log s).
Proof using Hturns Hla dspec.
  intros Hσ Hh Hlen Hrec Hreb.
  assert (Hout : forall x, x ∈ fs_set -> outside st sz x).
  { pose proof (la_home _ _ Hla) as Hho. rewrite Forall_forall in Hho. intros x Hx. by apply Hho. }
  assert (Hold : hdr_n st d = 0 -> length (d st) = Z.to_nat BSIZE -> (forall x, outside st sz x -> d x = d0 x) ->
    exec (fun d' => blocks_are (replay st d') σ \/ blocks_are (replay st d') σ')
      (fun _ s' => hdr_n st (disk s') = 0 /\ (blocks_are (disk s') σ \/ blocks_are (disk s') σ')) (recover_from_log s)).
  { intros Hhd Hld Hx. eapply exec_mono; [eapply (recover_to pid' [] d s layout_nil); try done | |].
    - intros x. unfold used, fs_used. simpl. rewrite !elem_of_cons. intros [-> | Hn]; [by left | by apply elem_of_nil in Hn].
    - split; [done | simpl; lia].
    - intros d' Hd'. left. intros x Hxs. rewrite Hd', replay_clean, Hx by auto. by apply Hσ.
    - intros [] s' [Hh' Hd']. split; [done |]. left. intros x Hxs. rewrite Hd', replay_clean, Hx by auto. by apply Hσ. }
  destruct Hrec as [-> | (t & Hab & Hl & [[Hhd Hx] | [Hde Hnew]])]; [by apply Hold | by apply Hold |].
  eapply exec_mono; [eapply (recover_to pid' (f_log σ') d s (tx_layout _ _ _ Hab)); try done | |].
  - intros x. by eapply used_sub.
  - intros d' Hd'. right. intros x Hxs. rewrite Hd', Hnew by auto. by eapply updates_apply.
  - intros [] s' [Hh' Hd']. split; [done |]. right. intros x Hxs. rewrite Hd', Hnew by auto. by eapply updates_apply.
Qed.

(** *** Sequences of transactions *)

(** [σ'] is the state after the first few transactions. *)
Definition prefix_state {A} (ps : list (F A)) (σ σ' : fstate) : Prop :=
  exists k rs, (k <= length ps)%nat /\ ftxs (take k ps) σ = Some (rs, σ').

Lemma ftxs_cons {A} (p : F A) ps σ a σ1 rs σ2 :
  p σ = Some (a, σ1) -> ftxs ps (unlogged σ1) = Some (rs, σ2) -> ftxs (p :: ps) σ = Some (a :: rs, σ2).
Proof. intros Hp Hps. cbn [ftxs]. unfold fbind, ftx. rewrite Hp. cbn. by rewrite Hps. Qed.

Lemma prefix_here {A} (ps : list (F A)) σ : prefix_state ps σ σ.
Proof. exists 0%nat, []. split; [lia | done]. Qed.

Lemma prefix_later {A} (p : F A) ps σ a σ1 σ2 :
  p σ = Some (a, σ1) -> prefix_state ps (unlogged σ1) σ2 -> prefix_state (p :: ps) σ σ2.
Proof.
  intros Hp (k & rs & Hk & Hps). exists (S k), (a :: rs). split; [simpl; lia |]. cbn [take]. by eapply ftxs_cons.
Qed.

(** The disk [d] when the power fails during the transactions. *)
Definition crashed {A} (ps : list (F A)) (σ : fstate) (d : Z -> list Z) : Prop :=
  exists d0 σ1 σ2, prefix_state ps σ σ1 /\ prefix_state ps σ (unlogged σ2) /\
    blocks_are d0 σ1 /\ hdr_n st d0 = 0 /\ length (d0 st) = Z.to_nat BSIZE /\ recoverable d0 σ2 d.

Lemma txs_exec {A} (ms : list (M A)) ps :
  Forall2 refines ms ps -> forall σ s rs σ',
  ready σ s -> ftxs ps σ = Some (rs, σ') ->
  exec (crashed ps σ) (fun r s' => r = rs /\ ready σ' s') (txs ms s).
Proof using Hturns Hla dspec.
  induction 1 as [| m p ms ps Hm Hms IH]; intros σ s rs σ' Hrdy Hps; cbn [txs].
  { injection Hps as <- <-. by split. }
  cbn [ftxs] in Hps. unfold fbind at 1, ftx in Hps. destruct (p σ) as [[a σ1] |] eqn:Hp; [| done]. cbn in Hps.
  unfold fbind in Hps. destruct (ftxs ps (unlogged σ1)) as [[rs1 σ2] |] eqn:Hps1; [| done]. injection Hps as <- <-.
  destruct (rq_header _ _ Hrdy) as [Hh Hlen]. apply exec_bind. eapply exec_mono; [by eapply tx_exec | |].
  - intros d Hd. exists (disk s), σ, σ1. split_and!; try done; [apply prefix_here | | ].
    + eapply prefix_later; [exact Hp | apply prefix_here].
    + intros x Hx. symmetry. by apply (rq_blocks _ _ Hrdy).
  - intros r s1 (-> & Hrdy1 & _). apply exec_bind. eapply exec_mono; [by apply (IH _ s1 _ _ Hrdy1 Hps1) | |].
    + intros d (d0 & τ1 & τ2 & H1 & H2 & Hrest). exists d0, τ1, τ2.
      split_and!; [by eapply prefix_later | by eapply prefix_later | apply Hrest ..].
    + intros r s2 [-> Hrdy2]. by split.
Qed.

(** What recovery makes of such a disk. *)
Lemma recover_txs {A} pid' (ps : list (F A)) σ d s :
  crashed ps σ d -> rebooted pid' st fs_blocks U d s ->
  exec (fun d' => exists σ', prefix_state ps σ σ' /\ blocks_are (replay st d') σ')
    (fun _ s' => hdr_n st (disk s') = 0 /\ exists σ', prefix_state ps σ σ' /\ blocks_are (disk s') σ')
    (recover_from_log s).
Proof using Hturns Hla dspec.
  intros (d0 & σ1 & σ2 & H1 & H2 & Hb & Hh & Hlen & Hrec) Hreb.
  eapply exec_mono; [by eapply (recover_tx pid' σ1 σ2 d0 d s) | |].
  - intros d' [Hd' | Hd']; [by exists σ1 | by exists (unlogged σ2)].
  - intros [] s' [Hh' [Hd' | Hd']]; (split; [done |]); [by exists σ1 | by exists (unlogged σ2)].
Qed.
End Transactions.
