(* ===== verification/FsDir.v ===== *)
(** Directories as maps: [dirlookup] finds what [dirlink] has entered, and the
    entries of the other names. *)

From stdpp Require Import sets.
From S2P Require Import Prelude Params Mem CString Machine Spinlock Console Vm Proc ProcSpec Sleeplock Ide Quiet.
From S2P Require Import Bio BioSpec Log LogSpec Transaction Inode ConsoleDev Fs FileSpec FsAbs FsRefine FsTx.
From Stdlib Require Import FunctionalExtensionality.

Local Open Scope fs_scope.

(** ** Reading and writing within a block *)

Section Blocks.
Context {limits : Limits}.

Definition logged (σ : fstate) (blk : Z) (d : list Z) : fstate :=
  {| σ with f_blk := fupd (f_blk σ) blk d; f_log := absorb (f_log σ) blk |}.

Lemma fbind_ret {A B} (a : A) (k : A -> F B) σ : (let! x := fret a in k x) σ = k a σ.
Proof. done. Qed.

(** Using a block that is free to use, in a state where none is. *)
Lemma fopen_ok {A} σ blk (k : F A) :
  f_open σ = [] -> blk ∈ fs_set -> 0 <= blk < fs_blocks ->
  (do! fopen 1 blk in k) σ = k {| σ with f_open := [blk] |}.
Proof.
  intros Ho Hin Hr. unfold fbind, fopen. rewrite Ho, decide_True; [done |]. split_and!; try done; try lia. apply not_elem_of_nil.
Qed.

Lemma fdata_ok {A} σ blk (k : list Z -> F A) :
  (let! d := fdata blk in k d) {| σ with f_open := [blk] |} = k (f_blk σ blk) {| σ with f_open := [blk] |}.
Proof. unfold fbind, fdata. cbn. by rewrite decide_True by constructor. Qed.

Lemma fput_ok {A} σ blk d (k : F A) :
  Z.of_nat (length (f_log σ)) < fs_max ->
  (do! fput blk d in k) {| σ with f_open := [blk] |} = k {| (logged σ blk d) with f_open := [blk] |}.
Proof. intros Hl. unfold fbind, fput. cbn. rewrite decide_True; [done |]. split; [constructor | done]. Qed.

Lemma fclose_ok {A} σ blk (k : F A) :
  f_open σ = [] -> (do! fclose blk in k) {| σ with f_open := [blk] |} = k σ.
Proof.
  intros Ho. unfold fbind, fclose. cbn. rewrite decide_True by done. cbn. f_equal. destruct σ. simpl in *. by subst.
Qed.

Lemma fclose_last σ blk : f_open σ = [] -> fclose blk {| σ with f_open := [blk] |} = Some (tt, σ).
Proof. intros Ho. unfold fclose. cbn. rewrite decide_True by done. destruct σ. simpl in *. by subst. Qed.

Lemma fgeti_ok {A} σ i ip (k : inode -> F A) : f_ic σ !! i = Some ip -> (let! ip := fgeti i in k ip) σ = k ip σ.
Proof. intros Hi. unfold fbind, fgeti. by rewrite Hi. Qed.

Lemma fget_addr_ok {A} σ i ip k (f : Z -> F A) :
  f_ic σ !! i = Some ip -> length (i_addrs ip) = 13%nat -> 0 <= k <= 12 ->
  (let! a := fget_addr i k in f a) σ = f (addr_at ip k) σ.
Proof.
  intros Hi Hl Hk. unfold fget_addr, fbind, fgeti. rewrite Hi. cbn. unfold addr_at.
  destruct (lookup_lt_is_Some_2 (i_addrs ip) (Z.to_nat k)) as [a Ha]; [lia |]. by rewrite Ha.
Qed.

(** A block of a file that is there. *)
Lemma fbmap_ok {A} σ i ip b0 b1 bn (k : Z -> F A) :
  f_open σ = [] -> f_ic σ !! i = Some ip -> laid_out fs_set fs_blocks (f_blk σ) ip b0 b1 -> b0 <= bn <= b1 ->
  (let! a := fbmap i bn in k a) σ = k (block_of (f_blk σ) ip bn) σ.
Proof.
  intros Ho Hi [Hdev Hlen Hmax Hwhole Hblocks Hind] Hbn. destruct (Hblocks bn Hbn) as [Hne HinU].
  unfold fbind at 1. enough (fbmap i bn σ = Some (block_of (f_blk σ) ip bn, σ)) as -> by done.
  unfold fbmap. rewrite (fgeti_ok _ _ ip) by done. unfold block_of in *. destruct (Z.ltb_spec bn NDIRECT) as [Hlt | Hge].
  - unfold NDIRECT in Hlt. rewrite (fget_addr_ok _ _ ip) by (done || lia). by rewrite (proj2 (Z.eqb_neq _ _)) by done.
  - cbv zeta. rewrite (proj2 (Z.ltb_lt (bn - NDIRECT) NINDIRECT)) by (unfold MAXFILE in Hmax; lia).
    destruct (Hind ltac:(lia)) as [HneI HinI]. destruct (Hwhole _ HinI) as [_ HrI].
    rewrite (fget_addr_ok _ _ ip) by (done || (unfold NDIRECT; lia)).
    rewrite (proj2 (Z.eqb_neq (addr_at ip NDIRECT) 0)) by done. rewrite fbind_ret.
    rewrite Hdev, fopen_ok, fdata_ok by done. rewrite (proj2 (Z.eqb_neq _ 0)) by done.
    by rewrite fbind_ret, fclose_ok.
Qed.
Lemma fiupdate_ok σ i ip :
  f_open σ = [] -> f_ic σ !! i = Some ip -> i_dev ip = 1 -> Z.of_nat (length (f_log σ)) < fs_max ->
  let ib := IBLOCK (i_inum ip) (f_sb σ) in
  ib ∈ fs_set -> 0 <= ib < fs_blocks ->
  fiupdate i σ = Some (tt, logged σ ib (put_dinode (f_blk σ ib) (i_inum ip) (dinode_of ip))).
Proof.
  intros Ho Hi Hdev Hroom ib HinU Hr. unfold fiupdate. rewrite (fgeti_ok _ _ ip) by done.
  unfold fbind at 1, fsb. cbn [mbind option_bind]. fold ib. by rewrite Hdev, fopen_ok, fdata_ok, fput_ok, fclose_last.
Qed.

(** The bytes [off .. off + n] of a file, which lie in one block. *)
Lemma freadi_ok {A} σ i ip b1 off n (k : Z * list Z -> F A) :
  f_open σ = [] -> f_ic σ !! i = Some ip -> i_type ip <> T_DEV -> laid_out fs_set fs_blocks (f_blk σ) ip 0 b1 ->
  0 <= off -> 0 < n -> off + n <= i_size ip < 4294967296 -> off mod BSIZE + n <= BSIZE -> off / BSIZE <= b1 ->
  (let! r := freadi i off n in k r) σ = k (n, range_of (f_blk σ) ip off n) σ.
Proof.
  intros Ho Hi Hty Hlo Hoff Hn Hsize Hfit Hb. pose proof Hlo as [Hdev Hlen Hmax Hwhole Hblocks Hind].
  assert (0 <= off / BSIZE <= b1) as Hbn by (split; [apply Z.div_pos; [lia | done] | done]).
  destruct (Hblocks _ Hbn) as [_ HinU]. destruct (Hwhole _ HinU) as [Hwl Hr].
  unfold fbind at 1. enough (freadi i off n σ = Some ((n, range_of (f_blk σ) ip off n), σ)) as -> by done.
  unfold freadi. rewrite (fgeti_ok _ _ ip), (proj2 (Z.eqb_neq _ _)) by done. rewrite u32_small by (unfold is_u32; lia).
  rewrite (proj2 (Z.ltb_ge _ _)), (proj2 (Z.ltb_ge (off + n) off)), (proj2 (Z.ltb_ge (i_size ip) (off + n))) by lia.
  cbn [orb]. unfold turns_for. cbn [freadi_loop]. rewrite (proj2 (Z.ltb_lt 0 n)), Z.sub_0_r by lia.
  replace (Z.min n (BSIZE - off mod BSIZE)) with n by lia. rewrite Z.add_0_l, (proj2 (Z.ltb_ge n n)) by lia.
  unfold fbind at 1. rewrite (fgeti_ok _ _ ip), (fbmap_ok _ _ ip 0 b1), Hdev, fopen_ok, fdata_ok, fclose_ok by done.
  rewrite fbind_ret. cbn. by rewrite app_nil_r, range_in_block by (done || lia).
Qed.

(** Changing bytes of a file in one block, at the end of the file too. *)
Definition grown (ip : inode) (n : Z) : inode := {| ip with i_size := n |}.

Definition after_write (σ : fstate) (i : nat) (ip : inode) (off : Z) (src : list Z) : fstate :=
  let blk := block_of (f_blk σ) ip (off / BSIZE) in
  let n := off + Z.of_nat (length src) in
  let σ1 := logged σ blk (lblit (f_blk σ blk) (off mod BSIZE) src) in
  if i_size ip <? n then
    let ib := IBLOCK (i_inum ip) (f_sb σ) in
    logged {| σ1 with f_ic := <[i := grown ip n]> (f_ic σ) |} ib (put_dinode (f_blk σ1 ib) (i_inum ip) (dinode_of (grown ip n)))
  else σ1.

Lemma fwritei_ok σ i ip b1 off src :
  f_open σ = [] -> f_ic σ !! i = Some ip -> i_type ip <> T_DEV -> laid_out fs_set fs_blocks (f_blk σ) ip 0 b1 ->
  0 <= off <= i_size ip -> (0 < length src)%nat -> off mod BSIZE + Z.of_nat (length src) <= BSIZE -> off / BSIZE <= b1 ->
  Z.of_nat (length (f_log σ)) + 1 < fs_max ->
  (let ib := IBLOCK (i_inum ip) (f_sb σ) in ib ∈ fs_set /\ 0 <= ib < fs_blocks) ->
  fwritei i src off (Z.of_nat (length src)) σ = Some (Z.of_nat (length src), after_write σ i ip off src).
Proof.
  intros Ho Hi Hty Hlo Hoff Hn Hfit Hb Hroom [HibU Hib]. set (n := Z.of_nat (length src)) in *.
  pose proof Hlo as [Hdev Hlen Hmax Hwhole Hblocks Hind].
  assert (0 <= off / BSIZE <= b1) as Hbn by (split; [apply Z.div_pos; [lia | done] | done]).
  destruct (Hblocks _ Hbn) as [_ HinU]. destruct (Hwhole _ HinU) as [Hwl Hr].
  assert (off + n <= MAXFILE * BSIZE) as Hbig by (change MAXFILE with 140 in *; unfold BSIZE in *; zdiv).
  unfold fwritei. change (MAXFILE * BSIZE) with 71680 in *. rewrite (fgeti_ok _ _ ip), (proj2 (Z.eqb_neq _ _)) by done. rewrite u32_small by (unfold is_u32; lia).
  rewrite (proj2 (Z.ltb_ge (i_size ip) off)), (proj2 (Z.ltb_ge (off + n) off)), (proj2 (Z.ltb_ge 71680 (off + n))) by lia.
  cbn [orb]. unfold turns_for. cbn [fwritei_loop]. rewrite (proj2 (Z.ltb_lt 0 n)), Z.sub_0_r by lia.
  replace (Z.min n (BSIZE - off mod BSIZE)) with n by lia. rewrite Z.add_0_l, (proj2 (Z.ltb_ge n n)) by lia.
  unfold fbind at 1. rewrite (fgeti_ok _ _ ip), (fbmap_ok _ _ ip 0 b1), Hdev, fopen_ok, fdata_ok, fput_ok by (done || lia).
  rewrite fclose_ok by done. cbn [fret mbind option_bind].
  replace (lsub src 0 n) with src by (unfold lsub, n; rewrite Nat2Z.id; change (Z.to_nat 0) with 0%nat; by rewrite drop_0, firstn_all).
  set (σ1 := logged σ _ _). assert (f_ic σ1 !! i = Some ip) as Hi1 by done. rewrite (fgeti_ok _ _ ip) by done.
  cbn [andb]. unfold after_write. fold n σ1. destruct (i_size ip <? off + n); [| done]. cbn [fwhen].
  unfold fbind at 1, fbind at 1, fmodi. rewrite Hi1. cbn [mbind option_bind].
  rewrite (fiupdate_ok _ i (grown ip (off + n))); try done.
  - cbn. by rewrite list_lookup_insert_eq by (by eapply lookup_lt_Some).
  - pose proof (absorb_length (f_log σ) (block_of (f_blk σ) ip (off / BSIZE))) as Hal. cbn. lia.
Qed.
End Blocks.

(** ** Names *)

(** A name of [n] characters, or a shorter one with a terminator. *)
Definition ended (n : nat) (p : list Z) : Prop := (n <= length p)%nat \/ 0 ∈ p.

Lemma ended_tail n a p : ended (S n) (a :: p) -> a <> 0 -> ended n p.
Proof. intros [Hl | Hin] Ha; [left; simpl in Hl; lia | right]. apply elem_of_cons in Hin as [E | Hin]; [congruence | done]. Qed.

Lemma strncmp_ended n : forall p q, ended n p -> (n <= length q)%nat ->
  exists r, strncmp p q n = Some r /\ (r = 0 <-> cut n p = cut n q).
Proof.
  induction n as [| n IH]; intros p q Hp Hq; [by exists 0 |].
  destruct p as [| a p]; [destruct Hp as [Hp | Hp]; [simpl in Hp; lia | by apply elem_of_nil in Hp] |].
  destruct q as [| b q]; simpl in Hq; [lia |]. cbn [strncmp cut]. destruct (Z.eqb_spec a 0) as [-> | Ha]; simpl.
  - eexists; split; [done |]. destruct (Z.eqb_spec b 0); split; intros; (done || lia || congruence).
  - destruct (Z.eqb_spec a b) as [-> | Hb].
    + destruct (IH p q) as (r & Hr & Hiff); [by eapply ended_tail | lia |]. exists r. split; [done |].
      rewrite (proj2 (Z.eqb_neq b 0)) by done. rewrite Hiff. split; congruence.
    + eexists; split; [done |]. destruct (Z.eqb_spec b 0); split; intros; (done || lia || congruence).
Qed.

(** What [strncpy] makes of a name: the characters, filled up with zeros. *)
Definition padded_name (n : nat) (p : list Z) : list Z := cut n p ++ replicate (n - length (cut n p)) 0.

Lemma cut_length n p : (length (cut n p) <= n)%nat.
Proof. revert p. induction n as [| n IH]; intros [| c p]; simpl; try lia. case_match; simpl; [lia |]. specialize (IH p). lia. Qed.

Lemma padded_length n p : length (padded_name n p) = n.
Proof. unfold padded_name. rewrite length_app, length_replicate. pose proof (cut_length n p). lia. Qed.

Lemma strncpy_ended n : forall s p, length s = n -> ended n p -> strncpy_loop s p n = Some (padded_name n p).
Proof.
  unfold padded_name. induction n as [| n IH]; intros s p Hs Hp; [by apply nil_length_inv in Hs as -> |].
  destruct s as [| x s]; [done |]. injection Hs as Hs.
  destruct p as [| a p]; [destruct Hp as [Hp | Hp]; [simpl in Hp; lia | by apply elem_of_nil in Hp] |].
  cbn [strncpy_loop cut]. destruct (Z.eqb_spec a 0) as [-> | Ha]; cbn [negb].
  - rewrite strncpy_pad_spec by lia. simpl. by rewrite drop_ge, app_nil_r by lia.
  - rewrite IH by (done || by eapply ended_tail). done.
Qed.

Lemma cut_padded n p : cut n (padded_name n p) = cut n p.
Proof.
  unfold padded_name. revert p. induction n as [| n IH]; intros p; [done |].
  destruct p as [| a p]; [done |]. cbn [cut]. destruct (Z.eqb_spec a 0) as [-> | Ha]; [done |].
  cbn [length app]. rewrite Nat.sub_succ. cbn [cut]. rewrite (proj2 (Z.eqb_neq a 0)) by done. f_equal. apply IH.
Qed.

(** ** Directories *)

Lemma ffor_ret_find {R} (l : list Z) (body : Z -> F (option R)) (t : Z -> bool) (h : Z -> F R) σ :
  (forall x, x ∈ l -> t x = false -> body x σ = Some (None, σ)) ->
  (forall x, x ∈ l -> t x = true -> body x σ = (let! r := h x in fret (Some r)) σ) ->
  ffor_ret l body σ = match List.find t l with Some x => (let! r := h x in fret (Some r)) σ | None => Some (None, σ) end.
Proof.
  induction l as [| x l IH]; intros Hf Ht; [done |]. cbn [ffor_ret List.find]. destruct (t x) eqn:E.
  - unfold fbind at 1. rewrite Ht by (done || constructor). unfold fbind. by destruct (h x σ) as [[r σ'] |].
  - unfold fbind at 1. rewrite Hf by (done || constructor). cbn [mbind option_bind].
    apply IH; intros y Hy; [apply Hf | apply Ht]; by constructor.
Qed.

Section Directories.
Context {limits : Limits}.

Definition entry_at (w : Z -> list Z) (d : inode) (off : Z) : dirent := dirent_of (range_of w d off SIZEOF_DIRENT).

Definition names (name : list Z) (de : dirent) : bool :=
  negb (de_inum de =? 0) && bool_decide (cut DIRSIZ name = cut DIRSIZ (de_name de)).

(** The offset of the entry for [name], and of the first unused entry. *)
Definition slot_of (w : Z -> list Z) (d : inode) (name : list Z) : option Z :=
  List.find (fun off => names name (entry_at w d off)) (dir_offsets (i_size d)).
Definition free_slot (w : Z -> list Z) (d : inode) : option Z :=
  List.find (fun off => de_inum (entry_at w d off) =? 0) (dir_offsets (i_size d)).

(** The inode [dp] is the directory [d], a whole number of entries, with room up
    to its block [b1]. *)
Record directory (σ : fstate) (dp : nat) (d : inode) (b1 : Z) : Prop := {
  di_closed : f_open σ = [];
  di_cached : f_ic σ !! dp = Some d;
  di_isdir : i_type d = T_DIR;
  di_entries : 0 <= i_size d < 4294967296 /\ i_size d mod 16 = 0;
  di_laid : laid_out fs_set fs_blocks (f_blk σ) d 0 b1;
  di_last : (i_size d - 1) / BSIZE <= b1 }.

Lemma offset_inv size off :
  0 <= size -> size mod 16 = 0 -> off ∈ dir_offsets size ->
  0 <= off /\ off mod 16 = 0 /\ off + 16 <= size /\ off mod BSIZE + 16 <= BSIZE.
Proof.
  intros Hs Hm (k & -> & Hk)%list_elem_of_fmap. apply elem_of_seqZ in Hk. change SIZEOF_DIRENT with 16 in *. unfold BSIZE. zdiv.
Qed.

Lemma read_entry {A} σ dp d b1 off (k : Z * list Z -> F A) :
  directory σ dp d b1 -> off ∈ dir_offsets (i_size d) ->
  (let! r := freadi dp off SIZEOF_DIRENT in k r) σ = k (SIZEOF_DIRENT, range_of (f_blk σ) d off SIZEOF_DIRENT) σ.
Proof.
  intros [Ho Hi Hty [Hsz Hm] Hlo Hl] Hoff. apply offset_inv in Hoff as (H0 & H1 & H2 & H3); [| lia | done].
  change SIZEOF_DIRENT with 16. apply (freadi_ok _ _ _ b1); try done; try lia.
  - rewrite Hty. done.
  - etrans; [| exact Hl]. apply Z.div_le_mono; [done | lia].
Qed.

Lemma entry_name_length w d off : length (de_name (entry_at w d off)) = DIRSIZ.
Proof.
  unfold entry_at, dirent_of, range_of. cbn [de_name]. unfold lsub. rewrite length_take, length_drop, length_map, length_seqZ. done.
Qed.

Lemma match_entry {R} σ name de (k : F (option R)) :
  ended DIRSIZ name -> length (de_name de) = DIRSIZ ->
  (if de_inum de =? 0 then fret None
   else let! c := fsome (namecmp name (de_name de)) in if c =? 0 then k else fret None) σ =
  (if names name de then k else fret None) σ.
Proof.
  intros Hn Hl. unfold names. destruct (de_inum de =? 0); [done |]. cbn [negb andb].
  destruct (strncmp_ended DIRSIZ name (de_name de) Hn) as (r & Hr & Hiff); [lia |].
  unfold namecmp. rewrite Hr. cbn [fsome]. rewrite fbind_ret. destruct (Z.eqb_spec r 0) as [E | E].
  - by rewrite bool_decide_true by (by apply Hiff).
  - by rewrite bool_decide_false by (by rewrite <- Hiff).
Qed.

Lemma fdirlookup_ok σ dp d b1 name :
  directory σ dp d b1 -> ended DIRSIZ name ->
  fdirlookup dp name σ =
    match slot_of (f_blk σ) d name with
    | Some off => (let! ip := figet (i_dev d) (de_inum (entry_at (f_blk σ) d off)) in fret (Some (ip, off))) σ
    | None => Some (None, σ)
    end.
Proof.
  intros Hd Hn. pose proof Hd as [Ho Hi Hty _ _ _]. unfold fdirlookup. rewrite (fgeti_ok _ _ d) by done.
  rewrite Hty. change (negb (T_DIR =? T_DIR)) with false. cbv iota.
  unfold slot_of. erewrite (ffor_ret_find _ _ (fun off => names name (entry_at (f_blk σ) d off))
    (fun off => let! ip := figet (i_dev d) (de_inum (entry_at (f_blk σ) d off)) in fret (ip, off))).
  1: destruct (List.find _ _) as [off |]; [| done]; unfold fbind; by destruct (figet _ _ σ) as [[ip σ'] |].
  all: intros off Hoff Ht; rewrite (read_entry σ dp d b1) by done; cbn [fst snd]; rewrite Z.eqb_refl; cbn [negb]; cbv zeta;
    fold (entry_at (f_blk σ) d off); rewrite match_entry by (done || apply entry_name_length); rewrite Ht; try done.
  unfold fbind. by destruct (figet _ _ σ) as [[ip σ'] |].
Qed.

Lemma ffind_free σ dp d b1 :
  directory σ dp d b1 ->
  ffor_ret (dir_offsets (i_size d)) (fun off =>
    let! r := freadi dp off SIZEOF_DIRENT in
    if negb (r.1 =? SIZEOF_DIRENT) then ffail
    else if de_inum (dirent_of r.2) =? 0 then fret (Some off) else fret None) σ = Some (free_slot (f_blk σ) d, σ).
Proof.
  intros Hd. unfold free_slot. erewrite (ffor_ret_find _ _ (fun off => de_inum (entry_at (f_blk σ) d off) =? 0) fret).
  1: by destruct (List.find _ _).
  all: intros off Hoff Ht; rewrite (read_entry σ dp d b1) by done; cbn [fst snd]; rewrite Z.eqb_refl; cbn [negb];
    fold (entry_at (f_blk σ) d off); by rewrite Ht.
Qed.

(** Entering a name that is not there. *)
Lemma fdirlink_ok σ dp d b1 name inum :
  directory σ dp d b1 -> ended DIRSIZ name -> slot_of (f_blk σ) d name = None ->
  let off := default (i_size d) (free_slot (f_blk σ) d) in
  off / BSIZE <= b1 -> Z.of_nat (length (f_log σ)) + 1 < fs_max ->
  (let ib := IBLOCK (i_inum d) (f_sb σ) in ib ∈ fs_set /\ 0 <= ib < fs_blocks) ->
  fdirlink dp name inum σ =
    Some (0, after_write σ dp d off (dirent_bytes (mkDirent (u16 inum) (padded_name DIRSIZ name)))).
Proof.
  intros Hd Hn Hno off Hb Hroom Hib. pose proof Hd as [Ho Hi Hty [Hsz Hm] Hlo _].
  unfold fdirlink, fbind at 1. rewrite (fdirlookup_ok σ dp d b1), Hno by done. cbn [mbind option_bind].
  rewrite (fgeti_ok _ _ d) by done. unfold fbind at 1. rewrite (ffind_free σ dp d b1) by done. cbn [mbind option_bind].
  replace (SIZEOF_DIRENT * ((i_size d + SIZEOF_DIRENT - 1) / SIZEOF_DIRENT)) with (i_size d) by (change SIZEOF_DIRENT with 16; zdiv).
  fold off. unfold strncpy. rewrite Nat2Z.id, strncpy_ended by (done || by rewrite length_replicate). cbn [fsome]. rewrite fbind_ret.
  set (src := dirent_bytes _). assert (length src = 16%nat) as Hsrc by (unfold src, dirent_bytes; rewrite length_app; cbn [de_name]; by rewrite padded_length).
  assert (0 <= off <= i_size d /\ off mod BSIZE + 16 <= BSIZE) as [Hoff Hfit].
  { unfold off. destruct (free_slot _ d) as [x |] eqn:E; simpl.
    - apply List.find_some in E as [E _]. rewrite <- list_elem_of_In in E. apply offset_inv in E; [lia | lia | done].
    - unfold BSIZE. zdiv. }
  unfold fbind at 1. change SIZEOF_DIRENT with (Z.of_nat 16). rewrite <- Hsrc. rewrite (fwritei_ok σ dp d b1); try done.
  - cbn [mbind option_bind]. by rewrite Z.eqb_refl.
  - by rewrite Hty.
  - lia.
  - by rewrite Hsrc.
Qed.

(** *** The entries afterwards *)

Lemma block_of_elsewhere w d b0 b1 x v bn :
  (forall bn, b0 <= bn <= b1 -> block_of w d bn <> x) -> (NDIRECT <= b1 -> addr_at d NDIRECT <> x) -> b0 <= bn <= b1 ->
  block_of (fupd w x v) d bn = block_of w d bn /\ (forall k, k / BSIZE = bn -> byte_of (fupd w x v) d k = byte_of w d k).
Proof.
  intros Hb Hi Hbn. assert (block_of (fupd w x v) d bn = block_of w d bn) as E.
  { unfold block_of. destruct (Z.ltb_spec bn NDIRECT); [done |]. rewrite fupd_ne; [done |]. apply Hi. lia. }
  split; [done |]. intros k Hk. unfold byte_of. rewrite Hk, E, fupd_ne; [done |]. by apply Hb.
Qed.

(** Block [x] is not one of the first blocks of the file. *)
Definition apart (w : Z -> list Z) (d : inode) (b1 x : Z) : Prop :=
  (forall bn, 0 <= bn <= b1 -> block_of w d bn <> x) /\ (NDIRECT <= b1 -> addr_at d NDIRECT <> x).

(** The directory after 16 bytes have been written at [off]. *)
Definition dir_after (d : inode) (off : Z) : inode := if i_size d <? off + 16 then grown d (off + 16) else d.

Lemma after_write_ok σ dp d b1 off src :
  directory σ dp d b1 -> separate (f_blk σ) d 0 b1 -> apart (f_blk σ) d b1 (IBLOCK (i_inum d) (f_sb σ)) ->
  0 <= off <= i_size d -> off mod 16 = 0 -> off / BSIZE <= b1 -> length src = 16%nat ->
  let σ' := after_write σ dp d off src in
  let d' := dir_after d off in
  directory σ' dp d' b1 /\
  forall k, 0 <= k / BSIZE <= b1 ->
    byte_of (f_blk σ') d' k = if decide (off <= k < off + 16) then lget8 src (k - off) else byte_of (f_blk σ) d k.
Proof.
  intros [Ho Hi Hty [Hsz Hm] Hlo Hl] Hsep [Hap Hapi] Hoff Hom Hb Hsrc. pose proof Hlo as [Hdev Hlen Hmax Hwhole Hblocks Hind].
  assert (0 <= off / BSIZE <= b1) as Hbn by (split; [apply Z.div_pos; [lia | done] | done]).
  destruct (Hblocks _ Hbn) as [_ HinU]. destruct (Hwhole _ HinU) as [Hwl _].
  assert (off mod BSIZE + Z.of_nat (length src) <= BSIZE) as Hfit by (rewrite Hsrc; unfold BSIZE; zdiv).
  pose proof (written_chunk fs_set d 0 b1 (f_blk σ) off src Hsep ltac:(lia) Hbn Hwl Hfit) as Hw. cbv zeta in Hw.
  set (blk := block_of (f_blk σ) d (off / BSIZE)) in *. set (w1 := fupd (f_blk σ) blk _) in *.
  pose proof (laid_out_written _ _ _ _ _ _ _ _ _ Hlo Hw) as Hlo1. destruct Hw as [Hwb Hww Hwk _]. rewrite Hsrc in Hwk.
  unfold dir_after, after_write. fold blk. rewrite Hsrc. change (Z.of_nat 16) with 16.
  destruct (Z.ltb_spec (i_size d) (off + 16)) as [Hg | Hg].
  2:{ split; [by split | exact Hwk]. }
  cbv zeta. cbn [f_blk logged f_ic f_sb]. fold w1. set (ib := IBLOCK (i_inum d) (f_sb σ)) in *.
  assert (forall bn, 0 <= bn <= b1 -> block_of w1 d bn <> ib) as Hap1 by (intros bn Hbn'; rewrite Hwb by done; by apply Hap).
  pose proof Hlo1 as [_ _ _ Hwhole1 Hblocks1 Hind1]. split.
  - split; cbn; try done.
    + by rewrite list_lookup_insert_eq by (by eapply lookup_lt_Some).
    + assert (0 <= off + 16 <= 71680) by (change MAXFILE with 140 in *; unfold BSIZE in *; zdiv). split; [lia |]. zdiv.
    + split; try done.
      * intros x Hx. destruct (Hwhole1 x Hx) as [Hx1 Hx2]. split; [| done]. fold w1. destruct (decide (x = ib)) as [-> | Hne].
        -- by rewrite fupd_eq, put_dinode_length.
        -- by rewrite fupd_ne.
      * intros bn Hbn'. fold w1. destruct (block_of_elsewhere w1 d 0 b1 ib (put_dinode (w1 ib) (i_inum d) (dinode_of (grown d (off + 16)))) bn) as [E _]; try done.
        change (block_of _ (grown d (off + 16)) bn) with (block_of (fupd w1 ib (put_dinode (w1 ib) (i_inum d) (dinode_of (grown d (off + 16))))) d bn).
        rewrite E. by apply Hblocks1.
    + etrans; [| exact Hb]. unfold BSIZE. zdiv.
  - intros k Hk. rewrite <- Hwk by done.
    exact (proj2 (block_of_elsewhere w1 d 0 b1 ib _ (k / BSIZE) Hap1 Hapi Hk) k eq_refl).
Qed.

Lemma range_src off src : 0 <= off -> map (fun k => lget8 src (k - off)) (seqZ off (Z.of_nat (length src))) = src.
Proof.
  intros Ho. apply list_eq. intros j. change (map ?f ?l) with (f <$> l). rewrite list_lookup_fmap.
  destruct (decide (j < length src)%nat) as [Hj | Hj].
  - rewrite lookup_seqZ_lt by lia. cbn. replace (off + Z.of_nat j - off) with (Z.of_nat j) by lia. unfold lget8. rewrite Nat2Z.id.
    destruct (lookup_lt_is_Some_2 src j Hj) as [x Hx]. by rewrite Hx.
  - rewrite lookup_seqZ_ge, lookup_ge_None_2 by lia. done.
Qed.

Lemma dirent_roundtrip inum nm : 0 <= inum < 65536 -> length nm = 14%nat -> dirent_of (dirent_bytes (mkDirent inum nm)) = mkDirent inum nm.
Proof.
  intros Hi Hl. unfold dirent_of, dirent_bytes. cbn [de_inum de_name]. f_equal.
  - change (inum mod 256 + 256 * ((inum / 256) mod 256) = inum). zdiv.
  - change (take 14 nm = nm). by rewrite firstn_all2 by lia.
Qed.

Lemma entry_after σ dp d b1 off inum nm x :
  directory σ dp d b1 -> separate (f_blk σ) d 0 b1 -> apart (f_blk σ) d b1 (IBLOCK (i_inum d) (f_sb σ)) ->
  0 <= off <= i_size d -> off mod 16 = 0 -> off / BSIZE <= b1 -> 0 <= inum < 65536 -> length nm = 14%nat ->
  0 <= x -> x mod 16 = 0 -> x / BSIZE <= b1 ->
  entry_at (f_blk (after_write σ dp d off (dirent_bytes (mkDirent inum nm)))) (dir_after d off) x =
    if decide (x = off) then mkDirent inum nm else entry_at (f_blk σ) d x.
Proof.
  intros Hd Hsep Hap Hoff Hom Hb Hin Hnm Hx Hxm Hxb. set (src := dirent_bytes _).
  assert (length src = 16%nat) as Hsrc by (unfold src, dirent_bytes; cbn; by rewrite Hnm).
  destruct (after_write_ok σ dp d b1 off src) as [_ Hk]; try done.
  assert (forall k, k ∈ seqZ x 16 -> 0 <= k / BSIZE <= b1) as Hkb.
  { intros k Hks. apply elem_of_seqZ in Hks. unfold BSIZE in *. zdiv. }
  unfold entry_at, range_of. change SIZEOF_DIRENT with 16. case_decide as E.
  - subst x. rewrite <- (dirent_roundtrip inum nm) by done. f_equal. fold src. rewrite <- (range_src off src) at 2 by lia.
    rewrite Hsrc. apply map_ext_in. intros k Hks. rewrite <- list_elem_of_In in Hks. rewrite Hk by auto.
    apply elem_of_seqZ in Hks. by rewrite decide_True by lia.
  - f_equal. apply map_ext_in. intros k Hks. rewrite <- list_elem_of_In in Hks. rewrite Hk by auto.
    apply elem_of_seqZ in Hks. rewrite decide_False; [done |]. intros Hc. apply E. zdiv.
Qed.

Lemma find_ext_in {A} (p q : A -> bool) l : (forall x, x ∈ l -> p x = q x) -> List.find p l = List.find q l.
Proof.
  induction l as [| a l IH]; intros Hx; [done |]. cbn. rewrite (Hx a) by constructor.
  destruct (q a); [done |]. apply IH. intros x Hin. apply Hx. by constructor.
Qed.

Lemma find_unique {A} (p : A -> bool) l a : a ∈ l -> p a = true -> (forall x, x ∈ l -> p x = true -> x = a) -> List.find p l = Some a.
Proof.
  intros Hin Ha Hu. destruct (List.find p l) as [x |] eqn:E.
  - apply List.find_some in E as [E Ex]. rewrite <- list_elem_of_In in E. f_equal. by apply Hu.
  - rewrite list_elem_of_In in Hin. pose proof (List.find_none _ _ E a Hin). congruence.
Qed.

Lemma dir_offsets_snoc size : 0 <= size -> size mod 16 = 0 -> dir_offsets (size + 16) = dir_offsets size ++ [size].
Proof.
  intros Hs Hm. unfold dir_offsets. change SIZEOF_DIRENT with 16.
  replace ((size + 16 + 16 - 1) / 16) with ((size + 16 - 1) / 16 + 1) by zdiv. rewrite seqZ_app by zdiv.
  rewrite fmap_app. f_equal. rewrite seqZ_cons by lia. change (Z.pred 1) with 0. rewrite seqZ_nil by lia.
  rewrite fmap_cons. f_equal. zdiv.
Qed.

Lemma find_snoc {A} (p : A -> bool) l a :
  List.find p (l ++ [a]) = match List.find p l with Some x => Some x | None => if p a then Some a else None end.
Proof. induction l as [| x l IH]; [done |]. cbn. by destruct (p x). Qed.

(** Where a new entry goes: over an unused one, or behind the last. *)
Lemma link_slot σ dp d b1 :
  directory σ dp d b1 ->
  let off := default (i_size d) (free_slot (f_blk σ) d) in
  let l := dir_offsets (i_size d) in
  0 <= off <= i_size d /\ off mod 16 = 0 /\
  (dir_offsets (i_size (dir_after d off)) = l /\ off ∈ l /\ de_inum (entry_at (f_blk σ) d off) = 0 \/
   dir_offsets (i_size (dir_after d off)) = l ++ [off] /\ off ∉ l).
Proof.
  intros [Ho Hi Hty [Hsz Hm] Hlo Hl] off l. unfold off, free_slot.
  destruct (List.find _ _) as [x |] eqn:E; cbn [default from_option id].
  - apply List.find_some in E as [E Ex]. rewrite <- list_elem_of_In in E. apply Z.eqb_eq in Ex.
    pose proof (offset_inv (i_size d) x (proj1 Hsz) Hm E) as (H0 & H1 & H2 & _). split_and!; [lia | lia | done |]. left.
    unfold dir_after. by rewrite (proj2 (Z.ltb_ge _ _)) by lia.
  - split_and!; [lia | lia | done |]. right. unfold dir_after. rewrite (proj2 (Z.ltb_lt _ _)) by lia. cbn [grown i_size].
    rewrite dir_offsets_snoc by (done || lia). split; [done |]. intros Hx. apply offset_inv in Hx; [lia | lia | done].
Qed.

(** Looking up names after [name] has been entered. *)
Lemma slot_after σ dp d b1 name inum name' :
  directory σ dp d b1 -> separate (f_blk σ) d 0 b1 -> apart (f_blk σ) d b1 (IBLOCK (i_inum d) (f_sb σ)) ->
  slot_of (f_blk σ) d name = None -> 0 < inum < 65536 ->
  let off := default (i_size d) (free_slot (f_blk σ) d) in
  off / BSIZE <= b1 ->
  slot_of (f_blk (after_write σ dp d off (dirent_bytes (mkDirent inum (padded_name DIRSIZ name))))) (dir_after d off) name' =
    if decide (cut DIRSIZ name' = cut DIRSIZ name) then Some off else slot_of (f_blk σ) d name'.
Proof.
  intros Hd Hsep Hap Hno Hin off Hb. pose proof Hd as [_ _ _ [Hsz Hm] _ Hl].
  destruct (link_slot σ dp d b1 Hd) as (Hoff & Hom & Hl'). fold off in Hoff, Hom, Hl'.
  set (w' := f_blk (after_write _ _ _ _ _)). set (l := dir_offsets (i_size d)) in *.
  set (l' := dir_offsets (i_size (dir_after d off))) in *.
  assert (Hmem : forall x, x ∈ l' <-> x ∈ l \/ x = off).
  { intros x. destruct Hl' as [(-> & H1 & _) | (-> & _)]; [naive_solver |]. by rewrite elem_of_app, list_elem_of_singleton. }
  assert (Hent : forall x, x ∈ l' -> entry_at w' (dir_after d off) x =
    if decide (x = off) then mkDirent inum (padded_name DIRSIZ name) else entry_at (f_blk σ) d x).
  { intros x Hx. apply (entry_after σ dp d b1); try done; [lia | apply padded_length | ..];
      (apply Hmem in Hx as [Hx | ->]; [| lia || done]); apply offset_inv in Hx as (H0 & H1 & H2 & _); try done; try lia.
    etrans; [| exact Hl]. apply Z.div_le_mono; [done | lia]. }
  assert (Hnew : names name' (mkDirent inum (padded_name DIRSIZ name)) = bool_decide (cut DIRSIZ name' = cut DIRSIZ name)).
  { unfold names. cbn [de_inum de_name]. by rewrite cut_padded, (proj2 (Z.eqb_neq _ _)) by lia. }
  unfold slot_of. fold l l'. case_decide as E.
  - rewrite bool_decide_true in Hnew by done. apply find_unique.
    + apply Hmem. by right.
    + by rewrite Hent, decide_True by (done || (apply Hmem; by right)).
    + intros x Hx Ht. rewrite Hent in Ht by done. case_decide as Ex; [done |]. exfalso.
      apply Hmem in Hx as [Hx | Hx]; [| done]. rewrite list_elem_of_In in Hx. pose proof (List.find_none _ _ Hno x Hx) as Hf.
      cbn in Hf. unfold names in *. rewrite E in Ht. congruence.
  - rewrite bool_decide_false in Hnew by done.
    assert (Hsame : forall x, x ∈ l -> names name' (entry_at w' (dir_after d off) x) = names name' (entry_at (f_blk σ) d x)).
    { intros x Hx. rewrite Hent by (apply Hmem; by left). case_decide as Ex; [| done]. subst x. rewrite Hnew.
      destruct Hl' as [(_ & _ & H0) | (_ & Hn)]; [| done]. unfold names. by rewrite H0. }
    destruct Hl' as [(-> & _) | (El & _)]; [by apply find_ext_in |]. rewrite El, find_snoc, (find_ext_in _ _ _ Hsame).
    destruct (List.find _ l); [done |]. rewrite Hent, decide_True by (done || (apply Hmem; by right)). by rewrite Hnew.
Qed.
End Directories.

(** ** [iget] and [iput] *)

Section Cache.
Context {limits : Limits}.

Lemma figet_ok σ dev inum :
  (exists j ip, f_ic σ !! j = Some ip /\ i_ref ip = 0) ->
  exists j ip ip0, figet dev inum σ = Some (j, {| σ with f_ic := <[j := ip]> (f_ic σ) |}) /\ f_ic σ !! j = Some ip0 /\
    i_dev ip = dev /\ i_inum ip = inum /\ 0 < i_ref ip /\ (i_valid ip = 0 \/ 1 < i_ref ip).
Proof.
  intros (j0 & ip0 & Hj0 & Hr0). unfold figet. destruct (list_find _ (f_ic σ)) as [[j ip] |] eqn:E.
  - apply list_find_Some in E as (Hj & (Hr & Hd & Hn) & _). eexists j, _, ip. split; [done |]. cbn. split_and!; try done; [lia | right; lia].
  - destruct (list_find (fun ip => i_ref ip = 0) (f_ic σ)) as [[j ip] |] eqn:E2.
    + apply list_find_Some in E2 as (Hj & _ & _). eexists j, _, ip. split; [done |]. cbn. split_and!; try done; [by left].
    + apply list_find_None in E2. rewrite Forall_forall in E2. exfalso. by apply (E2 ip0 (list_elem_of_lookup_2 _ _ _ Hj0)).
Qed.

(** Giving up a reference to an inode that has others, or has not been read. *)
Lemma fiput_ok σ j ip :
  f_ic σ !! j = Some ip -> f_held σ j = false -> i_valid ip = 0 \/ 1 < i_ref ip ->
  exists σ', fiput j σ = Some (tt, σ') /\ f_blk σ' = f_blk σ /\ f_log σ' = f_log σ.
Proof.
  intros Hj Hh Hk. unfold fiput, fbind at 1, flock. rewrite Hh. cbn [mbind option_bind].
  rewrite (fgeti_ok _ _ ip) by done.
  assert (Hskip : forall τ, f_ic τ !! j = Some ip -> fwhen (negb (i_valid ip =? 0) && (i_nlink ip =? 0))
    (let! ip := fgeti j in fwhen (i_ref ip =? 1)
       (do! fitrunc j in do! fmodi j (fun ip => {| ip with i_type := 0 |}) in do! fiupdate j in
        fmodi j (fun ip => {| ip with i_valid := 0 |}))) τ = Some (tt, τ)).
  { intros τ Hτ. destruct Hk as [-> | Hr]; [done |]. destruct (negb _ && _)%bool; [| done]. cbn [fwhen].
    rewrite (fgeti_ok _ _ ip) by done. by rewrite (proj2 (Z.eqb_neq _ _)) by lia. }
  unfold fbind at 1. rewrite Hskip by done. cbn [mbind option_bind]. unfold fbind at 1, funlock. cbn. rewrite fupd_eq. cbn.
  unfold fmodi. cbn. rewrite Hj. by eexists.
Qed.
End Cache.

(** *** A look-up after entering a name *)

Section Lookup.
Context {limits : Limits} (σ : fstate) (dp : nat) (d : inode) (b1 : Z) (name : list Z) (inum : Z).
Context (Hd : directory σ dp d b1) (Hsep : separate (f_blk σ) d 0 b1).
Context (Hap : apart (f_blk σ) d b1 (IBLOCK (i_inum d) (f_sb σ))).
Context (Hno : slot_of (f_blk σ) d name = None) (Hin : 0 < inum < 65536).

#[local] Abbreviation off := (default (i_size d) (free_slot (f_blk σ) d)).
#[local] Abbreviation σ' := (after_write σ dp d off (dirent_bytes (mkDirent inum (padded_name DIRSIZ name)))).

Lemma free_after : (exists j ip, f_ic σ !! j = Some ip /\ i_ref ip = 0) -> exists j ip, f_ic σ' !! j = Some ip /\ i_ref ip = 0.
Proof.
  intros (j & ip & Hj & Hr). unfold after_write. destruct (i_size d <? _); [| by exists j, ip]. cbn.
  destruct (decide (j = dp)) as [-> | Hne].
  - pose proof (di_cached _ _ _ _ Hd) as Hc. assert (ip = d) as -> by congruence. eexists dp, _.
    split; [apply list_lookup_insert_eq; by eapply lookup_lt_Some | done].
  - exists j, ip. by rewrite list_lookup_insert_ne.
Qed.

(** The inode number at the offset that a look-up finds. *)
Lemma lookup_inum name' o :
  off / BSIZE <= b1 -> slot_of (f_blk σ') (dir_after d off) name' = Some o ->
  de_inum (entry_at (f_blk σ') (dir_after d off) o) =
    if decide (cut DIRSIZ name' = cut DIRSIZ name) then inum else de_inum (entry_at (f_blk σ) d o).
Proof using All.
  intros Hb. rewrite (slot_after σ dp d b1) by done. pose proof Hd as [_ _ _ [Hsz Hm] _ Hl].
  destruct (link_slot σ dp d b1 Hd) as (Hoff & Hom & Hl').
  case_decide as E; intros Ho.
  - injection Ho as <-. rewrite (entry_after σ dp d b1), decide_True; try done; [lia | apply padded_length | lia].
  - apply List.find_some in Ho as [Ho Hn]. rewrite <- list_elem_of_In in Ho.
    pose proof (offset_inv (i_size d) o (proj1 Hsz) Hm Ho) as (H0 & H1 & H2 & _).
    rewrite (entry_after σ dp d b1), decide_False; try done; [| lia | apply padded_length | etrans; [| exact Hl]; apply Z.div_le_mono; [done | lia]].
    intros ->. destruct Hl' as [(_ & _ & Hz) | (_ & Hz)]; [| done]. unfold names in Hn. by rewrite Hz in Hn.
Qed.

Lemma link_bytes_length : length (dirent_bytes (mkDirent inum (padded_name DIRSIZ name))) = 16%nat.
Proof using Type. unfold dirent_bytes. rewrite length_app. cbn [de_name]. by rewrite padded_length. Qed.

Lemma flookup_after name' :
  ended DIRSIZ name' -> off / BSIZE <= b1 -> (exists j ip, f_ic σ !! j = Some ip /\ i_ref ip = 0) ->
  exists y σ2, fdirlookup dp name' σ' = Some (y, σ2) /\
    match (if decide (cut DIRSIZ name' = cut DIRSIZ name) then Some (off, inum)
           else (fun o => (o, de_inum (entry_at (f_blk σ) d o))) <$> slot_of (f_blk σ) d name') with
    | None => y = None
    | Some (off', n) => exists j ip, y = Some (j, off') /\ f_ic σ2 !! j = Some ip /\ i_dev ip = 1 /\ i_inum ip = n /\ 0 < i_ref ip
    end.
Proof using All.
  intros Hn' Hb Hfree. destruct (link_slot σ dp d b1 Hd) as (Hoff & Hom & _).
  destruct (after_write_ok σ dp d b1 off _ Hd Hsep Hap Hoff Hom Hb link_bytes_length) as [Hd' _].
  rewrite (fdirlookup_ok _ dp _ b1 name' Hd' Hn'). pose proof (slot_after σ dp d b1 name inum name' Hd Hsep Hap Hno Hin Hb) as Hs.
  cbv zeta in Hs. pose proof (lookup_inum name') as Hnum. destruct (slot_of (f_blk σ') (dir_after d off) name') as [o |] eqn:Eo.
  2:{ eexists _, _. split; [done |]. case_decide; [done |]. by rewrite <- Hs. }
  destruct (figet_ok σ' (i_dev (dir_after d off)) (de_inum (entry_at (f_blk σ') (dir_after d off) o)) (free_after Hfree))
    as (j & ip & ip0 & Hg & Hj & Hdv & Hnm & Hrf & _).
  unfold fbind. rewrite Hg. cbn [mbind option_bind fret]. eexists _, _. split; [done |]. rewrite (Hnum o Hb eq_refl) in Hnm.
  assert (i_dev ip = 1) as Hdv1 by (rewrite Hdv; pose proof (lo_dev _ _ _ _ _ _ (di_laid _ _ _ _ Hd)); unfold dir_after; by destruct (i_size d <? _)).
  assert ((<[j:=ip]> (f_ic σ')) !! j = Some ip) as Hj' by (apply list_lookup_insert_eq; by eapply lookup_lt_Some).
  case_decide; [injection Hs as -> | rewrite <- Hs; cbn]; by exists j, ip.
Qed.
End Lookup.

(** Entering a name that is there. *)
Lemma fdirlink_again {limits : Limits} σ dp d b1 name inum :
  directory σ dp d b1 -> ended DIRSIZ name -> slot_of (f_blk σ) d name <> None -> (forall j, f_held σ j = false) ->
  (exists j ip, f_ic σ !! j = Some ip /\ i_ref ip = 0) ->
  exists σ', fdirlink dp name inum σ = Some (-1, σ') /\ f_blk σ' = f_blk σ /\ f_log σ' = f_log σ.
Proof.
  intros Hd Hn Hyes Hheld Hfree. destruct (slot_of (f_blk σ) d name) as [o |] eqn:Eo; [| done].
  destruct (figet_ok σ (i_dev d) (de_inum (entry_at (f_blk σ) d o)) Hfree) as (j & ip & ip0 & Hg & Hj & _ & _ & _ & Hk).
  destruct (fiput_ok {| σ with f_ic := <[j := ip]> (f_ic σ) |} j ip) as (σ' & Hp & Hblk & Hlg); [| apply Hheld | done |].
  { cbn. by rewrite list_lookup_insert_eq by (by eapply lookup_lt_Some). }
  exists σ'. split; [| done]. unfold fdirlink, fbind at 1. rewrite (fdirlookup_ok σ dp d b1), Eo by done.
  unfold fbind. rewrite Hg. cbn. by rewrite Hp.
Qed.


(** ** A small file system

    40 blocks, the log in 2 to 11, the inodes in 12, the bitmap in 13; the root
    directory, in 14, holds the file [a], in 15. *)

Definition small_limits : Limits := {| fs_set := [12; 13; 14; 15; 16]; fs_blocks := 40; fs_max := 6 |}.
Definition zeros : list Z := replicate 512 0.
Definition small_disk (b : Z) : list Z :=
  if b =? 12 then
    put_dinode (put_dinode zeros 1 (mkDinode T_DIR 0 0 1 48 (14 :: replicate 12 0)))
      2 (mkDinode T_FILE 0 0 1 3 (15 :: replicate 12 0))
  else if b =? 13 then [255; 255] ++ replicate 510 0
  else if b =? 14 then
    dirent_bytes (mkDirent 1 (str "." ++ replicate 13 0)) ++ dirent_bytes (mkDirent 1 (str ".." ++ replicate 12 0)) ++
    dirent_bytes (mkDirent 2 (str "a" ++ replicate 13 0)) ++ replicate 464 0
  else zeros.
Definition small_sb : superblock := mkSuperblock 40 25 8 10 2 12 13.
Definition small_state : fstate :=
  FState small_disk [] [] (replicate NINODE inode0) (fun _ => false) small_sb.

(** The same with the root directory in memory. *)
Definition root_dir : inode := mkInode 1 1 1 1 T_DIR 0 0 1 48 (14 :: replicate 12 0).
Definition root_state : fstate := {| small_state with f_ic := root_dir :: replicate 49 inode0 |}.
Definition root_machine : kstate :=
  set_icache (root_dir :: replicate 49 inode0) (set_sb small_sb (set_disk small_disk (set_disksize 40
    (set_log (mkLog 2 10 0 0 1 (mkLogheader 0 (replicate (Z.to_nat LOGSIZE) 0))) (set_bcache cold_bufs
      (one_cpu {| cpu0 with c_proc := Some 0%nat |} [live RUNNING 7 0 10])))))).

Lemma root_machine_calm : calm 7 root_machine.
Proof.
  apply (calm_frame (fun s => set_icache _ (set_sb _ (set_disk _ (set_disksize _ (set_log _ (set_bcache _ s))))))); [done |]. split.
  - eexists 0%nat, _, 0%nat, _. split_and!; [by apply one_cpu_runs | done | done | done].
  - by intros l.
Qed.

Lemma small_area : @log_area small_limits 2 10.
Proof.
  split; cbn; unfold LOGSIZE, MAXOPBLOCKS; [lia | lia | lia | |].
  - repeat constructor; lia.
  - apply (bool_decide_unpack _). vm_compute. done.
Qed.

Lemma root_machine_ready : @ready small_limits 7 2 10 root_state root_machine.
Proof.
  split; try done.
  apply cold_cstate; [apply root_machine_calm | done | done |]. apply Nat.leb_le. by vm_compute.
Qed.

Lemma root_directory : @directory small_limits root_state 0 root_dir 0.
Proof.
  split; try done. split; try done.
  - intros blk Hblk. cbn [fs_set small_limits] in Hblk. cbn [fs_blocks small_limits].
    rewrite !elem_of_cons, elem_of_nil in Hblk. destruct Hblk as [-> | [-> | [-> | [-> | [-> | []]]]]]; split; (reflexivity || lia).
  - intros bn Hbn. assert (bn = 0) as -> by lia. split; [discriminate |]. cbn [fs_set small_limits]. set_solver.
Qed.

