(* ===== verification/Pipe.v ===== *)
(** [pipe.c]: bounded buffers between processes.  [pipealloc], which allocates
    file structures, is in [File].  The caller's buffer is a function that
    fetches or stores a byte at an index. *)

From S2P Require Import Prelude Params Mem Machine Spinlock Kalloc Console Proc ProcSpec.
From S2P Require Import Sleeplock.

(** ** Operations *)

Definition PIPESIZE : Z := 512.

Definition getpipe (p : Z) : M pipe := gets (fun s => pipes s p).

Definition pipeclose (p : Z) (writable : bool) : M unit :=
  acquire (LkPipe p) ;;
  (if writable then
     modpipe p (fun q => {| q with pi_writeopen := 0 |}) ;;
     wakeup (ChNread p)
   else
     modpipe p (fun q => {| q with pi_readopen := 0 |}) ;;
     wakeup (ChNwrite p)) ;;
  q <- getpipe p ;;
  if ((pi_readopen q =? 0) && (pi_writeopen q =? 0))%bool then
    release (LkPipe p) ;;
    kfree p
  else release (LkPipe p).

Section Pipe.
Context `{Turns}.

(** Is the calling process marked killed? *)
Definition am_killed : M bool :=
  p <- curproc ;;
  pr <- getp p ;;
  ret (negb (p_killed pr =? 0)).

(** The inner loop of [pipewrite]: [false] when the writer must give up. *)
Definition wait_room (p : Z) : M bool :=
  loop_until max_turns (
    q <- getpipe p ;;
    if pi_nwrite q =? u32 (pi_nread q + PIPESIZE) then
      if pi_readopen q =? 0 then ret (Some false)
      else
        k <- am_killed ;;
        if (k : bool) then ret (Some false)
        else
          wakeup (ChNread p) ;;
          sleep (ChNwrite p) (LkPipe p) ;;
          ret None
    else ret (Some true)).

Definition push_byte (b : Z) (q : pipe) : pipe :=
  {| q with pi_data := <[Z.to_nat (pi_nwrite q mod PIPESIZE) := u8 b]> (pi_data q);
            pi_nwrite := u32 (pi_nwrite q + 1) |}.

Definition pipewrite (p : Z) (get : Z -> M Z) (n : Z) : M Z :=
  acquire (LkPipe p) ;;
  r <- for_ret (seqZ 0 n) (fun i =>
    ok <- wait_room p ;;
    if negb ok then release (LkPipe p) ;; ret (Some (-1))
    else
      b <- get i ;;
      modpipe p (push_byte b) ;;
      ret None) ;;
  match r with
  | Some r => ret r
  | None =>
      wakeup (ChNread p) ;;
      release (LkPipe p) ;;
      ret n
  end.

(** The waiting loop of [piperead]: [false] when the reader has been killed. *)
Definition wait_data (p : Z) : M bool :=
  loop_until max_turns (
    q <- getpipe p ;;
    if ((pi_nread q =? pi_nwrite q) && negb (pi_writeopen q =? 0))%bool then
      k <- am_killed ;;
      if (k : bool) then ret (Some false)
      else sleep (ChNread p) (LkPipe p) ;; ret None
    else ret (Some true)).

Definition next_byte (q : pipe) : Z := default 0 (pi_data q !! Z.to_nat (pi_nread q mod PIPESIZE)).

(** The copying loop of [piperead]: at most [k] more bytes, [i] copied so far. *)
Fixpoint piperead_loop (k : nat) (p : Z) (put : Z -> Z -> M unit) (i : Z) : M Z :=
  match k with
  | O => ret i
  | S k' =>
      q <- getpipe p ;;
      if pi_nread q =? pi_nwrite q then ret i
      else
        let b := next_byte q in
        modpipe p (fun q => {| q with pi_nread := u32 (pi_nread q + 1) |}) ;;
        put i b ;;
        piperead_loop k' p put (i + 1)
  end.

Definition piperead (p : Z) (put : Z -> Z -> M unit) (n : Z) : M Z :=
  acquire (LkPipe p) ;;
  ok <- wait_data p ;;
  if negb ok then release (LkPipe p) ;; ret (-1)
  else
    i <- piperead_loop (Z.to_nat n) p put 0 ;;
    wakeup (ChNwrite p) ;;
    release (LkPipe p) ;;
    ret i.
End Pipe.

(** ** The ring buffer as a queue *)

(** The number of bytes buffered; the counters run freely and wrap around. *)
Definition buffered (q : pipe) : Z := u32 (pi_nwrite q - pi_nread q).

(** The byte [k] places behind the read position. *)
Definition byte_at (q : pipe) (k : Z) : Z :=
  default 0 (pi_data q !! Z.to_nat (u32 (pi_nread q + k) mod PIPESIZE)).

Definition contents (q : pipe) : list Z := byte_at q <$> seqZ 0 (buffered q).

Record pipe_ok (q : pipe) : Prop := {
  po_len : length (pi_data q) = Z.to_nat PIPESIZE;
  po_r : is_u32 (pi_nread q);
  po_w : is_u32 (pi_nwrite q);
  po_room : buffered q <= PIPESIZE }.

Lemma length_contents q : length (contents q) = Z.to_nat (buffered q).
Proof. unfold contents. by rewrite length_fmap, length_seqZ. Qed.

(** The code's tests for a full and for an empty pipe. *)
Lemma full_iff q : pipe_ok q -> pi_nwrite q = u32 (pi_nread q + PIPESIZE) <-> buffered q = PIPESIZE.
Proof. intros [_ Hr Hw _]. unfold buffered, u32, is_u32, PIPESIZE in *. zdiv. Qed.

Lemma empty_iff q : pipe_ok q -> pi_nread q = pi_nwrite q <-> contents q = [].
Proof.
  intros [_ Hr Hw _]. trans (buffered q = 0).
  - unfold buffered, u32, is_u32 in *. zdiv.
  - rewrite <- length_zero_iff_nil, length_contents.
    pose proof (u32_range (pi_nwrite q - pi_nread q)). unfold buffered, is_u32 in *. lia.
Qed.

(** The slot that [nwrite] designates is the one behind the last byte. *)
Lemma write_slot q :
  pipe_ok q -> u32 (pi_nread q + buffered q) = pi_nwrite q.
Proof. intros [_ Hr Hw _]. unfold buffered, u32, is_u32 in *. zdiv. Qed.

Lemma push_ok b q :
  pipe_ok q -> buffered q < PIPESIZE ->
  pipe_ok (push_byte b q) /\ buffered (push_byte b q) = buffered q + 1.
Proof.
  intros [Hl Hr Hw Hb] Hroom.
  assert (Hnew : buffered (push_byte b q) = buffered q + 1).
  { unfold buffered in *. simpl. unfold u32, is_u32, PIPESIZE in *. zdiv. }
  split; [| done]. split; [by simpl; rewrite length_insert | done | apply u32_range | lia].
Qed.

(** Writing a byte appends it to the queue. *)
Lemma push_contents b q :
  pipe_ok q -> buffered q < PIPESIZE -> contents (push_byte b q) = contents q ++ [u8 b].
Proof.
  intros Hq Hroom. destruct (push_ok b q Hq Hroom) as [_ Hb]. pose proof Hq as [Hl Hr Hw _].
  pose proof (u32_range (pi_nwrite q - pi_nread q)) as H0. fold (buffered q) in H0.
  unfold contents. rewrite Hb.
  rewrite seqZ_app, fmap_app by (unfold is_u32 in *; lia). f_equal.
  - apply list_fmap_ext. intros j k [-> Hk]%lookup_seqZ. unfold byte_at, push_byte. simpl.
    rewrite list_lookup_insert_ne; [done |]. intros E.
    assert (pi_nwrite q mod PIPESIZE = u32 (pi_nread q + (0 + Z.of_nat j)) mod PIPESIZE) as E'
      by (unfold PIPESIZE in *; zdiv).
    clear E. rewrite <- (write_slot q Hq) in E'. unfold u32, is_u32, PIPESIZE in *. zdiv.
  - change (seqZ ?m 1) with [Z.of_nat 0 + m]. cbn [fmap list_fmap]. f_equal.
    unfold byte_at, push_byte. cbn [pi_data pi_nread]. rewrite !Z.add_0_l, (write_slot q Hq), list_lookup_insert_eq; [done |].
    rewrite Hl. unfold PIPESIZE. zdiv.
Qed.

Definition drop_byte (q : pipe) : pipe := {| q with pi_nread := u32 (pi_nread q + 1) |}.

Lemma pop_ok q :
  pipe_ok q -> contents q <> [] ->
  pipe_ok (drop_byte q) /\ contents q = next_byte q :: contents (drop_byte q).
Proof.
  intros Hq Hne. pose proof Hq as [Hl Hr Hw Hb].
  assert (0 < buffered q) as Hpos.
  { rewrite <- length_zero_iff_nil, length_contents in Hne. lia. }
  assert (Hnew : buffered (drop_byte q) = buffered q - 1).
  { unfold buffered in *. simpl. unfold u32, is_u32, PIPESIZE in *. zdiv. }
  split; [split; [done | apply u32_range | done | lia] |].
  unfold contents. rewrite Hnew. rewrite seqZ_cons by done. cbn [fmap list_fmap].
  f_equal.
  - unfold byte_at, next_byte. rewrite Z.add_0_r, u32_small by done. done.
  - change (Z.succ 0) with (1 + 0). rewrite <- (fmap_add_seqZ 1 0), <- list_fmap_compose, Z.sub_1_r.
    apply list_fmap_ext. intros j k Hk. unfold byte_at. simpl. do 3 f_equal.
    unfold u32. rewrite Zplus_mod_idemp_l. by rewrite Z.add_assoc.
Qed.

(** ** Refinement: the pipe is a bounded queue *)

(** One byte of [pipewrite] or [piperead], each under the lock of the pipe and
    after its waiting loop; [written] and [got] record the traffic. *)
Inductive traffic (q0 : pipe) : pipe -> list Z -> list Z -> Prop :=
| tr_start : traffic q0 q0 [] []
| tr_write q written got b :
    traffic q0 q written got -> pi_nwrite q <> u32 (pi_nread q + PIPESIZE) ->
    traffic q0 (push_byte b q) (written ++ [u8 b]) got
| tr_read q written got :
    traffic q0 q written got -> pi_nread q <> pi_nwrite q ->
    traffic q0 (drop_byte q) written (got ++ [next_byte q]).

Lemma room_lt q :
  pipe_ok q -> pi_nwrite q <> u32 (pi_nread q + PIPESIZE) -> buffered q < PIPESIZE.
Proof. intros Hq Hne. pose proof (po_room q Hq). rewrite (full_iff q Hq) in Hne. lia. Qed.


Definition full_ring : pipe := mkPipe (replicate 512 7) 4294967290 4294967290 1 1.


(** ** The system calls' halves, when they need not wait *)

(** The memory after a caller's buffer has received [l] from index [i] on. *)
Fixpoint put_all (W : Z -> Z -> memory -> memory) (i : Z) (l : list Z) (m : memory) : memory :=
  match l with [] => m | b :: l' => put_all W (i + 1) l' (W i b m) end.

Lemma piperead_loop_ok put W k p i s :
  (forall j b s', put j b s' = Ok tt (set_mem (W j b (mem s')) s')) -> pipe_ok (pipes s p) ->
  let out := take k (contents (pipes s p)) in
  exists q', pipe_ok q' /\ contents q' = drop k (contents (pipes s p)) /\
    piperead_loop k p put i s =
      Ok (i + Z.of_nat (length out))
        (set_mem (put_all W i out (mem s)) (set_pipes (fupd (pipes s) p q') s)).
Proof.
  intros Hput. revert i s. induction k as [| k IH]; intros i s Hq out.
  - exists (pipes s p). split_and!; [done | done |]. unfold out. simpl.
    rewrite Z.add_0_r, fupd_id by done. unfold ret. by rewrite set_pipes_id, set_mem_id.
  - cbn [piperead_loop]. unfold getpipe. rewrite bind_gets. unfold out.
    destruct (Z.eqb_spec (pi_nread (pipes s p)) (pi_nwrite (pipes s p))) as [E | E].
    + apply (empty_iff _ Hq) in E. rewrite E. exists (pipes s p). split_and!; [done | by rewrite E |].
      simpl. rewrite Z.add_0_r, fupd_id by done. unfold ret. by rewrite set_pipes_id, set_mem_id.
    + assert (Hne : contents (pipes s p) <> []) by (by rewrite <- (empty_iff _ Hq)).
      destruct (pop_ok _ Hq Hne) as [Hq' Hc]. rewrite Hc. cbn [take drop].
      unfold modpipe. rewrite bind_modify. step by (apply Hput).
      change {| (pipes s p) with pi_nread := u32 (pi_nread (pipes s p) + 1) |}
        with (drop_byte (pipes s p)).
      set (s1 := set_mem _ _).
      assert (Hs1 : pipes s1 p = drop_byte (pipes s p)) by (simpl; by rewrite fupd_eq).
      destruct (IH (i + 1) s1) as (q' & Hok & Hdrop & Hrun); [by rewrite Hs1 |].
      rewrite Hs1 in Hdrop, Hrun. exists q'. split_and!; [done | done |]. rewrite Hrun.
      cbn [length put_all]. unfold s1. simpl. rewrite fupd_fupd. f_equal. lia.
Qed.

Section Ready.
Context `{Turns} (Hturns : (0 < max_turns)%nat).

Lemma wait_data_ready s p :
  pipe_ok (pipes s p) -> contents (pipes s p) <> [] \/ pi_writeopen (pipes s p) = 0 ->
  wait_data p s = Ok true s.
Proof.
  intros Hq Hready. unfold wait_data. destruct max_turns; [lia |]. cbn [loop_until].
  unfold getpipe. rewrite bind_assoc, bind_gets.
  replace (_ && _)%bool with false; [by rewrite bind_ret |].
  symmetry. apply andb_false_iff. destruct Hready as [Hne | Hw]; [left | right; by rewrite Hw].
  apply Z.eqb_neq. by rewrite (empty_iff _ Hq).
Qed.

Lemma wait_room_ready s p :
  pipe_ok (pipes s p) -> buffered (pipes s p) < PIPESIZE -> wait_room p s = Ok true s.
Proof.
  intros Hq Hroom. unfold wait_room. destruct max_turns; [lia |]. cbn [loop_until].
  unfold getpipe. rewrite bind_assoc, bind_gets.
  rewrite (proj2 (Z.eqb_neq _ _)); [by rewrite bind_ret |]. rewrite (full_iff _ Hq). lia.
Qed.

Lemma pipewrite_loop_ok get (f : Z -> Z) p (l : list Z) s :
  (forall j s', get j s' = Ok (f j) s') -> pipe_ok (pipes s p) ->
  buffered (pipes s p) + Z.of_nat (length l) <= PIPESIZE ->
  exists q', pipe_ok q' /\ contents q' = contents (pipes s p) ++ ((fun j => u8 (f j)) <$> l) /\
    for_ret l (fun i =>
      ok <- wait_room p ;;
      if negb ok then release (LkPipe p) ;; ret (Some (-1))
      else
        b <- get i ;;
        modpipe p (push_byte b) ;;
        ret None) s = Ok None (set_pipes (fupd (pipes s) p q') s).
Proof.
  intros Hget. revert s. induction l as [| j l IH]; intros s Hq Hlen.
  - exists (pipes s p). rewrite app_nil_r. split_and!; [done | done |].
    simpl. unfold ret. by rewrite fupd_id, set_pipes_id.
  - cbn [length] in Hlen. assert (buffered (pipes s p) < PIPESIZE) as Hroom by lia.
    destruct (push_ok (f j) _ Hq Hroom) as [Hq1 Hb1].
    cbn [for_ret]. rewrite bind_assoc. step by (by apply wait_room_ready). cbn [negb].
    rewrite bind_assoc. step by (apply Hget). unfold modpipe. rewrite bind_assoc, bind_modify, bind_ret.
    set (s1 := set_pipes _ s).
    assert (Hs1 : pipes s1 p = push_byte (f j) (pipes s p)) by (simpl; by rewrite fupd_eq).
    destruct (IH s1) as (q' & Hq' & Hc' & Hrun); [by rewrite Hs1 | rewrite Hs1, Hb1; lia |].
    exists q'. rewrite Hs1, push_contents in Hc' by done. split_and!; [done | |].
    + by rewrite Hc', <- app_assoc.
    + etrans; [exact Hrun |]. unfold s1. simpl. by rewrite fupd_fupd.
Qed.
End Ready.

(** [pipewrite] of [n] bytes that fit appends exactly them to the queue, in
    order, wakes the readers and returns [n]; nothing else changes. The caller's
    buffer holds [f 0], [f 1], ... *)
Lemma pipewrite_ok `{Turns} s i c p get (f : Z -> Z) n :
  (0 < max_turns)%nat -> runs_on s i c -> lock_free s (LkPipe p) -> lock_free s LkPtable ->
  (forall j s', get j s' = Ok (f j) s') ->
  pipe_ok (pipes s p) -> 0 <= n -> buffered (pipes s p) + n <= PIPESIZE ->
  exists q', pipe_ok q' /\
    contents q' = contents (pipes s p) ++ ((fun j => u8 (f j)) <$> seqZ 0 n) /\
    pipewrite p get n s =
      Ok n (set_ptable (wake (Some (ChNread p)) <$> ptable s)
             (set_pipes (fupd (pipes s) p q') (cli_touch s))).
Proof.
  intros Ht Hr Hl Hf Hget Hq Hn Hroom. unfold pipewrite.
  step by (apply acquire_ok; [done | apply Hl]).
  destruct (pipewrite_loop_ok Ht get f p (seqZ 0 n) (locked_by i c (LkPipe p) s))
    as (q' & Hq' & Hc' & Hrun); [done | done | by rewrite length_seqZ, Z2Nat.id |].
  exists q'. split_and!; [done | done |]. step by (exact Hrun).
  destruct (in_section_locked s i c (LkPipe p) Hr) as (c' & Hin & _).
  step by (apply (wakeup_in _ i c'); [by apply (in_section_frame (set_pipes _)) | done]).
  by step by (exact (release_after (fun s => set_ptable _ (set_pipes _ s)) s i c (LkPipe p) Hr Hl)).
Qed.

(** [piperead] of up to [n] bytes from a pipe that holds data, or has no writer
    left, stores the oldest bytes into the caller's buffer in order and returns their
    number: [n], or all there are, and 0 at the end of the file. The rest stays
    queued, the writers are woken, and nothing else changes. [W] is the effect on
    memory of storing one byte into the caller's buffer. *)
Lemma piperead_ok `{Turns} s i c p put W n :
  (0 < max_turns)%nat -> runs_on s i c -> lock_free s (LkPipe p) -> lock_free s LkPtable ->
  (forall j b s', put j b s' = Ok tt (set_mem (W j b (mem s')) s')) ->
  pipe_ok (pipes s p) -> contents (pipes s p) <> [] \/ pi_writeopen (pipes s p) = 0 ->
  let out := take (Z.to_nat n) (contents (pipes s p)) in
  exists q', pipe_ok q' /\ contents q' = drop (Z.to_nat n) (contents (pipes s p)) /\
    piperead p put n s =
      Ok (Z.of_nat (length out))
        (set_ptable (wake (Some (ChNwrite p)) <$> ptable s)
          (set_mem (put_all W 0 out (mem s)) (set_pipes (fupd (pipes s) p q') (cli_touch s)))).
Proof.
  intros Ht Hr Hl Hf Hput Hq Hready out. unfold piperead.
  step by (apply acquire_ok; [done | apply Hl]).
  step by (by apply wait_data_ready). cbn [negb].
  destruct (piperead_loop_ok put W (Z.to_nat n) p 0 (locked_by i c (LkPipe p) s))
    as (q' & Hq' & Hc' & Hrun); [done | done |].
  exists q'. split_and!; [done | done |]. step by (exact Hrun).
  destruct (in_section_locked s i c (LkPipe p) Hr) as (c' & Hin & _).
  step by (apply (wakeup_in _ i c'); [by apply (in_section_frame (fun s => set_mem _ (set_pipes _ s))) | done]).
  by step by (exact (release_after (fun s => set_ptable _ (set_mem _ (set_pipes _ s)))
    s i c (LkPipe p) Hr Hl)).
Qed.

(** C30: Both ends of a pipe.  Writing [n] bytes that fit appends exactly them to the
    queue, in order, wakes the readers and returns [n].  Reading up to [n] bytes from a
    pipe that holds data, or has no writer left, stores the oldest bytes into the
    caller's buffer in order, leaves the rest queued, wakes the writers and returns the
    number of bytes: 0 at the end of the file.  Nothing else changes.  The writer's
    buffer holds [f 0], [f 1], ...; [W] is the effect on memory of storing one byte. *)
Theorem pipe_spec `{Turns} s i c p :
  (0 < max_turns)%nat -> runs_on s i c -> lock_free s (LkPipe p) -> lock_free s LkPtable -> pipe_ok (pipes s p) ->
  (forall get (f : Z -> Z) n,
     (forall j s', get j s' = Ok (f j) s') -> 0 <= n -> buffered (pipes s p) + n <= PIPESIZE ->
     exists q', pipe_ok q' /\ contents q' = contents (pipes s p) ++ ((fun j => u8 (f j)) <$> seqZ 0 n) /\
       pipewrite p get n s =
         Ok n (set_ptable (wake (Some (ChNread p)) <$> ptable s) (set_pipes (fupd (pipes s) p q') (cli_touch s)))) /\
  (forall put W n,
     (forall j b s', put j b s' = Ok tt (set_mem (W j b (mem s')) s')) ->
     contents (pipes s p) <> [] \/ pi_writeopen (pipes s p) = 0 ->
     let out := take (Z.to_nat n) (contents (pipes s p)) in
     exists q', pipe_ok q' /\ contents q' = drop (Z.to_nat n) (contents (pipes s p)) /\
       piperead p put n s =
         Ok (Z.of_nat (length out))
           (set_ptable (wake (Some (ChNwrite p)) <$> ptable s)
             (set_mem (put_all W 0 out (mem s)) (set_pipes (fupd (pipes s) p q') (cli_touch s))))).
Proof. intros Ht Hr Hl Hf Hq. split; intros; [by apply (pipewrite_ok s i c) | by apply (piperead_ok s i c)]. Qed.

(** ** A concrete pipe *)

Definition piped (l : list Z) : kstate :=
  set_pipes (fun _ => mkPipe (l ++ replicate (512 - length l) 0) 0 (Z.of_nat (length l)) 1 1)
    (one_cpu cpu0 [live RUNNING 1 0 10]).

Lemma piped_runs l : runs_on (piped l) 0 cpu0.
Proof. by apply (cf_runs_on (set_pipes _)), one_cpu_runs. Qed.

#[local] Instance pipe_turns : Turns := 4%nat.

Lemma pipe_spec_witness :
  (exists q', contents q' = [1; 2; 10; 11; 12] /\
    pipewrite 0x80500000 (fun j => ret (10 + j)) 3 (piped [1; 2]) =
      Ok 3 (set_ptable (wake (Some (ChNread 0x80500000)) <$> ptable (piped [1; 2]))
             (set_pipes (fupd (pipes (piped [1; 2])) 0x80500000 q') (cli_touch (piped [1; 2]))))) /\
  (exists q', contents q' = [2] /\
    piperead 0x80500000 (fun j b => modify (fun s => set_mem (st8 (mem s) (4096 + j) b) s)) 1 (piped [1; 2]) =
      Ok 1 (set_ptable (wake (Some (ChNwrite 0x80500000)) <$> ptable (piped [1; 2]))
             (set_mem (st8 (mem (piped [1; 2])) 4096 1)
               (set_pipes (fupd (pipes (piped [1; 2])) 0x80500000 q') (cli_touch (piped [1; 2])))))).
Proof.
  destruct (pipe_spec (piped [1; 2]) 0 cpu0 0x80500000) as [Hwrite Hread];
    [vm_compute; lia | apply piped_runs | done | done | split; vm_compute; try done; lia |].
  split.
  - destruct (Hwrite (fun j => ret (10 + j)) (fun j => 10 + j) 3) as (q' & _ & Hc & Hrun); [done | done | vm_compute; discriminate |].
    exists q'. split; [exact Hc | exact Hrun].
  - destruct (Hread (fun j b => modify (fun s => set_mem (st8 (mem s) (4096 + j) b) s)) (fun j b m => st8 m (4096 + j) b) 1)
      as (q' & _ & Hc & Hrun); [done | left; discriminate |].
    exists q'. split; [exact Hc | exact Hrun].
Defined.
