(* ===== verification/File.v ===== *)
(** [file.c]: open files, and [pipealloc] of [pipe.c]. *)

From S2P Require Import Prelude Params Mem CString Machine Spinlock Kalloc Console Vm Proc.
From S2P Require Import ProcSpec Sleeplock Ide Bio Log Inode ConsoleDev Fs Pipe.

(** ** Buffers in user memory *)

Definition user_put (dst : Z) (k : Z) (b : list Z) : M unit :=
  forM (imap (fun j x => (Z.of_nat j, x)) b) (fun jx => ust8 (dst + k + jx.1) jx.2).
Fixpoint user_bytes (va : Z) (n : nat) : M (list Z) :=
  match n with
  | O => ret []
  | S n' => b <- uld8 va ;; r <- user_bytes (va + 1) n' ;; ret (b :: r)
  end.
Definition user_get (src : Z) (k m : Z) : M (list Z) := user_bytes (src + k) (Z.to_nat m).

Definition fileinit : M unit := initlock LkFtable "ftable".

Definition filealloc : M (option nat) :=
  acquire LkFtable ;;
  found <- gets (fun s => list_find (fun f => f_ref f = 0) (ftable s)) ;;
  match found with
  | Some (i, _) =>
      modf i (fun f => {| f with f_ref := 1 |}) ;;
      release LkFtable ;;
      ret (Some i)
  | None => release LkFtable ;; ret None
  end.

Definition filedup (i : nat) : M nat :=
  acquire LkFtable ;;
  f <- getf i ;;
  if f_ref f <? 1 then panic "filedup"
  else
    modf i (fun f => {| f with f_ref := f_ref f + 1 |}) ;;
    release LkFtable ;;
    ret i.

Section File.
Context `{Turns} `{Disk}.

Definition fileclose (i : nat) : M unit :=
  acquire LkFtable ;;
  f <- getf i ;;
  if f_ref f <? 1 then panic "fileclose"
  else
    modf i (fun f => {| f with f_ref := f_ref f - 1 |}) ;;
    ff <- getf i ;;
    if 0 <? f_ref ff then release LkFtable
    else
      modf i (fun f => {| f with f_ref := 0 |}) ;;
      modf i (fun f => {| f with f_type := FD_NONE |}) ;;
      release LkFtable ;;
      match f_type ff with
      | FD_PIPE => pipeclose (f_pipe ff) (negb (f_writable ff =? 0))
      | FD_INODE =>
          begin_op ;;
          ip <- unwrap (f_ip ff) ;;
          iput ip ;;
          end_op
      | _ => ret tt
      end.

Definition filestat (i : nat) (st : Z) : M Z :=
  f <- getf i ;;
  match f_type f with
  | FD_INODE =>
      ip <- unwrap (f_ip f) ;;
      ilock ip ;;
      stati ip st ;;
      iunlock ip ;;
      ret 0
  | _ => ret (-1)
  end.

Definition fileread (i : nat) (addr n : Z) : M Z :=
  f <- getf i ;;
  if f_readable f =? 0 then ret (-1)
  else
    match f_type f with
    | FD_PIPE => piperead (f_pipe f) (fun k b => ust8 (addr + k) b) n
    | FD_INODE =>
        ip <- unwrap (f_ip f) ;;
        ilock ip ;;
        f <- getf i ;;
        r <- readi ip (user_put addr) (f_off f) n ;;
        when (0 <? r.1) (modf i (fun f => {| f with f_off := u32 (f_off f + r.1) |})) ;;
        iunlock ip ;;
        ret r.1
    | _ => panic "fileread"
    end.

(** The chunk size of [filewrite] and its loop, which ends early on an error. *)
Definition filewrite_max : Z := (MAXOPBLOCKS - 1 - 1 - 2) / 2 * 512.
Fixpoint filewrite_loop (fuel : nat) (i : nat) (ip : nat) (addr k n : Z) : M Z :=
  match fuel with
  | O => stop_with OutOfFuel
  | S fuel' =>
      if k <? n then
        let n1 := if filewrite_max <? n - k then filewrite_max else n - k in
        begin_op ;;
        ilock ip ;;
        f <- getf i ;;
        r <- writei ip (user_get (addr + k)) (f_off f) n1 ;;
        when (0 <? r) (modf i (fun f => {| f with f_off := u32 (f_off f + r) |})) ;;
        iunlock ip ;;
        end_op ;;
        if r <? 0 then ret k
        else if negb (r =? n1) then panic "short filewrite"
        else filewrite_loop fuel' i ip addr (k + r) n
      else ret k
  end.

Definition filewrite (i : nat) (addr n : Z) : M Z :=
  f <- getf i ;;
  if f_writable f =? 0 then ret (-1)
  else
    match f_type f with
    | FD_PIPE => pipewrite (f_pipe f) (fun k => uld8 (addr + k)) n
    | FD_INODE =>
        ip <- unwrap (f_ip f) ;;
        k <- filewrite_loop (S (S (Z.to_nat (n / filewrite_max)))) i ip addr 0 n ;;
        ret (if k =? n then n else -1)
    | _ => panic "filewrite"
    end.

(** ** [pipealloc] *)

Definition pipealloc : M (option (nat * nat)) :=
  f0 <- filealloc ;;
  match f0 with
  | None => ret None
  | Some i0 =>
      f1 <- filealloc ;;
      match f1 with
      | None => fileclose i0 ;; ret None
      | Some i1 =>
          p <- kalloc ;;
          if p =? 0 then fileclose i0 ;; fileclose i1 ;; ret None
          else
            modpipe p (fun q => {| q with pi_readopen := 1; pi_writeopen := 1; pi_nwrite := 0; pi_nread := 0 |}) ;;
            initlock (LkPipe p) "pipe" ;;
            modf i0 (fun f => {| f with f_type := FD_PIPE; f_readable := 1; f_writable := 0; f_pipe := p |}) ;;
            modf i1 (fun f => {| f with f_type := FD_PIPE; f_readable := 0; f_writable := 1; f_pipe := p |}) ;;
            ret (Some (i0, i1))
      end
  end.
End File.
