(* ===== verification/Process.v ===== *)
(** The operations of [proc.c] that also use the file system: [userinit],
    [fork], [exit] and [forkret]. *)

From S2P Require Import Prelude Params Mem CString Machine Spinlock Kalloc Console Vm Proc.
From S2P Require Import ProcSpec Sleeplock Ide Bio Log Inode ConsoleDev Fs Pipe File.

(** Addresses the linker supplies: the routines a new context starts in, and
    the program of the first process. *)
Class Symbols := {
  sym_forkret : Z; sym_trapret : Z;
  sym_initcode_start : Z; sym_initcode_size : Z }.

Section Process.
Context `{Turns} `{Disk} `{Symbols}.

Definition userinit : M unit :=
  p <- allocproc sym_forkret sym_trapret ;;
  modify (set_initproc p) ;;
  p <- unwrap p ;;
  pgdir <- setupkvm ;;
  modp p (fun q => {| q with p_pgdir := pgdir |}) ;;
  if pgdir =? 0 then panic "userinit: out of memory?"
  else
    inituvm pgdir sym_initcode_start sym_initcode_size ;;
    modp p (fun q => {| q with p_sz := PGSIZE |}) ;;
    pr <- getp p ;;
    let udata := Z.lor (Z.shiftl SEG_UDATA 3) DPL_USER in
    modify (fun s => set_tframes (fupd (tframes s) (p_tf pr)
      {| trapframe0 with tf_cs := Z.lor (Z.shiftl SEG_UCODE 3) DPL_USER;
                         tf_ds := udata; tf_es := udata; tf_ss := udata;
                         tf_eflags := FL_IF; tf_esp := PGSIZE; tf_eip := 0 |}) s) ;;
    nm <- unwrap (safestrcpy (p_name pr) (str "initcode" ++ [0]) 16) ;;
    modp p (fun q => {| q with p_name := nm |}) ;;
    cwd <- namei (str "/") ;;
    modp p (fun q => {| q with p_cwd := cwd |}) ;;
    acquire LkPtable ;;
    modp p (fun q => {| q with p_state := RUNNABLE |}) ;;
    release LkPtable.

Definition fork : M Z :=
  cur <- curproc ;;
  np <- allocproc sym_forkret sym_trapret ;;
  match np with
  | None => ret (-1)
  | Some np =>
      me <- getp cur ;;
      pgdir <- copyuvm (p_pgdir me) (p_sz me) ;;
      modp np (fun q => {| q with p_pgdir := pgdir |}) ;;
      if pgdir =? 0 then
        child <- getp np ;;
        kfree (p_kstack child) ;;
        modp np (fun q => {| q with p_kstack := 0 |}) ;;
        modp np (fun q => {| q with p_state := UNUSED |}) ;;
        ret (-1)
      else
        modp np (fun q => {| q with p_sz := p_sz me |}) ;;
        modp np (fun q => {| q with p_parent := Some cur |}) ;;
        child <- getp np ;;
        modify (fun s => set_tframes (fupd (tframes s) (p_tf child)
          {| (tframes s (p_tf me)) with tf_eax := 0 |}) s) ;;
        forM (seq 0 NOFILE) (fun i =>
          f <- unwrap (p_ofile me !! i) ;;
          match f with
          | Some f =>
              g <- filedup f ;;
              modp np (fun q => {| q with p_ofile := <[i := Some g]> (p_ofile q) |})
          | None => ret tt
          end) ;;
        cwd <- unwrap (p_cwd me) ;;
        cwd <- idup cwd ;;
        modp np (fun q => {| q with p_cwd := Some cwd |}) ;;
        nm <- unwrap (safestrcpy (p_name child) (p_name me) 16) ;;
        modp np (fun q => {| q with p_name := nm |}) ;;
        let t := if 0 <? p_tickets me then p_tickets me else 1 in
        modp np (fun q => {| q with p_tickets := t |}) ;;
        modp np (fun q => {| q with p_original_tickets := t |}) ;;
        let pid := p_pid child in
        acquire LkPtable ;;
        modp np (fun q => {| q with p_state := RUNNABLE |}) ;;
        release LkPtable ;;
        ret pid
  end.

(** Handing the children of [cur] to [initproc]: one turn of [exit]'s loop. *)
Definition reparent (cur : nat) (i : nat) : M unit :=
  p <- getp i ;;
  when (bool_decide (p_parent p = Some cur))
    (init <- gets initproc ;;
     modp i (fun q => {| q with p_parent := init |}) ;;
     when (bool_decide (p_state p = ZOMBIE)) (wakeup1 (ChProc <$> init))).

Definition exit : M unit :=
  cur <- curproc ;;
  init <- gets initproc ;;
  if bool_decide (init = Some cur) then panic "init exiting"
  else
    forM (seq 0 NOFILE) (fun fd =>
      me <- getp cur ;;
      f <- unwrap (p_ofile me !! fd) ;;
      match f with
      | Some f =>
          fileclose f ;;
          modp cur (fun q => {| q with p_ofile := <[fd := None]> (p_ofile q) |})
      | None => ret tt
      end) ;;
    begin_op ;;
    me <- getp cur ;;
    cwd <- unwrap (p_cwd me) ;;
    iput cwd ;;
    end_op ;;
    modp cur (fun q => {| q with p_cwd := None |}) ;;
    acquire LkPtable ;;
    me <- getp cur ;;
    wakeup1 (ChProc <$> p_parent me) ;;
    forM (seq 0 NPROC) (reparent cur) ;;
    now <- gets ticks ;;
    modp cur (fun q => {| q with p_etime := now |}) ;;
    modp cur (fun q => {| q with p_state := ZOMBIE |}) ;;
    sched ;;
    panic "zombie exit".

Definition forkret : M unit :=
  release LkPtable ;;
  first <- gets forkret_first ;;
  when first
    (modify (set_forkret_first false) ;;
     iinit ROOTDEV ;;
     initlog ROOTDEV).
End Process.
