(* ===== verification/Syscall.v ===== *)
(** [syscall.c] and [sysproc.c]: fetching system-call arguments from user
    memory, and the process system calls. *)

From S2P Require Import Prelude Params Mem CString Machine Spinlock Kalloc Console Vm Proc.
From S2P Require Import ProcSpec Sleeplock Ide Bio Log Inode ConsoleDev Fs Pipe File Process.

(** ** Arguments

    [None] is the error return -1. *)

Definition fetchint (addr : Z) : M (option Z) :=
  p <- myproc ;;
  match p with
  | None => ret None
  | Some p =>
      pr <- getp p ;;
      if ((p_sz pr <=? addr) || (p_sz pr <? u32 (addr + 4)))%bool then ret None
      else v <- uld32 addr ;; ret (Some (i32 v))
  end.

(** The scan of [fetchstr] for the terminator: the characters before it. *)
Fixpoint fetchstr_loop (k : nat) (va : Z) : M (option (list Z)) :=
  match k with
  | O => ret None
  | S k' =>
      c <- uld8 va ;;
      if c =? 0 then ret (Some [])
      else r <- fetchstr_loop k' (va + 1) ;; ret (cons c <$> r)
  end.

(** [fetchstr]: the string, whose length is the code's return value. *)
Definition fetchstr (addr : Z) : M (option (list Z)) :=
  p <- myproc ;;
  match p with
  | None => ret None
  | Some p =>
      pr <- getp p ;;
      if p_sz pr <=? addr then ret None
      else fetchstr_loop (Z.to_nat (p_sz pr - addr)) addr
  end.

Definition argint (n : Z) : M (option Z) :=
  p <- myproc ;;
  match p with
  | None => ret None
  | Some p =>
      pr <- getp p ;;
      if p_tf pr =? 0 then ret None
      else
        esp <- gets (fun s => tf_esp (tframes s (p_tf pr))) ;;
        fetchint (u32 (esp + 4 + 4 * n))
  end.

Definition argptr (n size : Z) : M (option Z) :=
  p <- myproc ;;
  match p with
  | None => ret None
  | Some p =>
      i <- argint n ;;
      match i with
      | None => ret None
      | Some i =>
          pr <- getp p ;;
          if ((size <? 0) || (p_sz pr <=? u32 i) || (p_sz pr <? u32 (u32 i + size)))%bool
          then ret None
          else ret (Some (u32 i))
      end
  end.

Definition argstr (n : Z) : M (option (list Z)) :=
  a <- argint n ;;
  match a with
  | None => ret None
  | Some a => fetchstr (u32 a)
  end.

(** ** Process system calls *)

Section Sysproc.
Context `{Turns} `{Disk} `{Symbols}.

Definition sys_fork : M Z := fork.
Definition sys_exit : M Z := exit ;; ret 0.
Definition sys_wait : M Z := wait.

Definition sys_kill : M Z :=
  pid <- argint 0 ;;
  match pid with None => ret (-1) | Some pid => kill pid end.

Definition sys_getpid : M Z := p <- curproc ;; pr <- getp p ;; ret (p_pid pr).

Definition sys_sbrk : M Z :=
  n <- argint 0 ;;
  match n with
  | None => ret (-1)
  | Some n =>
      p <- curproc ;;
      pr <- getp p ;;
      let addr := i32 (p_sz pr) in
      r <- growproc n ;;
      ret (if r <? 0 then -1 else addr)
  end.

Definition sys_sleep : M Z :=
  n <- argint 0 ;;
  match n with
  | None => ret (-1)
  | Some n =>
      if n <? 0 then ret (-1)
      else
        acquire LkTicks ;;
        ticks0 <- gets ticks ;;
        loop_until max_turns (
          now <- gets ticks ;;
          if u32 (now - ticks0) <? n then
            k <- am_killed ;;
            if (k : bool) then release LkTicks ;; ret (Some (-1))
            else sleep ChTicks LkTicks ;; ret None
          else release LkTicks ;; ret (Some 0))
  end.

Definition sys_uptime : M Z :=
  acquire LkTicks ;;
  xticks <- gets ticks ;;
  release LkTicks ;;
  ret (i32 xticks).

Definition sys_settickets : M Z :=
  n <- argint 0 ;;
  match n with
  | None => ret (-1)
  | Some n => if n <=? 0 then ret (-1) else settickets n
  end.

Definition sys_setpolicy : M Z :=
  p <- argint 0 ;;
  match p with
  | None => ret (-1)
  | Some p => if ((p <? 0) || (2 <? p))%bool then ret (-1) else setpolicy p
  end.

Definition sys_getpinfo : M Z :=
  ps <- argptr 0 SIZEOF_PSTAT ;;
  match ps with
  | None => ret (-1)
  | Some ps => if ps =? 0 then ret (-1) else getpinfo ps
  end.

Definition sys_waitx : M Z :=
  w <- argptr 0 4 ;;
  match w with
  | None => ret (-1)
  | Some w =>
      if w =? 0 then ret (-1)
      else
        r <- argptr 1 4 ;;
        match r with
        | None => ret (-1)
        | Some r => if r =? 0 then ret (-1) else waitx w r
        end
  end.

Definition sys_yield : M Z := yield ;; ret 0.
End Sysproc.
