(* ===== verification/Exec.v ===== *)
(** [exec.c], and [loaduvm] of [vm.c]: replacing a process image. *)

From S2P Require Import Prelude Params Mem CString Machine Spinlock Kalloc Console Vm Proc.
From S2P Require Import ProcSpec Sleeplock Ide Bio Log Inode ConsoleDev Fs Pipe File Process.
From S2P Require Import Syscall.

(** ** [elf.h] *)

Abbreviation ELF_MAGIC := (0x464C457F) (only parsing).
Abbreviation ELF_PROG_LOAD := (1) (only parsing).
Abbreviation SIZEOF_ELFHDR := (52) (only parsing).
Definition SIZEOF_PROGHDR : Z := 32.

(** The fields of the headers the kernel reads. *)
Record elfhdr := mkElfhdr { elf_magic : Z; elf_entry : Z; elf_phoff : Z; elf_phnum : Z }.
Record proghdr := mkProghdr { ph_type : Z; ph_off : Z; ph_vaddr : Z; ph_filesz : Z; ph_memsz : Z }.

Definition elfhdr_of (d : list Z) : elfhdr :=
  mkElfhdr (lget32 d 0) (lget32 d 24) (lget32 d 28) (lget16 d 44).
Definition proghdr_of (d : list Z) : proghdr :=
  mkProghdr (lget32 d 0) (lget32 d 4) (lget32 d 8) (lget32 d 16) (lget32 d 20).

(** A destination in kernel memory. *)
Definition kernel_put (a : Z) (k : Z) (b : list Z) : M unit :=
  modify (fun s => set_mem (stn (mem s) (a + k) b) s).

Definition word_bytes (w : Z) : list Z :=
  [w mod 256; w / 256 mod 256; w / 65536 mod 256; w / 16777216 mod 256].

Section Exec.
Context `{Turns} `{Disk} `{Symbols}.

Fixpoint loaduvm_loop (fuel : nat) (pgdir addr : Z) (ip : nat) (offset i sz : Z) : M Z :=
  match fuel with
  | O => stop_with OutOfFuel
  | S fuel' =>
      if i <? sz then
        pte <- walkpgdir pgdir (u32 (addr + i)) false ;;
        if pte =? 0 then panic "loaduvm: address should exist"
        else
          e <- ldw pte ;;
          let pa := PTE_ADDR e in
          let n := if sz - i <? PGSIZE then sz - i else PGSIZE in
          r <- readi ip (kernel_put (P2V pa)) (u32 (offset + i)) n ;;
          if negb (r.1 =? n) then ret (-1)
          else loaduvm_loop fuel' pgdir addr ip offset (i + PGSIZE) sz
      else ret 0
  end.
Definition loaduvm (pgdir addr : Z) (ip : nat) (offset sz : Z) : M Z :=
  if negb (addr mod PGSIZE =? 0) then panic "loaduvm: addr must be page aligned"
  else loaduvm_loop (S (S (Z.to_nat (sz / PGSIZE)))) pgdir addr ip offset 0 sz.

(** The loop over the program headers: the size reached, or [None] for [goto bad]. *)
Fixpoint load_segments (k : nat) (ip : nat) (pgdir off sz : Z) : M (option Z) :=
  match k with
  | O => ret (Some sz)
  | S k' =>
      r <- readi ip put_local (u32 off) SIZEOF_PROGHDR ;;
      if negb (r.1 =? SIZEOF_PROGHDR) then ret None
      else
        let ph := proghdr_of r.2 in
        if negb (ph_type ph =? ELF_PROG_LOAD) then
          load_segments k' ip pgdir (off + SIZEOF_PROGHDR) sz
        else if ph_memsz ph <? ph_filesz ph then ret None
        else if u32 (ph_vaddr ph + ph_memsz ph) <? ph_vaddr ph then ret None
        else
          sz <- allocuvm pgdir sz (u32 (ph_vaddr ph + ph_memsz ph)) ;;
          if sz =? 0 then ret None
          else if negb (ph_vaddr ph mod PGSIZE =? 0) then ret None
          else
            l <- loaduvm pgdir (ph_vaddr ph) ip (ph_off ph) (ph_filesz ph) ;;
            if l <? 0 then ret None
            else load_segments k' ip pgdir (off + SIZEOF_PROGHDR) sz
  end.

(** The loop that pushes the argument strings: the final [sp] and the string
    addresses, or [None] for [goto bad]. *)
Fixpoint push_args (pgdir sp argc : Z) (argv : list (list Z)) : M (option (Z * list Z)) :=
  match argv with
  | [] => ret (Some (sp, []))
  | a :: argv' =>
      if MAXARG <=? argc then ret None
      else
        let sp := Z.land (u32 (sp - (Z.of_nat (length a) + 1))) (u32 (Z.lnot 3)) in
        r <- copyout pgdir sp (a ++ [0]) ;;
        if r <? 0 then ret None
        else
          t <- push_args pgdir sp (argc + 1) argv' ;;
          ret ((fun t => (t.1, sp :: t.2)) <$> t)
  end.

(** The part of a path after its last slash. *)
Fixpoint last_elem (last s : list Z) : list Z :=
  match s with
  | [] => last
  | c :: s' => if c =? 47 then last_elem s' s' else last_elem last s'
  end.

(** The label [bad]. *)
Definition exec_bad (pgdir : Z) (ip : option nat) : M Z :=
  when (negb (pgdir =? 0)) (freevm pgdir) ;;
  (match ip with Some ip => iunlockput ip ;; end_op | None => ret tt end) ;;
  ret (-1).

(** From the loaded image on: the stack, the arguments, and the switch to the new image. *)
Definition exec_stack (cur : nat) (path : list Z) (argv : list (list Z)) (pgdir sz entry : Z) : M Z :=
  let sz := PGROUNDUP sz in
  sz <- allocuvm pgdir sz (u32 (sz + 2 * PGSIZE)) ;;
  if sz =? 0 then exec_bad pgdir None
  else
    clearpteu pgdir (sz - 2 * PGSIZE) ;;
    args <- push_args pgdir sz 0 argv ;;
    match args with
    | None => exec_bad pgdir None
    | Some (sp, ptrs) =>
        let argc := Z.of_nat (length argv) in
        let ustack := [0xffffffff; argc; u32 (sp - (argc + 1) * 4)] ++ ptrs ++ [0] in
        let sp := u32 (sp - (3 + argc + 1) * 4) in
        r <- copyout pgdir sp (concat (word_bytes <$> ustack)) ;;
        if r <? 0 then exec_bad pgdir None
        else
          me <- getp cur ;;
          nm <- unwrap (safestrcpy (p_name me) (last_elem path path ++ [0]) 16) ;;
          modp cur (fun q => {| q with p_name := nm |}) ;;
          let oldpgdir := p_pgdir me in
          modp cur (fun q => {| q with p_pgdir := pgdir |}) ;;
          modp cur (fun q => {| q with p_sz := sz |}) ;;
          modify (fun s => set_tframes (fupd (tframes s) (p_tf me)
            {| (tframes s (p_tf me)) with tf_eip := entry; tf_esp := sp |}) s) ;;
          switchuvm cur ;;
          freevm oldpgdir ;;
          ret 0
    end.

Definition exec (path : list Z) (argv : list (list Z)) : M Z :=
  cur <- curproc ;;
  begin_op ;;
  ip <- namei path ;;
  match ip with
  | None =>
      end_op ;;
      cprintf (str "exec: fail" ++ [10]) [] ;;
      ret (-1)
  | Some ip =>
      ilock ip ;;
      r <- readi ip put_local 0 SIZEOF_ELFHDR ;;
      let elf := elfhdr_of r.2 in
      if negb (r.1 =? SIZEOF_ELFHDR) then exec_bad 0 (Some ip)
      else if negb (elf_magic elf =? ELF_MAGIC) then exec_bad 0 (Some ip)
      else
        pgdir <- setupkvm ;;
        if pgdir =? 0 then exec_bad 0 (Some ip)
        else
          r <- load_segments (Z.to_nat (elf_phnum elf)) ip pgdir (i32 (elf_phoff elf)) 0 ;;
          match r with
          | None => exec_bad pgdir (Some ip)
          | Some sz =>
              iunlockput ip ;;
              end_op ;;
              exec_stack cur path argv pgdir sz (elf_entry elf)
          end
  end.
End Exec.
