(* ===== verification/Sysfile.v ===== *)
(** [sysfile.c]: the file-system system calls. *)

From S2P Require Import Prelude Params Mem CString Machine Spinlock Kalloc Console Vm Proc.
From S2P Require Import ProcSpec Sleeplock Ide Bio Log Inode ConsoleDev Fs Pipe File Process.
From S2P Require Import Syscall Exec.

Section Sysfile.
Context `{Turns} `{Disk} `{Symbols}.

(** [argfd]: the descriptor and the open file. *)
Definition argfd (n : Z) : M (option (Z * nat)) :=
  fd <- argint n ;;
  match fd with
  | None => ret None
  | Some fd =>
      if ((fd <? 0) || (Z.of_nat NOFILE <=? fd))%bool then ret None
      else
        p <- curproc ;;
        pr <- getp p ;;
        f <- unwrap (p_ofile pr !! Z.to_nat fd) ;;
        ret ((fun f => (fd, f)) <$> f)
  end.

Definition set_ofile (p : nat) (fd : Z) (f : option nat) : M unit :=
  modp p (fun q => {| q with p_ofile := <[Z.to_nat fd := f]> (p_ofile q) |}).

Definition fdalloc (f : nat) : M Z :=
  p <- curproc ;;
  pr <- getp p ;;
  match list_find (fun o => o = None) (p_ofile pr) with
  | Some (fd, _) => set_ofile p (Z.of_nat fd) (Some f) ;; ret (Z.of_nat fd)
  | None => ret (-1)
  end.

Definition sys_dup : M Z :=
  f <- argfd 0 ;;
  match f with
  | None => ret (-1)
  | Some (_, f) =>
      fd <- fdalloc f ;;
      if fd <? 0 then ret (-1) else filedup f ;; ret fd
  end.

(** The common argument checks of [sys_read] and [sys_write]. *)
Definition rw_args : M (option (nat * Z * Z)) :=
  f <- argfd 0 ;;
  match f with
  | None => ret None
  | Some (_, f) =>
      n <- argint 2 ;;
      match n with
      | None => ret None
      | Some n => p <- argptr 1 n ;; ret ((fun p => (f, p, n)) <$> p)
      end
  end.

Definition sys_read : M Z :=
  a <- rw_args ;;
  match a with None => ret (-1) | Some (f, p, n) => fileread f p n end.

Definition sys_write : M Z :=
  a <- rw_args ;;
  match a with None => ret (-1) | Some (f, p, n) => filewrite f p n end.

Definition sys_close : M Z :=
  f <- argfd 0 ;;
  match f with
  | None => ret (-1)
  | Some (fd, f) =>
      p <- curproc ;;
      set_ofile p fd None ;;
      fileclose f ;;
      ret 0
  end.

Abbreviation SIZEOF_STAT := (16) (only parsing).

Definition sys_fstat : M Z :=
  f <- argfd 0 ;;
  match f with
  | None => ret (-1)
  | Some (_, f) =>
      st <- argptr 1 SIZEOF_STAT ;;
      match st with
      | None => ret (-1)
      | Some st => filestat f st
      end
  end.

Definition sys_link : M Z :=
  old <- argstr 0 ;;
  match old with
  | None => ret (-1)
  | Some old =>
      new <- argstr 1 ;;
      match new with
      | None => ret (-1)
      | Some new =>
          begin_op ;;
          ip <- namei old ;;
          match ip with
          | None => end_op ;; ret (-1)
          | Some ip =>
              ilock ip ;;
              d <- geti ip ;;
              if i_type d =? T_DIR then iunlockput ip ;; end_op ;; ret (-1)
              else
                modi ip (fun d => {| d with i_nlink := i16 (i_nlink d + 1) |}) ;;
                iupdate ip ;;
                iunlock ip ;;
                r <- nameiparent new ;;
                ok <- (match r with
                       | None => ret false
                       | Some (dp, name) =>
                           ilock dp ;;
                           dpi <- geti dp ;;
                           ipi <- geti ip ;;
                           r <- (if negb (i_dev dpi =? i_dev ipi) then ret (-1)
                                 else dirlink dp name (i_inum ipi)) ;;
                           iunlockput dp ;;
                           ret (negb (r <? 0))
                       end) ;;
                if (ok : bool) then iput ip ;; end_op ;; ret 0
                else
                  ilock ip ;;
                  modi ip (fun d => {| d with i_nlink := i16 (i_nlink d - 1) |}) ;;
                  iupdate ip ;;
                  iunlockput ip ;;
                  end_op ;;
                  ret (-1)
          end
      end
  end.

Definition isdirempty (dp : nat) : M bool :=
  d <- geti dp ;;
  r <- for_ret (drop 2 (dir_offsets (i_size d))) (fun off =>
    r <- readi dp put_local off SIZEOF_DIRENT ;;
    if negb (r.1 =? SIZEOF_DIRENT) then panic "isdirempty: readi"
    else if negb (de_inum (dirent_of r.2) =? 0) then ret (Some false) else ret None) ;;
  ret (default true r).

(** The label [bad] of [sys_unlink]. *)
Definition unlink_bad (dp : nat) : M Z := iunlockput dp ;; end_op ;; ret (-1).

Definition sys_unlink : M Z :=
  path <- argstr 0 ;;
  match path with
  | None => ret (-1)
  | Some path =>
      begin_op ;;
      r <- nameiparent path ;;
      match r with
      | None => end_op ;; ret (-1)
      | Some (dp, name) =>
          ilock dp ;;
          dot <- unwrap (namecmp name (str "." ++ [0])) ;;
          dotdot <- (if dot =? 0 then ret 0 else unwrap (namecmp name (str ".." ++ [0]))) ;;
          if ((dot =? 0) || (dotdot =? 0))%bool then unlink_bad dp
          else
            r <- dirlookup dp name ;;
            match r with
            | None => unlink_bad dp
            | Some (ip, off) =>
                ilock ip ;;
                d <- geti ip ;;
                if i_nlink d <? 1 then panic "unlink: nlink < 1"
                else
                  empty <- (if i_type d =? T_DIR then isdirempty ip else ret true) ;;
                  if negb empty then iunlockput ip ;; unlink_bad dp
                  else
                    w <- writei dp (get_local (replicate (Z.to_nat SIZEOF_DIRENT) 0)) off SIZEOF_DIRENT ;;
                    if negb (w =? SIZEOF_DIRENT) then panic "unlink: writei"
                    else
                      when (i_type d =? T_DIR)
                        (modi dp (fun d => {| d with i_nlink := i16 (i_nlink d - 1) |}) ;; iupdate dp) ;;
                      iunlockput dp ;;
                      modi ip (fun d => {| d with i_nlink := i16 (i_nlink d - 1) |}) ;;
                      iupdate ip ;;
                      iunlockput ip ;;
                      end_op ;;
                      ret 0
            end
      end
  end.

Definition create (path : list Z) (type major minor : Z) : M (option nat) :=
  r <- nameiparent path ;;
  match r with
  | None => ret None
  | Some (dp, name) =>
      ilock dp ;;
      r <- dirlookup dp name ;;
      match r with
      | Some (ip, _) =>
          iunlockput dp ;;
          ilock ip ;;
          d <- geti ip ;;
          if ((type =? T_FILE) && (i_type d =? T_FILE))%bool then ret (Some ip)
          else iunlockput ip ;; ret None
      | None =>
          dpi <- geti dp ;;
          ip <- ialloc (i_dev dpi) type ;;
          ilock ip ;;
          modi ip (fun d => {| d with i_major := i16 major; i_minor := i16 minor; i_nlink := 1 |}) ;;
          iupdate ip ;;
          ipi <- geti ip ;;
          when (type =? T_DIR)
            (modi dp (fun d => {| d with i_nlink := i16 (i_nlink d + 1) |}) ;;
             iupdate dp ;;
             r1 <- dirlink ip (str "." ++ [0]) (i_inum ipi) ;;
             r2 <- (if r1 <? 0 then ret (-1) else dirlink ip (str ".." ++ [0]) (i_inum dpi)) ;;
             if r2 <? 0 then panic "create dots" else ret tt) ;;
          r <- dirlink dp name (i_inum ipi) ;;
          if r <? 0 then panic "create: dirlink"
          else iunlockput dp ;; ret (Some ip)
      end
  end.

(** The lookup or creation in [sys_open]: the inode, locked. *)
Definition open_inode (path : list Z) (omode : Z) : M (option nat) :=
  if negb (Z.land omode O_CREATE =? 0) then create path T_FILE 0 0
  else
    ip <- namei path ;;
    match ip with
    | None => ret None
    | Some ip =>
        ilock ip ;;
        d <- geti ip ;;
        if ((i_type d =? T_DIR) && negb (omode =? O_RDONLY))%bool then iunlockput ip ;; ret None
        else ret (Some ip)
    end.

Definition b2z (b : bool) : Z := if b then 1 else 0.

Definition sys_open : M Z :=
  path <- argstr 0 ;;
  match path with
  | None => ret (-1)
  | Some path =>
      omode <- argint 1 ;;
      match omode with
      | None => ret (-1)
      | Some omode =>
          begin_op ;;
          ip <- open_inode path omode ;;
          match ip with
          | None => end_op ;; ret (-1)
          | Some ip =>
              f <- filealloc ;;
              fd <- (match f with Some f => fdalloc f | None => ret (-1) end) ;;
              match f with
              | Some f =>
                  if fd <? 0 then fileclose f ;; iunlockput ip ;; end_op ;; ret (-1)
                  else
                    iunlock ip ;;
                    end_op ;;
                    modf f (fun x => {| x with f_type := FD_INODE; f_ip := Some ip; f_off := 0;
                      f_readable := b2z (Z.land omode O_WRONLY =? 0);
                      f_writable := b2z (negb (Z.land omode O_WRONLY =? 0)
                                         || negb (Z.land omode O_RDWR =? 0)) |}) ;;
                    ret fd
              | None => iunlockput ip ;; end_op ;; ret (-1)
              end
          end
      end
  end.

Definition sys_mkdir : M Z :=
  begin_op ;;
  path <- argstr 0 ;;
  ip <- (match path with Some path => create path T_DIR 0 0 | None => ret None end) ;;
  match ip with
  | None => end_op ;; ret (-1)
  | Some ip => iunlockput ip ;; end_op ;; ret 0
  end.

Definition sys_mknod : M Z :=
  begin_op ;;
  path <- argstr 0 ;;
  major <- (match path with Some _ => argint 1 | None => ret None end) ;;
  minor <- (match major with Some _ => argint 2 | None => ret None end) ;;
  ip <- (match path, major, minor with
         | Some path, Some major, Some minor => create path T_DEV major minor
         | _, _, _ => ret None
         end) ;;
  match ip with
  | None => end_op ;; ret (-1)
  | Some ip => iunlockput ip ;; end_op ;; ret 0
  end.

Definition sys_chdir : M Z :=
  cur <- curproc ;;
  begin_op ;;
  path <- argstr 0 ;;
  ip <- (match path with Some path => namei path | None => ret None end) ;;
  match ip with
  | None => end_op ;; ret (-1)
  | Some ip =>
      ilock ip ;;
      d <- geti ip ;;
      if negb (i_type d =? T_DIR) then iunlockput ip ;; end_op ;; ret (-1)
      else
        iunlock ip ;;
        me <- getp cur ;;
        cwd <- unwrap (p_cwd me) ;;
        iput cwd ;;
        end_op ;;
        modp cur (fun q => {| q with p_cwd := Some ip |}) ;;
        ret 0
  end.

(** The loop of [sys_exec] over the argument pointers; [argv] has room for [MAXARG]. *)
Fixpoint fetch_argv (k : nat) (uargv : Z) : M (option (list (list Z))) :=
  match k with
  | O => ret None
  | S k' =>
      uarg <- fetchint (u32 uargv) ;;
      match uarg with
      | None => ret None
      | Some uarg =>
          if uarg =? 0 then ret (Some [])
          else
            a <- fetchstr (u32 uarg) ;;
            match a with
            | None => ret None
            | Some a => r <- fetch_argv k' (uargv + 4) ;; ret (cons a <$> r)
            end
      end
  end.

Definition sys_exec : M Z :=
  path <- argstr 0 ;;
  match path with
  | None => ret (-1)
  | Some path =>
      uargv <- argint 1 ;;
      match uargv with
      | None => ret (-1)
      | Some uargv =>
          argv <- fetch_argv (Z.to_nat MAXARG) (u32 uargv) ;;
          match argv with None => ret (-1) | Some argv => exec path argv end
      end
  end.

Definition sys_pipe : M Z :=
  fd <- argptr 0 8 ;;
  match fd with
  | None => ret (-1)
  | Some fd =>
      r <- pipealloc ;;
      match r with
      | None => ret (-1)
      | Some (rf, wf) =>
          fd0 <- fdalloc rf ;;
          fd1 <- (if fd0 <? 0 then ret (-1) else fdalloc wf) ;;
          if ((fd0 <? 0) || (fd1 <? 0))%bool then
            when (0 <=? fd0) (p <- curproc ;; set_ofile p fd0 None) ;;
            fileclose rf ;;
            fileclose wf ;;
            ret (-1)
          else
            ust32 fd fd0 ;;
            ust32 (fd + 4) fd1 ;;
            ret 0
      end
  end.
End Sysfile.
