(* ===== verification/FsCalls.v ===== *)
(** [mkdir], [mknod], [link] and [unlink] as transactions: what each does to the
    blocks of the file system, and that a sequence of them survives power
    failures at any point as a prefix of itself. *)

From stdpp Require Import sets.
From S2P Require Import Prelude Params Mem CString Machine Spinlock Kalloc Console Vm Proc ProcSpec Sleeplock Ide Quiet.
From S2P Require Import Pipe File Process Syscall Exec Sysfile.
From S2P Require Import Bio BioSpec Log LogSpec Transaction Inode ConsoleDev Fs FileSpec FsAbs FsRefine FsTx FsDir.
From Stdlib Require Import FunctionalExtensionality.

Local Open Scope fs_scope.

(** ** The calls, with their arguments fetched and without [begin_op] and [end_op] *)

Inductive fscall :=
| Mkdir (path : list Z)
| Mknod (path : list Z) (major minor : Z)
| Link (old new : list Z)
| Unlink (path : list Z).

Section Bodies.
Context {turns : Turns} {dk : Disk}.

Definition create_call (path : list Z) (type major minor : Z) : M Z :=
  ip <- create path type major minor ;;
  match ip with
  | None => ret (-1)
  | Some ip => iunlockput ip ;; ret 0
  end.

Definition link_call (old new : list Z) : M Z :=
  ip <- namei old ;;
  match ip with
  | None => ret (-1)
  | Some ip =>
      ilock ip ;;
      d <- geti ip ;;
      if i_type d =? T_DIR then iunlockput ip ;; ret (-1)
      else
        modi ip (fun d => {| d with i_nlink := i16 (i_nlink d + 1) |}) ;;
        iupdate ip ;;
        iunlock ip ;;
        r <- nameiparent new ;;
        ok <- (match r with
               | None => ret false
               | Some (dp, name) =>
                   ilock dp ;;
                   dpi <- geti dp ;;
                   ipi <- geti ip ;;
                   r <- (if negb (i_dev dpi =? i_dev ipi) then ret (-1) else dirlink dp name (i_inum ipi)) ;;
                   iunlockput dp ;;
                   ret (negb (r <? 0))
               end) ;;
        if (ok : bool) then iput ip ;; ret 0
        else
          ilock ip ;;
          modi ip (fun d => {| d with i_nlink := i16 (i_nlink d - 1) |}) ;;
          iupdate ip ;;
          iunlockput ip ;;
          ret (-1)
  end.

Definition unlink_call (path : list Z) : M Z :=
  r <- nameiparent path ;;
  match r with
  | None => ret (-1)
  | Some (dp, name) =>
      ilock dp ;;
      dot <- unwrap (namecmp name (str "." ++ [0])) ;;
      dotdot <- (if dot =? 0 then ret 0 else unwrap (namecmp name (str ".." ++ [0]))) ;;
      if ((dot =? 0) || (dotdot =? 0))%bool then iunlockput dp ;; ret (-1)
      else
        r <- dirlookup dp name ;;
        match r with
        | None => iunlockput dp ;; ret (-1)
        | Some (ip, off) =>
            ilock ip ;;
            d <- geti ip ;;
            if i_nlink d <? 1 then panic "unlink: nlink < 1"
            else
              empty <- (if i_type d =? T_DIR then isdirempty ip else ret true) ;;
              if negb empty then iunlockput ip ;; iunlockput dp ;; ret (-1)
              else
                w <- writei dp (get_local (replicate (Z.to_nat SIZEOF_DIRENT) 0)) off SIZEOF_DIRENT ;;
                if negb (w =? SIZEOF_DIRENT) then panic "unlink: writei"
                else
                  when (i_type d =? T_DIR)
                    (modi dp (fun d => {| d with i_nlink := i16 (i_nlink d - 1) |}) ;; iupdate dp) ;;
                  iunlockput dp ;;
                  modi ip (fun d => {| d with i_nlink := i16 (i_nlink d - 1) |}) ;;
                  iupdate ip ;;
                  iunlockput ip ;;
                  ret 0
        end
  end.

Definition do_call (c : fscall) : M Z :=
  match c with
  | Mkdir path => create_call path T_DIR 0 0
  | Mknod path major minor => create_call path T_DEV major minor
  | Link old new => link_call old new
  | Unlink path => unlink_call path
  end.

(** *** They are what the system calls run *)

Ltac same_run :=
  repeat first
    [ reflexivity
    | rewrite bind_assoc
    | rewrite bind_ret
    | apply bind_ext; intros
    | match goal with |- (match ?x with _ => _ end) _ = _ => destruct x end ].

Lemma sys_mkdir_tx s s1 path :
  begin_op s = Ok tt s1 -> argstr 0 s1 = Ok (Some path) s1 -> sys_mkdir s = tx (do_call (Mkdir path)) s.
Proof.
  intros Hb Ha. unfold sys_mkdir, tx. rewrite !(bind_ok _ _ _ _ _ Hb), (bind_ok _ _ _ _ _ Ha). cbn [do_call]. unfold create_call.
  same_run.
Qed.

Lemma sys_mknod_tx s s1 path major minor :
  begin_op s = Ok tt s1 -> argstr 0 s1 = Ok (Some path) s1 -> argint 1 s1 = Ok (Some major) s1 ->
  argint 2 s1 = Ok (Some minor) s1 -> sys_mknod s = tx (do_call (Mknod path major minor)) s.
Proof.
  intros Hb Ha H1 H2. unfold sys_mknod, tx. rewrite !(bind_ok _ _ _ _ _ Hb), (bind_ok _ _ _ _ _ Ha), (bind_ok _ _ _ _ _ H1), (bind_ok _ _ _ _ _ H2).
  cbn [do_call]. unfold create_call. same_run.
Qed.

Lemma sys_link_tx s s1 s2 old new :
  argstr 0 s = Ok (Some old) s1 -> argstr 1 s1 = Ok (Some new) s2 -> sys_link s = tx (do_call (Link old new)) s2.
Proof.
  intros H0 H1. unfold sys_link, tx. rewrite (bind_ok _ _ _ _ _ H0), (bind_ok _ _ _ _ _ H1).
  cbn [do_call]. unfold link_call. same_run.
Qed.

Lemma sys_unlink_tx s s1 path :
  argstr 0 s = Ok (Some path) s1 -> sys_unlink s = tx (do_call (Unlink path)) s1.
Proof.
  intros H0. unfold sys_unlink, unlink_bad, tx. rewrite (bind_ok _ _ _ _ _ H0).
  cbn [do_call]. unfold unlink_call. same_run.
Qed.
End Bodies.

(** ** What they do to the file system *)

Section Effects.
Context {limits : Limits}.

Definition fnamei (path : list Z) : F (option nat) := let! r := fnamex path false in fret (fst <$> r).
Definition fnameiparent (path : list Z) : F (option (nat * list Z)) := fnamex path true.

Definition fcreate (path : list Z) (type major minor : Z) : F (option nat) :=
  let! r := fnameiparent path in
  match r with
  | None => fret None
  | Some (dp, name) =>
      do! filock dp in
      let! r := fdirlookup dp name in
      match r with
      | Some (ip, _) =>
          do! fiunlockput dp in
          do! filock ip in
          let! d := fgeti ip in
          if ((type =? T_FILE) && (i_type d =? T_FILE))%bool then fret (Some ip)
          else do! fiunlockput ip in fret None
      | None =>
          let! dpi := fgeti dp in
          let! ip := fialloc (i_dev dpi) type in
          do! filock ip in
          do! fmodi ip (fun d => {| d with i_major := i16 major; i_minor := i16 minor; i_nlink := 1 |}) in
          do! fiupdate ip in
          let! ipi := fgeti ip in
          do! fwhen (type =? T_DIR)
            (do! fmodi dp (fun d => {| d with i_nlink := i16 (i_nlink d + 1) |}) in
             do! fiupdate dp in
             let! r1 := fdirlink ip (str "." ++ [0]) (i_inum ipi) in
             let! r2 := (if r1 <? 0 then fret (-1) else fdirlink ip (str ".." ++ [0]) (i_inum dpi)) in
             if r2 <? 0 then ffail else fret tt) in
          let! r := fdirlink dp name (i_inum ipi) in
          if r <? 0 then ffail else do! fiunlockput dp in fret (Some ip)
      end
  end.

Definition fcreate_call (path : list Z) (type major minor : Z) : F Z :=
  let! ip := fcreate path type major minor in
  match ip with
  | None => fret (-1)
  | Some ip => do! fiunlockput ip in fret 0
  end.

Definition flink_call (old new : list Z) : F Z :=
  let! ip := fnamei old in
  match ip with
  | None => fret (-1)
  | Some ip =>
      do! filock ip in
      let! d := fgeti ip in
      if i_type d =? T_DIR then do! fiunlockput ip in fret (-1)
      else
        do! fmodi ip (fun d => {| d with i_nlink := i16 (i_nlink d + 1) |}) in
        do! fiupdate ip in
        do! fiunlock ip in
        let! r := fnameiparent new in
        let! ok := (match r with
                    | None => fret false
                    | Some (dp, name) =>
                        do! filock dp in
                        let! dpi := fgeti dp in
                        let! ipi := fgeti ip in
                        let! r := (if negb (i_dev dpi =? i_dev ipi) then fret (-1) else fdirlink dp name (i_inum ipi)) in
                        do! fiunlockput dp in
                        fret (negb (r <? 0))
                    end) in
        if (ok : bool) then do! fiput ip in fret 0
        else
          do! filock ip in
          do! fmodi ip (fun d => {| d with i_nlink := i16 (i_nlink d - 1) |}) in
          do! fiupdate ip in
          do! fiunlockput ip in
          fret (-1)
  end.

Definition fisdirempty (dp : nat) : F bool :=
  let! d := fgeti dp in
  let! r := ffor_ret (drop 2 (dir_offsets (i_size d))) (fun off =>
    let! r := freadi dp off SIZEOF_DIRENT in
    if negb (r.1 =? SIZEOF_DIRENT) then ffail
    else if negb (de_inum (dirent_of r.2) =? 0) then fret (Some false) else fret None) in
  fret (default true r).

Definition funlink_call (path : list Z) : F Z :=
  let! r := fnameiparent path in
  match r with
  | None => fret (-1)
  | Some (dp, name) =>
      do! filock dp in
      let! dot := fsome (namecmp name (str "." ++ [0])) in
      let! dotdot := (if dot =? 0 then fret 0 else fsome (namecmp name (str ".." ++ [0]))) in
      if ((dot =? 0) || (dotdot =? 0))%bool then do! fiunlockput dp in fret (-1)
      else
        let! r := fdirlookup dp name in
        match r with
        | None => do! fiunlockput dp in fret (-1)
        | Some (ip, off) =>
            do! filock ip in
            let! d := fgeti ip in
            if i_nlink d <? 1 then ffail
            else
              let! empty := (if i_type d =? T_DIR then fisdirempty ip else fret true) in
              if negb empty then do! fiunlockput ip in do! fiunlockput dp in fret (-1)
              else
                let! w := fwritei dp (replicate (Z.to_nat SIZEOF_DIRENT) 0) off SIZEOF_DIRENT in
                if negb (w =? SIZEOF_DIRENT) then ffail
                else
                  do! fwhen (i_type d =? T_DIR)
                    (do! fmodi dp (fun d => {| d with i_nlink := i16 (i_nlink d - 1) |}) in fiupdate dp) in
                  do! fiunlockput dp in
                  do! fmodi ip (fun d => {| d with i_nlink := i16 (i_nlink d - 1) |}) in
                  do! fiupdate ip in
                  do! fiunlockput ip in
                  fret 0
        end
  end.

Definition fcall (c : fscall) : F Z :=
  match c with
  | Mkdir path => fcreate_call path T_DIR 0 0
  | Mknod path major minor => fcreate_call path T_DEV major minor
  | Link old new => flink_call old new
  | Unlink path => funlink_call path
  end.
End Effects.

Section Refinement.
Context {turns : Turns} {dk : Disk} {dspec : DiskSpec} (Hturns : (0 < max_turns)%nat).
Context {limits : Limits} (U : list Z) (HU : NoDup U) (Hsub : forall x, x ∈ fs_set -> x ∈ U).
Context (pid st sz : Z) (Hroom : fs_max <= LOGSIZE /\ fs_max <= sz - 1) (d0 : Z -> list Z).

#[local] Abbreviation refop := (ref U pid st sz d0).

Lemma ref_namei h path : refop h h (namei path) (fnamei path).
Proof using Hturns HU Hsub Hroom dspec. unfold namei, fnamei. refi. Qed.
Lemma ref_nameiparent h path : refop h h (nameiparent path) (fnameiparent path).
Proof using Hturns HU Hsub Hroom dspec. unfold nameiparent, fnameiparent. refi. Qed.
#[local] Hint Resolve ref_namei ref_nameiparent : refine.

Lemma ref_create h path type major minor : refop h h (create path type major minor) (fcreate path type major minor).
Proof using Hturns HU Hsub Hroom dspec. unfold create, fcreate. refi. Qed.
#[local] Hint Resolve ref_create : refine.

Lemma ref_create_call h path type major minor : refop h h (create_call path type major minor) (fcreate_call path type major minor).
Proof using Hturns HU Hsub Hroom dspec. unfold create_call, fcreate_call. refi. Qed.

Lemma ref_link_call h old new : refop h h (link_call old new) (flink_call old new).
Proof using Hturns HU Hsub Hroom dspec. unfold link_call, flink_call. refi. Qed.

Lemma ref_isdirempty h dp : refop h h (isdirempty dp) (fisdirempty dp).
Proof using Hturns HU Hsub Hroom dspec. unfold isdirempty, fisdirempty. refi. Qed.
#[local] Hint Resolve ref_isdirempty : refine.

Lemma ref_unlink_call h path : refop h h (unlink_call path) (funlink_call path).
Proof using Hturns HU Hsub Hroom dspec. unfold unlink_call, funlink_call. refi. Qed.

Lemma ref_call h c : refop h h (do_call c) (fcall c).
Proof using Hturns HU Hsub Hroom dspec.
  destruct c; cbn [do_call fcall]; auto using ref_create_call, ref_link_call, ref_unlink_call.
Qed.
End Refinement.

(** ** The system calls *)

(** [issues sys c s s']: in state [s] the system call [sys] fetches the arguments
    of the call [c], and starts its transaction in [s']. *)
Inductive issues {turns : Turns} {dk : Disk} : M Z -> fscall -> kstate -> kstate -> Prop :=
| issues_mkdir s s1 path :
    begin_op s = Ok tt s1 -> argstr 0 s1 = Ok (Some path) s1 -> issues sys_mkdir (Mkdir path) s s
| issues_mknod s s1 path major minor :
    begin_op s = Ok tt s1 -> argstr 0 s1 = Ok (Some path) s1 -> argint 1 s1 = Ok (Some major) s1 ->
    argint 2 s1 = Ok (Some minor) s1 -> issues sys_mknod (Mknod path major minor) s s
| issues_link s s1 s2 old new :
    argstr 0 s = Ok (Some old) s1 -> argstr 1 s1 = Ok (Some new) s2 -> issues sys_link (Link old new) s s2
| issues_unlink s s1 path :
    argstr 0 s = Ok (Some path) s1 -> issues sys_unlink (Unlink path) s s1.

Lemma issues_tx {turns : Turns} {dk : Disk} sys c s s' : issues sys c s s' -> sys s = tx (do_call c) s'.
Proof.
  destruct 1; eauto using sys_mkdir_tx, sys_mknod_tx, sys_link_tx, sys_unlink_tx.
Qed.

Lemma call_refines {turns : Turns} {dk : Disk} {dspec : DiskSpec} {limits : Limits} pid st sz c :
  (0 < max_turns)%nat -> log_area st sz -> refines pid st sz (do_call c) (fcall c).
Proof.
  intros Ht Hla d0. apply ref_call; [done | by eapply fs_used_nodup | apply fs_set_used |].
  destruct Hla as [? ? ? _ _]. lia.
Qed.


(** C7: calls take effect in order.  A process that makes the calls [calls] one
    after the other gets the results [ftxs] says, and the effects; when the power
    fails at any point, recovery leaves the blocks of the file system as they are
    after some of the first calls, all of their effects and none of the later
    ones'. *)
Theorem calls_in_order (turns : Turns) (limits : Limits) cut cut' img pid pid' st sz calls s σ rs σ' :
  (0 < max_turns)%nat -> log_area st sz -> ready pid st sz σ s -> ftxs (fcall <$> calls) σ = Some (rs, σ') ->
  exec
    (fun d => forall s2, rebooted pid' st fs_blocks (fs_used st) d s2 ->
       exec (fun d' => exists σ1, prefix_state (fcall <$> calls) σ σ1 /\ blocks_are (replay st d') σ1)
         (fun _ s3 => hdr_n st (disk s3) = 0 /\ exists σ1, prefix_state (fcall <$> calls) σ σ1 /\ blocks_are (disk s3) σ1)
         (@recover_from_log turns (cut_disk cut' (Memide.mem_disk img)) s2))
    (fun rs' s' => rs' = rs /\ ready pid st sz σ' s')
    (@txs turns (cut_disk cut (Memide.mem_disk img)) Z (@do_call turns (cut_disk cut (Memide.mem_disk img)) <$> calls) s).
Proof.
  intros Ht Hla Hrdy Hc.
  assert (@Forall2 _ _ (refines pid st sz) (@do_call turns (cut_disk cut (Memide.mem_disk img)) <$> calls) (fcall <$> calls)) as Href.
  { apply Forall2_fmap_2, Forall_Forall2_diag, Forall_true. intros c. by apply call_refines. }
  eapply exec_mono; [exact (@txs_exec turns (cut_disk cut (Memide.mem_disk img)) _ Ht limits pid st sz Hla _ _ _ Href σ s rs σ' Hrdy Hc) | | done].
  - intros d Hd s2 Hs2. by eapply (recover_txs Ht pid st sz Hla pid').
Qed.

(** ** Calls on a small file system *)

(** A process on the disk of FsDir.v, whose first argument is the address of the string [/a]. *)
Definition call_proc : proc := {| (live RUNNING 7 0 10) with p_sz := 4096; p_tf := 0x80400f00 |}.
Definition user_memory : Z -> Z :=
  st32 (st32 (st32 (st32 (fun _ => 0) 0x80300000 0x301007) 0x80301000 0x302007) 0x80302104 0x108) 0x80302108 0x612f.
Definition call_machine : kstate :=
  set_icache (replicate NINODE inode0) (set_sb small_sb (set_disk small_disk (set_disksize 40
    (set_log (mkLog 2 10 0 0 1 (mkLogheader 0 (replicate (Z.to_nat LOGSIZE) 0))) (set_bcache cold_bufs
      (set_tframes (fun _ => {| trapframe0 with tf_esp := 0x100 |}) (set_cr3 0x300000 (set_mem user_memory
        (one_cpu {| cpu0 with c_proc := Some 0%nat |} [call_proc]))))))))).

Lemma call_machine_calm : calm 7 call_machine.
Proof.
  apply (calm_frame (fun s => set_icache _ (set_sb _ (set_disk _ (set_disksize _ (set_log _ (set_bcache _ (set_tframes _
    (set_cr3 _ (set_mem _ s)))))))))); [done |]. split.
  - eexists 0%nat, _, 0%nat, _. split_and!; [by apply one_cpu_runs | done | done | done].
  - by intros l.
Qed.

Lemma call_machine_ready : @ready small_limits 7 2 10 small_state call_machine.
Proof.
  split; try done.
  apply cold_cstate; [apply call_machine_calm | done | done |]. apply Nat.leb_le. by vm_compute.
Qed.

Lemma argstr_a : argstr 0 call_machine = Ok (Some (str "/a")) (cli_touch call_machine).
Proof. vm_compute. reflexivity. Qed.

Lemma touched_ready : @ready small_limits 7 2 10 small_state (cli_touch call_machine).
Proof.
  split; try done.
  apply cold_cstate; [apply calm_touch, call_machine_calm | done | done |]. apply Nat.leb_le. by vm_compute.
Qed.

(** The power fails once the first block of the log has been written. *)
Definition power_cut (s : kstate) : bool := bool_decide (disk s 3 <> zeros).

(** [unlink("/a")] removes the entry and frees the block of the file. *)


(** Directories, a device, a second name of the file; a directory that is not
    empty stays. *)
Definition some_calls : list fscall :=
  [Mkdir (str "/b"); Link (str "/a") (str "/b/c"); Unlink (str "/a"); Unlink (str "/b"); Mknod (str "/b/d") 1 1;
   Unlink (str "/b/d"); Unlink (str "/b/c"); Unlink (str "/b"); Mkdir (str "/")].

Lemma calls_in_order_witness :
  exec (fun d => forall s2, rebooted 1 2 40 (@fs_used small_limits 2) d s2 ->
      exec (fun _ => True) (fun _ s3 => exists σ1,
          prefix_state (@fcall small_limits <$> some_calls) small_state σ1 /\ @blocks_are small_limits (disk s3) σ1)
        (@recover_from_log 1%nat (cut_disk (fun _ => false) (Memide.mem_disk 0)) s2))
    (fun rs _ => rs = [0; 0; 0; -1; 0; 0; 0; 0; -1])
    (@txs 1%nat (cut_disk power_cut (Memide.mem_disk 0)) Z
      (@do_call 1%nat (cut_disk power_cut (Memide.mem_disk 0)) <$> some_calls) call_machine).
Proof.
  assert (E : match ftxs (@fcall small_limits <$> some_calls) small_state with
              | Some (rs, _) => bool_decide (rs = [0; 0; 0; -1; 0; 0; 0; 0; -1]) | None => false end = true)
    by (vm_compute; reflexivity).
  destruct (ftxs (@fcall small_limits <$> some_calls) small_state) as [[rs σ'] |] eqn:Ec; [| discriminate E].
  apply bool_decide_eq_true in E as ->.
  eapply exec_mono;
    [apply (calls_in_order 1%nat small_limits power_cut (fun _ => false) 0 7 1 2 10 some_calls call_machine
              small_state [0; 0; 0; -1; 0; 0; 0; 0; -1] σ') | |].
  - unfold max_turns. lia.
  - apply small_area.
  - apply call_machine_ready.
  - exact Ec.
  - intros d Hd s2 Hs2. eapply exec_mono; [exact (Hd s2 Hs2) | done |]. by intros [] s3 [_ H3].
  - by intros rs s' [-> _].
Defined.
