(* ===== verification/Trap.v ===== *)
(** [trap.c], and the system-call table of [syscall.c]: interrupts, the time
    accounting of processes, and preemption. *)

From S2P Require Import Prelude Params Mem CString Machine Spinlock Kalloc Console Apic Vm.
From S2P Require Import Proc ProcSpec Sleeplock Ide Bio Log Inode ConsoleDev Fs Pipe File.
From S2P Require Import Process Syscall Exec Sysfile.

(** ** Trap vectors

    [vectors] is the table of entry points in the generated file [vectors.S]. *)

Definition tvinit (vectors : nat -> Z) : M unit :=
  modify (fun s => set_idt
    ((fun i => SETGATE false (Z.shiftl SEG_KCODE 3) (vectors i) 0) <$> seq 0 256) s) ;;
  modify (fun s => set_idt (<[Z.to_nat T_SYSCALL :=
    SETGATE true (Z.shiftl SEG_KCODE 3) (vectors (Z.to_nat T_SYSCALL)) DPL_USER]> (idt s)) s) ;;
  initlock LkTicks "time".

Abbreviation SIZEOF_GATEDESC := (8) (only parsing).
Definition idtinit : M unit := modapic (fun a => {| a with idtr := Some (256 * SIZEOF_GATEDESC - 1) |}).

(** ** [syscall.h] and the table *)

Abbreviation SYS_fork := (1) (only parsing).
Abbreviation SYS_exit := (2) (only parsing).
Abbreviation SYS_wait := (3) (only parsing).
Abbreviation SYS_pipe := (4) (only parsing).
Abbreviation SYS_read := (5) (only parsing).
Abbreviation SYS_kill := (6) (only parsing).
Abbreviation SYS_exec := (7) (only parsing).
Abbreviation SYS_fstat := (8) (only parsing).
Abbreviation SYS_chdir := (9) (only parsing).
Abbreviation SYS_dup := (10) (only parsing).
Abbreviation SYS_getpid := (11) (only parsing).
Abbreviation SYS_sbrk := (12) (only parsing).
Abbreviation SYS_sleep := (13) (only parsing).
Abbreviation SYS_uptime := (14) (only parsing).
Abbreviation SYS_open := (15) (only parsing).
Abbreviation SYS_write := (16) (only parsing).
Abbreviation SYS_mknod := (17) (only parsing).
Abbreviation SYS_unlink := (18) (only parsing).
Abbreviation SYS_link := (19) (only parsing).
Abbreviation SYS_mkdir := (20) (only parsing).
Abbreviation SYS_close := (21) (only parsing).
Abbreviation SYS_setpolicy := (22) (only parsing).
Abbreviation SYS_settickets := (23) (only parsing).
Abbreviation SYS_getpinfo := (24) (only parsing).
Abbreviation SYS_waitx := (25) (only parsing).
Abbreviation SYS_yield := (26) (only parsing).

Section Trap.
Context `{Turns} `{Disk} `{Symbols}.

Definition syscalls : list (Z * M Z) :=
  [ (SYS_fork, sys_fork); (SYS_exit, sys_exit); (SYS_wait, sys_wait); (SYS_pipe, sys_pipe);
    (SYS_read, sys_read); (SYS_kill, sys_kill); (SYS_exec, sys_exec); (SYS_fstat, sys_fstat);
    (SYS_chdir, sys_chdir); (SYS_dup, sys_dup); (SYS_getpid, sys_getpid); (SYS_sbrk, sys_sbrk);
    (SYS_sleep, sys_sleep); (SYS_uptime, sys_uptime); (SYS_open, sys_open); (SYS_write, sys_write);
    (SYS_mknod, sys_mknod); (SYS_unlink, sys_unlink); (SYS_link, sys_link); (SYS_mkdir, sys_mkdir);
    (SYS_close, sys_close); (SYS_setpolicy, sys_setpolicy); (SYS_settickets, sys_settickets);
    (SYS_getpinfo, sys_getpinfo); (SYS_waitx, sys_waitx); (SYS_yield, sys_yield) ].

(** The entry of the table at an index; [None] where the C array holds a null
    pointer (index 0) or ends. *)
Definition syscall_entry (num : Z) : option (M Z) :=
  snd <$> find (fun e => e.1 =? num) syscalls.

Definition set_eax (tf v : Z) : M unit :=
  modify (fun s => set_tframes (fupd (tframes s) tf {| (tframes s tf) with tf_eax := u32 v |}) s).

Definition syscall : M unit :=
  p <- myproc ;;
  match p with
  | None => ret tt
  | Some p =>
      pr <- getp p ;;
      if p_tf pr =? 0 then ret tt
      else
        num <- gets (fun s => i32 (tf_eax (tframes s (p_tf pr)))) ;;
        match syscall_entry num with
        | Some call => r <- call ;; set_eax (p_tf pr) r
        | None =>
            cprintf (str "%d %s: unknown sys call %d" ++ [10])
              [VInt (p_pid pr); VStr (Some (until_zero (p_name pr))); VInt num] ;;
            set_eax (p_tf pr) (-1)
        end
  end.

(** ** [trap] *)

(** One turn of the accounting loop of the timer interrupt. *)
Definition account (q : proc) : proc :=
  match p_state q with
  | RUNNING => {| q with p_rtime := u32 (p_rtime q + 1) |}
  | RUNNABLE => {| q with p_retime := u32 (p_retime q + 1) |}
  | SLEEPING => {| q with p_stime := u32 (p_stime q + 1) |}
  | _ => q
  end.

(** The case of the timer: [ticks] and the accounting, on processor 0 only. *)
Definition timer_intr : M unit :=
  id <- cpuid ;;
  when (id =? 0)
    (acquire LkTicks ;;
     modify (fun s => set_ticks (u32 (ticks s + 1)) s) ;;
     wakeup ChTicks ;;
     release LkTicks ;;
     acquire LkPtable ;;
     forM (seq 0 NPROC) (fun i => modp i account) ;;
     release LkPtable) ;;
  lapiceoi.

(** [p && p->killed]. *)
Definition killed_now (p : option nat) : M bool :=
  match p with
  | Some p => pr <- getp p ;; ret (negb (p_killed pr =? 0))
  | None => ret false
  end.

(** [if(p && p->killed && (tf->cs&3) == DPL_USER) exit();] *)
Definition exit_if_killed (p : option nat) (f : trapframe) : M unit :=
  k <- killed_now p ;;
  when (k && (Z.land (tf_cs f) 3 =? DPL_USER))%bool exit.

(** The default case: a trap the kernel has no handler for. *)
Definition unexpected_trap (p : option nat) (f : trapframe) : M unit :=
  a <- gets (fun s => cr2 (apic s)) ;;
  match p with
  | Some p =>
      id <- cpuid ;;
      if Z.land (tf_cs f) 3 =? 0 then
        cprintf (str "unexpected trap %d from cpu %d eip %x (cr2=0x%x)" ++ [10])
          [VInt (tf_trapno f); VInt id; VInt (tf_eip f); VInt a] ;;
        panic "trap"
      else
        pr <- getp p ;;
        cprintf (str "pid %d %s: trap %d err %d on cpu %d eip 0x%x addr 0x%x--kill proc" ++ [10])
          [VInt (p_pid pr); VStr (Some (until_zero (p_name pr))); VInt (tf_trapno f); VInt (tf_err f); VInt id;
           VInt (tf_eip f); VInt a] ;;
        modp p (fun q => {| q with p_killed := 1 |})
  | None =>
      id <- cpuid ;;
      cprintf (str "unexpected trap %d from cpu %d eip %x (cr2=0x%x)" ++ [10])
        [VInt (tf_trapno f); VInt id; VInt (tf_eip f); VInt a] ;;
      panic "trap"
  end.

(** The [switch] on the trap number. *)
Definition trap_switch (p : option nat) (f : trapframe) : M unit :=
  let n := tf_trapno f in
  if n =? T_IRQ0 + IRQ_TIMER then timer_intr
  else if n =? T_IRQ0 + IRQ_IDE then disk_intr ;; lapiceoi
  else if n =? T_IRQ0 + IRQ_IDE + 1 then ret tt
  else if n =? T_IRQ0 + IRQ_KBD then kbdintr ;; lapiceoi
  else if n =? T_IRQ0 + IRQ_COM1 then uartintr ;; lapiceoi
  else if ((n =? T_IRQ0 + 7) || (n =? T_IRQ0 + IRQ_SPURIOUS))%bool then
    id <- cpuid ;;
    cprintf (str "cpu%d: spurious interrupt at %x:%x" ++ [10]) [VInt id; VInt (tf_cs f); VInt (tf_eip f)] ;;
    lapiceoi
  else unexpected_trap p f.

(** Preemption at a timer tick, unless the policy is first come, first served. *)
Definition preempt (p : option nat) (f : trapframe) : M unit :=
  match p with
  | Some p =>
      pr <- getp p ;;
      if (bool_decide (p_state pr = RUNNING) && (tf_trapno f =? T_IRQ0 + IRQ_TIMER))%bool then
        policy <- curpolicy ;;
        when (negb (policy =? 1)) yield
      else ret tt
  | None => ret tt
  end.

Definition trap (tf : Z) : M unit :=
  p <- myproc ;;
  f <- gets (fun s => tframes s tf) ;;
  if tf_trapno f =? T_SYSCALL then
    k <- killed_now p ;;
    when k exit ;;
    (match p with Some p => modp p (fun q => {| q with p_tf := tf |}) | None => ret tt end) ;;
    syscall ;;
    k <- killed_now p ;;
    when k exit
  else
    trap_switch p f ;;
    exit_if_killed p f ;;
    preempt p f ;;
    exit_if_killed p f.
End Trap.
