(* ===== verification/TrapSpec.v ===== *)
(** What a timer interrupt does: the clock, the accounting of every process,
    and preemption under the policy in force. *)

From S2P Require Import Prelude Params Mem CString Machine Spinlock Kalloc Console Apic Vm.
From S2P Require Import Proc Sched ProcSpec ProcSwitch Sleeplock Ide Bio Log Inode ConsoleDev.
From S2P Require Import Fs Pipe File Process Syscall Exec Sysfile Trap.

(** ** Loops over the whole table *)

Lemma forM_modp f s pre rest :
  ptable s = pre ++ rest ->
  forM (seq (length pre) (length rest)) (fun i => modp i f) s
    = Ok tt (set_ptable (pre ++ (f <$> rest)) s).
Proof.
  revert s pre. induction rest as [| q rest IH]; intros s pre Hs.
  - simpl. rewrite app_nil_r in *. unfold ret. f_equal. rewrite <- Hs. by destruct s.
  - cbn [length seq forM]. step by (apply modp_ok; rewrite Hs; by apply list_lookup_middle).
    rewrite Hs, insert_app_r_alt, Nat.sub_diag by lia. cbn [insert list_insert].
    specialize (IH (set_ptable (pre ++ f q :: rest) s) (pre ++ [f q])).
    rewrite length_app, Nat.add_1_r in IH. rewrite IH by (simpl; by rewrite <- app_assoc).
    f_equal. rewrite <- app_assoc. by destruct s.
Qed.

Lemma forM_modp_all f s :
  length (ptable s) = NPROC ->
  forM (seq 0 NPROC) (fun i => modp i f) s = Ok tt (set_ptable (f <$> ptable s) s).
Proof. intros <-. exact (forM_modp f s [] (ptable s) eq_refl). Qed.

(** ** The clock *)

(** The acknowledgement of an interrupt only reaches the local APIC. *)
Definition eoi (s : kstate) : kstate :=
  if lapic (apic s) =? 0 then s
  else set_io {| (io s) with port_time := S (port_time (io s));
                             port_out := (lapic (apic s) + 4 * EOI, 0) :: port_out (io s) |} s.

Lemma lapiceoi_ok s : lapiceoi s = Ok tt (eoi s).
Proof. unfold lapiceoi, eoi. rewrite bind_gets. by destruct (_ =? 0). Qed.

#[export] Instance eoi_frame : CpuFrame eoi.
Proof. by split; intros; unfold eoi; simpl; destruct (_ =? 0). Qed.

Lemma eoi_ptable s : ptable (eoi s) = ptable s.
Proof. unfold eoi. by destruct (_ =? 0). Qed.

(** What the clock interrupt does to the time and to the processes. *)
Definition clock_tick (s : kstate) : kstate :=
  set_ptable (account <$> (wake (Some ChTicks) <$> ptable s)) (set_ticks (u32 (ticks s + 1)) s).

#[export] Instance clock_frame : CpuFrame clock_tick.
Proof. by split. Qed.

Lemma timer_intr_ok s i c :
  runs_on s i c -> eflags_IF s = false -> lock_free s LkTicks -> lock_free s LkPtable ->
  length (ptable s) = NPROC ->
  timer_intr s = Ok tt (eoi (if (i =? 0)%nat then clock_tick (cli_touch s) else s)).
Proof.
  intros Hr HIF Ht Hp Hlen. unfold timer_intr, cpuid. rewrite bind_assoc.
  step by (eapply mycpu_ok; [done | apply Hr]). rewrite bind_ret.
  replace (Z.of_nat i =? 0) with (i =? 0)%nat by (destruct i; done).
  destruct (i =? 0)%nat; cbn [when]; [| rewrite bind_ret; apply lapiceoi_ok].
  rewrite bind_assoc. step by (by apply acquire_ok; [| apply Ht]). rewrite bind_assoc, bind_modify.
  destruct (in_section_locked s i c LkTicks Hr) as (c' & Hin & _).
  rewrite bind_assoc.
  step by (apply (wakeup_in _ i c'); [by apply (in_section_frame (set_ticks _)) | done]).
  rewrite bind_assoc.
  step by (exact (release_after (fun s => set_ptable _ (set_ticks _ s)) s i c LkTicks Hr Ht)).
  set (s1 := set_ptable _ _).
  assert (Hr1 : exists c1, runs_on s1 i c1).
  { eexists. apply (cf_runs_on (fun s => set_ptable _ (set_ticks _ s))). by apply cli_touch_runs. }
  destruct Hr1 as [c1 Hr1].
  assert (Hf1 : lock_free s1 LkPtable) by (by apply cli_touch_lock_free).
  rewrite bind_assoc. step by (by apply acquire_ok; [| apply Hf1]).
  rewrite bind_assoc. step by (apply forM_modp_all; simpl; by rewrite length_fmap).
  step by (exact (release_after (set_ptable _) s1 i c1 LkPtable Hr1 Hf1)).
  rewrite lapiceoi_ok. do 2 f_equal. subst s1.
  rewrite (cf_cli_touch (fun s => set_ptable _ (set_ticks _ s))), (cli_touch_idem s i c Hr).
  unfold clock_tick. destruct (cli_touch_eq s) as (cs & -> & _). done.
Qed.

(** ** Preemption *)

(** The state in which the handler has dealt with the timer on processor [i]. *)
Definition interrupted (i : nat) (s : kstate) : kstate :=
  eoi (if (i =? 0)%nat then clock_tick (cli_touch s) else cli_touch s).

(** The interrupted process, charged for the tick on processor 0. *)
Definition charged (i : nat) (q : proc) : proc := if (i =? 0)%nat then account q else q.

Lemma wake_running ch q : p_state q = RUNNING -> wake ch q = q.
Proof. intros Hq. unfold wake. rewrite bool_decide_eq_false_2; [done | intros [? _]; congruence]. Qed.

Lemma charged_running i q :
  p_state q = RUNNING -> p_state (charged i q) = RUNNING /\ p_killed (charged i q) = p_killed q.
Proof. intros Hq. unfold charged, account. destruct (i =? 0)%nat; by rewrite ?Hq. Qed.

Section Timer.
Context `{Turns} `{Disk} `{Symbols}.
Context (s : kstate) (i : nat) (c : cpu) (p : nat) (q : proc).
Context (Hr : runs_on s i c) (Hn : c_ncli c = 0) (HIF : eflags_IF s = false).
Context (Hp : c_proc c = Some p) (Hq : ptable s !! p = Some q) (Hst : p_state q = RUNNING).
Context (Ht : lock_free s LkTicks) (Hf : lock_free s LkPtable) (Hlen : length (ptable s) = NPROC).

Lemma touched_runs : runs_on (cli_touch s) i {| c with c_intena := false |}.
Proof. pose proof (cli_touch_runs s i c Hr) as Hc. by rewrite HIF, (proj2 (Z.eqb_eq _ _) Hn) in Hc. Qed.

Lemma interrupted_runs : runs_on (interrupted i s) i {| c with c_intena := false |}.
Proof.
  unfold interrupted. apply (cf_runs_on eoi). destruct (i =? 0)%nat; [| exact touched_runs].
  apply (cf_runs_on clock_tick), touched_runs.
Qed.

Lemma interrupted_free : lock_free (interrupted i s) LkPtable.
Proof.
  unfold interrupted. apply (cf_lock_free eoi). destruct (i =? 0)%nat; [| by apply cli_touch_lock_free].
  by apply (cf_lock_free clock_tick), cli_touch_lock_free.
Qed.

Lemma interrupted_proc : ptable (interrupted i s) !! p = Some (charged i q).
Proof.
  unfold interrupted, charged. rewrite eoi_ptable. destruct (cli_touch_eq s) as (cs & -> & _).
  destruct (i =? 0)%nat; [| done]. simpl. rewrite !list_lookup_fmap, Hq. simpl. by rewrite wake_running.
Qed.

Lemma interrupted_policy : scheduling_policy (interrupted i s) = scheduling_policy s.
Proof.
  unfold interrupted, eoi. destruct (cli_touch_eq s) as (cs & -> & _).
  by destruct (i =? 0)%nat; simpl; destruct (_ =? 0).
Qed.

Lemma interrupted_IF : eflags_IF (interrupted i s) = false.
Proof.
  unfold interrupted. rewrite (cf_get_IF eoi). destruct (cli_touch_eq s) as (cs & -> & _).
  by destruct (i =? 0)%nat.
Qed.

Lemma timer_from_touched : timer_intr (cli_touch s) = Ok tt (interrupted i s).
Proof.
  destruct (cli_touch_eq s) as (cs & E & _).
  rewrite (timer_intr_ok (cli_touch s) i _ touched_runs).
  - unfold interrupted. by rewrite (cli_touch_idem s i c Hr).
  - by rewrite E.
  - by apply cli_touch_lock_free.
  - by apply cli_touch_lock_free.
  - by rewrite E.
Qed.

Lemma not_killed s1 q1 f :
  ptable s1 !! p = Some q1 -> p_killed q1 = 0 -> exit_if_killed (Some p) f s1 = Ok tt s1.
Proof.
  intros Hq1 Hk. unfold exit_if_killed, killed_now. rewrite bind_assoc. step by (by apply getp_ok).
  by rewrite bind_ret, Hk.
Qed.

(** The prologue of [trap] up to the question of preemption. *)
Lemma trap_to_preempt tf :
  p_killed q = 0 -> tf_trapno (tframes s tf) = T_IRQ0 + IRQ_TIMER ->
  trap tf s = bind (preempt (Some p) (tframes s tf))
                (fun _ => exit_if_killed (Some p) (tframes s tf)) (interrupted i s).
Proof.
  intros Hk Htf. unfold trap. step by (eapply myproc_ok, Hr). rewrite bind_gets, Hp.
  assert (tframes (cli_touch s) tf = tframes s tf) as ->
    by (destruct (cli_touch_eq s) as (cs & -> & _); done).
  rewrite Htf. cbn [Z.eqb]. unfold trap_switch at 1. rewrite Htf. cbn [Z.eqb].
  change (T_IRQ0 + IRQ_TIMER =? T_SYSCALL) with false.
  change (T_IRQ0 + IRQ_TIMER =? T_IRQ0 + IRQ_TIMER) with true. cbn match.
  step by (exact timer_from_touched).
  step by (eapply not_killed; [exact interrupted_proc | by rewrite (proj2 (charged_running i q Hst))]).
  done.
Qed.

Lemma preempt_timer tf :
  tf_trapno (tframes s tf) = T_IRQ0 + IRQ_TIMER ->
  preempt (Some p) (tframes s tf) (interrupted i s) =
    when (negb (scheduling_policy s =? 1)) yield (interrupted i s).
Proof.
  intros Htf. unfold preempt. step by (apply getp_ok, interrupted_proc).
  rewrite bool_decide_eq_true_2 by apply (charged_running i q Hst). rewrite Htf.
  change (true && _)%bool with true. unfold curpolicy. by rewrite bind_gets, interrupted_policy.
Qed.
End Timer.


(** A timer interrupt on processor 0, in the middle of its only process. *)
Definition ticking (policy : Z) : kstate :=
  set_scheduling_policy policy
    (set_tframes (fun _ => {| trapframe0 with tf_trapno := T_IRQ0 + IRQ_TIMER |})
      (one_cpu {| cpu0 with c_proc := Some 0%nat |} [live RUNNING 1 0 10])).

#[local] Instance some_turns : Turns := 8%nat.
#[local] Instance some_symbols : Symbols :=
  {| sym_forkret := 0x80103000; sym_trapret := 0x80105000;
     sym_initcode_start := 0x8010a460; sym_initcode_size := 0x2c |}.

