(* ===== verification/SyscallSpec.v ===== *)
(** System-call arguments: what [argint], [argptr] and [argstr] accept, and a
    system call from the trap frame to the process table. *)

From S2P Require Import Prelude Params Mem CString Machine Spinlock Kalloc Console Vm Proc.
From S2P Require Import Sched ProcSpec Sleeplock Ide Bio Log Inode ConsoleDev Fs Pipe File Process.
From S2P Require Import Syscall Exec Sysfile Apic Trap.

(** ** User memory *)

(** The byte and the word a user address refers to; the first [sz] bytes are mapped. *)
Definition ubyte (s : kstate) (a : Z) : Z :=
  match mmu s a false with Some k => mem s k | None => 0 end.
Definition uword (s : kstate) (a : Z) : Z :=
  ubyte s a + 256 * ubyte s (a + 1) + 65536 * ubyte s (a + 2) + 16777216 * ubyte s (a + 3).
Definition user_mapped (s : kstate) (sz : Z) : Prop :=
  forall a, 0 <= a < sz -> is_Some (mmu s a false).

Lemma uld8_ok s a : is_Some (mmu s a false) -> uld8 a s = Ok (ubyte s a) s.
Proof. intros [k Hk]. unfold uld8, ubyte. by rewrite Hk. Qed.

Lemma uld32_ok s sz a : user_mapped s sz -> 0 <= a -> a + 4 <= sz -> uld32 a s = Ok (uword s a) s.
Proof.
  intros Hm Ha Hsz. unfold uld32.
  repeat (step by (apply uld8_ok, Hm; lia)). done.
Qed.

Lemma mmu_touch s a w : mmu (cli_touch s) a w = mmu s a w.
Proof. by destruct (cli_touch_eq s) as (cs & -> & _). Qed.
Lemma uword_touch s a : uword (cli_touch s) a = uword s a.
Proof. by destruct (cli_touch_eq s) as (cs & -> & _). Qed.

(** ** The arguments of the current process *)

Section Args.
Context (s : kstate) (i : nat) (c : cpu) (p : nat) (q : proc).
Context (Hr : runs_on s i c) (Hp : c_proc c = Some p) (Hq : ptable s !! p = Some q).
Context (Hsz : 0 <= p_sz q <= KERNBASE) (Hm : user_mapped s (p_sz q)).

(** Reading the process once or twice changes nothing more than [intena]. *)
Lemma myproc_again : myproc (cli_touch s) = Ok (Some p) (cli_touch s) /\ ptable (cli_touch s) !! p = Some q.
Proof.
  split.
  - rewrite (myproc_ok _ _ _ (cli_touch_runs _ _ _ Hr)), (cli_touch_idem _ _ _ Hr).
    f_equal. rewrite <- Hp. by case_match.
  - by destruct (cli_touch_eq s) as (cs & -> & _).
Qed.

Lemma myproc_first : myproc s = Ok (Some p) (cli_touch s).
Proof. by rewrite (myproc_ok s i c Hr), Hp. Qed.

(** The int at a user address, if the four bytes lie in the process. *)
Definition int_at (addr : Z) : option Z :=
  if decide (addr + 4 <= p_sz q) then Some (i32 (uword s addr)) else None.

Lemma fetchint_again addr :
  is_u32 addr -> fetchint addr (cli_touch s) = Ok (int_at addr) (cli_touch s).
Proof.
  intros Ha. destruct myproc_again as [Hmy Hq']. unfold fetchint. step by (exact Hmy). cbv beta iota.
  step by (by apply getp_ok). unfold int_at. unfold is_u32, KERNBASE in *.
  case_decide as Hb.
  - rewrite (proj2 (Z.leb_gt _ _)), u32_small, (proj2 (Z.ltb_ge _ _)) by (unfold is_u32; lia). cbn [orb].
    step by (apply (uld32_ok _ (p_sz q)); [intros a Hra; rewrite mmu_touch; by apply Hm | lia | lia]).
    by rewrite uword_touch.
  - destruct (Z.leb_spec (p_sz q) addr) as [? | Hlt]; [done |]. cbn [orb].
    by rewrite u32_small, (proj2 (Z.ltb_lt _ _)) by (unfold is_u32; lia).
Qed.

(** The address of argument [n] on the user stack. *)
Definition arg_addr (n : Z) : Z := u32 (tf_esp (tframes s (p_tf q)) + 4 + 4 * n).

Lemma argint_again n :
  p_tf q <> 0 -> argint n (cli_touch s) = Ok (int_at (arg_addr n)) (cli_touch s).
Proof.
  intros Htf. destruct myproc_again as [Hmy Hq']. unfold argint. step by (exact Hmy). cbv beta iota.
  step by (by apply getp_ok). rewrite (proj2 (Z.eqb_neq _ _)) by done. rewrite bind_gets.
  replace (tframes (cli_touch s)) with (tframes s) by (by destruct (cli_touch_eq s) as (cs & -> & _)).
  by apply fetchint_again, u32_range.
Qed.

Lemma argint_ok n : p_tf q <> 0 -> argint n s = Ok (int_at (arg_addr n)) (cli_touch s).
Proof.
  intros Htf. rewrite <- argint_again by done. destruct myproc_again as [Hmy Hq'].
  unfold argint. rewrite (bind_ok _ _ _ _ _ myproc_first), (bind_ok _ _ _ _ _ Hmy). done.
Qed.

Lemma argptr_ok n size :
  p_tf q <> 0 -> is_i32 size ->
  argptr n size s = Ok
    (match int_at (arg_addr n) with
     | Some v => if decide (0 <= size /\ u32 v < p_sz q /\ u32 v + size <= p_sz q) then Some (u32 v) else None
     | None => None
     end) (cli_touch s).
Proof.
  intros Htf Hs. destruct myproc_again as [Hmy Hq']. unfold argptr. step by (exact myproc_first). cbv beta iota.
  step by (by apply argint_again). destruct (int_at (arg_addr n)) as [v |]; [| done].
  step by (by apply getp_ok). pose proof (u32_range v) as Hv. unfold is_u32, is_i32, KERNBASE in *.
  case_decide as Hc.
  - rewrite (proj2 (Z.ltb_ge size 0)), (proj2 (Z.leb_gt _ _)), u32_small, (proj2 (Z.ltb_ge _ _))
      by (unfold is_u32; lia). done.
  - destruct (Z.ltb_spec size 0); [done |]. destruct (Z.leb_spec (p_sz q) (u32 v)); [done |]. cbn [orb].
    by rewrite u32_small, (proj2 (Z.ltb_lt _ _)) by (unfold is_u32; lia).
Qed.
End Args.

(** C24: pointers from user space are checked. For a process whose memory is
    mapped, [argptr] always returns, and accepts a pointer exactly if the
    argument word and the whole range from it lie below the process's size, with
    no overflow slipping through; every byte of an accepted range is mapped. *)
Theorem argptr_spec s i c p q n size :
  runs_on s i c -> c_proc c = Some p -> ptable s !! p = Some q -> p_tf q <> 0 ->
  0 <= p_sz q <= KERNBASE -> user_mapped s (p_sz q) -> is_i32 size ->
  exists r, argptr n size s = Ok r (cli_touch s) /\
    match r with
    | Some a => 0 <= size /\ 0 <= a < p_sz q /\ a + size <= p_sz q /\ arg_addr s q n + 4 <= p_sz q /\
                a = u32 (i32 (uword s (arg_addr s q n))) /\
                forall b, a <= b < a + size -> is_Some (mmu s b false)
    | None => arg_addr s q n + 4 > p_sz q \/ size < 0 \/
              u32 (i32 (uword s (arg_addr s q n))) >= p_sz q \/
              u32 (i32 (uword s (arg_addr s q n))) + size > p_sz q
    end.
Proof.
  intros Hr Hp Hq Htf Hsz Hm Hs. eexists. split; [by eapply argptr_ok |]. unfold int_at.
  pose proof (u32_range (i32 (uword s (arg_addr s q n)))) as [Hu _].
  case_decide as Ha; cbv iota; [| lia]. case_decide as Hb; cbv iota; [| lia].
  split_and!; try lia. intros b Hbr. apply Hm. lia.
Qed.

(** ** Strings *)

Lemma fetchstr_loop_ok s sz k : forall va,
  user_mapped s sz -> 0 <= va -> va + Z.of_nat k = sz ->
  exists r, fetchstr_loop k va s = Ok r s /\
    match r with
    | Some l => va + Z.of_nat (length l) < sz /\ ubyte s (va + Z.of_nat (length l)) = 0 /\
                forall j b, l !! j = Some b -> b = ubyte s (va + Z.of_nat j) /\ b <> 0
    | None => forall a, va <= a < sz -> ubyte s a <> 0
    end.
Proof.
  induction k as [| k IH]; intros va Hm Hva Hk; cbn [fetchstr_loop].
  - eexists. split; [done |]. intros a Ha. lia.
  - step by (apply uld8_ok, Hm; lia). destruct (Z.eqb_spec (ubyte s va) 0) as [E | E].
    + eexists. split; [done |]. simpl. rewrite Z.add_0_r. split_and!; [lia | done | done].
    + destruct (IH (va + 1)) as (r & Hrun & Hspec); [done | lia | lia |]. step by (exact Hrun).
      eexists. split; [done |]. destruct r as [l |]; simpl.
      * destruct Hspec as (Hl & H0 & Hb). replace (va + Z.of_nat (S (length l))) with (va + 1 + Z.of_nat (length l)) by lia.
        split_and!; [done | done |]. intros [| j] b Hj; simpl in Hj.
        -- injection Hj as <-. by rewrite Z.add_0_r.
        -- replace (va + Z.of_nat (S j)) with (va + 1 + Z.of_nat j) by lia. by apply Hb.
      * intros a Ha. destruct (decide (a = va)) as [-> | Hne]; [done |]. apply Hspec. lia.
Qed.

(** C25: strings from user space. [fetchstr] returns the bytes up to the first
    zero byte if there is one between the address and the end of the process,
    and fails exactly if there is none; it never reads beyond the end. *)
Theorem fetchstr_spec s i c p q addr :
  runs_on s i c -> c_proc c = Some p -> ptable s !! p = Some q -> user_mapped s (p_sz q) -> 0 <= addr ->
  exists r, fetchstr addr s = Ok r (cli_touch s) /\
    match r with
    | Some l => addr + Z.of_nat (length l) < p_sz q /\ ubyte s (addr + Z.of_nat (length l)) = 0 /\
                forall j b, l !! j = Some b -> b = ubyte s (addr + Z.of_nat j) /\ b <> 0
    | None => forall a, addr <= a < p_sz q -> ubyte s a <> 0
    end.
Proof.
  intros Hr Hp Hq Hm Ha. unfold fetchstr.
  step by (by apply (myproc_first s i c p)). cbv beta iota.
  destruct (myproc_again s i c p q Hr Hp Hq) as [_ Hq']. step by (by apply getp_ok).
  destruct (Z.leb_spec (p_sz q) addr) as [Hle | Hlt].
  - eexists. split; [done |]. intros a Hra. lia.
  - destruct (fetchstr_loop_ok (cli_touch s) (p_sz q) (Z.to_nat (p_sz q - addr)) addr) as (r & Hrun & Hspec).
    + intros a Hra. rewrite mmu_touch. by apply Hm.
    + done.
    + lia.
    + exists r. split; [done |]. revert Hspec. by destruct (cli_touch_eq s) as (cs & -> & _).
Qed.

(** ** A system call from end to end *)

Section Call.
Context `{Turns} `{Disk} `{Symbols}.
Context (s : kstate) (i : nat) (c : cpu) (p : nat) (q : proc).
Context (Hr : runs_on s i c) (Hp : c_proc c = Some p) (Hq : ptable s !! p = Some q) (Htf : p_tf q <> 0).

Lemma call_entry num call :
  i32 (tf_eax (tframes s (p_tf q))) = num -> syscall_entry num = Some call ->
  syscall s = (r <- call ;; set_eax (p_tf q) r) (cli_touch s).
Proof.
  intros Hn Hc. unfold syscall. step by (by apply (myproc_first s i c p)). cbv beta iota.
  destruct (myproc_again s i c p q Hr Hp Hq) as [_ Hq']. step by (by apply getp_ok).
  rewrite (proj2 (Z.eqb_neq _ _)) by done. rewrite bind_gets.
  replace (tframes (cli_touch s)) with (tframes s) by (by destruct (cli_touch_eq s) as (cs & -> & _)).
  by rewrite Hn, Hc.
Qed.
End Call.

(** The value a system call leaves in the user's [eax]. *)
Definition returned (tf r : Z) (s : kstate) : kstate :=
  set_tframes (fupd (tframes s) tf {| (tframes s tf) with tf_eax := u32 r |}) s.

(** The [settickets] system call, from the trap frame to the process table. With
    its number in [eax], [syscall] reads the argument from the user stack; a
    readable argument [n >= 1] becomes the caller's ticket count, and 0 is
    returned; any other argument leaves the table alone and returns -1. *)
Theorem settickets_call `{Turns} `{Disk} `{Symbols} s i c p q :
  runs_on s i c -> c_proc c = Some p -> ptable s !! p = Some q -> p_tf q <> 0 ->
  0 <= p_sz q <= KERNBASE -> user_mapped s (p_sz q) -> lock_free s LkPtable ->
  i32 (tf_eax (tframes s (p_tf q))) = SYS_settickets ->
  syscall s = Ok tt
    (match int_at s q (arg_addr s q 0) with
     | Some n =>
         if decide (1 <= n) then
           returned (p_tf q) 0 (set_ptable (<[p := {| q with p_tickets := n |}]> (ptable s)) (cli_touch s))
         else returned (p_tf q) (-1) (cli_touch s)
     | None => returned (p_tf q) (-1) (cli_touch s)
     end).
Proof.
  intros Hr Hp Hq Htf Hsz Hm Hf Hnum.
  rewrite (call_entry s i c p q Hr Hp Hq Htf SYS_settickets sys_settickets Hnum eq_refl).
  unfold sys_settickets. rewrite bind_assoc.
  step by (by apply (argint_again s i c p q)).
  destruct (int_at s q (arg_addr s q 0)) as [n |]; [| done].
  case_decide as Hn; [| by rewrite (proj2 (Z.leb_le _ _)) by lia].
  rewrite (proj2 (Z.leb_gt _ _)) by lia.
  destruct (myproc_again s i c p q Hr Hp Hq) as [_ Hq'].
  step by (eapply (settickets_ok (cli_touch s) i _ (cli_touch_runs _ _ _ Hr));
    [by apply cli_touch_lock_free | lia | by case_match | done]).
  rewrite (cli_touch_idem s i c Hr).
  by replace (ptable (cli_touch s)) with (ptable s) by (by destruct (cli_touch_eq s) as (cs & -> & _)).
Qed.

(** ** A process with one page of memory *)

(** Its argument word, at 0x104, is [w]. *)
Definition user_proc : proc := {| (live RUNNING 7 0 10) with p_sz := 4096; p_tf := 0x80400f00 |}.
Definition user_machine (num w : Z) : kstate :=
  set_tframes (fun _ => {| trapframe0 with tf_esp := 0x100; tf_eax := num |})
    (set_cr3 0x300000
      (set_mem (st32 (st32 (st32 (fun _ => 0) 0x80300000 0x301007) 0x80301000 0x302007) 0x80302104 w)
        (one_cpu {| cpu0 with c_proc := Some 0%nat |} [user_proc]))).

Lemma user_machine_runs num w : runs_on (user_machine num w) 0 {| cpu0 with c_proc := Some 0%nat |}.
Proof. by apply (cf_runs_on (fun s => set_tframes _ (set_cr3 _ (set_mem _ s)))), one_cpu_runs. Qed.

Lemma user_machine_mapped num w : user_mapped (user_machine num w) 4096.
Proof.
  intros a Ha. unfold mmu.
  assert (Hd : PDX a = 0) by (unfold PDX, PDXSHIFT, PTXSHIFT; rewrite Z.shiftr_div_pow2 by lia;
    replace (a / 2 ^ 22) with 0 by (change (2 ^ 22) with 4194304; zdiv); done).
  assert (Ht : PTX a = 0) by (unfold PTX, PTXSHIFT; rewrite Z.shiftr_div_pow2 by lia;
    replace (a / 2 ^ 12) with 0 by (change (2 ^ 12) with 4096; zdiv); done).
  rewrite Hd, Ht. change (P2V (cr3 (user_machine num w)) + 4 * 0) with 0x80300000.
  assert (E1 : ld32 (mem (user_machine num w)) 0x80300000 = 0x301007).
  { change (mem (user_machine num w)) with (st32 (st32 (st32 (fun _ => 0) 0x80300000 0x301007) 0x80301000 0x302007) 0x80302104 w).
    by rewrite !ld32_st32_ne, ld32_st32 by lia. }
  assert (E2 : ld32 (mem (user_machine num w)) 0x80301000 = 0x302007).
  { change (mem (user_machine num w)) with (st32 (st32 (st32 (fun _ => 0) 0x80300000 0x301007) 0x80301000 0x302007) 0x80302104 w).
    by rewrite ld32_st32_ne, ld32_st32 by lia. }
  rewrite E1. change (P2V (PTE_ADDR 0x301007) + 4 * 0) with 0x80301000. rewrite E2. by eexists.
Qed.

Lemma argptr_spec_witness :
  exists r, argptr 0 16 (user_machine 0 0x200) = Ok r (cli_touch (user_machine 0 0x200)) /\
    match r with Some a => a + 16 <= 4096 | None => True end.
Proof.
  destruct (argptr_spec (user_machine 0 0x200) 0 {| cpu0 with c_proc := Some 0%nat |} 0 user_proc 0 16
    (user_machine_runs _ _) eq_refl eq_refl ltac:(discriminate) ltac:(unfold KERNBASE; simpl; lia)
    (user_machine_mapped _ _) ltac:(unfold is_i32; lia)) as (r & Hrun & Hspec).
  exists r. split; [exact Hrun |]. destruct r as [a |]; [apply Hspec | exact I].
Defined.

Lemma fetchstr_spec_witness :
  exists r, fetchstr 0x104 (user_machine 0 0x6c73) = Ok r (cli_touch (user_machine 0 0x6c73)) /\
    r = Some [0x73; 0x6c].
Proof.
  destruct (fetchstr_spec (user_machine 0 0x6c73) 0 {| cpu0 with c_proc := Some 0%nat |} 0 user_proc 0x104
    (user_machine_runs _ _) eq_refl eq_refl (user_machine_mapped _ _) ltac:(lia)) as (r & Hrun & _).
  exists r. split; [exact Hrun |].
  assert (Hr : match fetchstr 0x104 (user_machine 0 0x6c73) with
               | Ok r _ => bool_decide (r = Some [0x73; 0x6c]) | _ => false end = true) by (vm_compute; reflexivity).
  destruct (fetchstr 0x104 (user_machine 0 0x6c73)) as [r' s' | |]; [| discriminate Hr | discriminate Hr].
  apply bool_decide_eq_true in Hr. congruence.
Defined.

Lemma settickets_call_witness :
  @syscall 1%nat (Memide.mem_disk 0) (Build_Symbols 0 0 0 0) (user_machine SYS_settickets 5) = Ok tt
    (returned (p_tf user_proc) 0
      (set_ptable (<[0%nat := {| user_proc with p_tickets := 5 |}]> (ptable (user_machine SYS_settickets 5)))
        (cli_touch (user_machine SYS_settickets 5)))).
Proof.
  rewrite (@settickets_call 1%nat (Memide.mem_disk 0) (Build_Symbols 0 0 0 0) (user_machine SYS_settickets 5) 0
    {| cpu0 with c_proc := Some 0%nat |} 0 user_proc (user_machine_runs _ _) eq_refl eq_refl
    ltac:(discriminate) ltac:(unfold KERNBASE; simpl; lia) (user_machine_mapped _ _) ltac:(split; reflexivity) eq_refl).
  assert (E : int_at (user_machine SYS_settickets 5) user_proc (arg_addr (user_machine SYS_settickets 5) user_proc 0) = Some 5)
    by (vm_compute; reflexivity).
  rewrite E. reflexivity.
Defined.
