(* ===== verification/Accounting.v ===== *)
(** The time accounting behind [waitx] and [getpinfo], over every interleaving
    of the processors.

    [trap.c] advances [ticks] under [tickslock] and charges the processes under
    [ptable.lock] afterwards: between the two, other processors run, create and
    retire processes.  The steps below are the critical sections on the two
    locks, as far as they touch states and times. *)

From S2P Require Import Prelude Params Mem CString Machine Spinlock Kalloc Console Apic Vm.
From S2P Require Import Proc Sched ProcSpec ProcSwitch Sleeplock Ide Bio Log Inode ConsoleDev.
From S2P Require Import Fs Pipe File Process Syscall Exec Sysfile Trap TrapSpec.

(** ** Steps *)

(** One process under [ptable.lock] at time [now]. *)
Inductive pstep (now : Z) : proc -> proc -> Prop :=
| ps_claim q : p_state q = UNUSED -> pstep now q {| q with p_state := EMBRYO |}
| ps_init q : p_state q = EMBRYO ->
    pstep now q {| q with p_ctime := now; p_etime := 0; p_rtime := 0; p_retime := 0; p_stime := 0 |}
| ps_undo q : p_state q = EMBRYO -> pstep now q {| q with p_state := UNUSED |}
| ps_ready q : p_state q = EMBRYO -> p_ctime q <= now ->
    p_rtime q = 0 -> p_retime q = 0 -> p_stime q = 0 ->
    pstep now q {| q with p_state := RUNNABLE |}
| ps_run q : p_state q = RUNNABLE -> pstep now q {| q with p_state := RUNNING |}
| ps_yield q : p_state q = RUNNING -> pstep now q {| q with p_state := RUNNABLE |}
| ps_sleep q ch : p_state q = RUNNING -> pstep now q (asleep ch q)
| ps_wake q ch : pstep now q (wake ch q)
| ps_kill q : pstep now q (killed_proc q)
| ps_exit q : p_state q = RUNNING -> pstep now q {| q with p_etime := now; p_state := ZOMBIE |}
| ps_reap q : p_state q = ZOMBIE -> pstep now q {| q with p_state := UNUSED |}.

(** The clock, whether its last tick is still to be charged, and the table. *)
Record clocked := mkClocked { now : Z; uncharged : bool; procs : list proc }.

Inductive astep : clocked -> clocked -> Prop :=
| as_tick t ps :  (* [ticks++] and [wakeup(&ticks)], under [tickslock] *)
    t + 1 < INT_MAX ->
    astep (mkClocked t false ps) (mkClocked (t + 1) true (wake (Some ChTicks) <$> ps))
| as_charge t ps :  (* the accounting loop, under [ptable.lock] *)
    astep (mkClocked t true ps) (mkClocked t false (account <$> ps))
| as_proc t b ps i q q' :
    ps !! i = Some q -> pstep t q q' -> astep (mkClocked t b ps) (mkClocked t b (<[i := q']> ps)).

Inductive areach : clocked -> Prop :=
| ar_boot : areach (mkClocked 0 false (replicate NPROC proc0))
| ar_step a a' : areach a -> astep a a' -> areach a'.

(** The two halves of the clock interrupt make up [clock_tick] of the handler. *)
Lemma clock_tick_steps s :
  0 <= ticks s -> ticks s + 1 < INT_MAX ->
  exists a, astep (mkClocked (ticks s) false (ptable s)) a /\
    astep a (mkClocked (ticks (clock_tick s)) false (ptable (clock_tick s))).
Proof.
  intros H0 Ht. eexists. split; [by apply as_tick |]. simpl.
  rewrite u32_small by (unfold is_u32, INT_MAX in *; lia). apply as_charge.
Qed.

(** ** The invariant *)

Definition charged_time (q : proc) : Z := p_rtime q + p_retime q + p_stime q.
Definition owed (b : bool) : Z := if b then 1 else 0.

(** A process is charged one tick more than it has lived at most, and then
    only if it was created between a tick and its accounting. *)
Definition fair (t : Z) (b : bool) (q : proc) : Prop :=
  0 <= p_rtime q /\ 0 <= p_retime q /\ 0 <= p_stime q /\ 0 <= p_ctime q /\
  match p_state q with
  | RUNNABLE | RUNNING | SLEEPING =>
      p_ctime q <= t /\ charged_time q + owed b <= t - p_ctime q + 1
  | ZOMBIE => p_ctime q <= p_etime q <= t /\ charged_time q <= p_etime q - p_ctime q + 1
  | _ => True
  end.

Definition ainv (a : clocked) : Prop := 0 <= now a < INT_MAX /\ Forall (fair (now a) (uncharged a)) (procs a).

Lemma fair_wake t b ch q : fair t b q -> fair t b (wake ch q).
Proof.
  unfold wake. case_bool_decide as E; [| done]. destruct E as [E _]. unfold fair. by rewrite E.
Qed.

Lemma fair_tick t q : fair t false q -> fair (t + 1) true q.
Proof. unfold fair, owed. destruct (p_state q); lia. Qed.

Lemma fair_charge t q :
  t < INT_MAX -> fair t true q -> fair t false (account q).
Proof.
  unfold fair, account, charged_time, owed, INT_MAX. intros Ht Hq.
  destruct (p_state q) eqn:E; simpl; rewrite ?E; rewrite ?u32_small by (unfold is_u32; lia); lia.
Qed.

Lemma fair_pstep t b q q' :
  0 <= t -> pstep t q q' -> fair t b q -> fair t b q'.
Proof.
  intros Ht Hst Hq. destruct Hst as [q E | q E | q E | q E Hc Hr Hre Hs | q E | q E | q ch E | q ch | q | q E | q E];
    [.. | by apply fair_wake | | |].
  8: { unfold killed_proc. case_bool_decide as E; [| done]. unfold fair in *. by rewrite E in Hq. }
  all: unfold fair, asleep, charged_time in *; simpl; rewrite E in Hq; rewrite ?E;
    destruct b; simpl in *; lia.
Qed.

Lemma areach_ainv a : areach a -> ainv a.
Proof.
  induction 1 as [| a a' _ IH Hst]; [split; [done |] |].
  { apply Forall_replicate. unfold fair, charged_time. simpl. lia. }
  destruct IH as [Ht Hps]. destruct Hst as [t ps Hlt | t ps | t b ps i q q' Hi Hq]; split; simpl in *.
  - lia.
  - apply Forall_fmap, (Forall_impl _ _ _ Hps). intros q Hq. by apply fair_wake, fair_tick.
  - done.
  - apply Forall_fmap, (Forall_impl _ _ _ Hps). intros q Hq. apply fair_charge; [lia | done].
  - done.
  - apply Forall_insert; [done |]. eapply fair_pstep; [lia | done |].
    by eapply (Forall_lookup_1 _ _ _ _ Hps).
Qed.


(** A process created just after a tick, run, charged, and gone within it. *)
Definition hasty : proc := {| proc0 with p_state := ZOMBIE; p_ctime := 1; p_etime := 1; p_rtime := 1 |}.

Lemma hasty_reached : exists a, areach a /\ procs a !! 0%nat = Some hasty.
Proof.
  pose proof ar_boot as Ha.
  apply ar_step with (2 := as_tick 0 _ eq_refl) in Ha.
  eapply ar_step in Ha; [| eapply (as_proc _ _ _ 0), ps_claim; reflexivity]. vm_compute in Ha.
  eapply ar_step in Ha; [| eapply (as_proc _ _ _ 0), ps_init; reflexivity]. vm_compute in Ha.
  eapply ar_step in Ha; [| eapply (as_proc _ _ _ 0), ps_ready; [reflexivity | reflexivity | discriminate | reflexivity ..]]. vm_compute in Ha.
  eapply ar_step in Ha; [| eapply (as_proc _ _ _ 0), ps_run; reflexivity]. vm_compute in Ha.
  eapply ar_step in Ha; [| apply as_charge]. vm_compute in Ha.
  eapply ar_step in Ha; [| eapply (as_proc _ _ _ 0), ps_exit; reflexivity].
  eexists. split; [exact Ha | reflexivity].
Qed.

