(* ===== verification/Main.v ===== *)
(** [mp.c] and [main.c]: finding the processors, and kernel start-up. *)

From S2P Require Import Prelude Params Mem CString Machine Spinlock Kalloc Console Apic Vm.
From S2P Require Import Proc ProcSpec Sleeplock Ide Bio Log Inode ConsoleDev Fs Pipe File.
From S2P Require Import Process Syscall Exec Sysfile Trap.

(** ** [mp.h] *)

Abbreviation SIZEOF_MP := (16) (only parsing).
Abbreviation SIZEOF_MPCONF := (44) (only parsing).
Abbreviation SIZEOF_MPPROC := (20) (only parsing).
Abbreviation SIZEOF_MPIOAPIC := (8) (only parsing).
Abbreviation MPPROC := (0x00) (only parsing).
Abbreviation MPBUS := (0x01) (only parsing).
Abbreviation MPIOAPIC := (0x02) (only parsing).
Abbreviation MPIOINTR := (0x03) (only parsing).
Abbreviation MPLINTR := (0x04) (only parsing).

(** Fields at their offsets. *)
Definition ld16 (m : memory) (a : Z) : Z := m a + 256 * m (a + 1).
Definition mp_physaddr (m : memory) (mp : Z) : Z := ld32 m (mp + 4).
Definition mp_imcrp (m : memory) (mp : Z) : Z := m (mp + 12).
Definition conf_length (m : memory) (conf : Z) : Z := ld16 m (conf + 4).
Definition conf_version (m : memory) (conf : Z) : Z := m (conf + 6).
Definition conf_lapicaddr (m : memory) (conf : Z) : Z := ld32 m (conf + 36).

(** ** [mp.c] *)

Fixpoint sum_loop (m : memory) (addr : Z) (n : nat) (s : Z) : Z :=
  match n with O => s | S n' => sum_loop m (addr + 1) n' (s + m addr) end.
Definition sum (m : memory) (addr len : Z) : Z := u8 (Z.land (sum_loop m addr (Z.to_nat len) 0) 0xff).

Fixpoint mpsearch1_loop (m : memory) (n : nat) (p : Z) : Z :=
  match n with
  | O => 0
  | S n' =>
      if (bool_decide (ldn m p 4 = str "_MP_") && (sum m p SIZEOF_MP =? 0))%bool then p
      else mpsearch1_loop m n' (p + SIZEOF_MP)
  end.
(** [len] is a multiple of the size of the structure at every call. *)
Definition mpsearch1 (m : memory) (a len : Z) : Z :=
  mpsearch1_loop m (Z.to_nat (len / SIZEOF_MP)) (P2V a).

Definition mpsearch (m : memory) : Z :=
  let bda := P2V 0x400 in
  let rom := mpsearch1 m 0xF0000 0x10000 in
  let p := Z.shiftl (Z.lor (Z.shiftl (m (bda + 0x0F)) 8) (m (bda + 0x0E))) 4 in
  if negb (p =? 0) then
    let mp := mpsearch1 m p 1024 in if negb (mp =? 0) then mp else rom
  else
    let p := Z.lor (Z.shiftl (m (bda + 0x14)) 8) (m (bda + 0x13)) * 1024 in
    let mp := mpsearch1 m (u32 (p - 1024)) 1024 in if negb (mp =? 0) then mp else rom.

(** [mpconfig]: the structure and the table, or [None]. *)
Definition mpconfig (m : memory) : option (Z * Z) :=
  let mp := mpsearch m in
  if ((mp =? 0) || (mp_physaddr m mp =? 0))%bool then None
  else
    let conf := P2V (mp_physaddr m mp) in
    if negb (bool_decide (ldn m conf 4 = str "PCMP")) then None
    else if (negb (conf_version m conf =? 1) && negb (conf_version m conf =? 4))%bool then None
    else if negb (sum m conf (conf_length m conf) =? 0) then None
    else Some (mp, conf).

Definition add_cpu (apicid : Z) : M unit :=
  n <- gets ncpu ;;
  when (n <? NCPU)%nat
    (modc n (fun c => {| c with c_apicid := apicid |}) ;;
     modify (fun s => set_ncpu (S (ncpu s)) s)).

(** The walk over the entries of the table: the value of [ismp] at the end.
    The [break] of the default case leaves the [switch], not the loop. *)
Fixpoint mp_walk (fuel : nat) (p e : Z) (ismp : bool) : M bool :=
  match fuel with
  | O => stop_with OutOfFuel
  | S fuel' =>
      if p <? e then
        m <- gets mem ;;
        if m p =? MPPROC then
          add_cpu (m (p + 1)) ;; mp_walk fuel' (p + SIZEOF_MPPROC) e ismp
        else if m p =? MPIOAPIC then
          modapic (fun a => {| a with ioapicid := m (p + 1) |}) ;;
          mp_walk fuel' (p + SIZEOF_MPIOAPIC) e ismp
        else if m p =? MPBUS then mp_walk fuel' (p + 8) e ismp
        else if ((m p =? MPIOINTR) || (m p =? MPLINTR))%bool then mp_walk fuel' (p + 8) e ismp
        else mp_walk fuel' p e false
      else ret ismp
  end.

(** Once [lapic] is set, [lapicid] reads the register. *)
Definition set_lapic (a : Z) : M unit :=
  modapic (fun d => {| d with lapic := a |}) ;;
  r <- lapic_reg ID ;;
  modify (set_lapic_id (Z.shiftr r 24)).

(** An entry takes at least eight bytes, so [length] turns are more than enough
    for a table of known entries. *)
Definition mpinit : M unit :=
  m <- gets mem ;;
  match mpconfig m with
  | None => panic "Expect to run on an SMP"
  | Some (mp, conf) =>
      set_lapic (conf_lapicaddr m conf) ;;
      ismp <- mp_walk (S (Z.to_nat (conf_length m conf)))
        (conf + SIZEOF_MPCONF) (conf + conf_length m conf) true ;;
      if negb ismp then panic "Didn't find a suitable machine"
      else
        m <- gets mem ;;
        when (negb (mp_imcrp m mp =? 0))
          (outb 0x22 0x70 ;;
           v <- inb 0x23 ;;
           outb 0x23 (Z.lor v 1))
  end.

(** ** [main.c] *)

(** The boot page directory: 4-megabyte pages at 0 and at [KERNBASE]. *)
Definition entrypgdir : list Z :=
  <[Z.to_nat (Z.shiftr KERNBASE PDXSHIFT) := Z.lor (Z.lor (Z.lor 0 PTE_P) PTE_W) PTE_PS]>
  (<[0%nat := Z.lor (Z.lor (Z.lor 0 PTE_P) PTE_W) PTE_PS]> (replicate NPDENTRIES 0)).

(** Addresses the linker and generated files give. *)
Class BootSymbols := {
  sym_entryother_start : Z; sym_entryother_size : Z;
  sym_mpenter : Z; sym_entrypgdir : Z; vectors : nat -> Z }.

Section Main.
Context `{Turns} `{Disk} `{Symbols} `{BootSymbols}.

Definition mpmain : M unit :=
  id <- cpuid ;;
  cprintf (str "cpu%d: starting %d" ++ [10]) [VInt id; VInt id] ;;
  idtinit ;;
  c <- mycpu ;;
  modc c (fun k => {| k with c_started := 1 |}) ;;
  scheduler.

Definition mpenter : M unit :=
  switchkvm ;;
  seginit ;;
  lapicinit ;;
  mpmain.

(** The wait for the processor is on [c->started], which only that processor sets. *)
Definition startothers : M unit :=
  let code := P2V 0x7000 in
  modify (fun s => set_mem (memmove (mem s) code sym_entryother_start sym_entryother_size) s) ;;
  n <- gets ncpu ;;
  forM (seq 0 n) (fun c =>
    me <- mycpu ;;
    if (c =? me)%nat then ret tt
    else
      stack <- kalloc ;;
      stw (code - 4) (u32 (stack + KSTACKSIZE)) ;;
      stw (code - 8) sym_mpenter ;;
      stw (code - 12) (V2P sym_entrypgdir) ;;
      k <- getc c ;;
      lapicstartap (c_apicid k) (V2P code) ;;
      loop_until max_turns
        (k <- getc c ;; ret (if c_started k =? 0 then None else Some tt))).

Definition main : M unit :=
  e <- gets sym_end ;;
  kinit1 e (P2V (4 * 1024 * 1024)) ;;
  kvmalloc ;;
  mpinit ;;
  lapicinit ;;
  seginit ;;
  picinit ;;
  ioapicinit ;;
  consoleinit ;;
  uartinit ;;
  pinit ;;
  tvinit vectors ;;
  binit ;;
  fileinit ;;
  disk_init ;;
  startothers ;;
  kinit2 (P2V (4 * 1024 * 1024)) (P2V PHYSTOP) ;;
  userinit ;;
  mpmain.
End Main.
