(* ===== verification/Boot.v ===== *)
(** [bootmain.c]: the boot loader, which reads the kernel from the disk.

    The drive is hardware: what it does on the I/O ports is a parameter, and what
    the loader relies on is stated below as the laws of a drive. *)

From S2P Require Import Prelude Params Mem Exec.

(** ** The drive *)

(** Writes of a byte, reads of a byte and reads of a word on the ports. *)
Class Drive (D : Type) := {
  out8 : Z -> Z -> D -> D;
  in8 : Z -> D -> Z * D;
  in32 : Z -> D -> Z * D }.

Definition SECTSIZE : Z := 512.

Section Loader.
Context {D : Type} `{Drive D}.

(** [waitdisk]: the status port is read at most [polls] times. *)
Fixpoint waitdisk (polls : nat) (d : D) : option D :=
  match polls with
  | O => None
  | S polls' =>
      let '(v, d) := in8 0x1F7 d in
      if Z.land v 0xC0 =? 0x40 then Some d else waitdisk polls' d
  end.

(** [insl]: [cnt] words from a port to memory. *)
Fixpoint insl (port : Z) (addr : Z) (cnt : nat) (m : memory) (d : D) : memory * D :=
  match cnt with
  | O => (m, d)
  | S cnt' => let '(w, d) := in32 port d in insl port (addr + 4) cnt' (st32 m addr w) d
  end.

(** The commands of [readsect]. *)
Definition issue (offset : Z) (d : D) : D :=
  let d := out8 0x1F2 1 d in
  let d := out8 0x1F3 (u8 offset) d in
  let d := out8 0x1F4 (u8 (Z.shiftr offset 8)) d in
  let d := out8 0x1F5 (u8 (Z.shiftr offset 16)) d in
  let d := out8 0x1F6 (u8 (Z.lor (Z.shiftr offset 24) 0xE0)) d in
  out8 0x1F7 0x20 d.

Context (polls : nat).

Definition readsect (dst offset : Z) (m : memory) (d : D) : option (memory * D) :=
  match waitdisk polls d with
  | None => None
  | Some d =>
      match waitdisk polls (issue offset d) with
      | None => None
      | Some d => Some (insl 0x1F0 dst (Z.to_nat (SECTSIZE / 4)) m d)
      end
  end.

(** The loop of [readseg]; a turn reads a sector. *)
Fixpoint readseg_loop (fuel : nat) (pa epa offset : Z) (m : memory) (d : D) : option (memory * D) :=
  match fuel with
  | O => None
  | S fuel' =>
      if pa <? epa then
        match readsect pa offset m d with
        | None => None
        | Some (m, d) => readseg_loop fuel' (u32 (pa + SECTSIZE)) epa (u32 (offset + 1)) m d
        end
      else Some (m, d)
  end.

Definition readseg (pa count offset : Z) (m : memory) (d : D) : option (memory * D) :=
  let epa := u32 (pa + count) in
  let pa := u32 (pa - offset mod SECTSIZE) in
  let offset := offset / SECTSIZE + 1 in
  readseg_loop (S (S (S (Z.to_nat (count / SECTSIZE))))) pa epa offset m d.

(** The fields of [struct elfhdr] and [struct proghdr] in memory. *)
Definition elf_field (m : memory) (off : Z) : Z := ld32 m (0x10000 + off).
Definition phnum (m : memory) : Z := m (0x10000 + 44) + 256 * m (0x10000 + 45).

(** The loop over the program headers, which reads them where they are in memory. *)
Fixpoint load_all (fuel : nat) (ph eph : Z) (m : memory) (d : D) : option (memory * D) :=
  match fuel with
  | O => None
  | S fuel' =>
      if ph <? eph then
        let pa := ld32 m (ph + 12) in
        match readseg pa (ld32 m (ph + 16)) (ld32 m (ph + 4)) m d with
        | None => None
        | Some (m, d) =>
            let filesz := ld32 m (ph + 16) in
            let memsz := ld32 m (ph + 20) in
            let m := if filesz <? memsz then stosb m (u32 (pa + filesz)) 0 (Z.to_nat (memsz - filesz)) else m in
            load_all fuel' (u32 (ph + SIZEOF_PROGHDR)) eph m d
        end
      else Some (m, d)
  end.

(** [bootmain]: the entry point it jumps to and the memory there, or [Some None]
    when the image is not an ELF file; [None] when the drive does not answer. *)
Definition bootmain (m : memory) (d : D) : option (option (Z * memory)) :=
  match readseg 0x10000 4096 0 m d with
  | None => None
  | Some (m, d) =>
      if negb (elf_field m 0 =? ELF_MAGIC) then Some None
      else
        let ph := u32 (0x10000 + elf_field m 28) in
        let eph := u32 (ph + SIZEOF_PROGHDR * phnum m) in
        match load_all (S (Z.to_nat (phnum m))) ph eph m d with
        | None => None
        | Some (m, _) => Some (Some (elf_field m 24, m))
        end
  end.
End Loader.

(** ** What the loader relies on *)

(** The words of a sector. *)
Definition words (sec : list Z) : list Z := (fun k => lget32 sec (4 * k)) <$> seqZ 0 (SECTSIZE / 4).

(** A drive with the sectors [img]: it is ready when idle; a read command, with the
    sector number spread over the four registers, makes it busy for less than [polls]
    polls, then ready with the words of the sector, and idle when they are read. *)
Class DriveSpec {D : Type} `{Drive D} (polls : nat) (img : Z -> list Z) := {
  idle : D -> Prop;
  serving : Z -> nat -> D -> Prop;
  pending : list Z -> D -> Prop;
  idle_ready d : idle d -> exists v d', in8 0x1F7 d = (v, d') /\ Z.land v 0xC0 = 0x40 /\ idle d';
  idle_command d b0 b1 b2 b3 :
    idle d -> 0 <= b0 < 256 -> 0 <= b1 < 256 -> 0 <= b2 < 256 -> 0 <= b3 < 16 ->
    exists k, (k < polls)%nat /\
      serving (b0 + 256 * b1 + 65536 * b2 + 16777216 * b3) k
        (out8 0x1F7 0x20 (out8 0x1F6 (0xE0 + b3) (out8 0x1F5 b2 (out8 0x1F4 b1 (out8 0x1F3 b0 (out8 0x1F2 1 d))))));
  serving_busy n k d : serving n (S k) d -> exists v d', in8 0x1F7 d = (v, d') /\ Z.land v 0xC0 <> 0x40 /\ serving n k d';
  serving_ready n d : serving n 0 d -> exists v d', in8 0x1F7 d = (v, d') /\ Z.land v 0xC0 = 0x40 /\ pending (words (img n)) d';
  pending_word w ws d : pending (w :: ws) d -> exists d', in32 0x1F0 d = (w, d') /\ pending ws d';
  pending_end d : pending [] d -> idle d }.

(** ** Sectors *)

Section LoaderSpec.
Context {D : Type} {drive : Drive D} (polls : nat) (img : Z -> list Z) {spec : DriveSpec polls img}.
Context (Himg : forall n, length (img n) = Z.to_nat SECTSIZE /\ forall k, is_byte (lget8 (img n) k)) (Hpolls : (0 < polls)%nat).

Lemma waitdisk_idle d : idle d -> exists d', waitdisk polls d = Some d' /\ idle d'.
Proof.
  intros Hd. destruct (idle_ready d Hd) as (v & d' & E & Hv & Hd'). destruct polls as [| p]; [lia |]. exists d'. cbn [waitdisk].
  by rewrite E, Hv.
Qed.

Lemma waitdisk_serving n k : forall p d, (k < p)%nat -> serving n k d -> exists d', waitdisk p d = Some d' /\ pending (words (img n)) d'.
Proof.
  induction k as [| k IH]; intros [| p] d Hp Hs; try lia; cbn [waitdisk].
  - destruct (serving_ready n d Hs) as (v & d' & E & Hv & Hd'). exists d'. by rewrite E, Hv.
  - destruct (serving_busy n k d Hs) as (v & d' & E & Hv & Hd'). rewrite E. rewrite (proj2 (Z.eqb_neq _ _) Hv). apply IH; [lia | done].
Qed.

(** The register values of [readsect] are the bytes of the sector number. *)
Lemma issue_serving d n : idle d -> 0 <= n < 2 ^ 28 -> exists k, (k < polls)%nat /\ serving n k (issue n d).
Proof.
  intros Hd Hn.
  destruct (idle_command d (u8 n) (u8 (Z.shiftr n 8)) (u8 (Z.shiftr n 16)) (Z.shiftr n 24) Hd) as (k & Hk & Hs); try apply u8_range.
  { rewrite Z.shiftr_div_pow2 by lia. zdiv. }
  exists k. split; [done |]. unfold issue.
  assert (u8 (Z.lor (Z.shiftr n 24) 0xE0) = 0xE0 + Z.shiftr n 24) as ->.
  { assert (0 <= Z.shiftr n 24 < 16) as Hr by (rewrite Z.shiftr_div_pow2 by lia; zdiv).
    rewrite Z.lor_comm. unfold u8. rewrite (lor_shiftl_add 14 (Z.shiftr n 24) 4 ltac:(lia) Hr : Z.lor 0xE0 _ = 0xE0 + _).
    apply Z.mod_small. lia. }
  replace n with (u8 n + 256 * u8 (Z.shiftr n 8) + 65536 * u8 (Z.shiftr n 16) + 16777216 * Z.shiftr n 24) at 1; [done |].
  unfold u8. rewrite !Z.shiftr_div_pow2 by lia. zdiv.
Qed.

(** The bytes of a word are stored where they come from. *)
Lemma st32_lget32 m a sec k x :
  (forall j, is_byte (lget8 sec j)) -> st32 m a (lget32 sec k) x = if ((a <=? x) && (x <? a + 4))%bool then lget8 sec (k + (x - a)) else m x.
Proof.
  intros Hb. destruct (Z.leb_spec a x), (Z.ltb_spec x (a + 4)); cbn [andb]; try (apply st32_ne; lia).
  pose proof (Hb k). pose proof (Hb (k + 1)). pose proof (Hb (k + 2)). pose proof (Hb (k + 3)). unfold is_byte in *.
  assert (x = a \/ x = a + 1 \/ x = a + 2 \/ x = a + 3) as [-> | [-> | [-> | ->]]] by lia; unfold st32;
    repeat (rewrite st8_ne by lia); rewrite st8_eq; unfold u8, lget32.
  - rewrite Z.sub_diag, Z.add_0_r. zdiv.
  - replace (a + 1 - a) with 1 by lia. zdiv.
  - replace (a + 2 - a) with 2 by lia. zdiv.
  - replace (a + 3 - a) with 3 by lia. zdiv.
Qed.

Lemma insl_ok sec : (forall j, is_byte (lget8 sec j)) -> forall n k a m d,
  0 <= k -> pending ((fun k => lget32 sec (4 * k)) <$> seqZ k (Z.of_nat n)) d ->
  exists m' d', insl 0x1F0 a n m d = (m', d') /\ idle d' /\
    forall x, m' x = if ((a <=? x) && (x <? a + 4 * Z.of_nat n))%bool then lget8 sec (4 * k + (x - a)) else m x.
Proof.
  intros Hb. induction n as [| n IH]; intros k a m d Hk Hp.
  - exists m, d. split; [done |]. split; [by apply pending_end |]. intros x. replace (a + 4 * Z.of_nat 0) with a by lia.
    destruct (Z.leb_spec a x), (Z.ltb_spec x a); try done. lia.
  - rewrite seqZ_cons in Hp by lia. rewrite fmap_cons in Hp. destruct (pending_word _ _ _ Hp) as (d1 & E & Hp1).
    replace (Z.pred (Z.of_nat (S n))) with (Z.of_nat n) in Hp1 by lia.
    destruct (IH (Z.succ k) (a + 4) (st32 m a (lget32 sec (4 * k))) d1 ltac:(lia) Hp1) as (m' & d' & E' & Hd' & Hm').
    exists m', d'. cbn [insl]. rewrite E. split; [done |]. split; [done |]. intros x. rewrite Hm', st32_lget32 by done.
    destruct (Z.leb_spec (a + 4) x), (Z.ltb_spec x (a + 4 + 4 * Z.of_nat n)), (Z.leb_spec a x), (Z.ltb_spec x (a + 4)),
      (Z.ltb_spec x (a + 4 * Z.of_nat (S n))); cbn [andb]; try lia; try done; f_equal; lia.
Qed.

Lemma readsect_ok dst n m d :
  idle d -> 0 <= n < 2 ^ 28 ->
  exists m' d', readsect polls dst n m d = Some (m', d') /\ idle d' /\
    forall x, m' x = if ((dst <=? x) && (x <? dst + SECTSIZE))%bool then lget8 (img n) (x - dst) else m x.
Proof.
  intros Hd Hn. unfold readsect. destruct (waitdisk_idle d Hd) as (d1 & -> & Hd1). destruct (issue_serving d1 n Hd1 Hn) as (k & Hk & Hs).
  destruct (waitdisk_serving n k polls _ Hk Hs) as (d2 & -> & Hp).
  destruct (insl_ok (img n) (proj2 (Himg n)) 128 0 dst m d2 ltac:(lia) Hp) as (m' & d' & E & Hd' & Hm').
  exists m', d'. change (Z.to_nat (SECTSIZE / 4)) with 128%nat. rewrite E. split; [done |]. split; [done |]. exact Hm'.
Qed.

(** ** Segments *)

(** Byte [j] of the kernel file, which starts at sector 1. *)
Definition file_byte (j : Z) : Z := lget8 (img (1 + j / SECTSIZE)) (j mod SECTSIZE).

Lemma readseg_loop_ok fuel : forall pa epa j m d,
  (0 < fuel)%nat -> idle d -> 0 <= pa -> epa + SECTSIZE <= 2 ^ 32 -> 0 <= j -> j mod SECTSIZE = 0 -> epa <= pa + SECTSIZE * (Z.of_nat fuel - 1) ->
  1 + j / SECTSIZE + Z.of_nat fuel <= 2 ^ 28 ->
  exists m' d', readseg_loop polls fuel pa epa (1 + j / SECTSIZE) m d = Some (m', d') /\ idle d' /\
    (forall x, x < pa -> m' x = m x) /\ (forall x, pa <= x < epa -> m' x = file_byte (j + (x - pa))).
Proof.
  unfold SECTSIZE. induction fuel as [| fuel IH]; intros pa epa j m d H0 Hd Hpa Hepa Hj Hj0 Hfuel Hsec; [lia |].
  cbn [readseg_loop]. destruct (Z.ltb_spec pa epa) as [Hlt | Hge].
  - destruct (readsect_ok pa (1 + j / 512) m d Hd) as (m1 & d1 & -> & Hd1 & Hm1); [zdiv |]. unfold SECTSIZE in *.
    unfold u32. rewrite !Z.mod_small by zdiv. replace (1 + j / 512 + 1) with (1 + (j + 512) / 512) by zdiv.
    destruct (IH (pa + 512) epa (j + 512) m1 d1 ltac:(lia) Hd1) as (m' & d' & E & Hd' & Hlow & Hin); [lia.. | zdiv | lia | zdiv |].
    exists m', d'. rewrite E. split; [done |]. split; [done |]. split.
    + intros x Hx. rewrite Hlow, Hm1 by lia. destruct (Z.leb_spec pa x); [lia | done].
    + intros x Hx. destruct (decide (x < pa + 512)) as [Hs |].
      * rewrite Hlow, Hm1 by lia. rewrite (proj2 (Z.leb_le _ _)), (proj2 (Z.ltb_lt _ _)) by lia. cbn [andb]. unfold file_byte, SECTSIZE.
        f_equal; [f_equal |]; zdiv.
      * rewrite Hin by lia. f_equal. lia.
  - exists m, d. split; [done |]. split; [done |]. split; [done | lia].
Qed.

(** [readseg] brings the bytes asked for, and changes nothing before the sector in
    which they begin. *)
Lemma readseg_ok pa count off m d :
  idle d -> 0 <= pa - off mod SECTSIZE -> 0 <= count -> 0 <= off -> pa + count + SECTSIZE <= 2 ^ 32 -> off + count + 4 * SECTSIZE <= 2 ^ 32 ->
  exists m' d', readseg polls pa count off m d = Some (m', d') /\ idle d' /\
    (forall x, x < pa - off mod SECTSIZE -> m' x = m x) /\ (forall x, pa <= x < pa + count -> m' x = file_byte (off + (x - pa))).
Proof.
  unfold SECTSIZE. intros Hd Hpa Hc Ho Hend Hsec. unfold readseg, SECTSIZE. rewrite !u32_small by (unfold is_u32; zdiv).
  set (j := off - off mod 512). replace (off / 512 + 1) with (1 + j / 512) by (unfold j; zdiv).
  destruct (readseg_loop_ok (S (S (S (Z.to_nat (count / 512))))) (pa - off mod 512) (pa + count) j m d ltac:(lia) Hd) as (m' & d' & E & Hd' & Hlow & Hin);
    unfold SECTSIZE, j in *; [lia | lia | zdiv | zdiv | zdiv | zdiv |].
  exists m', d'. unfold j. rewrite E. split; [done |]. split; [done |]. split; [done |]. intros x Hx. rewrite Hin by zdiv. f_equal. lia.
Qed.

(** ** The kernel in memory *)

(** A program header as the kernel file has it, at byte [j]. *)
Record segment := mkSegment { sg_off : Z; sg_pa : Z; sg_filesz : Z; sg_memsz : Z }.
Definition file32 (j : Z) : Z := ld32 file_byte j.
Definition segment_at (j : Z) : segment := mkSegment (file32 (j + 4)) (file32 (j + 12)) (file32 (j + 16)) (file32 (j + 20)).

(** Where the loader starts to write for a segment, and the end of the segment. *)
Definition sg_start (g : segment) : Z := sg_pa g - sg_off g mod SECTSIZE.
Definition sg_end (g : segment) : Z := sg_pa g + Z.max (sg_filesz g) (sg_memsz g).

(** A segment above the copy of the headers, in a 32-bit address space and file. *)
Record loadable (g : segment) : Prop := {
  ld_above : 0x11000 <= sg_start g;
  ld_memory : sg_end g + SECTSIZE <= 2 ^ 32;
  ld_file : sg_off g + sg_filesz g + 4 * SECTSIZE <= 2 ^ 32;
  ld_off : 0 <= sg_off g; ld_filesz : 0 <= sg_filesz g }.

(** Segments in increasing order, none of which starts in the sector where another ends. *)
Fixpoint ascending (gs : list segment) : Prop :=
  match gs with [] => True | g :: gs' => Forall (fun h => sg_end g <= sg_start h) gs' /\ ascending gs' end.

Definition loaded (g : segment) (m : memory) : Prop :=
  (forall k, 0 <= k < sg_filesz g -> m (sg_pa g + k) = file_byte (sg_off g + k)) /\
  (forall k, sg_filesz g <= k < sg_memsz g -> m (sg_pa g + k) = 0).

(** The first page of the file is at 0x10000. *)
Definition headers (m : memory) : Prop := forall j, 0 <= j < 4096 -> m (0x10000 + j) = file_byte j.

Lemma headers32 m j : headers m -> 0 <= j <= 4092 -> ld32 m (0x10000 + j) = file32 j.
Proof using img. clear Hpolls.
  intros Hh Hj. unfold file32, ld32. rewrite <- !Z.add_assoc. by rewrite !Hh by lia.
Qed.

Lemma loaded_low g m m' : (forall x, x < sg_end g -> m' x = m x) -> loaded g m -> loaded g m'.
Proof using img. clear Hpolls. unfold sg_end. intros Hx [H1 H2]. split; intros k Hk; rewrite Hx by lia; [by apply H1 | by apply H2]. Qed.

Lemma headers_low m m' : (forall x, x < 0x11000 -> m' x = m x) -> headers m -> headers m'.
Proof using img. clear Hpolls. intros Hx Hh j Hj. rewrite Hx by lia. by apply Hh. Qed.

(** One turn of the loop. *)
Lemma load_one g m d :
  idle d -> loadable g ->
  exists m1 d1, readseg polls (sg_pa g) (sg_filesz g) (sg_off g) m d = Some (m1, d1) /\ idle d1 /\
    (forall x, x < sg_start g -> m1 x = m x) /\
    let m2 := if sg_filesz g <? sg_memsz g
              then stosb m1 (u32 (sg_pa g + sg_filesz g)) 0 (Z.to_nat (sg_memsz g - sg_filesz g)) else m1 in
    (forall x, x < sg_start g -> m2 x = m x) /\ loaded g m2.
Proof.
  intros Hd [Ha Hm Hf Ho Hz]. unfold sg_start, sg_end, SECTSIZE in *.
  destruct (readseg_ok (sg_pa g) (sg_filesz g) (sg_off g) m d Hd) as (m1 & d1 & E & Hd1 & Hlow & Hin); unfold SECTSIZE in *; [zdiv | lia.. |].
  exists m1, d1. split; [done |]. split; [done |]. split; [done |]. cbv zeta.
  assert (forall k, 0 <= k < sg_filesz g -> m1 (sg_pa g + k) = file_byte (sg_off g + k)) as Hk.
  { intros k Hk. rewrite Hin by lia. f_equal. lia. }
  destruct (Z.ltb_spec (sg_filesz g) (sg_memsz g)) as [Hlt | Hge]; [| split; [done |]; split; [done | lia]].
  rewrite u32_small by (unfold is_u32; zdiv). split; [| split].
  - intros x Hx. rewrite stosb_spec. destruct (Z.leb_spec (sg_pa g + sg_filesz g) x); [zdiv |]. by apply Hlow.
  - intros k Hkk. rewrite stosb_spec. destruct (Z.leb_spec (sg_pa g + sg_filesz g) (sg_pa g + k)); [lia |]. by apply Hk.
  - intros k Hkk. rewrite stosb_spec. rewrite (proj2 (Z.leb_le _ _)), (proj2 (Z.ltb_lt _ _)) by lia. done.
Qed.

(** The program headers from byte [j] of the file on. *)
Fixpoint segments_from (j : Z) (n : nat) : list segment :=
  match n with O => [] | S n' => segment_at j :: segments_from (j + 32) n' end.

Lemma load_all_ok n : forall fuel j m d,
  idle d -> headers m -> 0 <= j -> j + 32 * Z.of_nat n <= 4096 -> (n < fuel)%nat ->
  Forall loadable (segments_from j n) -> ascending (segments_from j n) ->
  exists m' d', load_all polls fuel (0x10000 + j) (0x10000 + j + 32 * Z.of_nat n) m d = Some (m', d') /\ headers m' /\
    Forall (fun g => loaded g m') (segments_from j n) /\
    forall x, Forall (fun g => x < sg_start g) (segments_from j n) -> m' x = m x.
Proof.
  induction n as [| n IH]; intros [| fuel] j m d Hd Hh Hj Hjn Hfuel Hl Has; try lia; cbn [load_all].
  { rewrite (proj2 (Z.ltb_ge _ _)) by lia. exists m, d. cbn [segments_from]. split_and!; [done | done | by apply Forall_nil | done]. }
  cbn [segments_from] in *. set (g := segment_at j) in *. apply Forall_cons in Hl as [Hg Hl]. destruct Has as [Hasg Has].
  rewrite (proj2 (Z.ltb_lt _ _)) by lia. rewrite <- !Z.add_assoc.
  rewrite !(headers32 m) by (done || lia). change (file32 (j + 12)) with (sg_pa g). change (file32 (j + 16)) with (sg_filesz g).
  change (file32 (j + 4)) with (sg_off g).
  destruct (load_one g m d Hd Hg) as (m1 & d1 & -> & Hd1 & Hlow1 & Hm2). cbv zeta in Hm2. pose proof (ld_above _ Hg) as Hab.
  assert (headers m1) as Hh1 by (apply (headers_low m); [intros x Hx; apply Hlow1; lia | done]).
  rewrite !(headers32 m1) by (done || lia). change (file32 (j + 16)) with (sg_filesz g). change (file32 (j + 20)) with (sg_memsz g). cbv zeta.
  set (m2 := if sg_filesz g <? sg_memsz g then _ else m1) in *. destruct Hm2 as [Hlow2 Hld].
  assert (headers m2) as Hh2 by (apply (headers_low m); [intros x Hx; apply Hlow2; lia | done]).
  change SIZEOF_PROGHDR with 32. rewrite u32_small by (unfold is_u32; lia).
  destruct (IH fuel (j + 32) m2 d1 Hd1 Hh2) as (m' & d' & E & Hh' & Hls & Hlow); [lia | lia | lia | done | done |].
  exists m', d'. replace (65536 + (j + 32 * Z.of_nat (S n))) with (65536 + (j + 32) + 32 * Z.of_nat n) by lia.
  rewrite E. split_and!; [done | done | |].
  - constructor; [| done]. apply (loaded_low g m2); [| done]. intros x Hx. apply Hlow. eapply Forall_impl; [exact Hasg |]. cbn. lia.
  - intros x Hx. apply Forall_cons in Hx as [Hxg Hx]. rewrite Hlow by done. by apply Hlow2.
Qed.

(** The program headers and the entry point of the kernel file. *)
Definition file_phnum : Z := file_byte 44 + 256 * file_byte 45.
Definition file_segments : list segment := segments_from (file32 28) (Z.to_nat file_phnum).
End LoaderSpec.


(** ** A drive and a kernel file *)

Record sample_drive := mkDrive { dr_reg : Z -> Z; dr_busy : nat; dr_data : list Z }.

Section Sample.
Context (img : Z -> list Z).

Definition selected (d : sample_drive) : Z :=
  dr_reg d 0x1F3 + 256 * dr_reg d 0x1F4 + 65536 * dr_reg d 0x1F5 + 16777216 * (dr_reg d 0x1F6 - 0xE0).

#[local] Instance sample_ports : Drive sample_drive := {|
  out8 p v d := if ((p =? 0x1F7) && (v =? 0x20))%bool then mkDrive (dr_reg d) 2 (words (img (selected d)))
                else mkDrive (fupd (dr_reg d) p v) (dr_busy d) (dr_data d);
  in8 p d := match dr_busy d with O => (0x40, d) | S k => (0x80, mkDrive (dr_reg d) k (dr_data d)) end;
  in32 p d := match dr_data d with [] => (0, d) | w :: ws => (w, mkDrive (dr_reg d) (dr_busy d) ws) end |}.

#[local] Instance sample_spec : DriveSpec 3 img.
Proof.
  refine {| idle d := dr_busy d = 0%nat /\ dr_data d = [];
            serving n k d := dr_busy d = k /\ dr_data d = words (img n);
            pending ws d := dr_busy d = 0%nat /\ dr_data d = ws |}.
  - intros [r b q] [Hb Hq]. cbn in *. subst. by eexists _, _.
  - intros d b0 b1 b2 b3 _ _ _ _ _. exists 2%nat. split; [lia |]. cbn. split; [done |]. unfold selected. cbn.
    do 2 f_equal. unfold fupd. repeat (case_decide; try lia).
  - intros n k [r b q] [Hb Hq]. cbn in *. subst. eexists _, _. split; [done |]. split; [done |]. done.
  - intros n [r b q] [Hb Hq]. cbn in *. subst. by eexists _, _.
  - intros w ws [r b q] [Hb Hq]. cbn in *. subst. by eexists.
  - done.
Defined.
End Sample.

Definition le32 (x : Z) : list Z := [u8 x; u8 (x / 256); u8 (x / 65536); u8 (x / 16777216)].

(** Two segments that begin in the middle of a sector: 700 bytes of text, and 200 bytes
    of data with 100 bytes of zeros. *)
Definition sample_header : list Z :=
  le32 ELF_MAGIC ++ replicate 20 0 ++ le32 0x10000c ++ le32 52 ++ replicate 12 0 ++ [2; 0] ++ replicate 6 0 ++
  concat (le32 <$> [1; 600; 0x80100058; 0x100058; 700; 700; 5; 4096; 1; 1400; 0x80101000; 0x101000; 200; 300; 6; 4096]).
Definition sample_image (n : Z) : list Z :=
  if n =? 1 then take 512 (sample_header ++ replicate 512 0) else replicate 512 (u8 (16 * n)).

