(* ===== verification/Typed.v ===== *)
(** The types of the kernel's data, as an invariant: arrays keep their lengths,
    blocks their 512 bytes, memory cells are bytes and the fields of C types of
    fixed width stay in range, whatever kernel path runs, up to every context
    switch and after it. *)

From S2P Require Import Prelude Params Mem CString Machine Spinlock Kalloc Console Apic Vm Proc.

(** ** The types *)

Record proc_typed (p : proc) : Prop := {
  pt_ofile : length (p_ofile p) = NOFILE;
  pt_name : length (p_name p) = 16%nat;
  pt_pid : is_i32 (p_pid p);
  pt_times : is_u32 (p_ctime p) /\ is_u32 (p_etime p) /\ is_u32 (p_rtime p) /\ is_u32 (p_stime p) /\ is_u32 (p_retime p);
  pt_tickets : 0 <= p_tickets p <= INT_MAX /\ 0 <= p_original_tickets p <= INT_MAX }.

Definition table {A} (n : nat) (P : A -> Prop) (l : list A) : Prop := length l = n /\ Forall P l.

Record pipe_typed (p : pipe) : Prop := {
  pi_len : length (pi_data p) = 512%nat; pi_r32 : is_u32 (pi_nread p); pi_w32 : is_u32 (pi_nwrite p) }.

Record input_typed (i : inputst) : Prop := {
  it_len : length (in_buf i) = 128%nat; it_r : is_u32 (in_r i); it_w : is_u32 (in_w i); it_e : is_u32 (in_e i) }.

Record typed (s : kstate) : Prop := {
  ty_mem : bytes (mem s);
  ty_cpus : table NCPU (fun c => length (c_gdt c) = NSEGS) (cpus s);
  ty_ptable : table NPROC proc_typed (ptable s);
  ty_ftable : length (ftable s) = NFILE;
  ty_icache : table NINODE (fun ip => length (i_addrs ip) = 13%nat) (icache s);
  ty_bcache : table (S NBUF) (fun b => length (b_data b) = 512%nat) (bcache s);
  ty_log : length (lh_block (log_lh (log s))) = Z.to_nat LOGSIZE;
  ty_pipes : forall a, pipe_typed (pipes s a);
  ty_input : input_typed (input s);
  ty_devsw : length (devsw s) = Z.to_nat NDEV;
  ty_idt : length (idt s) = 256%nat;
  ty_ticks : is_u32 (ticks s);
  ty_policy : 0 <= scheduling_policy s <= 2;
  ty_seed : is_u32 (rand_seed s);
  ty_nextpid : is_i32 (nextpid s);
  ty_disk : forall b, length (disk s b) = 512%nat }.

(** The state after power on. *)
Lemma proc0_typed : proc_typed proc0.
Proof. split; unfold is_u32, is_i32, INT_MAX; cbn; try reflexivity; lia. Qed.

Lemma typed_kstate0 : typed kstate0.
Proof.
  split; unfold is_u32, is_i32; try (cbn; lia); try reflexivity; try (intros a; unfold is_byte; cbn; lia).
  - split; [reflexivity | by apply Forall_replicate].
  - split; [reflexivity | apply Forall_replicate, proc0_typed].
  - split; [reflexivity | by apply Forall_replicate].
  - split; [reflexivity | by apply Forall_replicate].
  - intros a. split; unfold is_u32; [reflexivity | cbn; lia..].
  - split; unfold is_u32; [reflexivity | cbn; lia..].
Qed.

(** ** Paths that keep the types

    [keeps T m]: from a well-typed state [m] reaches only well-typed states, where
    it returns, stops or switches away, and when it is switched back to in a
    well-typed state too; what it returns satisfies [T]. *)

Fixpoint okay {A} (T : A -> Prop) (o : outcome A) : Prop :=
  match o with
  | Ok a s => typed s /\ T a
  | Stop _ s => typed s
  | Swtch s k => typed s /\ forall s', typed s' -> okay T (k s')
  end.

Definition keeps {A} (T : A -> Prop) (m : M A) : Prop := forall s, typed s -> okay T (m s).

Definition anything {A} (a : A) : Prop := True.

Lemma okay_bind {A B} (R : A -> Prop) (T : B -> Prop) o (f : A -> M B) :
  okay R o -> (forall a, R a -> keeps T (f a)) -> okay T (obind o f).
Proof.
  intros Ho Hf. induction o as [a s | r s | s k IH]; cbn [obind okay] in *.
  - destruct Ho as [Hs Ha]. by apply Hf.
  - done.
  - destruct Ho as [Hs Hk]. split; [done |]. intros s' Hs'. by apply IH, Hk.
Qed.

Lemma keeps_bind {A B} (R : A -> Prop) (T : B -> Prop) (m : M A) (f : A -> M B) :
  keeps R m -> (forall a, R a -> keeps T (f a)) -> keeps T (bind m f).
Proof. intros Hm Hf s Hs. eapply okay_bind; [by apply Hm | exact Hf]. Qed.

Lemma okay_weaken {A} (R T : A -> Prop) o : okay R o -> (forall a, R a -> T a) -> okay T o.
Proof.
  intros Ho HRT. induction o as [a s | r s | s k IH]; cbn [okay] in *; [by destruct Ho; split; [| apply HRT] | done |].
  destruct Ho as [Hs Hk]. split; [done |]. intros s' Hs'. by apply IH, Hk.
Qed.

Lemma keeps_weaken {A} (R T : A -> Prop) (m : M A) : keeps R m -> (forall a, R a -> T a) -> keeps T m.
Proof. intros Hm HRT s Hs. eapply okay_weaken; [by apply Hm | done]. Qed.

Lemma keeps_ret {A} (T : A -> Prop) a : T a -> keeps T (ret a).
Proof. by intros Ha s Hs. Qed.

Lemma keeps_stop {A} (T : A -> Prop) r : keeps T (stop_with r).
Proof. by intros s Hs. Qed.

Lemma keeps_panic {A} (T : A -> Prop) msg : keeps T (panic msg).
Proof. apply keeps_stop. Qed.

Lemma keeps_fault {A} (T : A -> Prop) : keeps T fault.
Proof. apply keeps_stop. Qed.

Lemma keeps_gets {A} (g : kstate -> A) : keeps (fun a => exists s, typed s /\ a = g s) (gets g).
Proof. intros s Hs. split; [done |]. by exists s. Qed.

Lemma keeps_modify g : (forall s, typed s -> typed (g s)) -> keeps anything (modify g).
Proof. intros Hg s Hs. split; [by apply Hg | done]. Qed.

Lemma keeps_when b m : keeps anything m -> keeps anything (when b m).
Proof. destruct b; [done |]. intros _. by apply keeps_ret. Qed.

Lemma keeps_swtch : keeps anything swtch.
Proof. intros s Hs. split; [done |]. intros s' Hs'. by split. Qed.

Lemma keeps_unwrap {A} (T : A -> Prop) o : (forall a, o = Some a -> T a) -> keeps T (unwrap o).
Proof. destruct o as [a |]; cbn; intros H; [apply keeps_ret; by apply H | apply keeps_fault]. Qed.

Lemma keeps_forM {I} (l : list I) body : (forall i, keeps anything (body i)) -> keeps anything (forM l body).
Proof. intros Hb. induction l as [| i l IH]; cbn [forM]; [by apply keeps_ret |]. by eapply keeps_bind. Qed.

Lemma keeps_for_ret {I R} (T : R -> Prop) (l : list I) body :
  (forall i, keeps (fun o => forall x, o = Some x -> T x) (body i)) -> keeps (fun o => forall x, o = Some x -> T x) (for_ret l body).
Proof.
  intros Hb. induction l as [| i l IH]; cbn [for_ret]; [by apply keeps_ret |].
  eapply keeps_bind; [apply Hb |]. intros [x |] Hx; [by apply keeps_ret | done].
Qed.

Lemma keeps_loop_until {A} (T : A -> Prop) n body :
  keeps (fun o => forall x, o = Some x -> T x) body -> keeps T (loop_until n body).
Proof.
  intros Hb. induction n as [| n IH]; cbn [loop_until]; [apply keeps_stop |].
  eapply keeps_bind; [exact Hb |]. intros [x |] Hx; [apply keeps_ret; by apply Hx | done].
Qed.

Lemma keeps_for_any {I R} (l : list I) (body : I -> M (option R)) :
  (forall i, keeps anything (body i)) -> keeps anything (for_ret l body).
Proof.
  intros Hb. apply (keeps_weaken (fun o => forall x, o = Some x -> anything x)); [| done].
  apply keeps_for_ret. intros i. by eapply keeps_weaken; [apply Hb |].
Qed.

Lemma keeps_loop_any {A} n (body : M (option A)) : keeps anything body -> keeps anything (loop_until n body).
Proof. intros Hb. apply keeps_loop_until. by eapply keeps_weaken; [apply Hb |]. Qed.

(** ** Memory *)

Lemma bytes_stn l : forall m a, bytes m -> bytes (stn m a l).
Proof. induction l as [| x l IH]; intros m a Hm; cbn [stn]; [done |]. by apply IH, st8_bytes. Qed.

Lemma bytes_stosb n : forall m a v, bytes m -> bytes (stosb m a v n).
Proof. induction n as [| n IH]; intros m a v Hm; cbn [stosb]; [done |]. by apply IH, st8_bytes. Qed.

Lemma bytes_stosl n : forall m a v, bytes m -> bytes (stosl m a v n).
Proof. induction n as [| n IH]; intros m a v Hm; cbn [stosl]; [done |]. by apply IH, st32_bytes. Qed.

Lemma bytes_memset m a v n : bytes m -> bytes (memset m a v n).
Proof. intros Hm. unfold memset. destruct (_ && _)%bool; [by apply bytes_stosl | by apply bytes_stosb]. Qed.

Lemma bytes_copy_down n : forall m d s, bytes m -> bytes (copy_down m d s n).
Proof. induction n as [| n IH]; intros m d s Hm; cbn [copy_down]; [done |]. by apply IH, st8_bytes. Qed.

Lemma bytes_copy_up n : forall m d s, bytes m -> bytes (copy_up m d s n).
Proof. induction n as [| n IH]; intros m d s Hm; cbn [copy_up]; [done |]. by apply IH, st8_bytes. Qed.

Lemma bytes_memmove m d s n : bytes m -> bytes (memmove m d s n).
Proof. intros Hm. unfold memmove. destruct (_ && _)%bool; [by apply bytes_copy_down | by apply bytes_copy_up]. Qed.

(** ** Automation

    [retype] reduces the types of an updated state to those of the fields that
    changed; [keep] follows the structure of a path, taking the calls it knows
    from the hints [typed]. *)

Create HintDb typed discriminated.
#[export] Hint Constants Opaque : typed.
#[export] Hint Resolve st8_bytes st32_bytes bytes_stn bytes_memset bytes_memmove bytes_stosb u32_range : typed.
#[export] Hint Resolve keeps_gets | 9 : typed.
#[export] Hint Resolve keeps_swtch i32_range : typed.

Lemma keeps_nextpid : keeps is_i32 (gets nextpid).
Proof. intros s Hs. split; [done | apply Hs]. Qed.
Lemma keeps_ticks : keeps is_u32 (gets ticks).
Proof. intros s Hs. split; [done | apply Hs]. Qed.
#[export] Hint Resolve keeps_nextpid keeps_ticks : typed.

Lemma table_insert {A} n (P : A -> Prop) l i x : table n P l -> P x -> table n P (<[i := x]> l).
Proof. intros [Hl Hf] Hx. split; [by rewrite length_insert | by apply Forall_insert]. Qed.

Lemma table_lookup {A} n (P : A -> Prop) l i x : table n P l -> l !! i = Some x -> P x.
Proof. intros [_ Hf] Hx. by eapply Forall_lookup_1. Qed.

Lemma table_fmap {A} n (P : A -> Prop) (f : A -> A) l : table n P l -> (forall x, P x -> P (f x)) -> table n P (f <$> l).
Proof. intros [Hl Hf] HP. split; [by rewrite length_fmap |]. apply Forall_fmap. by eapply Forall_impl. Qed.

Ltac fields :=
  cbn [mem cpus ptable ftable icache bcache log pipes input devsw idt ticks scheduling_policy rand_seed nextpid disk
    set_cpus set_ncpu set_lapic_id set_eflags_IF set_cr3 set_tr set_locks set_sleeplocks set_ptable set_initproc set_nextpid set_scheduling_policy set_rand_seed set_forkret_first set_ticks set_idt set_mem set_kmem_use_lock set_kmem_freelist set_kpgdir set_tframes set_contexts set_ftable set_devsw set_pipes set_icache set_sb set_bcache set_log set_idequeue set_havedisk1 set_disksize set_disk set_cons_locking set_panicked set_input set_uart set_kbd_shift set_port_in set_io set_apic set_sym_end set_sym_cpus set_sym_data].

Ltac retype :=
  match goal with
  | H : typed ?s |- typed _ => let Ht := fresh in pose proof H as Ht; destruct Ht; split; try assumption; fields
  end.

Ltac keep_side := first [done | eassumption | solve [eauto with typed] | solve [intros; retype; eauto with typed] | idtac].

Ltac keep :=
  cbv zeta;
  lazymatch goal with
  | |- keeps _ (bind _ _) =>
      first [ eapply keeps_bind; [solve [eauto 2 with typed nocore] | intros ? ?; keep]
            | apply (keeps_bind anything); [keep | intros ? _; keep] ]
  | |- keeps _ (ret _) => apply keeps_ret; keep_side
  | |- keeps _ (panic _) => apply keeps_panic
  | |- keeps _ fault => apply keeps_fault
  | |- keeps _ (stop_with _) => apply keeps_stop
  | |- keeps _ (if ?b then _ else _) => destruct b eqn:?; keep
  | |- keeps _ (match ?x with _ => _ end) => destruct x eqn:?; keep
  | |- keeps _ (modify _) => first [solve [eauto 2 with typed nocore] | apply keeps_modify; keep_side]
  | |- keeps anything (unwrap _) => by apply keeps_unwrap
  | |- keeps _ (when _ _) => apply keeps_when; keep
  | |- keeps _ (forM _ _) => apply keeps_forM; intros ?; keep
  | |- keeps anything (for_ret _ _) => apply keeps_for_any; intros ?; keep
  | |- keeps anything (loop_until _ _) => apply keeps_loop_any; keep
  | |- keeps anything _ => first [ eapply keeps_weaken; [solve [eauto 2 with typed nocore] | done] | idtac ]
  | |- keeps _ _ => first [ solve [eauto 2 with typed nocore] | eapply keeps_weaken; [solve [eauto 2 with typed nocore] | keep_side] | idtac ]
  end.

(** ** Elements of the tables *)

Lemma keeps_getc i : keeps (fun c => length (c_gdt c) = NSEGS) (getc i).
Proof. intros s Hs. unfold getc. apply keeps_unwrap; [| done]. intros c Hc. exact (table_lookup _ _ _ _ _ (ty_cpus _ Hs) Hc). Qed.

Lemma keeps_modc i f : (forall c, length (c_gdt c) = NSEGS -> length (c_gdt (f c)) = NSEGS) -> keeps anything (modc i f).
Proof.
  intros Hf s Hs. unfold modc. destruct (cpus s !! i) as [c |] eqn:E; [| done]. split; [| done]. retype.
  apply table_insert; [done |]. apply Hf. exact (table_lookup _ _ _ _ _ (ty_cpus _ Hs) E).
Qed.

Lemma keeps_getp i : keeps proc_typed (getp i).
Proof. intros s Hs. unfold getp. apply keeps_unwrap; [| done]. intros p Hp. exact (table_lookup _ _ _ _ _ (ty_ptable _ Hs) Hp). Qed.

Lemma keeps_modp i f : (forall p, proc_typed p -> proc_typed (f p)) -> keeps anything (modp i f).
Proof.
  intros Hf s Hs. unfold modp. destruct (ptable s !! i) as [p |] eqn:E; [| done]. split; [| done]. retype.
  apply table_insert; [done |]. apply Hf. exact (table_lookup _ _ _ _ _ (ty_ptable _ Hs) E).
Qed.

Lemma keeps_modio f : keeps anything (modio f).
Proof. intros s Hs. split; [by retype | done]. Qed.

#[export] Hint Resolve keeps_getc keeps_getp keeps_modio : typed.
#[export] Hint Extern 1 (keeps _ (modc _ _)) => (apply keeps_modc; intros ? ?; cbn; rewrite ?length_insert; assumption) : typed.

(** An update of a process, field by field. *)
Ltac proc_side := intros ? []; split; cbn; rewrite ?length_insert; try assumption; try (by unfold is_u32, is_i32, INT_MAX in *; lia).
#[export] Hint Extern 1 (keeps _ (modp _ _)) => (apply keeps_modp; solve [proc_side]) : typed.
#[export] Hint Extern 2 (keeps _ (modify _)) => (apply keeps_modify; solve [intros; retype; eauto with typed]) : typed.

(** ** [spinlock.c] *)

Lemma keeps_cli : keeps anything cli.
Proof. unfold cli. keep. Qed.
Lemma keeps_sti : keeps anything sti.
Proof. unfold sti. keep. Qed.
#[export] Hint Resolve keeps_cli keeps_sti : typed.

Lemma keeps_mycpu : keeps anything mycpu.
Proof. unfold mycpu. keep. Qed.
#[export] Hint Resolve keeps_mycpu : typed.

Lemma keeps_initlock l n : keeps anything (initlock l n).
Proof. unfold initlock. keep. Qed.
Lemma keeps_pushcli : keeps anything pushcli.
Proof. unfold pushcli. keep. Qed.
Lemma keeps_popcli : keeps anything popcli.
Proof. unfold popcli. keep. Qed.
Lemma keeps_modlock l f : keeps anything (modlock l f).
Proof. unfold modlock. keep. Qed.
Lemma keeps_getlock l : keeps anything (getlock l).
Proof. unfold getlock. eapply keeps_weaken; [apply keeps_gets | done]. Qed.
#[export] Hint Resolve keeps_initlock keeps_pushcli keeps_popcli keeps_modlock keeps_getlock : typed.

Lemma keeps_cpuid : keeps anything cpuid.
Proof. unfold cpuid. keep. Qed.
Lemma keeps_holding l : keeps anything (holding l).
Proof. unfold holding. keep. Qed.
Lemma keeps_xchg l v : keeps anything (xchg_locked l v).
Proof. unfold xchg_locked. keep. Qed.
#[export] Hint Resolve keeps_cpuid keeps_holding keeps_xchg : typed.

Lemma keeps_acquire l : keeps anything (acquire l).
Proof. unfold acquire. keep. Qed.
Lemma keeps_release l : keeps anything (release l).
Proof. unfold release. keep. Qed.
#[export] Hint Resolve keeps_acquire keeps_release : typed.

(** ** [kalloc.c] *)

Lemma keeps_kfree v : keeps anything (kfree v).
Proof. unfold kfree. keep. Qed.
Lemma keeps_kalloc : keeps anything kalloc.
Proof. unfold kalloc. keep. Qed.
#[export] Hint Resolve keeps_kfree keeps_kalloc : typed.

Lemma keeps_freerange a b : keeps anything (freerange a b).
Proof. unfold freerange. generalize (S (Z.to_nat (b / PGSIZE))) (PGROUNDUP a). intros n. induction n as [| n IH]; intros p; cbn [freerange_loop]; keep. Qed.
#[export] Hint Resolve keeps_freerange : typed.

Lemma keeps_kinit1 a b : keeps anything (kinit1 a b).
Proof. unfold kinit1. keep. Qed.
Lemma keeps_kinit2 a b : keeps anything (kinit2 a b).
Proof. unfold kinit2. keep. Qed.
#[export] Hint Resolve keeps_kinit1 keeps_kinit2 : typed.

(** ** Console output *)

Lemma keeps_inb p : keeps anything (inb p).
Proof. intros s Hs. unfold inb. destruct (_ =? _); (split; [by retype || done | done]). Qed.
Lemma keeps_outb p d : keeps anything (outb p d).
Proof. unfold outb. keep. Qed.
#[export] Hint Resolve keeps_inb keeps_outb : typed.

Lemma keeps_uart_wait n : keeps anything (uart_wait n).
Proof. induction n as [| n IH]; cbn [uart_wait]; keep. Qed.
#[export] Hint Resolve keeps_uart_wait : typed.

Lemma keeps_uartputc c : keeps anything (uartputc c).
Proof. unfold uartputc. keep. Qed.
Lemma keeps_uartgetc : keeps anything uartgetc.
Proof. unfold uartgetc. keep. Qed.
Lemma keeps_cga_finish pos : keeps anything (cga_finish pos).
Proof. unfold cga_finish. keep. Qed.
#[export] Hint Resolve keeps_uartputc keeps_uartgetc keeps_cga_finish : typed.

Lemma keeps_cgaputc c : keeps anything (cgaputc c).
Proof. unfold cgaputc. keep. Qed.
#[export] Hint Resolve keeps_cgaputc : typed.

Lemma keeps_consputc c : keeps anything (consputc c).
Proof. unfold consputc. keep. Qed.
#[export] Hint Resolve keeps_consputc : typed.

Lemma keeps_printint x b g : keeps anything (printint x b g).
Proof. unfold printint. keep. Qed.
Lemma keeps_take_int l : keeps anything (take_int l).
Proof. unfold take_int. keep. Qed.
Lemma keeps_take_str l : keeps anything (take_str l).
Proof. unfold take_str. keep. Qed.
#[export] Hint Resolve keeps_printint keeps_take_int keeps_take_str : typed.

(** A format is read one or two characters at a time. *)
Lemma cprintf_loop_cons c fmt args :
  cprintf_loop (c :: fmt) args =
  if negb (c =? 37) then consputc c ;; cprintf_loop fmt args
  else match fmt with
       | [] => ret tt
       | c :: fmt' =>
           if c =? 100 then r <- take_int args ;; printint r.1 10 true ;; cprintf_loop fmt' r.2
           else if ((c =? 120) || (c =? 112))%bool then r <- take_int args ;; printint r.1 16 false ;; cprintf_loop fmt' r.2
           else if c =? 115 then r <- take_str args ;; forM r.1 consputc ;; cprintf_loop fmt' r.2
           else if c =? 37 then consputc 37 ;; cprintf_loop fmt' args
           else consputc 37 ;; consputc c ;; cprintf_loop fmt' args
       end.
Proof. reflexivity. Qed.

Lemma keeps_cprintf_loop n : forall fmt args, (length fmt <= n)%nat -> keeps anything (cprintf_loop fmt args).
Proof.
  induction n as [| n IH]; intros [| c fmt] args Hn; [by apply keeps_ret | cbn in Hn; lia | by apply keeps_ret |].
  rewrite cprintf_loop_cons. cbn [length] in Hn. keep; apply IH; cbn [length] in *; lia.
Qed.

Lemma keeps_cprintf fmt args : keeps anything (cprintf fmt args).
Proof. unfold cprintf. pose proof (keeps_cprintf_loop (length fmt) fmt args (le_n _)). keep. Qed.
#[export] Hint Resolve keeps_cprintf : typed.

(** ** Interrupt controllers *)

Lemma keeps_mmio_read a : keeps anything (mmio_read a).
Proof. intros s Hs. unfold mmio_read. split; [by retype | done]. Qed.
Lemma keeps_mmio_write a v : keeps anything (mmio_write a v).
Proof. unfold mmio_write. keep. Qed.
Lemma keeps_modapic f : keeps anything (modapic f).
Proof. unfold modapic. keep. Qed.
#[export] Hint Resolve keeps_mmio_read keeps_mmio_write keeps_modapic : typed.

Lemma keeps_lapic_reg i : keeps anything (lapic_reg i).
Proof. unfold lapic_reg. keep. Qed.
#[export] Hint Resolve keeps_lapic_reg : typed.
Lemma keeps_lapicw i v : keeps anything (lapicw i v).
Proof. unfold lapicw. keep. Qed.
#[export] Hint Resolve keeps_lapicw : typed.
Lemma keeps_lapiceoi : keeps anything lapiceoi.
Proof. unfold lapiceoi. keep. Qed.
Lemma keeps_ioapicread r : keeps anything (ioapicread r).
Proof. unfold ioapicread. keep. Qed.
Lemma keeps_ioapicwrite r d : keeps anything (ioapicwrite r d).
Proof. unfold ioapicwrite. keep. Qed.
#[export] Hint Resolve keeps_lapiceoi keeps_ioapicread keeps_ioapicwrite : typed.

Lemma keeps_ioapicenable i c : keeps anything (ioapicenable i c).
Proof. unfold ioapicenable. keep. Qed.
#[export] Hint Resolve keeps_ioapicenable : typed.

(** ** [vm.c] *)

Lemma keeps_ldw a : keeps anything (ldw a).
Proof. unfold ldw. eapply keeps_weaken; [apply keeps_gets | done]. Qed.
Lemma keeps_stw a v : keeps anything (stw a v).
Proof. unfold stw. keep. Qed.
Lemma keeps_memset_page a : keeps anything (memset_page a).
Proof. unfold memset_page. keep. Qed.
#[export] Hint Resolve keeps_ldw keeps_stw keeps_memset_page : typed.

Lemma keeps_seginit : keeps anything seginit.
Proof. unfold seginit. keep. Qed.
Lemma keeps_walkpgdir d va al : keeps anything (walkpgdir d va al).
Proof. unfold walkpgdir. keep. Qed.
#[export] Hint Resolve keeps_seginit keeps_walkpgdir : typed.

Lemma keeps_mappages d va sz pa perm : keeps anything (mappages d va sz pa perm).
Proof.
  unfold mappages. cbv zeta. generalize (S (Z.to_nat (u32 (PGROUNDDOWN (u32 (va + sz - 1)) - PGROUNDDOWN va) / PGSIZE))) as n.
  intros n. generalize (PGROUNDDOWN va) pa. induction n as [| n IH]; intros a p; cbn [mappages_loop]; keep.
Qed.
#[export] Hint Resolve keeps_mappages : typed.

Lemma keeps_deallocuvm_loop n : forall d a o, keeps anything (deallocuvm_loop n d a o).
Proof. induction n as [| n IH]; intros d a o; cbn [deallocuvm_loop]; keep. Qed.
#[export] Hint Resolve keeps_deallocuvm_loop : typed.
Lemma keeps_deallocuvm d o n : keeps anything (deallocuvm d o n).
Proof. unfold deallocuvm. keep. Qed.
#[export] Hint Resolve keeps_deallocuvm : typed.
Lemma keeps_freevm d : keeps anything (freevm d).
Proof. unfold freevm. keep. Qed.
#[export] Hint Resolve keeps_freevm : typed.
Lemma keeps_setupkvm : keeps anything setupkvm.
Proof. unfold setupkvm. keep. Qed.
#[export] Hint Resolve keeps_setupkvm : typed.
Lemma keeps_lcr3 v : keeps anything (lcr3 v).
Proof. unfold lcr3. keep. Qed.
Lemma keeps_ltr v : keeps anything (ltr v).
Proof. unfold ltr. keep. Qed.
#[export] Hint Resolve keeps_lcr3 keeps_ltr : typed.
Lemma keeps_switchkvm : keeps anything switchkvm.
Proof. unfold switchkvm. keep. Qed.
#[export] Hint Resolve keeps_switchkvm : typed.
Lemma keeps_kvmalloc : keeps anything kvmalloc.
Proof. unfold kvmalloc. keep. Qed.
Lemma keeps_switchuvm p : keeps anything (switchuvm p).
Proof. unfold switchuvm. keep. Qed.
Lemma keeps_inituvm d i z : keeps anything (inituvm d i z).
Proof. unfold inituvm. keep. Qed.
#[export] Hint Resolve keeps_kvmalloc keeps_switchuvm keeps_inituvm : typed.

Lemma keeps_allocuvm_loop n : forall d a o z, keeps anything (allocuvm_loop n d a o z).
Proof. induction n as [| n IH]; intros d a o z; cbn [allocuvm_loop]; keep. Qed.
#[export] Hint Resolve keeps_allocuvm_loop : typed.
Lemma keeps_allocuvm d o n : keeps anything (allocuvm d o n).
Proof. unfold allocuvm. keep. Qed.
Lemma keeps_clearpteu d u : keeps anything (clearpteu d u).
Proof. unfold clearpteu. keep. Qed.
Lemma keeps_copyuvm_loop n : forall d g i z, keeps anything (copyuvm_loop n d g i z).
Proof. induction n as [| n IH]; intros d g i z; cbn [copyuvm_loop]; keep. Qed.
#[export] Hint Resolve keeps_allocuvm keeps_clearpteu keeps_copyuvm_loop : typed.
Lemma keeps_copyuvm d z : keeps anything (copyuvm d z).
Proof. unfold copyuvm. keep. Qed.
Lemma keeps_uva2ka d u : keeps anything (uva2ka d u).
Proof. unfold uva2ka. keep. Qed.
#[export] Hint Resolve keeps_copyuvm keeps_uva2ka : typed.
Lemma keeps_copyout d va b : keeps anything (copyout d va b).
Proof.
  unfold copyout. generalize (S (S (S (Z.to_nat (Z.of_nat (length b) / PGSIZE))))) as n. intros n. revert va b.
  induction n as [| n IH]; intros va b; cbn [copyout_loop]; keep.
Qed.
#[export] Hint Resolve keeps_copyout : typed.

Lemma keeps_uld8 va : keeps is_byte (uld8 va).
Proof. intros s Hs. unfold uld8. destruct (mmu _ _ _); [split; [done | apply Hs] | done]. Qed.
Lemma keeps_ust8 va v : keeps anything (ust8 va v).
Proof. intros s Hs. unfold ust8. destruct (mmu _ _ _); [split; [retype; eauto with typed | done] | done]. Qed.
#[export] Hint Resolve keeps_uld8 keeps_ust8 : typed.
Lemma keeps_uld32 va : keeps is_u32 (uld32 va).
Proof. unfold uld32. keep. unfold is_byte, is_u32 in *. lia. Qed.
Lemma keeps_ust16 va v : keeps anything (ust16 va v).
Proof. unfold ust16. keep. Qed.
Lemma keeps_ust32 va v : keeps anything (ust32 va v).
Proof. unfold ust32. keep. Qed.
#[export] Hint Resolve keeps_uld32 keeps_ust16 keeps_ust32 : typed.

(** ** [proc.c] *)

Lemma keeps_krand : keeps anything krand.
Proof. unfold krand, krand_next. keep. Qed.
Lemma keeps_myproc : keeps anything myproc.
Proof. unfold myproc. keep. Qed.
#[export] Hint Resolve keeps_krand keeps_myproc : typed.
Lemma keeps_curproc : keeps anything curproc.
Proof. unfold curproc. keep. Qed.
#[export] Hint Resolve keeps_curproc : typed.

Lemma keeps_allocproc f t : keeps anything (allocproc f t).
Proof. unfold allocproc. keep. Qed.
Lemma keeps_growproc n : keeps anything (growproc n).
Proof. unfold growproc. keep. Qed.
Lemma keeps_sched : keeps anything sched.
Proof. unfold sched. keep. Qed.
#[export] Hint Resolve keeps_allocproc keeps_growproc keeps_sched : typed.
Lemma keeps_yield : keeps anything yield.
Proof. unfold yield. keep. Qed.
Lemma keeps_sleep c l : keeps anything (sleep c l).
Proof. unfold sleep. keep. Qed.
#[export] Hint Resolve keeps_yield keeps_sleep : typed.

Lemma wake_typed c p : proc_typed p -> proc_typed (wake c p).
Proof. intros []. unfold wake. by destruct (bool_decide _); split. Qed.
Lemma keeps_wakeup1 c : keeps anything (wakeup1 c).
Proof. unfold wakeup1. apply keeps_modify. intros s Hs. retype. apply table_fmap; [apply Hs | apply wake_typed]. Qed.
#[export] Hint Resolve keeps_wakeup1 : typed.
Lemma keeps_wakeup c : keeps anything (wakeup c).
Proof. unfold wakeup. keep. Qed.
Lemma keeps_kill p : keeps anything (kill p).
Proof. unfold kill. keep. Qed.
Lemma keeps_reap p q : keeps anything (reap p q).
Proof. unfold reap. keep. Qed.
#[export] Hint Resolve keeps_wakeup keeps_kill keeps_reap : typed.

Lemma keeps_wait_scan found cur l : (forall p q, keeps anything (found p q)) -> forall b, keeps anything (wait_scan found cur b l).
Proof. intros Hf. induction l as [| p l IH]; intros b; cbn [wait_scan]; keep. Qed.

Section Waiting.
Context `{Turns}.

Lemma keeps_wait_loop found cur : (forall p q, keeps anything (found p q)) -> keeps anything (wait_loop found cur).
Proof. intros Hf. pose proof (fun l => keeps_wait_scan found cur l Hf) as Hs. unfold wait_loop. keep. Qed.
Lemma keeps_wait_found p q : keeps anything (wait_found p q).
Proof. unfold wait_found. keep. Qed.
Lemma keeps_waitx_found w r p q : keeps anything (waitx_found w r p q).
Proof. unfold waitx_found. keep. Qed.
Lemma keeps_wait : keeps anything wait.
Proof. unfold wait. keep. apply keeps_wait_loop, keeps_wait_found. Qed.
Lemma keeps_waitx w r : keeps anything (waitx w r).
Proof. unfold waitx. keep. apply keeps_wait_loop, keeps_waitx_found. Qed.
End Waiting.
#[export] Hint Resolve keeps_wait keeps_waitx : typed.

Lemma keeps_dispatch c p : keeps anything (dispatch c p).
Proof. unfold dispatch. keep. Qed.
#[export] Hint Resolve keeps_dispatch : typed.
Lemma keeps_scheduler_round c : keeps anything (scheduler_round c).
Proof. unfold scheduler_round. keep. Qed.
#[export] Hint Resolve keeps_scheduler_round : typed.
Lemma keeps_scheduler `{Turns} : keeps anything scheduler.
Proof. unfold scheduler. keep. Qed.
Lemma keeps_procdump : keeps anything procdump.
Proof. unfold procdump. keep. Qed.
Lemma keeps_setpolicy p : keeps anything (setpolicy p).
Proof.
  unfold setpolicy. destruct ((p <? 0) || (2 <? p))%bool eqn:E; [by apply keeps_ret |].
  apply orb_false_iff in E as [E1 E2]. apply Z.ltb_ge in E1, E2. keep.
Qed.
Lemma keeps_settickets n : is_i32 n -> keeps anything (settickets n).
Proof.
  intros Hn. unfold settickets. destruct (Z.ltb_spec n 1); [by apply keeps_ret |]. unfold is_i32 in Hn.
  keep; try assumption.
Qed.
Lemma keeps_getpinfo ps : keeps anything (getpinfo ps).
Proof. unfold getpinfo. keep. Qed.
#[export] Hint Resolve keeps_scheduler keeps_procdump keeps_setpolicy keeps_settickets keeps_getpinfo : typed.
