(* ===== verification/TypedFs.v ===== *)
(** The types of the kernel's data are kept by the disk drivers, the buffer cache,
    the log, inodes and directories, pipes and files. *)

From S2P Require Import Prelude Params Mem CString Machine Spinlock Kalloc Console Apic Vm Proc Typed.
From S2P Require Import ProcSpec Sleeplock Ide Bio Log Inode ConsoleDev Fs FileSpec Pipe File.

(** ** Elements of the tables *)

Lemma keeps_getb i : keeps (fun b => length (b_data b) = 512%nat) (getb i).
Proof. intros s Hs. unfold getb. apply keeps_unwrap; [| done]. intros b Hb. exact (table_lookup _ _ _ _ _ (ty_bcache _ Hs) Hb). Qed.

Lemma keeps_modb i f : (forall b, length (b_data b) = 512%nat -> length (b_data (f b)) = 512%nat) -> keeps anything (modb i f).
Proof.
  intros Hf s Hs. unfold modb. destruct (bcache s !! i) as [b |] eqn:E; [| done].
  pose proof (table_lookup _ _ _ _ _ (ty_bcache _ Hs) E). split; [| done]. retype. apply table_insert; auto.
Qed.

Lemma keeps_geti i : keeps (fun ip => length (i_addrs ip) = 13%nat) (geti i).
Proof. intros s Hs. unfold geti. apply keeps_unwrap; [| done]. intros b Hb. exact (table_lookup _ _ _ _ _ (ty_icache _ Hs) Hb). Qed.

Lemma keeps_modi i f : (forall ip, length (i_addrs ip) = 13%nat -> length (i_addrs (f ip)) = 13%nat) -> keeps anything (modi i f).
Proof.
  intros Hf s Hs. unfold modi. destruct (icache s !! i) as [b |] eqn:E; [| done].
  pose proof (table_lookup _ _ _ _ _ (ty_icache _ Hs) E). split; [| done]. retype. apply table_insert; auto.
Qed.

Lemma keeps_getf i : keeps anything (getf i).
Proof. intros s Hs. unfold getf. apply keeps_unwrap; [| done]. done. Qed.
Lemma keeps_modf i f : keeps anything (modf i f).
Proof. intros s Hs. unfold modf. destruct (ftable s !! i); [| done]. split; [| done]. retype. by rewrite length_insert. Qed.
Lemma keeps_modsl l f : keeps anything (modsl l f).
Proof. unfold modsl. keep. Qed.
Lemma keeps_modpipe a f : (forall p, pipe_typed p -> pipe_typed (f p)) -> keeps anything (modpipe a f).
Proof.
  intros Hf. unfold modpipe. apply keeps_modify. intros s Hs. retype. intros x. unfold fupd. destruct (decide _); [apply Hf |]; apply Hs.
Qed.
#[export] Hint Resolve keeps_getb keeps_geti keeps_getf keeps_modf keeps_modsl : typed.
#[export] Hint Extern 1 (keeps _ (modb _ _)) => (apply keeps_modb; intros ? ?; cbn; rewrite ?length_insert; assumption) : typed.
#[export] Hint Extern 1 (keeps _ (modi _ _)) => (apply keeps_modi; intros ? ?; cbn; rewrite ?length_insert; assumption) : typed.

(** ** [sleeplock.c] *)

Lemma keeps_initsleeplock l n : keeps anything (initsleeplock l n).
Proof. unfold initsleeplock. keep. Qed.
Lemma keeps_acquiresleep `{Turns} l : keeps anything (acquiresleep l).
Proof. unfold acquiresleep. keep. Qed.
Lemma keeps_releasesleep l : keeps anything (releasesleep l).
Proof. unfold releasesleep. keep. Qed.
Lemma keeps_holdingsleep l : keeps anything (holdingsleep l).
Proof. unfold holdingsleep. keep. Qed.
#[export] Hint Resolve keeps_initsleeplock keeps_acquiresleep keeps_releasesleep keeps_holdingsleep : typed.

(** ** The drivers *)

(** What the kernel relies on of a disk driver. *)
Class DiskTyped `{Disk} : Prop := {
  dt_init : keeps anything disk_init; dt_intr : keeps anything disk_intr; dt_rw : forall i, keeps anything (iderw i) }.
#[export] Hint Resolve dt_init dt_intr dt_rw : typed.

Section IdeTyped.
Context `{Turns}.

Lemma keeps_inl p : keeps anything (Ide.inl p).
Proof. intros s Hs. unfold Ide.inl. split; [by retype | done]. Qed.
#[local] Hint Resolve keeps_inl : typed.
Lemma keeps_insl p n : keeps (fun d => length d = (4 * n)%nat) (Ide.insl p n).
Proof. induction n as [| n IH]; cbn [Ide.insl]; keep. cbn in *. lia. Qed.
Lemma keeps_outsl n : forall p d, (length d <= n)%nat -> keeps anything (Ide.outsl p d).
Proof.
  induction n as [| n IH]; intros p d Hd; (destruct d as [| a [| b [| c [| e d]]]]; try (by apply keeps_ret)); cbn [length] in Hd; [lia |].
  cbn [Ide.outsl]. eapply keeps_bind; [apply keeps_modio |]. intros _ _. apply IH. lia.
Qed.
Lemma keeps_idewait b : keeps anything (Ide.idewait b).
Proof. unfold Ide.idewait. keep. Qed.
Lemma keeps_probe n : keeps anything (Ide.probe_disk1 n).
Proof. induction n as [| n IH]; cbn [Ide.probe_disk1]; keep. Qed.
#[local] Hint Resolve keeps_insl keeps_idewait keeps_probe : typed.
Lemma keeps_idestart o : keeps anything (Ide.idestart o).
Proof. unfold Ide.idestart. keep. by eapply keeps_outsl. Qed.
#[local] Hint Resolve keeps_idestart : typed.
Lemma keeps_ideinit : keeps anything Ide.ideinit.
Proof. unfold Ide.ideinit. keep. Qed.
Lemma keeps_ideintr : keeps anything Ide.ideintr.
Proof. unfold Ide.ideintr. keep. Qed.
Lemma keeps_queue_append i : keeps anything (Ide.queue_append i).
Proof. unfold Ide.queue_append. keep. Qed.
#[local] Hint Resolve keeps_queue_append : typed.
Lemma keeps_ide_rw i : keeps anything (Ide.iderw i).
Proof. unfold Ide.iderw. keep. Qed.
#[export] Instance ide_typed : DiskTyped := {| dt_init := keeps_ideinit; dt_intr := keeps_ideintr; dt_rw := keeps_ide_rw |}.
End IdeTyped.

Lemma keeps_disk b : keeps (fun d => length d = 512%nat) (gets (fun s => disk s b)).
Proof. intros s Hs. split; [done | apply Hs]. Qed.

Lemma keeps_set_disk b d : length d = 512%nat -> keeps anything (modify (fun s => set_disk (fupd (disk s) b d) s)).
Proof. intros Hd. apply keeps_modify. intros s Hs. retype. intros x. unfold fupd. destruct (decide _); [done | apply Hs]. Qed.
#[export] Hint Resolve keeps_disk keeps_set_disk : typed.

Lemma keeps_mem_rw i : keeps anything (Memide.iderw i).
Proof. unfold Memide.iderw. keep. Qed.

Lemma mem_typed n : @DiskTyped (Memide.mem_disk n).
Proof.
  split; cbn; [unfold Memide.ideinit; keep | unfold Memide.ideintr; keep | exact keeps_mem_rw].
Qed.

Section FsTyped.
Context {turns : Turns} {dk : Disk} {dt : DiskTyped}.

(** ** [bio.c] *)

Lemma keeps_walk n step test i : keeps anything (walk n step test i).
Proof. revert i. induction n as [| n IH]; intros i; cbn [walk]; keep. Qed.
Lemma keeps_push_front i : keeps anything (push_front i).
Proof. unfold push_front. keep. Qed.
Lemma keeps_binit : keeps anything binit.
Proof. unfold binit. keep. Qed.
Hint Resolve keeps_walk keeps_push_front : typed.

Lemma keeps_bget dev b : keeps anything (bget dev b).
Proof. unfold bget. keep. Qed.
Hint Resolve keeps_bget : typed.
Lemma keeps_bread dev b : keeps anything (bread dev b).
Proof. unfold bread. keep. Qed.
Lemma keeps_bwrite i : keeps anything (bwrite i).
Proof. unfold bwrite. keep. Qed.
Lemma keeps_brelse i : keeps anything (brelse i).
Proof. unfold brelse. keep. Qed.
Lemma keeps_bdata i : keeps (fun d => length d = 512%nat) (bdata i).
Proof. unfold bdata. keep. Qed.
Lemma keeps_set_bdata i d : length d = 512%nat -> keeps anything (set_bdata i d).
Proof. intros Hd. unfold set_bdata. apply keeps_modb. by intros. Qed.
Hint Resolve keeps_bread keeps_bwrite keeps_brelse keeps_bdata : typed.
Hint Extern 1 (keeps _ (set_bdata _ _)) => (apply keeps_set_bdata; rewrite ?put_dinode_length, ?length_lset32, ?length_lset8; by auto) : typed.

(** ** [log.c] *)

Lemma keeps_modlog f :
  (forall l, length (lh_block (log_lh (f l))) = length (lh_block (log_lh l))) -> keeps anything (modlog f).
Proof. intros Hf. apply keeps_modify. intros s Hs. retype. by rewrite Hf. Qed.
Hint Extern 1 (keeps _ (modlog _)) => (apply keeps_modlog; intros ?; cbn; rewrite ?length_insert; reflexivity) : typed.

Lemma keeps_readsb dev : keeps anything (readsb dev).
Proof. unfold readsb. keep. Qed.
Lemma keeps_set_lh_block i b : keeps anything (set_lh_block i b).
Proof. unfold set_lh_block. keep. Qed.
Lemma keeps_get_lh_block i : keeps anything (get_lh_block i).
Proof. unfold get_lh_block. keep. Qed.
Hint Resolve keeps_readsb keeps_set_lh_block keeps_get_lh_block : typed.

Lemma keeps_install_trans : keeps anything install_trans.
Proof. unfold install_trans. keep. Qed.
Lemma keeps_read_head : keeps anything read_head.
Proof. unfold read_head. keep. Qed.
Lemma keeps_write_head : keeps anything write_head.
Proof. unfold write_head. keep. Qed.
Lemma keeps_write_log : keeps anything write_log.
Proof. unfold write_log. keep. Qed.
Hint Resolve keeps_install_trans keeps_read_head keeps_write_head keeps_write_log : typed.
Lemma keeps_commit : keeps anything commit.
Proof. unfold commit. keep. Qed.
Lemma keeps_recover : keeps anything recover_from_log.
Proof. unfold recover_from_log. keep. Qed.
Hint Resolve keeps_commit keeps_recover : typed.
Lemma keeps_initlog dev : keeps anything (initlog dev).
Proof. unfold initlog. keep. Qed.
Lemma keeps_begin_op : keeps anything begin_op.
Proof. unfold begin_op. keep. Qed.
Lemma keeps_end_op : keeps anything end_op.
Proof. unfold end_op. keep. Qed.
Lemma keeps_log_write i : keeps anything (log_write i).
Proof. unfold log_write. keep. Qed.
Hint Resolve keeps_begin_op keeps_end_op keeps_log_write : typed.

(** ** Blocks and inodes *)

Lemma keeps_bzero dev b : keeps anything (bzero dev b).
Proof. unfold bzero. keep. Qed.
Hint Resolve keeps_bzero : typed.
Lemma keeps_balloc dev : keeps anything (balloc dev).
Proof. unfold balloc. keep. Qed.
Lemma keeps_bfree dev b : keeps anything (bfree dev b).
Proof. unfold bfree. keep. Qed.
Lemma keeps_iinit dev : keeps anything (iinit dev).
Proof. unfold iinit. keep. Qed.
Lemma keeps_iget dev i : keeps anything (iget dev i).
Proof. unfold iget. keep. Qed.
Hint Resolve keeps_balloc keeps_bfree keeps_iget : typed.
Lemma keeps_ialloc dev t : keeps anything (ialloc dev t).
Proof. unfold ialloc. keep. Qed.
Lemma keeps_iupdate i : keeps anything (iupdate i).
Proof. unfold iupdate. keep. Qed.
Lemma keeps_idup i : keeps anything (idup i).
Proof. unfold idup. keep. Qed.
Lemma keeps_ilock i : keeps anything (ilock i).
Proof. unfold ilock. keep. apply keeps_modi. intros ip _. cbn. by rewrite length_fmap, length_seqZ. Qed.
Lemma keeps_iunlock i : keeps anything (iunlock i).
Proof. unfold iunlock. keep. Qed.
Hint Resolve keeps_ialloc keeps_iupdate keeps_idup keeps_ilock keeps_iunlock : typed.

(** ** Console input *)

Lemma keeps_modin f : (forall i, input_typed i -> input_typed (f i)) -> keeps anything (modin f).
Proof. intros Hf. apply keeps_modify. intros s Hs. retype. by apply Hf. Qed.
Hint Extern 1 (keeps _ (modin _)) =>
  (apply keeps_modin; intros ? []; split; cbn; rewrite ?length_insert; solve [assumption | apply u32_range]) : typed.

Lemma keeps_kbdgetc : keeps anything kbdgetc.
Proof. unfold kbdgetc. keep. Qed.
Lemma keeps_kill_line n : keeps anything (kill_line n).
Proof. induction n as [| n IH]; cbn [kill_line]; keep. Qed.
Hint Resolve keeps_kbdgetc keeps_kill_line : typed.
Lemma keeps_console_char c : keeps anything (console_char c).
Proof. unfold console_char. keep. Qed.
Hint Resolve keeps_console_char : typed.
Lemma keeps_consoleintr g : keeps anything g -> keeps anything (consoleintr g).
Proof.
  intros Hg. assert (forall n d, keeps anything (consoleintr_loop n g d)) as Hl; [| unfold consoleintr; keep].
  induction n as [| n IH]; intros d; cbn [consoleintr_loop]; keep.
Qed.
Lemma keeps_kbdintr : keeps anything kbdintr.
Proof. apply keeps_consoleintr, keeps_kbdgetc. Qed.
Lemma keeps_uartintr : keeps anything uartintr.
Proof. apply keeps_consoleintr, keeps_uartgetc. Qed.
Lemma keeps_wait_input : keeps anything wait_input.
Proof. unfold wait_input. keep. Qed.
Hint Resolve keeps_wait_input : typed.
Lemma keeps_consoleread ip put n : (forall k b, keeps anything (put k b)) -> keeps anything (consoleread ip put n).
Proof.
  intros Hp. assert (forall k t n, keeps anything (consoleread_loop k put t n)) as Hl; [| unfold consoleread; keep].
  induction k as [| k IH]; intros t m; cbn [consoleread_loop]; keep.
Qed.
Lemma keeps_consolewrite ip get n : (forall k m, keeps anything (get k m)) -> keeps anything (consolewrite ip get n).
Proof. intros Hg. unfold consolewrite. keep. Qed.
Lemma keeps_consoleinit : keeps anything consoleinit.
Proof. unfold consoleinit. keep. intros s Hs. retype. by rewrite length_insert. Qed.

(** ** The contents of inodes *)

Lemma keeps_set_addr i k a : keeps anything (set_addr i k a).
Proof. unfold set_addr. keep. Qed.
Lemma keeps_get_addr i k : keeps anything (get_addr i k).
Proof. unfold get_addr. keep. Qed.
Hint Resolve keeps_set_addr keeps_get_addr keeps_consoleread keeps_consolewrite : typed.
Lemma keeps_bmap i b : keeps anything (bmap i b).
Proof. unfold bmap. keep. Qed.
Lemma keeps_itrunc i : keeps anything (itrunc i).
Proof. unfold itrunc. keep. Qed.
Hint Resolve keeps_bmap keeps_itrunc : typed.
Lemma keeps_iput i : keeps anything (iput i).
Proof. unfold iput. keep. Qed.
Hint Resolve keeps_iput : typed.
Lemma keeps_iunlockput i : keeps anything (iunlockput i).
Proof. unfold iunlockput. keep. Qed.
Lemma keeps_stati i st : keeps anything (stati i st).
Proof. unfold stati. keep. Qed.
Hint Resolve keeps_iunlockput keeps_stati : typed.
Lemma keeps_readi i put off n : (forall k b, keeps anything (put k b)) -> keeps anything (readi i put off n).
Proof.
  intros Hp. assert (forall f t o m, keeps anything (readi_loop f i put t o m)) as Hl; [| unfold readi; keep].
  induction f as [| f IH]; intros t o m; cbn [readi_loop]; keep.
Qed.

(** [writei] relies on its source giving no more bytes than asked. *)
Definition gives (get : Z -> Z -> M (list Z)) : Prop := forall k m, keeps (fun l => (length l <= Z.to_nat m)%nat) (get k m).

Lemma keeps_writei_loop i get fuel : gives get -> forall t o n, keeps anything (writei_loop fuel i get t o n).
Proof.
  intros Hg. induction fuel as [| fuel IH]; intros t o n; cbn [writei_loop]; [keep |]. destruct (Z.ltb_spec t n); [| keep].
  eapply keeps_bind; [apply keeps_geti |]; intros ip _. eapply keeps_bind; [apply keeps_bmap |]; intros a _.
  eapply keeps_bind; [apply keeps_bread |]; intros bp _. cbv zeta. eapply keeps_bind; [apply Hg |]; intros src Hsrc.
  eapply keeps_bind; [apply keeps_bdata |]; intros d Hd. cbn in Hsrc, Hd. eapply keeps_bind; [apply keeps_set_bdata | intros _ _; keep].
  pose proof (Z.mod_pos_bound o BSIZE ltac:(done)). unfold BSIZE in *. rewrite length_lblit; lia.
Qed.
Hint Resolve keeps_writei_loop keeps_readi : typed.

Lemma keeps_writei i get off n : gives get -> keeps anything (writei i get off n).
Proof.
  intros Hg. unfold writei. keep. apply keeps_consolewrite. intros k m. by eapply keeps_weaken; [apply Hg |].
Qed.
Hint Resolve keeps_writei : typed.

Lemma keeps_put_local k b : keeps anything (put_local k b).
Proof. by apply keeps_ret. Qed.
Lemma gives_local src : gives (get_local src).
Proof. intros k m. apply keeps_ret. unfold lsub. rewrite length_take. lia. Qed.
Hint Resolve keeps_put_local gives_local : typed.

(** ** Directories and path names *)

Lemma keeps_dirlookup dp name : keeps anything (dirlookup dp name).
Proof. unfold dirlookup. keep. Qed.
Hint Resolve keeps_dirlookup : typed.
Lemma keeps_dirlink dp name inum : keeps anything (dirlink dp name inum).
Proof. unfold dirlink. keep. Qed.
Lemma keeps_namex_loop n b path ip : keeps anything (namex_loop n b path ip).
Proof. revert path ip. induction n as [| n IH]; intros path ip; cbn [namex_loop]; keep. Qed.
Hint Resolve keeps_dirlink keeps_namex_loop : typed.
Lemma keeps_namex b path : keeps anything (namex path b).
Proof. unfold namex. keep. Qed.
Hint Resolve keeps_namex : typed.
Lemma keeps_namei path : keeps anything (namei path).
Proof. unfold namei. keep. Qed.
Lemma keeps_nameiparent path : keeps anything (nameiparent path).
Proof. unfold nameiparent. keep. Qed.
Hint Resolve keeps_namei keeps_nameiparent : typed.

(** ** Pipes *)

Hint Extern 1 (keeps _ (modpipe _ _)) =>
  (apply keeps_modpipe; intros ? []; split; cbn; rewrite ?length_insert; solve [assumption | apply u32_range | done]) : typed.

Lemma keeps_getpipe p : keeps anything (getpipe p).
Proof. unfold getpipe. keep. Qed.
Hint Resolve keeps_getpipe : typed.
Lemma keeps_pipeclose p w : keeps anything (pipeclose p w).
Proof. unfold pipeclose. keep. Qed.
Lemma keeps_am_killed : keeps anything am_killed.
Proof. unfold am_killed. keep. Qed.
Hint Resolve keeps_pipeclose keeps_am_killed : typed.
Lemma keeps_wait_room p : keeps anything (wait_room p).
Proof. unfold wait_room. keep. Qed.
Lemma keeps_wait_data p : keeps anything (wait_data p).
Proof. unfold wait_data. keep. Qed.
Hint Resolve keeps_wait_room keeps_wait_data : typed.
Lemma keeps_pipewrite p get n : (forall k, keeps anything (get k)) -> keeps anything (pipewrite p get n).
Proof. intros Hg. unfold pipewrite. keep. Qed.
Lemma keeps_piperead p put n : (forall k b, keeps anything (put k b)) -> keeps anything (piperead p put n).
Proof.
  intros Hp. assert (forall k i, keeps anything (piperead_loop k p put i)) as Hl; [| unfold piperead; keep].
  induction k as [| k IH]; intros i; cbn [piperead_loop]; keep.
Qed.
Hint Resolve keeps_pipewrite keeps_piperead : typed.

(** ** [file.c] *)

Lemma keeps_user_put d k b : keeps anything (user_put d k b).
Proof. unfold user_put. keep. Qed.
Lemma keeps_user_bytes n : forall va, keeps (fun l => length l = n) (user_bytes va n).
Proof. induction n as [| n IH]; intros va; cbn [user_bytes]; keep. cbn in *. lia. Qed.
Lemma gives_user src : gives (user_get src).
Proof. intros k m. eapply keeps_weaken; [apply keeps_user_bytes |]. cbn. lia. Qed.
Hint Resolve keeps_user_put keeps_user_bytes gives_user : typed.

Lemma keeps_fileinit : keeps anything fileinit.
Proof. unfold fileinit. keep. Qed.
Lemma keeps_filealloc : keeps anything filealloc.
Proof. unfold filealloc. keep. Qed.
Lemma keeps_filedup i : keeps anything (filedup i).
Proof. unfold filedup. keep. Qed.
Lemma keeps_fileclose i : keeps anything (fileclose i).
Proof. unfold fileclose. keep. Qed.
Hint Resolve keeps_filealloc keeps_filedup keeps_fileclose : typed.
Lemma keeps_filestat i st : keeps anything (filestat i st).
Proof. unfold filestat. keep. Qed.
Lemma keeps_fileread i a n : keeps anything (fileread i a n).
Proof. unfold fileread. keep. Qed.
Lemma keeps_filewrite_loop fuel i ip a k n : keeps anything (filewrite_loop fuel i ip a k n).
Proof. revert k. induction fuel as [| fuel IH]; intros k; cbn [filewrite_loop]; keep. Qed.
Hint Resolve keeps_filewrite_loop : typed.
Lemma keeps_filewrite i a n : keeps anything (filewrite i a n).
Proof. unfold filewrite. keep. apply keeps_pipewrite. intros k. keep. Qed.
Lemma keeps_pipealloc : keeps anything pipealloc.
Proof. unfold pipealloc. keep. Qed.
End FsTyped.

#[export] Hint Resolve keeps_walk keeps_push_front keeps_binit keeps_bget keeps_bread keeps_bwrite keeps_brelse
  keeps_bdata keeps_readsb keeps_set_lh_block keeps_get_lh_block keeps_install_trans keeps_read_head keeps_write_head
  keeps_write_log keeps_commit keeps_recover keeps_initlog keeps_begin_op keeps_end_op keeps_log_write keeps_bzero
  keeps_balloc keeps_bfree keeps_iinit keeps_iget keeps_ialloc keeps_iupdate keeps_idup keeps_ilock keeps_iunlock
  keeps_kbdgetc keeps_kill_line keeps_console_char keeps_kbdintr keeps_uartintr keeps_wait_input keeps_consoleread
  keeps_consolewrite keeps_consoleinit keeps_set_addr keeps_get_addr keeps_bmap keeps_itrunc keeps_iput
  keeps_iunlockput keeps_stati keeps_readi keeps_writei_loop keeps_writei keeps_put_local gives_local keeps_dirlookup
  keeps_dirlink keeps_namex_loop keeps_namex keeps_namei keeps_nameiparent keeps_getpipe keeps_pipeclose
  keeps_am_killed keeps_wait_room keeps_wait_data keeps_pipewrite keeps_piperead keeps_user_put keeps_user_bytes
  gives_user keeps_fileinit keeps_filealloc keeps_filedup keeps_fileclose keeps_filestat keeps_fileread
  keeps_filewrite_loop keeps_filewrite keeps_pipealloc : typed.
#[export] Hint Extern 1 (keeps _ (set_bdata _ _)) => (apply keeps_set_bdata; rewrite ?put_dinode_length, ?length_lset32, ?length_lset8; by auto) : typed.
#[export] Hint Extern 1 (keeps _ (modlog _)) => (apply keeps_modlog; intros ?; cbn; rewrite ?length_insert; reflexivity) : typed.
#[export] Hint Extern 1 (keeps _ (modin _)) =>
  (apply keeps_modin; intros ? []; split; cbn; rewrite ?length_insert; solve [assumption | apply u32_range]) : typed.
#[export] Hint Extern 1 (keeps _ (modpipe _ _)) =>
  (apply keeps_modpipe; intros ? []; split; cbn; rewrite ?length_insert; solve [assumption | apply u32_range | done]) : typed.
