(* ===== verification/TypedKernel.v ===== *)
(** The types of the kernel's data are kept by the processes, the system calls, the
    traps and start-up, and so by every interleaving of kernel paths. *)

From S2P Require Import Prelude Params Mem CString Machine Spinlock Kalloc Console Apic Vm Proc Typed.
From S2P Require Import ProcSpec Sleeplock Ide Bio Log Inode ConsoleDev Fs FileSpec Pipe File TypedFs.
From S2P Require Import Process Syscall Exec Sysfile Trap Main.

(** ** [proc.c], the part on files *)

Lemma safestrcpy_length s t n s' : safestrcpy s t n = Some s' -> length s' = length s.
Proof.
  unfold safestrcpy. destruct (n <=? 0); [by intros [= ->] |]. generalize (Z.to_nat (n - 1)) as k. intros k. revert s t s'.
  induction k as [| k IH]; intros s t s'; cbn [safestrcpy_loop]; destruct s as [| c s]; try done.
  - by intros [= <-].
  - destruct t as [| d t]; [done |]. destruct (negb _); [| destruct s; [done | by intros [= <-]]].
    destruct (safestrcpy_loop s t k) as [r |] eqn:E; [| done]. intros [= <-]. cbn. f_equal. by eapply IH.
Qed.

Lemma keeps_name p t n : proc_typed p -> keeps (fun nm => length nm = 16%nat) (unwrap (safestrcpy (p_name p) t n)).
Proof. intros Hp. apply keeps_unwrap. intros nm Hnm. rewrite (safestrcpy_length _ _ _ _ Hnm). apply Hp. Qed.
#[export] Hint Resolve keeps_name : typed.

Lemma child_tickets p : proc_typed p -> 0 <= (if 0 <? p_tickets p then p_tickets p else 1) <= INT_MAX.
Proof. intros []. destruct (_ <? _); unfold INT_MAX in *; lia. Qed.

Section KernelTyped.
Context {turns : Turns} {dk : Disk} {dt : DiskTyped} {sy : Symbols} {bs : BootSymbols}.

Lemma keeps_userinit : keeps anything userinit.
Proof. unfold userinit. keep. Qed.
Lemma keeps_fork : keeps anything fork.
Proof.
  unfold fork. keep.
  all: match goal with H : proc_typed ?a |- context [if 0 <? p_tickets ?a then _ else _] => pose proof (child_tickets a H) end.
  all: apply keeps_modp; proc_side.
Qed.
Lemma keeps_reparent cur i : keeps anything (reparent cur i).
Proof. unfold reparent. keep. Qed.
Hint Resolve keeps_userinit keeps_fork keeps_reparent : typed.
Lemma keeps_exit : keeps anything exit.
Proof. unfold exit. keep. Qed.
Lemma keeps_forkret : keeps anything forkret.
Proof. unfold forkret. keep. Qed.
Hint Resolve keeps_exit keeps_forkret : typed.

(** ** System calls *)

Lemma keeps_fetchint a : keeps (fun o => forall v, o = Some v -> is_i32 v) (fetchint a).
Proof. unfold fetchint. keep. all: intros ? [= <-]; apply i32_range. Qed.
Lemma keeps_fetchstr a : keeps anything (fetchstr a).
Proof.
  assert (forall k va, keeps anything (fetchstr_loop k va)) as Hl; [| unfold fetchstr; keep].
  induction k as [| k IH]; intros va; cbn [fetchstr_loop]; keep.
Qed.
Hint Resolve keeps_fetchint keeps_fetchstr : typed.
Lemma keeps_argint n : keeps (fun o => forall v, o = Some v -> is_i32 v) (argint n).
Proof. unfold argint. keep. Qed.
Hint Resolve keeps_argint : typed.
Lemma keeps_argptr n m : keeps anything (argptr n m).
Proof. unfold argptr. keep. Qed.
Lemma keeps_argstr n : keeps anything (argstr n).
Proof. unfold argstr. keep. Qed.
Hint Resolve keeps_argptr keeps_argstr : typed.

Lemma keeps_sys_exit : keeps anything sys_exit.
Proof. unfold sys_exit. keep. Qed.
Lemma keeps_sys_kill : keeps anything sys_kill.
Proof. unfold sys_kill. keep. Qed.
Lemma keeps_sys_getpid : keeps anything sys_getpid.
Proof. unfold sys_getpid. keep. Qed.
Lemma keeps_sys_sbrk : keeps anything sys_sbrk.
Proof. unfold sys_sbrk. keep. Qed.
Lemma keeps_sys_sleep : keeps anything sys_sleep.
Proof. unfold sys_sleep. keep. Qed.
Lemma keeps_sys_uptime : keeps anything sys_uptime.
Proof. unfold sys_uptime. keep. Qed.
Lemma keeps_sys_settickets : keeps anything sys_settickets.
Proof. unfold sys_settickets. keep. apply keeps_settickets. by match goal with H : _ |- _ => apply H end. Qed.
Lemma keeps_sys_setpolicy : keeps anything sys_setpolicy.
Proof. unfold sys_setpolicy. keep. Qed.
Lemma keeps_sys_getpinfo : keeps anything sys_getpinfo.
Proof. unfold sys_getpinfo. keep. Qed.
Lemma keeps_sys_waitx : keeps anything sys_waitx.
Proof. unfold sys_waitx. keep. Qed.
Lemma keeps_sys_yield : keeps anything sys_yield.
Proof. unfold sys_yield. keep. Qed.
Hint Resolve keeps_sys_exit keeps_sys_kill keeps_sys_getpid keeps_sys_sbrk keeps_sys_sleep keeps_sys_uptime : typed.
Hint Resolve keeps_sys_settickets keeps_sys_setpolicy keeps_sys_getpinfo keeps_sys_waitx keeps_sys_yield : typed.

(** ** [exec.c] *)

Lemma keeps_kernel_put a k b : keeps anything (kernel_put a k b).
Proof. unfold kernel_put. keep. Qed.
Hint Resolve keeps_kernel_put : typed.
Lemma keeps_loaduvm pgdir a ip o sz : keeps anything (loaduvm pgdir a ip o sz).
Proof.
  assert (forall f i, keeps anything (loaduvm_loop f pgdir a ip o i sz)) as Hl; [| unfold loaduvm; keep].
  induction f as [| f IH]; intros i; cbn [loaduvm_loop]; keep.
Qed.
Hint Resolve keeps_loaduvm : typed.
Lemma keeps_load_segments k ip pgdir off sz : keeps anything (load_segments k ip pgdir off sz).
Proof. revert off sz. induction k as [| k IH]; intros off sz; cbn [load_segments]; keep. Qed.
Lemma keeps_push_args pgdir argv : forall sp argc, keeps anything (push_args pgdir sp argc argv).
Proof. induction argv as [| a argv IH]; intros sp argc; cbn [push_args]; keep. Qed.
Lemma keeps_exec_bad pgdir ip : keeps anything (exec_bad pgdir ip).
Proof. unfold exec_bad. keep. Qed.
Hint Resolve keeps_load_segments keeps_push_args keeps_exec_bad : typed.
Lemma keeps_exec_stack cur path argv pgdir sz entry : keeps anything (exec_stack cur path argv pgdir sz entry).
Proof. unfold exec_stack. keep. Qed.
Hint Resolve keeps_exec_stack : typed.
Lemma keeps_exec path argv : keeps anything (exec path argv).
Proof. unfold exec. keep. Qed.
Hint Resolve keeps_exec : typed.

(** ** [sysfile.c] *)

Lemma keeps_argfd n : keeps anything (argfd n).
Proof. unfold argfd. keep. Qed.
Lemma keeps_set_ofile p fd f : keeps anything (set_ofile p fd f).
Proof. unfold set_ofile. keep. Qed.
Hint Resolve keeps_argfd keeps_set_ofile : typed.
Lemma keeps_fdalloc f : keeps anything (fdalloc f).
Proof. unfold fdalloc. keep. Qed.
Lemma keeps_rw_args : keeps anything rw_args.
Proof. unfold rw_args. keep. Qed.
Lemma keeps_isdirempty dp : keeps anything (isdirempty dp).
Proof. unfold isdirempty. keep. Qed.
Lemma keeps_unlink_bad dp : keeps anything (unlink_bad dp).
Proof. unfold unlink_bad. keep. Qed.
Lemma keeps_create path ty ma mi : keeps anything (create path ty ma mi).
Proof. unfold create. keep. Qed.
Lemma keeps_fetch_argv k : forall u, keeps anything (fetch_argv k u).
Proof. induction k as [| k IH]; intros u; cbn [fetch_argv]; keep. Qed.
Hint Resolve keeps_fdalloc keeps_rw_args keeps_isdirempty keeps_unlink_bad keeps_create keeps_fetch_argv : typed.
Lemma keeps_open_inode path om : keeps anything (open_inode path om).
Proof. unfold open_inode. keep. Qed.
Hint Resolve keeps_open_inode : typed.

Lemma keeps_sys_dup : keeps anything sys_dup.
Proof. unfold sys_dup. keep. Qed.
Lemma keeps_sys_read : keeps anything sys_read.
Proof. unfold sys_read. keep. Qed.
Lemma keeps_sys_write : keeps anything sys_write.
Proof. unfold sys_write. keep. Qed.
Lemma keeps_sys_close : keeps anything sys_close.
Proof. unfold sys_close. keep. Qed.
Lemma keeps_sys_fstat : keeps anything sys_fstat.
Proof. unfold sys_fstat. keep. Qed.
Lemma keeps_sys_link : keeps anything sys_link.
Proof. unfold sys_link. keep. Qed.
Lemma keeps_sys_unlink : keeps anything sys_unlink.
Proof. unfold sys_unlink. keep. Qed.
Lemma keeps_sys_open : keeps anything sys_open.
Proof. unfold sys_open. keep. Qed.
Lemma keeps_sys_mkdir : keeps anything sys_mkdir.
Proof. unfold sys_mkdir. keep. Qed.
Lemma keeps_sys_mknod : keeps anything sys_mknod.
Proof. unfold sys_mknod. keep. Qed.
Lemma keeps_sys_chdir : keeps anything sys_chdir.
Proof. unfold sys_chdir. keep. Qed.
Lemma keeps_sys_exec : keeps anything sys_exec.
Proof. unfold sys_exec. keep. Qed.
Lemma keeps_sys_pipe : keeps anything sys_pipe.
Proof. unfold sys_pipe. keep. Qed.
Hint Resolve keeps_sys_dup keeps_sys_read keeps_sys_write keeps_sys_close keeps_sys_fstat keeps_sys_link : typed.
Hint Resolve keeps_sys_unlink keeps_sys_open keeps_sys_mkdir keeps_sys_mknod keeps_sys_chdir keeps_sys_exec keeps_sys_pipe : typed.

(** ** [trap.c] *)

Lemma keeps_syscalls : Forall (fun e => keeps anything e.2) syscalls.
Proof. unfold syscalls, sys_fork, sys_wait. repeat (apply Forall_cons; split; [cbn [snd]; eauto 2 with typed nocore |]). by apply Forall_nil. Qed.
Lemma keeps_syscall_entry n call : syscall_entry n = Some call -> keeps anything call.
Proof.
  unfold syscall_entry. destruct (find _ _) as [[k c] |] eqn:E; [| done]. intros [= <-].
  apply find_some in E as [Hin _]. pose proof keeps_syscalls as Hk. rewrite List.Forall_forall in Hk. exact (Hk _ Hin).
Qed.
Lemma keeps_set_eax tf v : keeps anything (set_eax tf v).
Proof. unfold set_eax. keep. Qed.
Hint Resolve keeps_syscall_entry keeps_set_eax : typed.
Lemma keeps_syscall : keeps anything syscall.
Proof. unfold syscall. keep. Qed.

Lemma account_typed q : proc_typed q -> proc_typed (account q).
Proof.
  intros []. unfold account. destruct (p_state q); split; cbn; try assumption; destruct_and?; split_and?; auto using u32_range.
Qed.
Lemma keeps_account i : keeps anything (modp i account).
Proof. apply keeps_modp, account_typed. Qed.
Hint Resolve keeps_syscall keeps_account : typed.

Lemma keeps_timer_intr : keeps anything timer_intr.
Proof. unfold timer_intr. keep. Qed.
Lemma keeps_killed_now p : keeps anything (killed_now p).
Proof. unfold killed_now. keep. Qed.
Hint Resolve keeps_timer_intr keeps_killed_now : typed.
Lemma keeps_exit_if_killed p f : keeps anything (exit_if_killed p f).
Proof. unfold exit_if_killed. keep. Qed.
Lemma keeps_unexpected_trap p f : keeps anything (unexpected_trap p f).
Proof. unfold unexpected_trap. keep. Qed.
Hint Resolve keeps_exit_if_killed keeps_unexpected_trap : typed.
Lemma keeps_trap_switch p f : keeps anything (trap_switch p f).
Proof. unfold trap_switch. keep. Qed.
Lemma keeps_preempt p f : keeps anything (preempt p f).
Proof. unfold preempt, curpolicy. keep. Qed.
Hint Resolve keeps_trap_switch keeps_preempt : typed.
Lemma keeps_trap tf : keeps anything (trap tf).
Proof. unfold trap. keep. Qed.
Hint Resolve keeps_trap : typed.

(** ** Start-up *)

Lemma keeps_lapicinit : keeps anything lapicinit.
Proof. unfold lapicinit. keep. Qed.
Lemma keeps_lapicstartap i a : keeps anything (lapicstartap i a).
Proof. unfold lapicstartap, microdelay. keep. Qed.
Lemma keeps_ioapicinit : keeps anything ioapicinit.
Proof. unfold ioapicinit. keep. Qed.
Lemma keeps_picinit : keeps anything picinit.
Proof. unfold picinit. keep. Qed.
Lemma keeps_uartinit : keeps anything uartinit.
Proof. unfold uartinit. keep. Qed.
Lemma keeps_pinit : keeps anything pinit.
Proof. unfold pinit. keep. Qed.
Hint Resolve keeps_lapicinit keeps_lapicstartap keeps_ioapicinit keeps_picinit keeps_uartinit keeps_pinit : typed.

Lemma keeps_tvinit v : keeps anything (tvinit v).
Proof.
  unfold tvinit. eapply keeps_bind; [apply (keeps_modify (fun s => set_idt _ s)) |]; [intros s Hs; by retype |].
  intros _ _. eapply keeps_bind; [apply (keeps_modify (fun s => set_idt _ s)) | intros _ _; keep].
  intros s Hs. retype. by rewrite length_insert.
Qed.
Lemma keeps_idtinit : keeps anything idtinit.
Proof. unfold idtinit. keep. Qed.
Lemma keeps_add_cpu a : keeps anything (add_cpu a).
Proof. unfold add_cpu. keep. Qed.
Hint Resolve keeps_tvinit keeps_idtinit keeps_add_cpu : typed.
Lemma keeps_mp_walk fuel : forall p e b, keeps anything (mp_walk fuel p e b).
Proof. induction fuel as [| fuel IH]; intros p e b; cbn [mp_walk]; keep. Qed.
Lemma keeps_set_lapic a : keeps anything (set_lapic a).
Proof. unfold set_lapic. keep. Qed.
Hint Resolve keeps_mp_walk keeps_set_lapic : typed.
Lemma keeps_mpinit : keeps anything mpinit.
Proof. unfold mpinit. keep. Qed.
Lemma keeps_mpmain : keeps anything mpmain.
Proof. unfold mpmain. keep. Qed.
Lemma keeps_startothers : keeps anything startothers.
Proof. unfold startothers. keep. Qed.
Hint Resolve keeps_mpinit keeps_mpmain keeps_startothers : typed.
Lemma keeps_mpenter : keeps anything mpenter.
Proof. unfold mpenter. keep. Qed.
Lemma keeps_main : keeps anything main.
Proof. unfold main. keep. Qed.
End KernelTyped.

(** ** Every interleaving *)

(** The machine when the boot loader has jumped to [main]: memory, the disk, the
    devices and the link-time addresses are whatever they are, the kernel's variables
    have their initial values. *)
Definition power_on (m : Z -> Z) (d : Z -> list Z) (ports : nat -> Z -> Z) (e da cp : Z) : kstate :=
  set_mem m (set_disk d (set_port_in ports (set_sym_end e (set_sym_data da (set_sym_cpus cp kstate0))))).

(** What happens outside the kernel: user code stores bytes, a trap leaves a frame,
    another processor, with its registers, is the one that executes. *)
Definition outside (m : Z -> Z) (t : Z -> trapframe) (id : Z) (fl : bool) (pd tsk : Z) (s : kstate) : kstate :=
  set_mem m (set_tframes t (set_lapic_id id (set_eflags_IF fl (set_cr3 pd (set_tr tsk s))))).

(** The state a kernel path leaves, and what remains of the path when it has
    switched away. *)
Definition after (o : outcome unit) : kstate * list (M unit) :=
  match o with Ok _ s | Stop _ s => (s, []) | Swtch s k => (s, [k]) end.

Section Reachable.
Context {turns : Turns} {dk : Disk} {sy : Symbols} {bs : BootSymbols}.

(** Where a kernel path starts, [main] apart. *)
Inductive entry_point : M unit -> Prop :=
  | enter_trap tf : entry_point (trap tf)
  | enter_forkret : entry_point forkret
  | enter_mpenter : entry_point mpenter.

(** The states of the machine, with the paths that are suspended in a context switch
    or have not started; any of them may be the next to run, up to its next switch. *)
Inductive reached : kstate -> list (M unit) -> Prop :=
  | reached_boot m d ports e da cp :
      bytes m -> (forall b, length (d b) = 512%nat) -> reached (power_on m d ports e da cp) [main]
  | reached_outside s ts m t id fl pd tsk :
      bytes m -> reached s ts -> reached (outside m t id fl pd tsk s) ts
  | reached_enter s ts h : entry_point h -> reached s ts -> reached s (h :: ts)
  | reached_path s ts1 k ts2 :
      reached s (ts1 ++ k :: ts2) -> reached (after (k s)).1 (ts1 ++ (after (k s)).2 ++ ts2).

Lemma after_typed o : okay anything o -> typed (after o).1 /\ Forall (keeps anything) (after o).2.
Proof.
  destruct o as [a s | r s | s k]; cbn; [intros [Hs _] | intros Hs | intros [Hs Hk]]; (split; [done |]); try by apply Forall_nil.
  by apply Forall_singleton.
Qed.

Lemma entry_keeps {dt : DiskTyped} h : entry_point h -> keeps anything h.
Proof. intros []; [apply keeps_trap | apply keeps_forkret | apply keeps_mpenter]. Qed.

Lemma reached_typed {dt : DiskTyped} s ts : reached s ts -> typed s /\ Forall (keeps anything) ts.
Proof.
  induction 1 as [m d ports e da cp Hm Hd | s ts m t id fl pd tsk Hm _ [Hs Hts] | s ts h Hh _ [Hs Hts] | s ts1 k ts2 _ [Hs Hts]].
  - split; [| by apply Forall_singleton, keeps_main]. pose proof typed_kstate0. by retype.
  - split; [by retype | done].
  - split; [done |]. constructor; [by apply entry_keeps | done].
  - apply Forall_app in Hts as [H1 H2]. apply Forall_cons in H2 as [Hk H2].
    destruct (after_typed (k s) (Hk s Hs)) as [Ha Hl]. split; [done |]. by rewrite !Forall_app.
Qed.

(** C9: The kernel keeps the types of its data.  From power on, whatever the user
    programs, the devices and the disk driver do within their interface, and whatever
    the order in which kernel paths run between context switches, every state reached
    is well typed: every table has its declared length, every block 512 bytes, every
    inode 13 addresses, every process name 16 bytes and every process NOFILE
    descriptors; memory cells are bytes; counters, pids and times are in the range of
    their C types, tickets are not negative and the policy is one of the three. *)
Theorem kernel_typed {dt : DiskTyped} s ts : reached s ts -> typed s.
Proof. apply reached_typed. Qed.
End Reachable.

(** Boot with either driver, a trap before [main] has run, then [main]. *)
Lemma kernel_typed_witness :
  let boot := power_on (fun _ => 0) (fun _ => replicate 512 0) (fun _ _ => 0) 0 0 0 in
  let sy := Build_Symbols 0 0 0 0 in
  typed (after (@trap 4%nat (@ide_disk 4%nat) sy 0 boot)).1 /\ typed (after (@trap 4%nat (Memide.mem_disk 0) sy 0 boot)).1.
Proof.
  cbv zeta. split.
  - eapply (@kernel_typed 4%nat (@ide_disk 4%nat) (Build_Symbols 0 0 0 0) (Build_BootSymbols 0 0 0 0 (fun _ => 0)) (@ide_typed 4%nat)).
    eapply (@reached_path _ _ _ _ _ []), reached_enter; [constructor |]. apply reached_boot; [| done]. unfold bytes, is_byte. lia.
  - eapply (@kernel_typed 4%nat (Memide.mem_disk 0) (Build_Symbols 0 0 0 0) (Build_BootSymbols 0 0 0 0 (fun _ => 0)) (mem_typed 0)).
    eapply (@reached_path _ _ _ _ _ []), reached_enter; [constructor |]. apply reached_boot; [| done]. unfold bytes, is_byte. lia.
Defined.
