(* ===== verification/User.v ===== *)
(** User programs: the interface of system calls they are written against, and
    [printf.c] with the calls of [ulib.c].

    A program is the tree of the calls it makes, each with what it does on every
    answer; [run] executes it on a table of open files. *)

From S2P Require Import Prelude Params Mem CString Machine Console.

(** ** Programs *)

Inductive call :=
  | Cfork | Cwait | Cgetpinfo | Cwaitx | Cyield
  | Cread (fd n : Z) | Cwrite (fd : Z) (b : list Z) | Cclose (fd : Z) | Cdup (fd : Z) | Cfstat (fd : Z)
  | Copen (path : list Z) (mode : Z) | Cmknod (path : list Z) (major minor : Z)
  | Cunlink (path : list Z) | Clink (old new : list Z) | Cmkdir (path : list Z) | Cchdir (path : list Z)
  | Cexec (path : list Z) (argv : list (list Z))
  | Ckill (pid : Z) | Csleep (n : Z) | Csetpolicy (p : Z) | Csettickets (n : Z).

(** What the kernel returns, and the bytes it has stored where the call points to. *)
Record answer := mkAnswer { a_ret : Z; a_buf : list Z }.

(** A program ends by returning from a function, by [exit], with an undefined
    operation, or when a loop has used up its turns. *)
Inductive prog (A : Type) :=
  | Done (a : A) | Exited | Wild | Late | Sys (c : call) (k : answer -> prog A).
Arguments Done {A} a.
Arguments Exited {A}.
Arguments Wild {A}.
Arguments Late {A}.
Arguments Sys {A} c k.

Fixpoint pbind {A B} (p : prog A) (f : A -> prog B) : prog B :=
  match p with
  | Done a => f a
  | Exited => Exited
  | Wild => Wild
  | Late => Late
  | Sys c k => Sys c (fun r => pbind (k r) f)
  end.

Declare Scope prog_scope.
Delimit Scope prog_scope with prog.
Notation "'let*' x ':=' m 'in' k" := (pbind m (fun x => k))
  (at level 10, x name, m at level 100, k at level 200) : prog_scope.
Notation "'do*' m 'in' k" := (pbind m (fun _ => k)) (at level 10, m at level 100, k at level 200) : prog_scope.
Local Open Scope prog_scope.

Definition ask (c : call) : prog answer := Sys c Done.
Definition sys (c : call) : prog Z := Sys c (fun r => Done (a_ret r)).

(** ** [printf.c] *)

Definition putc (fd c : Z) : prog unit := Sys (Cwrite fd [u8 c]) (fun _ => Done tt).

Fixpoint puts (fd : Z) (s : list Z) : prog unit :=
  match s with [] => Done tt | c :: s' => do* putc fd c in puts fd s' end.

Definition udigits : list Z := str "0123456789ABCDEF".

(** The [do] loop of [printint], which fills [buf[16]] from the last digit on. *)
Fixpoint printint_digits (room : nat) (x base : Z) : option (list Z) :=
  match room with
  | O => None
  | S room' =>
      let c := default 0 (udigits !! Z.to_nat (x mod base)) in
      if x / base =? 0 then Some [c] else cons c <$> printint_digits room' (x / base) base
  end.

Definition uprintint (fd xx base : Z) (sgn : bool) : prog unit :=
  let neg := (sgn && (xx <? 0))%bool in
  let x := u32 (if neg then - xx else xx) in
  match printint_digits 16 x base with
  | None => Wild
  | Some ds =>
      let buf := ds ++ (if neg then [45] else []) in
      if (16 <? length buf)%nat then Wild else puts fd (rev buf)
  end.

(** The next argument as an [int] or as a string. *)
Definition next_int (ap : list vararg) : prog (Z * list vararg) :=
  match ap with VInt x :: ap' => Done (i32 x, ap') | _ => Wild end.
Definition next_str (ap : list vararg) : prog (list Z * list vararg) :=
  match ap with VStr s :: ap' => Done (default (str "(null)") s, ap') | _ => Wild end.

(** The loop of [printf]; [percent] is its [state]. *)
Fixpoint printf_loop (fd : Z) (percent : bool) (fmt : list Z) (ap : list vararg) : prog unit :=
  match fmt with
  | [] => Done tt
  | c :: fmt' =>
      if negb percent then
        if c =? 37 then printf_loop fd true fmt' ap
        else do* putc fd c in printf_loop fd false fmt' ap
      else if c =? 100 (* d *) then
        let* a := next_int ap in do* uprintint fd a.1 10 true in printf_loop fd false fmt' a.2
      else if ((c =? 120) || (c =? 112))%bool (* x, p *) then
        let* a := next_int ap in do* uprintint fd a.1 16 false in printf_loop fd false fmt' a.2
      else if c =? 115 (* s *) then
        let* a := next_str ap in do* puts fd a.1 in printf_loop fd false fmt' a.2
      else if c =? 99 (* c *) then
        let* a := next_int ap in do* putc fd a.1 in printf_loop fd false fmt' a.2
      else if c =? 37 then do* putc fd c in printf_loop fd false fmt' ap
      else do* putc fd 37 in do* putc fd c in printf_loop fd false fmt' ap
  end.

Definition printf (fd : Z) (fmt : list Z) (ap : list vararg) : prog unit := printf_loop fd false fmt ap.

(** ** [stat] of [ulib.c] *)

Definition ustat (n : list Z) : prog answer :=
  let* fd := sys (Copen n O_RDONLY) in
  if fd <? 0 then Done (mkAnswer (-1) [])
  else
    let* r := ask (Cfstat fd) in
    do* sys (Cclose fd) in
    Done r.

(** ** Execution *)

(** The pieces successive reads of an open file deliver, [None] for an error. *)
Definition stream := list (option (list Z)).

Record world := mkWorld {
  w_files : list Z -> option stream;   (* the files that can be opened *)
  w_fds : list (option stream);        (* the open ones, by descriptor *)
  w_out : list (Z * list Z);           (* the bytes written, with their descriptor *)
  w_ask : list answer }.               (* the answers to the other calls *)

Definition deliver (n : nat) (st : stream) : answer * stream :=
  match st with
  | [] => (mkAnswer 0 [], [])
  | None :: st' => (mkAnswer (-1) [], st')
  | Some c :: st' =>
      (mkAnswer (Z.of_nat (length (take n c))) (take n c), match drop n c with [] => st' | r => Some r :: st' end)
  end.

Definition kernel (c : call) (w : world) : answer * world :=
  match c with
  | Cread fd n =>
      match (if fd <? 0 then None else mjoin (w_fds w !! Z.to_nat fd)) with
      | None => (mkAnswer (-1) [], w)
      | Some st => let '(a, st) := deliver (Z.to_nat n) st in (a, {| w with w_fds := <[Z.to_nat fd := Some st]> (w_fds w) |})
      end
  | Cwrite fd b => (mkAnswer (Z.of_nat (length b)) [], {| w with w_out := w_out w ++ [(fd, b)] |})
  | Copen path _ =>
      match w_files w path, list_find (fun o => o = None) (w_fds w) with
      | Some st, Some (fd, _) => (mkAnswer (Z.of_nat fd) [], {| w with w_fds := <[fd := Some st]> (w_fds w) |})
      | _, _ => (mkAnswer (-1) [], w)
      end
  | Cclose fd => (mkAnswer 0 [], {| w with w_fds := <[Z.to_nat fd := None]> (w_fds w) |})
  | _ => match w_ask w with a :: r => (a, {| w with w_ask := r |}) | [] => (mkAnswer (-1) [], w) end
  end.

Inductive ending (A : Type) := Returned (a : A) | ByExit | ByFault | OutOfTurns.
Arguments Returned {A} a.
Arguments ByExit {A}.
Arguments ByFault {A}.
Arguments OutOfTurns {A}.

Fixpoint run {A} (p : prog A) (w : world) : ending A * world :=
  match p with
  | Done a => (Returned a, w)
  | Exited => (ByExit, w)
  | Wild => (ByFault, w)
  | Late => (OutOfTurns, w)
  | Sys c k => let '(a, w) := kernel c w in run (k a) w
  end.

(** ** Running a sequence *)

Lemma run_bind {A B} (p : prog A) (f : A -> prog B) : forall w,
  run (pbind p f) w =
  match run p w with
  | (Returned a, w') => run (f a) w'
  | (ByExit, w') => (ByExit, w')
  | (ByFault, w') => (ByFault, w')
  | (OutOfTurns, w') => (OutOfTurns, w')
  end.
Proof. induction p as [a | | | | c k IH]; intros w; cbn [pbind run]; try done. destruct (kernel c w) as [a w1]. apply IH. Qed.

Lemma run_then {A B} (p : prog A) (f : A -> prog B) w a w' : run p w = (Returned a, w') -> run (pbind p f) w = run (f a) w'.
Proof. intros E. by rewrite run_bind, E. Qed.

(** ** What is printed *)

(** The bytes written one by one. *)
Definition say (fd : Z) (s : list Z) (w : world) : world := {| w with w_out := w_out w ++ ((fun c => (fd, [u8 c])) <$> s) |}.

Lemma say_nil fd w : say fd [] w = w.
Proof. destruct w. unfold say. cbn. by rewrite app_nil_r. Qed.
Lemma say_app fd s t w : say fd t (say fd s w) = say fd (s ++ t) w.
Proof. unfold say. cbn. by rewrite fmap_app, app_assoc. Qed.

Lemma run_putc fd c w : run (putc fd c) w = (Returned tt, say fd [c] w).
Proof. done. Qed.

Lemma run_puts fd s : forall w, run (puts fd s) w = (Returned tt, say fd s w).
Proof.
  induction s as [| c s IH]; intros w; cbn [puts]; [by rewrite say_nil |]. rewrite (run_then _ _ _ _ _ (run_putc fd c w)), IH.
  by rewrite say_app.
Qed.

(** Capital letters for the digits from ten on; otherwise the digits are those of
    [cprintf]. *)
Definition capital (c : Z) : Z := if 97 <=? c then c - 32 else c.

Lemma capital_digit k : 0 <= k < 16 -> default 0 (udigits !! Z.to_nat k) = capital (default 0 (hexdigits !! Z.to_nat k)).
Proof.
  intros Hk. assert (forall i, (i < 16)%nat -> default 0 (udigits !! i) = capital (default 0 (hexdigits !! i))) as H; [| apply H; lia].
  intros i Hi. do 16 (destruct i as [| i]; [reflexivity |]). lia.
Qed.

Lemma printint_digits_ok base n : 1 < base <= 16 -> forall room fuel x,
  (n < room)%nat -> (n < fuel)%nat -> 0 <= x < base ^ Z.of_nat (S n) ->
  printint_digits room x base = Some (capital <$> int_digits fuel x base) /\ (length (int_digits fuel x base) <= S n)%nat.
Proof.
  intros Hb. induction n as [| n IH]; intros [| room] [| fuel] x Hr Hf Hx; try lia; cbn [printint_digits int_digits].
  - change (Z.of_nat 1) with 1 in Hx. rewrite Z.pow_1_r in Hx. rewrite Z.div_small by lia. cbn. rewrite Z.mod_small by lia.
    by rewrite capital_digit by lia.
  - pose proof (Z.mod_pos_bound x base ltac:(lia)). rewrite capital_digit by lia. destruct (Z.eqb_spec (x / base) 0); [cbn; split; [done | lia] |].
    assert (0 <= x / base < base ^ Z.of_nat (S n)) as Hq.
    { rewrite (Nat2Z.inj_succ (S n)), Z.pow_succ_r in Hx by lia. split; [apply Z.div_pos; lia |]. apply Z.div_lt_upper_bound; lia. }
    destruct (IH room fuel (x / base) ltac:(lia) ltac:(lia) Hq) as [E Hl]. rewrite E. cbn. split; [done | lia].
Qed.

Lemma run_uprintint fd xx base sgn w :
  base = 10 \/ base = 16 -> run (uprintint fd xx base sgn) w = (Returned tt, say fd (capital <$> int_chars xx base sgn) w).
Proof.
  intros Hb. unfold uprintint, int_chars. cbv zeta. set (neg := (sgn && (xx <? 0))%bool). set (x := u32 _).
  assert (0 <= x < base ^ Z.of_nat 10) as Hx.
  { pose proof (u32_range (if neg then - xx else xx)) as Hu. fold x in Hu. unfold is_u32 in Hu. destruct Hb as [-> | ->];
      [change (10 ^ Z.of_nat 10) with 10000000000 | change (16 ^ Z.of_nat 10) with 1099511627776]; lia. }
  destruct (printint_digits_ok base 9 ltac:(lia) 16 32 x ltac:(lia) ltac:(lia) Hx) as [E Hl]. rewrite E. cbn match.
  rewrite (proj2 (Nat.ltb_ge _ _)).
  2: { rewrite length_app, length_fmap. destruct neg; cbn [length]; lia. }
  rewrite run_puts. do 2 f_equal. rewrite map_rev, map_app. by destruct neg.
Qed.

Lemma capital_decimal x sgn : capital <$> int_chars x 10 sgn = int_chars x 10 sgn.
Proof.
  assert (Forall (fun c => capital c = c) (int_chars x 10 sgn)) as Hd.
  { unfold int_chars. cbv zeta. apply Forall_rev. rewrite Forall_app. split; [| destruct (_ && _)%bool; repeat constructor].
    pose proof (u32_range (if (sgn && (x <? 0))%bool then - x else x)) as Hu. unfold is_u32 in Hu. generalize dependent (u32 (if (sgn && (x <? 0))%bool then - x else x)).
    generalize 32%nat. intros n. induction n as [| n IH]; intros y Hy; cbn [int_digits]; [constructor |]. rewrite digit_char by lia. constructor.
    - unfold capital. pose proof (Z.mod_pos_bound y 10 ltac:(lia)). by rewrite (proj2 (Z.leb_gt _ _)) by lia.
    - destruct (_ =? 0); [constructor | apply IH; zdiv]. }
  rewrite <- (list_fmap_id (int_chars x 10 sgn)) at 2. apply list_fmap_ext. intros i c Hc. exact (Forall_lookup_1 _ _ _ _ Hd Hc).
Qed.

(** What [printf] prints, when the arguments fit the format. *)
Fixpoint utext (fmt : list Z) (ap : list vararg) : option (list Z) :=
  match fmt with
  | [] => Some []
  | c :: fmt' =>
      if negb (c =? 37) then cons c <$> utext fmt' ap
      else
        match fmt' with
        | [] => Some []
        | c :: fmt'' =>
            if c =? 100 then
              match ap with VInt x :: ap' => app (int_chars (i32 x) 10 true) <$> utext fmt'' ap' | _ => None end
            else if ((c =? 120) || (c =? 112))%bool then
              match ap with VInt x :: ap' => app (capital <$> int_chars (i32 x) 16 false) <$> utext fmt'' ap' | _ => None end
            else if c =? 115 then
              match ap with VStr s :: ap' => app (default (str "(null)") s) <$> utext fmt'' ap' | _ => None end
            else if c =? 99 then
              match ap with VInt x :: ap' => cons (i32 x) <$> utext fmt'' ap' | _ => None end
            else if c =? 37 then cons 37 <$> utext fmt'' ap
            else (fun t => 37 :: c :: t) <$> utext fmt'' ap
        end
  end.

(** [printf] prints this text, byte by byte. *)
Lemma run_printf fd fmt : forall ap s w, utext fmt ap = Some s -> run (printf fd fmt ap) w = (Returned tt, say fd s w).
Proof.
  unfold printf. induction fmt as [fmt IH] using (induction_ltof1 _ length). unfold ltof in IH. intros ap s w.
  destruct fmt as [| c fmt]; cbn [utext printf_loop negb]; [intros [= <-]; by rewrite say_nil |]. cbn [length] in IH.
  destruct (Z.eqb_spec c 37) as [-> | Hc]; cbn [negb].
  - destruct fmt as [| c fmt]; [intros [= <-]; cbn; by rewrite say_nil |]. cbn [length printf_loop negb] in *.
    assert (forall p t ap', utext fmt ap' = Some t -> forall u, run p w = (Returned tt, say fd u w) ->
              run (do* p in printf_loop fd false fmt ap') w = (Returned tt, say fd (u ++ t) w)) as Hgo.
    { intros p t ap' Ht u Hu. rewrite (run_then _ _ _ _ _ Hu), (IH fmt) with (s := t) by (done || lia). by rewrite say_app. }
    assert (forall (f : list Z -> list Z) ap', f <$> utext fmt ap' = Some s -> exists t, utext fmt ap' = Some t /\ s = f t) as Hs.
    { intros f ap' Hf. apply fmap_Some in Hf as (t & Ht & ->). by exists t. }
    destruct (c =? 100).
    { destruct ap as [| [x | o] ap]; try done. intros (t & Ht & ->)%Hs. cbn [pbind next_int fst snd]. apply Hgo; [done |].
      rewrite run_uprintint by tauto. by rewrite capital_decimal. }
    destruct ((c =? 120) || (c =? 112))%bool.
    { destruct ap as [| [x | o] ap]; try done. intros (t & Ht & ->)%Hs. cbn [pbind next_int fst snd]. apply Hgo; [done |].
      by rewrite run_uprintint by tauto. }
    destruct (c =? 115).
    { destruct ap as [| [x | o] ap]; try done. intros (t & Ht & ->)%Hs. cbn [pbind next_str fst snd]. apply Hgo; [done |]. apply run_puts. }
    destruct (c =? 99).
    { destruct ap as [| [x | o] ap]; try done. intros (t & Ht & ->)%Hs. cbn [pbind next_int fst snd]. by apply (Hgo _ _ _ Ht [i32 x]). }
    destruct (Z.eqb_spec c 37) as [-> | _]; intros (t & Ht & ->)%Hs; [by apply (Hgo _ _ _ Ht [37]) |].
    rewrite (run_then _ _ _ _ _ (run_putc fd 37 w)), (run_then _ _ _ _ _ (run_putc fd c _)), (IH fmt) with (s := t) by (done || lia).
    by rewrite !say_app.
  - intros (t & Ht & ->)%fmap_Some. rewrite (run_then _ _ _ _ _ (run_putc fd c w)), (IH fmt) with (s := t) by (done || lia). by rewrite say_app.
Qed.

(** An argument missing or of the wrong kind is an undefined operation. *)
Lemma run_printf_wild fd fmt : forall ap w, utext fmt ap = None -> exists w', run (printf fd fmt ap) w = (ByFault, w').
Proof.
  unfold printf. induction fmt as [fmt IH] using (induction_ltof1 _ length). unfold ltof in IH. intros ap w.
  destruct fmt as [| c fmt]; cbn [utext printf_loop negb]; [done |]. cbn [length] in IH.
  assert (forall fmt' p w', (length fmt' < S (length fmt))%nat -> forall ap' (f : list Z -> list Z), f <$> utext fmt' ap' = None ->
            run p w = (Returned tt, w') -> exists w2, run (do* p in printf_loop fd false fmt' ap') w = (ByFault, w2)) as Hgo.
  { intros fmt' p w' Hlen ap' f Hf Hp. rewrite (run_then _ _ _ _ _ Hp). apply IH; [done |]. by apply fmap_None in Hf. }
  destruct (Z.eqb_spec c 37) as [-> | Hc]; cbn [negb]; [| intros Hf; by eapply Hgo; [lia | exact Hf | apply run_putc]].
  destruct fmt as [| c fmt]; [done |]. cbn [length printf_loop negb] in *.
  destruct (c =? 100).
  { destruct ap as [| [x | o] ap]; try (intros _; by exists w). intros Hf. eapply Hgo; [lia | exact Hf | by apply run_uprintint; left]. }
  destruct ((c =? 120) || (c =? 112))%bool.
  { destruct ap as [| [x | o] ap]; try (intros _; by exists w). intros Hf. eapply Hgo; [lia | exact Hf | by apply run_uprintint; right]. }
  destruct (c =? 115).
  { destruct ap as [| [x | o] ap]; try (intros _; by exists w). intros Hf. eapply Hgo; [lia | exact Hf | apply run_puts]. }
  destruct (c =? 99).
  { destruct ap as [| [x | o] ap]; try (intros _; by exists w). intros Hf. eapply Hgo; [lia | exact Hf | apply run_putc]. }
  destruct (Z.eqb_spec c 37) as [-> | _]; intros Hf; [eapply Hgo; [lia | exact Hf | apply run_putc] |].
  rewrite (run_then _ _ _ _ _ (run_putc fd 37 w)), (run_then _ _ _ _ _ (run_putc fd c _)). apply IH; [lia |]. by apply fmap_None in Hf.
Qed.

(** ** Reading a file to its end *)

(** [while((n = read(fd, buf, size)) > 0) body]: the last result of [read] and the
    state the body leaves. *)
Fixpoint while_read {T} (turns : nat) (fd : Z) (size : T -> Z) (body : T -> list Z -> prog T) (s : T) : prog (Z * T) :=
  match turns with
  | O => Late
  | S turns' =>
      let* r := ask (Cread fd (size s)) in
      if 0 <? a_ret r then
        let* s := body s (take (Z.to_nat (a_ret r)) (a_buf r)) in
        while_read turns' fd size body s
      else Done (a_ret r, s)
  end.

(** A file that can be read without errors, and its bytes. *)
Definition readable (st : stream) : Prop := Forall (fun o => exists c, o = Some c /\ c <> []) st.
Definition bytes_of (st : stream) : list Z := concat (default [] <$> st).

(** One read: some bytes from the front, at most as many as asked for. *)
Lemma deliver_ok n st :
  readable st -> (0 < n)%nat -> st <> [] ->
  exists c st', deliver n st = (mkAnswer (Z.of_nat (length c)) c, st') /\ readable st' /\ bytes_of st = c ++ bytes_of st' /\
    (0 < length c <= n)%nat.
Proof.
  intros Hr Hn Hne. destruct st as [| o st]; [done |]. apply Forall_cons in Hr as [(c & -> & Hc) Hr]. cbn [deliver].
  assert ((0 < length (take n c) <= n)%nat) as Hl by (destruct c; [done |]; rewrite length_take; cbn; lia).
  destruct (drop n c) as [| x r] eqn:E.
  - exists (take n c), st. split_and!; [done | done | | lia | lia]. unfold bytes_of. cbn. f_equal.
    rewrite <- (take_drop n c) at 1. by rewrite E, app_nil_r.
  - exists (take n c), (Some (x :: r) :: st). split_and!; [done | | | lia | lia].
    + constructor; [by eexists | done].
    + change (c ++ bytes_of st = take n c ++ (x :: r) ++ bytes_of st). by rewrite <- E, app_assoc, take_drop.
Qed.

(** The loop on a readable file: an invariant of the bytes read so far, the state and
    the output, kept by the body, holds at the end for all the bytes.  Each turn reads
    a byte at least. *)
Lemma while_read_ok {T} (Inv : list Z -> T -> list (Z * list Z) -> Prop) (fd : nat) (size : T -> Z) (body : T -> list Z -> prog T) :
  (forall read s o, Inv read s o -> 0 < size s) ->
  (forall read s w c, Inv read s (w_out w) -> c <> [] -> Z.of_nat (length c) <= size s ->
     exists s' o, run (body s c) w = (Returned s', {| w with w_out := o |}) /\ Inv (read ++ c) s' o) ->
  forall turns st read s w, w_fds w !! fd = Some (Some st) -> readable st -> (length (bytes_of st) < turns)%nat -> Inv read s (w_out w) ->
  exists s' o, run (while_read turns (Z.of_nat fd) size body s) w =
      (Returned (0, s'), {| w with w_fds := <[fd := Some []]> (w_fds w); w_out := o |}) /\ Inv (read ++ bytes_of st) s' o.
Proof.
  intros Hsize Hbody. induction turns as [| turns IH]; intros st read s w Hfd Hr Ht Hi; [lia |]. cbn [while_read].
  assert (forall a st', deliver (Z.to_nat (size s)) st = (a, st') ->
            run (ask (Cread (Z.of_nat fd) (size s))) w = (Returned a, {| w with w_fds := <[fd := Some st']> (w_fds w) |})) as Hask.
  { intros a st' E. unfold ask. cbn [run kernel]. rewrite (proj2 (Z.ltb_ge _ _)), Nat2Z.id, Hfd by lia. cbn [mjoin option_join]. by rewrite E. }
  destruct st as [| o st].
  { rewrite (run_then _ _ _ _ _ (Hask (mkAnswer 0 []) [] eq_refl)). cbn [a_ret run Z.ltb]. exists s, (w_out w). cbn. rewrite app_nil_r. by destruct w. }
  pose proof (Hsize _ _ _ Hi). destruct (deliver_ok (Z.to_nat (size s)) (o :: st) Hr ltac:(lia) ltac:(done)) as (c & st' & E & Hr' & Hb & Hl).
  rewrite (run_then _ _ _ _ _ (Hask _ _ E)). cbn [a_ret a_buf]. rewrite (proj2 (Z.ltb_lt _ _)), Nat2Z.id, firstn_all by lia.
  set (w1 := {| w with w_fds := _ |}). destruct (Hbody read s w1 c Hi) as (s' & o' & Erun & Hi'); [by destruct c; [cbn in Hl; lia |] | lia |].
  rewrite (run_then _ _ _ _ _ Erun). rewrite Hb, app_assoc. rewrite Hb, length_app in Ht.
  destruct (IH st' (read ++ c) s' {| w1 with w_out := o' |}) as (s2 & o2 & E2 & Hi2); [| done | lia | done |].
  - cbn. apply list_lookup_insert_eq. apply lookup_lt_Some in Hfd. exact Hfd.
  - exists s2, o2. rewrite E2. cbn. rewrite list_insert_insert_eq. done.
Qed.
