(* ===== verification/Grep.v ===== *)
(** [grep.c]: the regular-expression matcher, against the language a pattern
    denotes, and the loop that cuts the input into lines.

    A pointer into a C string is the list of characters from it to the
    terminating zero, which the list leaves out. *)

From S2P Require Import Prelude.

(** ** The matcher *)

Abbreviation STAR := (42) (only parsing).
Abbreviation DOT := (46) (only parsing).
Abbreviation DOLLAR := (36) (only parsing).
Abbreviation CARET := (94) (only parsing).
Definition NEWLINE : Z := 10.

Fixpoint matchstar (matchhere : list Z -> bool) (c : Z) (text : list Z) : bool :=
  if matchhere text then true
  else
    match text with
    | [] => false
    | t :: text' => if ((t =? c) || (c =? DOT))%bool then matchstar matchhere c text' else false
    end.

Fixpoint matchhere (re text : list Z) : bool :=
  match re with
  | [] => true
  | c :: re1 =>
      let here :=
        match text with
        | [] => false
        | t :: text' => if ((c =? DOT) || (c =? t))%bool then matchhere re1 text' else false
        end in
      match re1 with
      | d :: re2 => if d =? STAR then matchstar (matchhere re2) c text else here
      | [] => if c =? DOLLAR then match text with [] => true | _ => false end else here
      end
  end.

(** The [do] loop of [match]. *)
Fixpoint match_from (re text : list Z) : bool :=
  if matchhere re text then true
  else match text with [] => false | _ :: text' => match_from re text' end.

Definition match_re (re text : list Z) : bool :=
  match re with
  | c :: re' => if c =? CARET then matchhere re' text else match_from re text
  | [] => match_from re text
  end.

(** ** The input loop *)

(** [strchr(p, '\n')]: the line before the newline and what follows it. *)
Fixpoint next_line (p : list Z) : option (list Z * list Z) :=
  match p with
  | [] => None
  | c :: p' =>
      if c =? 0 then None
      else if c =? NEWLINE then Some ([], p')
      else match next_line p' with
           | Some (l, r) => Some (c :: l, r)
           | None => None
           end
  end.

(** The inner [while]: what is written for the complete lines of the buffer, and
    the rest of it; each turn removes a line. *)
Fixpoint grep_lines (fuel : nat) (pattern p : list Z) : list Z * list Z :=
  match fuel with
  | O => ([], p)
  | S fuel' =>
      match next_line p with
      | None => ([], p)
      | Some (l, q) =>
          let '(out, rest) := grep_lines fuel' pattern q in
          ((if match_re pattern l then l ++ [NEWLINE] else []) ++ out, rest)
      end
  end.

Definition BUFSZ : nat := 1024.

(** [grep]: the bytes written, when successive [read]s have [reads] bytes ready
    of the [input]; [buf] is what the buffer holds from before. *)
Fixpoint grep (pattern : list Z) (reads : list nat) (buf input : list Z) : list Z :=
  match reads with
  | [] => []
  | k :: reads' =>
      let n := Nat.min k (BUFSZ - length buf - 1) in
      match take n input with
      | [] => []
      | chunk =>
          let b := buf ++ chunk in
          let '(out, p) := grep_lines (S (length b)) pattern b in
          let buf' := if (length p =? length b)%nat then [] else p in
          out ++ grep pattern reads' buf' (drop n input)
      end
  end.

(** ** The language of a pattern *)

Inductive atom := AnyChar | Char (c : Z).
Inductive item := One (a : atom) | Many (a : atom).

Definition atom_of (c : Z) : atom := if c =? DOT then AnyChar else Char c.
Definition hits (a : atom) (t : Z) : Prop := match a with AnyChar => True | Char c => t = c end.

(** The items of a pattern, and whether it ends in [$]. *)
Fixpoint parse (re : list Z) : list item * bool :=
  match re with
  | [] => ([], false)
  | c :: re1 =>
      match re1 with
      | d :: re2 =>
          if d =? STAR then let '(its, e) := parse re2 in (Many (atom_of c) :: its, e)
          else let '(its, e) := parse re1 in (One (atom_of c) :: its, e)
      | [] => if c =? DOLLAR then ([], true) else ([One (atom_of c)], false)
      end
  end.

Inductive lang : list item -> list Z -> Prop :=
| lang_nil : lang [] []
| lang_one a its t s : hits a t -> lang its s -> lang (One a :: its) (t :: s)
| lang_none a its s : lang its s -> lang (Many a :: its) s
| lang_more a its t s : hits a t -> lang (Many a :: its) s -> lang (Many a :: its) (t :: s).

(** A pattern matches at the start of a text. *)
Definition starts (pe : list item * bool) (text : list Z) : Prop :=
  exists mid post, text = mid ++ post /\ lang pe.1 mid /\ (pe.2 = true -> post = []).

(** ** The matcher decides the language *)

Lemma atom_hits c t : ((t =? c) || (c =? DOT))%bool = true <-> hits (atom_of c) t.
Proof.
  unfold atom_of, hits. destruct (Z.eqb_spec c DOT) as [-> | Hne].
  - by rewrite orb_true_r.
  - by rewrite orb_false_r, Z.eqb_eq.
Qed.

Lemma matchstar_spec mh its e c text :
  (forall text, mh text = true <-> starts (its, e) text) ->
  matchstar mh c text = true <-> starts (Many (atom_of c) :: its, e) text.
Proof.
  intros Hmh. induction text as [| t text IH]; cbn [matchstar].
  - specialize (Hmh []). destruct (mh []) eqn:E.
    + split; [| done]. intros _. destruct (proj1 Hmh eq_refl) as (mid & post & Ht & Hl & He).
      exists mid, post. split_and!; [done | by constructor | done].
    + split; [done |]. intros (mid & post & Ht & Hl & He). simpl in *. symmetry in Ht.
      apply app_eq_nil in Ht as [-> ->]. inversion Hl; subst.
      apply Hmh. by exists [], [].
  - pose proof (Hmh (t :: text)) as Hm. destruct (mh (t :: text)) eqn:E.
    + split; [| done]. intros _. destruct (proj1 Hm eq_refl) as (mid & post & Ht & Hl & He).
      exists mid, post. split_and!; [done | by constructor | done].
    + destruct ((t =? c) || (c =? DOT))%bool eqn:Hh.
      * rewrite IH. apply atom_hits in Hh. split.
        -- intros (mid & post & -> & Hl & He). exists (t :: mid), post. split_and!; [done | by constructor | done].
        -- intros (mid & post & Ht & Hl & He). simpl in Hl. inversion Hl as [| | ? ? ? Hl' | ? ? u mid' Hu Hl']; subst.
           ++ exfalso. apply diff_false_true, Hm. by exists mid, post.
           ++ injection Ht as -> ->. by exists mid', post.
      * split; [done |]. intros (mid & post & Ht & Hl & He). simpl in Hl.
        inversion Hl as [| | ? ? ? Hl' | ? ? u mid' Hu Hl']; subst.
        -- apply Hm. by exists mid, post.
        -- injection Ht as -> ->. apply atom_hits in Hu. congruence.
Qed.

(** One character of the pattern against one of the text. *)
Lemma matchone_spec its e c re1 text :
  (forall text, matchhere re1 text = true <-> starts (its, e) text) ->
  match text with
  | [] => false
  | t :: text' => if ((c =? DOT) || (c =? t))%bool then matchhere re1 text' else false
  end = true <-> starts (One (atom_of c) :: its, e) text.
Proof.
  intros Hre. destruct text as [| t text].
  - split; [done |]. intros (mid & post & Ht & Hl & He). simpl in Hl. inversion Hl; subst. done.
  - rewrite orb_comm, (Z.eqb_sym c t). destruct ((t =? c) || (c =? DOT))%bool eqn:Hh.
    + rewrite Hre. apply atom_hits in Hh. split.
      * intros (mid & post & -> & Hl & He). exists (t :: mid), post. split_and!; [done | by constructor | done].
      * intros (mid & post & Ht & Hl & He). simpl in Hl. inversion Hl; subst. injection Ht as -> ->. by eexists _, post.
    + split; [done |]. intros (mid & post & Ht & Hl & He). simpl in Hl. inversion Hl as [| ? ? u ? Hu | |]; subst.
      injection Ht as -> ->. apply atom_hits in Hu. congruence.
Qed.

Lemma matchhere_spec re : forall text, matchhere re text = true <-> starts (parse re) text.
Proof.
  remember (length re) as n eqn:Hn. revert re Hn. induction (lt_wf n) as [n _ IH]. intros re -> text.
  destruct re as [| c re1].
  - split; [| done]. intros _. exists [], text. by repeat constructor.
  - destruct re1 as [| d re2].
    + cbn [matchhere parse]. destruct (Z.eqb_spec c DOLLAR) as [-> | Hc].
      * destruct text as [| t text].
        -- split; [| done]. intros _. exists [], []. by repeat constructor.
        -- split; [done |]. intros (mid & post & Ht & Hl & He). simpl in *. rewrite (He eq_refl), app_nil_r in Ht.
           subst. inversion Hl.
      * apply (matchone_spec [] false c [] text). intros t. by apply (IH 0%nat ltac:(simpl; lia) []).
    + assert (E : matchhere (c :: d :: re2) text =
        if d =? STAR then matchstar (matchhere re2) c text
        else match text with
             | [] => false
             | t :: text' => if ((c =? DOT) || (c =? t))%bool then matchhere (d :: re2) text' else false
             end) by done.
      assert (Ep : parse (c :: d :: re2) =
        if d =? STAR then let '(its, e) := parse re2 in (Many (atom_of c) :: its, e)
        else let '(its, e) := parse (d :: re2) in (One (atom_of c) :: its, e)) by done.
      rewrite E, Ep. clear E Ep. destruct (Z.eqb_spec d STAR) as [-> | Hd].
      * destruct (parse re2) as [its e] eqn:Ep. apply matchstar_spec. intros t. rewrite <- Ep.
        by apply (IH (length re2) ltac:(simpl; lia)).
      * destruct (parse (d :: re2)) as [its e] eqn:Ep. apply matchone_spec.
        intros t. rewrite <- Ep. by apply (IH (length (d :: re2)) ltac:(simpl; lia)).
Qed.

Lemma match_from_spec re text :
  match_from re text = true <-> exists pre rest, text = pre ++ rest /\ starts (parse re) rest.
Proof.
  induction text as [| t text IH]; cbn [match_from]; destruct (matchhere re _) eqn:E.
  - split; [| done]. intros _. exists [], []. split; [done |]. by apply matchhere_spec.
  - split; [done |]. intros (pre & rest & Ht & Hs). symmetry in Ht. apply app_eq_nil in Ht as [-> ->].
    apply matchhere_spec in Hs. congruence.
  - split; [| done]. intros _. exists [], (t :: text). split; [done |]. by apply matchhere_spec.
  - rewrite IH. split.
    + intros (pre & rest & -> & Hs). by exists (t :: pre), rest.
    + intros (pre & rest & Ht & Hs). destruct pre as [| u pre].
      * simpl in Ht. subst rest. apply matchhere_spec in Hs. congruence.
      * injection Ht as -> ->. by exists pre, rest.
Qed.

(** C34: the matcher decides the language of the pattern. [match] accepts a text
    exactly if some part of it is in the language of the pattern's items
    (characters, [.] and starred items), at the start of the text if the pattern
    begins with [^] and at its end if the pattern ends in [$]. *)
Theorem match_spec re text :
  match_re re text = true <->
  exists pre mid post,
    let anchored := bool_decide (head re = Some CARET) in
    let pe := parse (if anchored then tail re else re) in
    text = pre ++ mid ++ post /\ lang pe.1 mid /\
    (anchored = true -> pre = []) /\ (pe.2 = true -> post = []).
Proof.
  unfold match_re. destruct re as [| c re'].
  - rewrite match_from_spec. split.
    + intros (pre & rest & -> & mid & post & -> & Hl & He). exists pre, mid, post. by rewrite bool_decide_eq_false_2.
    + intros (pre & mid & post & -> & Hl & _ & He). exists pre, (mid ++ post). split; [done |]. by exists mid, post.
  - cbn [head tail]. destruct (Z.eqb_spec c CARET) as [-> | Hc].
    + rewrite bool_decide_eq_true_2 by done. rewrite matchhere_spec. split.
      * intros (mid & post & -> & Hl & He). by exists [], mid, post.
      * intros (pre & mid & post & -> & Hl & Hp & He). rewrite Hp by done. by exists mid, post.
    + rewrite bool_decide_eq_false_2 by congruence. rewrite match_from_spec. split.
      * intros (pre & rest & -> & mid & post & -> & Hl & He). by exists pre, mid, post.
      * intros (pre & mid & post & -> & Hl & _ & He). exists pre, (mid ++ post). split; [done |]. by exists mid, post.
Qed.

(** ** Lines *)

(** The complete lines of a text, and what follows the last newline. *)
Fixpoint split_lines (p : list Z) : list (list Z) * list Z :=
  match p with
  | [] => ([], [])
  | c :: p' =>
      let '(ls, r) := split_lines p' in
      if c =? NEWLINE then ([] :: ls, r)
      else match ls with [] => ([], c :: r) | l :: ls' => ((c :: l) :: ls', r) end
  end.

Definition shown (pattern l : list Z) : list Z := if match_re pattern l then l ++ [NEWLINE] else [].

(** What the reads deliver, and the condition under which no line is lost: after
    each read the buffer holds a newline. *)
Fixpoint consumed (reads : list nat) (buf input : list Z) : list Z :=
  match reads with
  | [] => []
  | k :: reads' =>
      let n := Nat.min k (BUFSZ - length buf - 1) in
      match take n input with
      | [] => []
      | chunk => chunk ++ consumed reads' (split_lines (buf ++ chunk)).2 (drop n input)
      end
  end.

Fixpoint steady (reads : list nat) (buf input : list Z) : Prop :=
  match reads with
  | [] => True
  | k :: reads' =>
      let n := Nat.min k (BUFSZ - length buf - 1) in
      match take n input with
      | [] => True
      | chunk => NEWLINE ∈ buf ++ chunk /\ steady reads' (split_lines (buf ++ chunk)).2 (drop n input)
      end
  end.

Definition with_newline (l : list Z) : list Z := l ++ [NEWLINE].

Lemma split_lines_app a b :
  (split_lines (a ++ b)).1 = (split_lines a).1 ++ (split_lines ((split_lines a).2 ++ b)).1.
Proof.
  induction a as [| c a IH]; [done |]. cbn [app split_lines].
  destruct (split_lines (a ++ b)) as [ls r] eqn:E1. destruct (split_lines a) as [la ra] eqn:E2. simpl in IH.
  destruct (Z.eqb_spec c NEWLINE) as [-> | Hc]; [simpl; by rewrite IH |].
  destruct la as [| l la]; simpl in *.
  - cbn [split_lines]. destruct (split_lines (ra ++ b)) as [lb rb]. simpl in IH. subst ls.
    rewrite (proj2 (Z.eqb_neq _ _)) by done. by destruct lb.
  - by subst ls.
Qed.

Lemma split_lines_concat p : concat (map with_newline (split_lines p).1) ++ (split_lines p).2 = p.
Proof.
  induction p as [| c p IH]; [done |]. cbn [split_lines]. destruct (split_lines p) as [ls r]. simpl in IH.
  destruct (Z.eqb_spec c NEWLINE) as [-> | Hc]; [simpl; by rewrite IH |].
  destruct ls as [| l ls]; simpl in *; by rewrite <- IH.
Qed.

Lemma next_line_split p :
  0 ∉ p ->
  next_line p = match (split_lines p).1 with
                | [] => None
                | l :: ls => Some (l, concat (map with_newline ls) ++ (split_lines p).2)
                end.
Proof.
  induction p as [| c p IH]; [done |]. intros [Hc Hp]%not_elem_of_cons. cbn [next_line split_lines].
  rewrite (proj2 (Z.eqb_neq c 0)) by congruence. pose proof (split_lines_concat p) as Hcat.
  specialize (IH Hp). destruct (split_lines p) as [ls r]. simpl in *.
  destruct (Z.eqb_spec c NEWLINE) as [-> | Hn]; [simpl; by rewrite Hcat |].
  rewrite IH. by destruct ls.
Qed.

(** Cutting off a line leaves the others. *)
Lemma split_lines_rest ls r :
  Forall (fun l => NEWLINE ∉ l) ls -> NEWLINE ∉ r ->
  split_lines (concat (map with_newline ls) ++ r) = (ls, r).
Proof.
  intros Hls Hr. induction ls as [| l ls IH]; simpl.
  - induction r as [| c r IHr]; [done |]. apply not_elem_of_cons in Hr as [Hc Hr]. simpl.
    rewrite IHr by done. by rewrite (proj2 (Z.eqb_neq _ _)).
  - apply Forall_cons in Hls as [Hl Hls]. specialize (IH Hls). unfold with_newline at 1. rewrite <- !app_assoc. simpl.
    induction l as [| c l IHl]; simpl.
    + by rewrite IH.
    + apply not_elem_of_cons in Hl as [Hc Hl]. rewrite IHl by done.
      by rewrite (proj2 (Z.eqb_neq _ _)).
Qed.

Lemma split_lines_free p : Forall (fun l => NEWLINE ∉ l) (split_lines p).1 /\ NEWLINE ∉ (split_lines p).2.
Proof.
  induction p as [| c p [IH1 IH2]]; [split; [constructor | apply not_elem_of_nil] |]. cbn [split_lines].
  destruct (split_lines p) as [ls r]. simpl in *.
  destruct (Z.eqb_spec c NEWLINE) as [-> | Hc]; simpl; [split; [constructor; [apply not_elem_of_nil | done] | done] |].
  destruct ls as [| l ls]; simpl.
  - split; [done |]. by apply not_elem_of_cons.
  - apply Forall_cons in IH1 as [Hl Hls]. split; [| done]. constructor; [by apply not_elem_of_cons | done].
Qed.

Lemma grep_lines_whole pattern ls r fuel :
  Forall (fun l => NEWLINE ∉ l) ls -> NEWLINE ∉ r -> (0 ∉ concat (map with_newline ls) ++ r) ->
  (length ls < fuel)%nat ->
  grep_lines fuel pattern (concat (map with_newline ls) ++ r) = (concat (map (shown pattern) ls), r).
Proof.
  intros Hls Hr. revert fuel. induction ls as [| l ls IH]; intros [| fuel] H0 Hf; simpl in Hf; try lia;
    cbn [grep_lines]; rewrite next_line_split, split_lines_rest by done; cbn -[with_newline]; [done |].
  apply Forall_cons in Hls as [_ Hls]. rewrite IH; [done | done | | lia].
  simpl in H0. intros Hin. apply H0. rewrite <- app_assoc. apply elem_of_app. by right.
Qed.

Lemma split_lines_length p : (length (split_lines p).1 <= length p)%nat.
Proof.
  induction p as [| c p IH]; [done |]. cbn [split_lines]. destruct (split_lines p) as [[| l ls] r];
    simpl in *; destruct (c =? NEWLINE); simpl; lia.
Qed.

Lemma grep_lines_spec pattern p :
  0 ∉ p -> grep_lines (S (length p)) pattern p = (concat (map (shown pattern) (split_lines p).1), (split_lines p).2).
Proof.
  intros H0. destruct (split_lines_free p) as [Hl Hr]. pose proof (split_lines_length p).
  rewrite <- (split_lines_concat p) at 2. apply grep_lines_whole; [done | done | | lia].
  by rewrite split_lines_concat.
Qed.

Lemma rest_shorter p : NEWLINE ∈ p -> (length (split_lines p).2 < length p)%nat.
Proof.
  intros Hin. rewrite <- (split_lines_concat p) at 2. rewrite length_app.
  destruct (split_lines p).1 as [| l ls] eqn:E; [| unfold with_newline; simpl; rewrite !length_app; simpl; lia].
  exfalso. destruct (split_lines_free p) as [_ Hr]. apply Hr.
  rewrite <- (split_lines_concat p), E in Hin. done.
Qed.

Lemma split_lines_none r : NEWLINE ∉ r -> split_lines r = ([], r).
Proof. intros Hr. by apply (split_lines_rest [] r). Qed.

Lemma split_lines_single l : NEWLINE ∉ l -> split_lines (l ++ [NEWLINE]) = ([l], []).
Proof.
  intros Hl. pose proof (split_lines_rest [l] []) as H. simpl in H. unfold with_newline in H.
  rewrite !app_nil_r in H. apply H; [by constructor; [| constructor] | apply not_elem_of_nil].
Qed.

Lemma consumed_prefix reads buf input : consumed reads buf input `prefix_of` input.
Proof.
  revert buf input. induction reads as [| k reads IH]; intros buf input; [apply prefix_nil |]. cbn [consumed].
  set (n := Nat.min _ _). destruct (take n input) as [| c chunk] eqn:E; [apply prefix_nil |].
  rewrite <- (take_drop n input) at 2. rewrite E. apply prefix_app, IH.
Qed.

Lemma grep_steady pattern reads buf input :
  (0 ∉ buf ++ input) -> NEWLINE ∉ buf -> steady reads buf input ->
  grep pattern reads buf input = concat (map (shown pattern) (split_lines (buf ++ consumed reads buf input)).1).
Proof.
  revert buf input. induction reads as [| k reads IH]; intros buf input H0 Hb Hs; cbn [grep consumed steady] in *.
  { by rewrite app_nil_r, split_lines_none. }
  set (n := Nat.min _ _) in *. destruct (take n input) as [| c chunk] eqn:E.
  { by rewrite app_nil_r, split_lines_none. }
  rewrite <- (take_drop n input), E in H0. destruct Hs as [Hn Hs].
  set (b := buf ++ c :: chunk) in *. assert ((0 ∉ b) /\ (0 ∉ drop n input)) as [H0b H0d].
  { rewrite app_assoc in H0. by apply not_elem_of_app in H0. }
  rewrite grep_lines_spec by done. rewrite (proj2 (Nat.eqb_neq _ _)) by (pose proof (rest_shorter b Hn); lia).
  rewrite app_assoc. fold b. rewrite split_lines_app, map_app, concat_app. f_equal.
  apply IH; [| apply split_lines_free | done]. apply not_elem_of_app. split; [| done].
  intros Hin. apply H0b. rewrite <- (split_lines_concat b). apply elem_of_app. by right.
Qed.

(** C35: for a text without NUL bytes, of which every [read] leaves a newline in
    the buffer, [grep] writes exactly the lines that match, whole, in order and
    once each, whatever the sizes of the reads: nothing is lost or repeated where
    a read ends in the middle of a line. What the reads deliver is a prefix of the
    text; what follows its last newline is not written. *)
Theorem grep_spec pattern reads input :
  0 ∉ input -> steady reads [] input ->
  consumed reads [] input `prefix_of` input /\
  grep pattern reads [] input = concat (map (shown pattern) (split_lines (consumed reads [] input)).1).
Proof.
  intros H0 Hs. split; [apply consumed_prefix |]. apply grep_steady; [done | apply not_elem_of_nil | done].
Qed.

(** [grep a] of [ab\nca\ncc\nad\n], read five bytes at a time, so that the first
    read ends inside the second line. *)
Definition sample : list Z := [97; 98; 10; 99; 97; 10; 99; 99; 10; 97; 100; 10].

Lemma grep_spec_witness :
  grep [97] [5; 5; 5]%nat [] sample = [97; 98; 10; 99; 97; 10; 97; 100; 10].
Proof.
  assert (0 ∉ sample) as H0 by (unfold sample; rewrite list_elem_of_In; simpl; intuition lia).
  assert (steady [5; 5; 5]%nat [] sample) as Hs.
  { cbn. rewrite !list_elem_of_In. simpl. unfold NEWLINE. tauto. }
  rewrite (proj2 (grep_spec [97] [5; 5; 5]%nat sample H0 Hs)). reflexivity.
Defined.

(** A line that arrives in one read. *)
Lemma grep_one_line pattern l reads :
  0 ∉ l -> NEWLINE ∉ l -> (S (length l) < BUFSZ)%nat ->
  grep pattern (S (length l) :: reads) [] (l ++ [NEWLINE]) = shown pattern l.
Proof.
  intros H0 Hl Hlen. cbn [grep length]. rewrite Nat.min_l by lia.
  rewrite (take_ge (l ++ [NEWLINE])), (drop_ge (l ++ [NEWLINE])) by (rewrite length_app; simpl; lia).
  destruct (l ++ [NEWLINE]) as [| c b] eqn:E; [by destruct l |]. rewrite app_nil_l, <- E.
  rewrite grep_lines_spec by (apply not_elem_of_app; split; [done | by apply not_elem_of_cons; split; [| apply not_elem_of_nil]]).
  rewrite split_lines_single by done. cbn [fst snd map concat].
  replace (grep _ _ _ _) with (@nil Z); [by rewrite !app_nil_r |].
  destruct reads as [| k reads]; [done |]. cbn [grep]. by rewrite take_nil.
Qed.

(** C39: the result depends on how the input arrives. When a read delivers the
    beginning [a] of a line and no newline, the buffer is emptied ([p == buf]) and
    the rest [b] of the line is taken for a line: the pattern is matched against
    [b] and [b] is what is printed, where the same text in one read prints the
    line when the whole of it matches. *)
Theorem grep_drops_split_line pattern a b :
  a <> [] -> (0 ∉ a ++ b) -> (NEWLINE ∉ a ++ b) -> (S (length (a ++ b)) < BUFSZ)%nat ->
  grep pattern [S (length (a ++ b))] [] ((a ++ b) ++ [NEWLINE]) = shown pattern (a ++ b) /\
  grep pattern [length a; S (length b)] [] (a ++ b ++ [NEWLINE]) = shown pattern b.
Proof.
  intros Ha H0 Hn Hlen. split; [by apply grep_one_line |].
  apply not_elem_of_app in H0 as [H0a H0b]. apply not_elem_of_app in Hn as [Hna Hnb]. rewrite length_app in Hlen.
  rewrite <- (grep_one_line pattern b []) by (done || lia). cbn [grep length].
  rewrite (Nat.min_l (length a)) by lia. rewrite take_app_length, drop_app_length.
  destruct a as [| c a]; [done |]. rewrite app_nil_l, grep_lines_spec, split_lines_none by done.
  cbn [fst snd map concat]. rewrite Nat.eqb_refl. reflexivity.
Qed.

(** [grep ab] of the text [ab\n], in one read and as [a] and [b\n]. *)
Lemma grep_drops_split_line_witness :
  grep [97; 98] [3]%nat [] [97; 98; 10] = [97; 98; 10] /\ grep [97; 98] [1; 2]%nat [] [97; 98; 10] = [].
Proof.
  apply (grep_drops_split_line [97; 98] [97] [98]);
    [done | rewrite list_elem_of_In; unfold NEWLINE; simpl; lia .. | unfold BUFSZ; simpl; lia].
Defined.
