(* ===== verification/Tools.v ===== *)
(** The commands: [cat.c], [wc.c], [echo.c], [ls.c], [kill.c], [ln.c], [mkdir.c], [rm.c],
    [zombie.c], [init.c], [setpolicy.c], [settickets.c], [pstats.c], [pinfo.c], and
    the opening of files in [grep.c].

    A program takes its arguments without its own name; strings are without their
    terminators. *)

From S2P Require Import Prelude Params Mem CString Machine Console Proc Grep User.
Local Open Scope prog_scope.

Definition line (s : string) : list Z := str s ++ [10].

(** ** Text *)

Module Cat.
Definition cat {turns : Turns} (fd : Z) : prog unit :=
  let* r := while_read max_turns fd (fun _ => 512) (fun _ buf =>
    let* m := sys (Cwrite 1 buf) in
    if negb (m =? Z.of_nat (length buf)) then do* printf 1 (line "cat: write error") [] in Exited
    else Done tt) tt in
  if r.1 <? 0 then do* printf 1 (line "cat: read error") [] in Exited else Done tt.

Fixpoint cat_files {turns : Turns} (argv : list (list Z)) : prog unit :=
  match argv with
  | [] => Exited
  | a :: argv' =>
      let* fd := sys (Copen a 0) in
      if fd <? 0 then do* printf 1 (line "cat: cannot open %s") [VStr (Some a)] in Exited
      else do* cat fd in do* sys (Cclose fd) in cat_files argv'
  end.
Definition main {turns : Turns} (argv : list (list Z)) : prog unit :=
  match argv with [] => do* cat 0 in Exited | _ => cat_files argv end.
End Cat.

Module Wc.
Record counts := mkCounts { n_l : Z; n_w : Z; n_c : Z; inword : bool }.

Definition blank (c : Z) : bool := match strchr [32; 13; 9; 10; 11; 0] c with Some (Some _) => true | _ => false end.

Definition count (n : counts) (c : Z) : counts :=
  let n := {| n with n_c := i32 (n_c n + 1) |} in
  let n := if c =? 10 then {| n with n_l := i32 (n_l n + 1) |} else n in
  if blank c then {| n with inword := false |}
  else if negb (inword n) then {| n with n_w := i32 (n_w n + 1); inword := true |} else n.

Definition wc {turns : Turns} (fd : Z) (name : list Z) : prog unit :=
  let* r := while_read max_turns fd (fun _ => 512) (fun n buf => Done (foldl count n buf)) (mkCounts 0 0 0 false) in
  if r.1 <? 0 then do* printf 1 (line "wc: read error") [] in Exited
  else printf 1 (line "%d %d %d %s") [VInt (n_l r.2); VInt (n_w r.2); VInt (n_c r.2); VStr (Some name)].

Fixpoint wc_files {turns : Turns} (argv : list (list Z)) : prog unit :=
  match argv with
  | [] => Exited
  | a :: argv' =>
      let* fd := sys (Copen a 0) in
      if fd <? 0 then do* printf 1 (line "wc: cannot open %s") [VStr (Some a)] in Exited
      else do* wc fd a in do* sys (Cclose fd) in wc_files argv'
  end.
Definition main {turns : Turns} (argv : list (list Z)) : prog unit :=
  match argv with [] => do* wc 0 [] in Exited | _ => wc_files argv end.
End Wc.

Module Echo.
Fixpoint main (argv : list (list Z)) : prog unit :=
  match argv with
  | [] => Exited
  | a :: argv' =>
      do* printf 1 (str "%s%s") [VStr (Some a); VStr (Some (match argv' with [] => [10] | _ => [32] end))] in
      main argv'
  end.
End Echo.

(** [grep] on open files: the state of the loop is the part of the buffer kept from
    before. *)
Module GrepMain.
Fixpoint print_lines (fuel : nat) (pattern p : list Z) : prog (list Z) :=
  match fuel with
  | O => Done p
  | S fuel' =>
      match next_line p with
      | None => Done p
      | Some (l, q) =>
          do* (if match_re pattern l then do* sys (Cwrite 1 (l ++ [10])) in Done tt else Done tt) in
          print_lines fuel' pattern q
      end
  end.

Definition grep_fd {turns : Turns} (pattern : list Z) (fd : Z) : prog unit :=
  do* while_read max_turns fd (fun buf => 1024 - Z.of_nat (length buf) - 1) (fun buf chunk =>
    let b := buf ++ chunk in
    let* p := print_lines (S (length b)) pattern b in
    Done (if (length p =? length b)%nat then [] else p)) [] in
  Done tt.

Fixpoint grep_files {turns : Turns} (pattern : list Z) (argv : list (list Z)) : prog unit :=
  match argv with
  | [] => Exited
  | a :: argv' =>
      let* fd := sys (Copen a 0) in
      if fd <? 0 then do* printf 1 (line "grep: cannot open %s") [VStr (Some a)] in Exited
      else do* grep_fd pattern fd in do* sys (Cclose fd) in grep_files pattern argv'
  end.
Definition main {turns : Turns} (argv : list (list Z)) : prog unit :=
  match argv with
  | [] => do* printf 2 (line "usage: grep pattern [file ...]") [] in Exited
  | [pattern] => do* grep_fd pattern 0 in Exited
  | pattern :: files => grep_files pattern files
  end.
End GrepMain.

(** ** [ls.c] *)

Module Ls.
(** The index after the last slash before [i]. *)
Fixpoint after_slash (path : list Z) (i : nat) : nat :=
  match i with
  | O => O
  | S i' => if bool_decide (path !! i' = Some 47) then i else after_slash path i'
  end.

Definition fmtname (path : list Z) : list Z :=
  let p := drop (after_slash path (length path)) path in
  if (DIRSIZ <=? length p)%nat then p else p ++ replicate (DIRSIZ - length p) 32.

(** [struct stat] in the buffer of a call. *)
Definition st_ino (a : answer) : Z := lget32 (a_buf a) 4.
Definition st_type (a : answer) : Z := i16 (lget16 (a_buf a) 8).
Definition st_size (a : answer) : Z := lget32 (a_buf a) 12.

Definition print_entry (path : list Z) (st : answer) : prog unit :=
  printf 1 (line "%s %d %d %d") [VStr (Some (fmtname path)); VInt (st_type st); VInt (st_ino st); VInt (st_size st)].

(** The loop over the entries of a directory. *)
Fixpoint ls_entries (turns : nat) (fd : Z) (path : list Z) : prog unit :=
  match turns with
  | O => Late
  | S turns' =>
      let* r := ask (Cread fd SIZEOF_DIRENT) in
      if a_ret r =? SIZEOF_DIRENT then
        if lget16 (a_buf r) 0 =? 0 then ls_entries turns' fd path
        else
          let buf := path ++ [47] ++ until_zero (lsub (a_buf r) 2 14) in
          let* st := ustat buf in
          do* (if a_ret st <? 0 then printf 1 (line "ls: cannot stat %s") [VStr (Some buf)] else print_entry buf st) in
          ls_entries turns' fd path
      else Done tt
  end.

Definition ls {turns : Turns} (path : list Z) : prog unit :=
  let* fd := sys (Copen path O_RDONLY) in
  if fd <? 0 then printf 2 (line "ls: cannot open %s") [VStr (Some path)]
  else
    let* st := ask (Cfstat fd) in
    if a_ret st <? 0 then
      do* printf 2 (line "ls: cannot stat %s") [VStr (Some path)] in
      do* sys (Cclose fd) in Done tt
    else
      do* (if st_type st =? T_FILE then print_entry path st
           else if st_type st =? T_DIR then
             if 512 <? Z.of_nat (length path) + 1 + Z.of_nat DIRSIZ + 1 then printf 1 (line "ls: path too long") []
             else ls_entries max_turns fd path
           else Done tt) in
      do* sys (Cclose fd) in Done tt.

Fixpoint ls_all {turns : Turns} (argv : list (list Z)) : prog unit :=
  match argv with [] => Exited | a :: argv' => do* ls a in ls_all argv' end.
Definition main {turns : Turns} (argv : list (list Z)) : prog unit :=
  match argv with [] => do* ls (str ".") in Exited | _ => ls_all argv end.
End Ls.

(** ** Small commands *)

Module Cmds.
Definition number (s : list Z) : Z := default 0 (atoi (s ++ [0])).

Fixpoint kill_all (argv : list (list Z)) : prog unit :=
  match argv with [] => Exited | a :: argv' => do* sys (Ckill (number a)) in kill_all argv' end.
Definition kill_main (argv : list (list Z)) : prog unit :=
  match argv with [] => do* printf 2 (line "usage: kill pid...") [] in Exited | _ => kill_all argv end.

Definition ln_main (argv : list (list Z)) : prog unit :=
  match argv with
  | [old; new] =>
      let* r := sys (Clink old new) in
      do* (if r <? 0 then printf 2 (line "link %s %s: failed") [VStr (Some old); VStr (Some new)] else Done tt) in
      Exited
  | _ => do* printf 2 (line "Usage: ln old new") [] in Exited
  end.

(** The loops of [mkdir] and [rm], which stop at the first failure. *)
Fixpoint each_file (c : list Z -> call) (msg : list Z) (argv : list (list Z)) : prog unit :=
  match argv with
  | [] => Exited
  | a :: argv' =>
      let* r := sys (c a) in
      if r <? 0 then do* printf 2 msg [VStr (Some a)] in Exited else each_file c msg argv'
  end.
Definition mkdir_main (argv : list (list Z)) : prog unit :=
  match argv with
  | [] => do* printf 2 (line "Usage: mkdir files...") [] in Exited
  | _ => each_file Cmkdir (line "mkdir: %s failed to create") argv
  end.
Definition rm_main (argv : list (list Z)) : prog unit :=
  match argv with
  | [] => do* printf 2 (line "Usage: rm files...") [] in Exited
  | _ => each_file Cunlink (line "rm: %s failed to delete") argv
  end.

Definition zombie_main : prog unit :=
  let* pid := sys Cfork in
  do* (if 0 <? pid then do* sys (Csleep 5) in Done tt else Done tt) in
  Exited.

Definition setpolicy_main (argv : list (list Z)) : prog unit :=
  match argv with
  | [a] =>
      let* r := sys (Csetpolicy (number a)) in
      do* (if r <? 0 then printf 1 (line "setpolicy failed") [] else Done tt) in
      Exited
  | _ => do* printf 1 (line "usage: setpolicy {0|1|2}") [] in Exited
  end.

Definition settickets_main (argv : list (list Z)) : prog unit :=
  match argv with
  | [a] =>
      let* r := sys (Csettickets (number a)) in
      do* (if r <? 0 then printf 1 (line "settickets failed") [] else Done tt) in
      Exited
  | _ => do* printf 1 (line "usage: settickets N") [] in Exited
  end.
End Cmds.

(** ** [init.c] *)

Module Init.
(** The wait for the shell: other children are zombies handed over by [exit]. *)
Fixpoint reap (turns : nat) (pid : Z) : prog unit :=
  match turns with
  | O => Late
  | S turns' =>
      let* wpid := sys Cwait in
      if ((0 <=? wpid) && negb (wpid =? pid))%bool then do* printf 1 (line "zombie!") [] in reap turns' pid else Done tt
  end.

Fixpoint supervise {turns : Turns} (n : nat) : prog unit :=
  match n with
  | O => Late
  | S n' =>
      do* printf 1 (line "init: starting sh") [] in
      let* pid := sys Cfork in
      if pid <? 0 then do* printf 1 (line "init: fork failed") [] in Exited
      else if pid =? 0 then
        do* sys (Cexec (str "sh") [str "sh"]) in
        do* printf 1 (line "init: exec sh failed") [] in Exited
      else do* reap max_turns pid in supervise n'
  end.

Definition main {turns : Turns} : prog unit :=
  let* fd := sys (Copen (str "console") O_RDWR) in
  do* (if fd <? 0 then
         do* sys (Cmknod (str "console") 1 1) in
         do* sys (Copen (str "console") O_RDWR) in Done tt
       else Done tt) in
  do* sys (Cdup 0) in
  do* sys (Cdup 0) in
  supervise max_turns.
End Init.

(** ** Process statistics *)

Module Stats.
(** The entry for slot [i] of an array of [struct pstat]. *)
Definition field (ps : list Z) (k i : Z) : Z := i32 (lget32 ps (4 * (Z.of_nat NPROC * k + i))).
Definition name (ps : list Z) (i : Z) : list Z := until_zero (lsub ps (PSTAT_name i) 16).

Fixpoint rows (row : Z -> prog unit) (ps : list Z) (slots : list Z) : prog unit :=
  match slots with
  | [] => Exited
  | i :: slots' => do* (if field ps PSTAT_inuse i =? 0 then Done tt else row i) in rows row ps slots'
  end.

Definition TAB : list Z := [9].
Definition pstats_row (ps : list Z) (i : Z) : prog unit :=
  printf 1 (str "%d" ++ TAB ++ str "%d" ++ TAB ++ str "%d" ++ TAB ++ str "%d" ++ TAB ++ line "%d")
    [VInt (field ps PSTAT_pid i); VInt (field ps PSTAT_tickets i); VInt (field ps PSTAT_rtime i);
     VInt (field ps PSTAT_retime i); VInt (field ps PSTAT_stime i)].
Definition pstats_main : prog unit :=
  let* r := ask Cgetpinfo in
  if a_ret r <? 0 then do* printf 1 (line "getpinfo failed") [] in Exited
  else
    do* printf 1 (str "PID" ++ TAB ++ str "Tickets" ++ TAB ++ str "Rtime" ++ TAB ++ str "Retime" ++ TAB ++ line "Stime") [] in
    rows (pstats_row (a_buf r)) (a_buf r) (seqZ 0 (Z.of_nat NPROC)).

Definition stname (s : Z) : list Z :=
  if s =? 0 then str "UNUSED" else if s =? 1 then str "EMBRYO" else if s =? 2 then str "SLEEP "
  else if s =? 3 then str "RUNNBL" else if s =? 4 then str "RUN   " else if s =? 5 then str "ZOMBIE" else str "UNK   ".
Definition pinfo_fmt : list Z := line "%-5d %-6s  %-7d %-5d %-3d %-3d %-3d %-4d %-4d %s".
Definition pinfo_row (ps : list Z) (i : Z) : prog unit :=
  printf 1 pinfo_fmt
    [VInt (field ps PSTAT_pid i); VStr (Some (stname (field ps PSTAT_state i)));
     VInt (field ps PSTAT_tickets i); VInt (field ps PSTAT_original_tickets i);
     VInt (field ps PSTAT_rtime i); VInt (field ps PSTAT_stime i); VInt (field ps PSTAT_retime i);
     VInt (field ps PSTAT_ctime i); VInt (field ps PSTAT_etime i); VStr (Some (name ps i))].
Definition pinfo_main : prog unit :=
  let* r := ask Cgetpinfo in
  if a_ret r <? 0 then do* printf 1 (line "pinfo: getpinfo failed") [] in Exited
  else
    do* printf 1 (line "PID   STATE   TICKETS ORIG  R   S   Q   CT   ET   NAME") [] in
    rows (pinfo_row (a_buf r)) (a_buf r) (seqZ 0 (Z.of_nat NPROC)).
End Stats.
