(* ===== verification/ToolsSpec.v ===== *)
(** What the commands print, for any pieces in which the kernel delivers the files. *)

From S2P Require Import Prelude Params Mem CString Machine Console Proc Grep User Tools.
Local Open Scope prog_scope.

(** ** Output *)

(** The bytes written to a descriptor. *)
Definition output (fd : Z) (o : list (Z * list Z)) : list Z := concat (snd <$> filter (fun x => x.1 = fd) o).

Lemma output_app fd o1 o2 : output fd (o1 ++ o2) = output fd o1 ++ output fd o2.
Proof. unfold output. by rewrite filter_app, fmap_app, concat_app. Qed.

Lemma output_one fd b : output fd [(fd, b)] = b.
Proof. unfold output. rewrite filter_cons_True by done. cbn. apply app_nil_r. Qed.

Lemma output_say fd s w : output fd (w_out (say fd s w)) = output fd (w_out w) ++ (u8 <$> s).
Proof.
  unfold say. cbn [w_out]. rewrite output_app. f_equal. induction s as [| c s IH]; [done |]. rewrite fmap_cons. 
  change (output fd ([(fd, [u8 c])] ++ ((fun c => (fd, [u8 c])) <$> s)) = u8 c :: (u8 <$> s)). by rewrite output_app, output_one, IH.
Qed.

(** [printf] of strings and numbers that are bytes already. *)
Lemma run_printf_out fd fmt ap s w :
  utext fmt ap = Some s ->
  exists o, run (printf fd fmt ap) w = (Returned tt, {| w with w_out := o |}) /\ output fd o = output fd (w_out w) ++ (u8 <$> s).
Proof. intros Ht. exists (w_out (say fd s w)). split; [by apply run_printf | apply output_say]. Qed.

(** ** Opening a list of files in turn *)

(** The loop of [main] in [cat], [wc] and [grep]: what is printed for the files up to
    the first one that cannot be opened, and the message for that one. *)
Fixpoint each_text (files : list Z -> option stream) (text : list Z -> list Z -> list Z) (missing : list Z -> list Z) (argv : list (list Z)) : list Z :=
  match argv with
  | [] => []
  | a :: argv' =>
      match files a with
      | Some st => text a (bytes_of st) ++ each_text files text missing argv'
      | None => missing a
      end
  end.

Section EachFile.
Context (prog_files : list (list Z) -> prog unit) (one : Z -> list Z -> prog unit) (missing : list Z -> list Z).
Context (text : list Z -> list Z -> list Z) (fits : nat).
Context (Hnil : prog_files [] = Exited).
Context (Hcons : forall a argv, prog_files (a :: argv) =
  let* fd := sys (Copen a 0) in
  if fd <? 0 then do* printf 1 (missing a) [VStr (Some a)] in Exited
  else do* one fd a in do* sys (Cclose fd) in prog_files argv).
Context (Hmissing : forall a, exists s, utext (missing a) [VStr (Some a)] = Some s).

(** What one file does, on an open descriptor. *)
Context (Hone : forall (fd : nat) a st w, w_fds w !! fd = Some (Some st) -> readable st -> (length (bytes_of st) < fits)%nat ->
  exists o, run (one (Z.of_nat fd) a) w = (Returned tt, {| w with w_fds := <[fd := Some []]> (w_fds w); w_out := o |}) /\
    output 1 o = output 1 (w_out w) ++ text a (bytes_of st)).

Lemma each_file_ok argv : forall w,
  (exists i, w_fds w !! i = Some None) -> Forall (fun a => forall st, w_files w a = Some st -> readable st /\ (length (bytes_of st) < fits)%nat) argv ->
  exists w', run (prog_files argv) w = (ByExit, w') /\
    output 1 (w_out w') = output 1 (w_out w) ++
      each_text (w_files w) text (fun a => u8 <$> default [] (utext (missing a) [VStr (Some a)])) argv.
Proof using Hnil Hcons Hmissing Hone.
  induction argv as [| a argv IH]; intros w Hroom Hargv.
  { rewrite Hnil. exists w. cbn. by rewrite app_nil_r. }
  apply Forall_cons in Hargv as [Ha Hargv]. rewrite Hcons. cbn [each_text].
  destruct (list_find (fun o => o = None) (w_fds w)) as [[fd x] |] eqn:Ef.
  2: { apply list_find_None in Ef. destruct Hroom as [i Hi]. pose proof (Forall_lookup_1 _ _ _ _ Ef Hi). done. }
  apply list_find_Some in Ef as (Hfd & -> & Hmin).
  destruct (w_files w a) as [st |] eqn:Efile.
  - destruct (Ha st eq_refl) as [Hr Hf].
    set (w1 := {| w with w_fds := <[fd := Some st]> (w_fds w) |}).
    assert (run (sys (Copen a 0)) w = (Returned (Z.of_nat fd), w1)) as Eo.
    { unfold sys. cbn [run kernel]. rewrite Efile.
      assert (list_find (fun o => o = None) (w_fds w) = Some (fd, None)) as -> by (by apply list_find_Some). done. }
    rewrite (run_then _ _ _ _ _ Eo). rewrite (proj2 (Z.ltb_ge _ _)) by lia.
    pose proof (lookup_lt_Some _ _ _ Hfd) as Hlt.
    destruct (Hone fd a st w1) as (o & E1 & Ho); [cbn; by apply list_lookup_insert_eq | done | done |].
    rewrite (run_then _ _ _ _ _ E1). unfold sys. cbn [pbind run kernel]. rewrite Nat2Z.id. cbn.
    destruct (IH {| w with w_fds := <[fd := None]> (<[fd := Some []]> (<[fd := Some st]> (w_fds w))); w_out := o |}) as (w' & E & Hw').
    + exists fd. cbn. rewrite list_insert_insert_eq, list_insert_insert_eq. by apply list_lookup_insert_eq.
    + done.
    + exists w'. split; [exact E |]. rewrite Hw'. cbn [w_out w_files]. rewrite Ho. cbn [w_out w1]. by rewrite <- app_assoc.
  - assert (run (sys (Copen a 0)) w = (Returned (-1), w)) as Eo by (unfold sys; cbn [run kernel]; by rewrite Efile).
    rewrite (run_then _ _ _ _ _ Eo). cbn [Z.ltb Z.compare]. destruct (Hmissing a) as [s Hs].
    destruct (run_printf_out 1 _ _ s w Hs) as (o & E & Ho). rewrite (run_then _ _ _ _ _ E). cbn [run]. eexists. split; [reflexivity |]. cbn [w_out].
    by rewrite Ho, Hs.
Qed.
End EachFile.

(** ** [cat] *)

Section CatSpec.
Context {turns : Turns}.

Lemma cat_ok (fd : nat) st w :
  w_fds w !! fd = Some (Some st) -> readable st -> (length (bytes_of st) < max_turns)%nat ->
  exists o, run (Cat.cat (Z.of_nat fd)) w = (Returned tt, {| w with w_fds := <[fd := Some []]> (w_fds w); w_out := o |}) /\
    output 1 o = output 1 (w_out w) ++ bytes_of st.
Proof.
  intros Hfd Hr Ht. unfold Cat.cat.
  destruct (while_read_ok (fun read (_ : unit) o => output 1 o = output 1 (w_out w) ++ read) fd (fun _ => 512) (fun _ buf =>
    let* m := sys (Cwrite 1 buf) in
    if negb (m =? Z.of_nat (length buf)) then do* printf 1 (line "cat: write error") [] in Exited
    else Done tt)) with (turns := max_turns) (st := st) (read := @nil Z) (s := tt) (w := w) as ([] & o & E & Ho); try done.
  - intros read [] w1 c Hi Hc Hl. exists tt, (w_out w1 ++ [(1, c)]). unfold sys. cbn [pbind run kernel a_ret]. rewrite Z.eqb_refl. cbn [negb run].
    split; [done |]. by rewrite output_app, output_one, Hi, app_assoc.
  - by rewrite app_nil_r.
  - exists o. rewrite (run_then _ _ _ _ _ E). done.
Qed.

(** [cat] prints the contents of its files one after the other, whatever the pieces in
    which they are read, up to the first file that cannot be opened. *)
Theorem cat_spec argv w :
  argv <> [] -> (exists i, w_fds w !! i = Some None) ->
  Forall (fun a => forall st, w_files w a = Some st -> readable st /\ (length (bytes_of st) < max_turns)%nat) argv ->
  exists w', run (Cat.main argv) w = (ByExit, w') /\
    output 1 (w_out w') = output 1 (w_out w) ++
      each_text (w_files w) (fun _ b => b) (fun a => u8 <$> str "cat: cannot open " ++ a ++ [10]) argv.
Proof.
  intros Hne Hroom Hargv. destruct argv as [| a argv]; [done |].
  exact (each_file_ok Cat.cat_files (fun fd _ => Cat.cat fd) (fun _ => line "cat: cannot open %s") (fun _ b => b) max_turns eq_refl (fun _ _ => eq_refl)
    (fun a => ex_intro _ _ eq_refl) (fun fd _ st w => cat_ok fd st w) (a :: argv) w Hroom Hargv).
Qed.
End CatSpec.

(** ** [wc] *)

Section WcSpec.
Import Wc.

Definition newlines (l : list Z) : nat := length (filter (fun c => c = 10) l).

(** A word starts at a character that is not blank and has a blank or nothing before it. *)
Definition starts_word (l : list Z) (i : nat) : bool :=
  match l !! i with
  | Some c => negb (blank c) && match i with O => true | S j => match l !! j with Some d => blank d | None => true end end
  | None => false
  end.
Definition words_in (l : list Z) : nat := length (filter (fun i => starts_word l i = true) (seq 0 (length l))).

Definition ends_in_word (l : list Z) : bool := match last l with Some c => negb (blank c) | None => false end.

Lemma starts_word_app l c i : (i < length l)%nat -> starts_word (l ++ [c]) i = starts_word l i.
Proof.
  intros Hi. unfold starts_word. rewrite lookup_app_l by done. destruct (l !! i); [| done]. destruct i as [| j]; [done |].
  by rewrite lookup_app_l by lia.
Qed.

Lemma filter_bool_ext (f g : nat -> bool) (l : list nat) :
  Forall (fun i => f i = g i) l -> filter (fun i => f i = true) l = filter (fun i => g i = true) l.
Proof.
  induction l as [| i l IH]; [done |]. intros [Hi Hl]%Forall_cons. rewrite !filter_cons, IH by done. by rewrite Hi.
Qed.

Lemma words_snoc l c : words_in (l ++ [c]) = (words_in l + (if negb (blank c) && negb (ends_in_word l) then 1 else 0))%nat.
Proof.
  unfold words_in. rewrite length_app, seq_app, filter_app, length_app. cbn [length seq Nat.add].
  rewrite (filter_bool_ext (starts_word (l ++ [c])) (starts_word l)).
  2: { apply Forall_forall. intros i Hi. apply elem_of_seq in Hi. apply starts_word_app. lia. }
  f_equal. rewrite filter_cons, filter_nil.
  assert (starts_word (l ++ [c]) (length l) = (negb (blank c) && negb (ends_in_word l))%bool) as ->; [| by destruct (_ && _)%bool].
  unfold starts_word, ends_in_word. rewrite lookup_app_r, Nat.sub_diag by lia. cbn [lookup list_lookup]. f_equal. rewrite last_lookup.
  destruct (length l) as [| j] eqn:El; [by apply nil_length_inv in El as -> |]. cbn [Nat.pred].
  rewrite lookup_app_l by lia. destruct (l !! j); [by rewrite negb_involutive | done].
Qed.

Lemma ends_in_word_snoc l c : ends_in_word (l ++ [c]) = negb (blank c).
Proof. unfold ends_in_word. by rewrite last_snoc. Qed.

Lemma newlines_snoc l c : newlines (l ++ [c]) = (newlines l + (if (c =? 10)%Z then 1 else 0))%nat.
Proof.
  unfold newlines. rewrite filter_app, length_app, filter_cons, filter_nil. destruct (Z.eqb_spec c 10); [by rewrite decide_True | by rewrite decide_False].
Qed.

Lemma newlines_le l : (newlines l <= length l)%nat.
Proof. apply length_filter. Qed.
Lemma words_le l : (words_in l <= length l)%nat.
Proof. unfold words_in. etrans; [apply length_filter |]. by rewrite length_seq. Qed.

(** Counting byte by byte gives the numbers of lines, words and characters. *)
Lemma count_ok l : Z.of_nat (length l) <= INT_MAX ->
  foldl count (mkCounts 0 0 0 false) l = mkCounts (Z.of_nat (newlines l)) (Z.of_nat (words_in l)) (Z.of_nat (length l)) (ends_in_word l).
Proof.
  induction l as [| c l IH] using rev_ind; [done |]. intros Hl. rewrite foldl_snoc, IH by (rewrite length_app in Hl; lia).
  pose proof (newlines_le (l ++ [c])) as Hn. pose proof (words_le (l ++ [c])) as Hw. rewrite newlines_snoc in Hn. rewrite words_snoc in Hw.
  rewrite newlines_snoc, words_snoc, ends_in_word_snoc. rewrite length_app in *. cbn [length] in *. unfold count, INT_MAX in *. cbn [n_c n_l n_w inword].
  assert (forall n, 0 <= n <= 2147483647 -> i32 n = n) as Hi by (intros n Hr; apply i32_small; unfold is_i32; lia).
  destruct (c =? 10), (blank c), (ends_in_word l); cbn [negb andb n_c n_l n_w inword] in *; f_equal; try (rewrite Hi by lia); lia.
Qed.

Lemma utext_wc a b c s :
  utext (line "%d %d %d %s") [VInt a; VInt b; VInt c; VStr (Some s)] =
  Some (int_chars (i32 a) 10 true ++ [32] ++ int_chars (i32 b) 10 true ++ [32] ++ int_chars (i32 c) 10 true ++ [32] ++ s ++ [10]).
Proof. lazy -[int_chars i32]. reflexivity. Qed.

Definition decimal (n : nat) : list Z := int_chars (Z.of_nat n) 10 true.
Definition wc_line (name l : list Z) : list Z :=
  decimal (newlines l) ++ [32] ++ decimal (words_in l) ++ [32] ++ decimal (length l) ++ [32] ++ name ++ [10].

Context {turns : Turns}.

Lemma wc_ok (fd : nat) name st w :
  w_fds w !! fd = Some (Some st) -> readable st -> (length (bytes_of st) < Nat.min max_turns (Z.to_nat INT_MAX))%nat ->
  exists o, run (Wc.wc (Z.of_nat fd) name) w = (Returned tt, {| w with w_fds := <[fd := Some []]> (w_fds w); w_out := o |}) /\
    output 1 o = output 1 (w_out w) ++ (u8 <$> wc_line name (bytes_of st)).
Proof.
  intros Hfd Hr Ht. unfold wc. set (n0 := mkCounts 0 0 0 false).
  destruct (while_read_ok (fun read s o => (s = foldl count n0 read) /\ (o = w_out w)) fd (fun _ => 512) (fun n buf => Done (foldl count n buf)))
    with (turns := max_turns) (st := st) (read := @nil Z) (s := n0) (w := w) as (s & o & E & Hs & Ho); try done; [| lia |].
  - intros read s w1 c [-> Hw1] Hc Hl. exists (foldl count (foldl count n0 read) c), (w_out w1). cbn [run]. split; [by destruct w1 |]. by rewrite foldl_app.
  - rewrite (run_then _ _ _ _ _ E). cbn [fst snd Z.ltb Z.compare]. subst o. rewrite Hs. cbn [app]. rewrite count_ok by (unfold INT_MAX in *; lia).
    cbn [n_l n_w n_c]. set (w1 := {| w with w_fds := _ |}).
    assert (forall n, (n <= length (bytes_of st))%nat -> i32 (Z.of_nat n) = Z.of_nat n) as Hi
      by (intros n Hn; apply i32_small; unfold is_i32, INT_MAX in *; lia).
    pose proof (newlines_le (bytes_of st)). pose proof (words_le (bytes_of st)).
    destruct (run_printf_out 1 (line "%d %d %d %s") [VInt (Z.of_nat (newlines (bytes_of st))); VInt (Z.of_nat (words_in (bytes_of st)));
      VInt (Z.of_nat (length (bytes_of st))); VStr (Some name)] (wc_line name (bytes_of st)) w1) as (o & E1 & Ho).
    + rewrite utext_wc, !Hi by lia. done.
    + exists o. split; [exact E1 | exact Ho].
Qed.
End WcSpec.

(** C33: [wc] prints, for each of its files, the numbers of lines, words and characters
    of the whole file and its name, whatever the pieces in which the kernel delivers
    the bytes; a word that is split between two reads counts once.  At the first
    file that cannot be opened it prints a message and stops. *)
Theorem wc_spec {turns : Turns} argv w :
  argv <> [] -> (exists i, w_fds w !! i = Some None) ->
  Forall (fun a => forall st, w_files w a = Some st ->
    readable st /\ (length (bytes_of st) < Nat.min max_turns (Z.to_nat INT_MAX))%nat) argv ->
  exists w', run (Wc.main argv) w = (ByExit, w') /\
    output 1 (w_out w') = output 1 (w_out w) ++
      each_text (w_files w) (fun a b => u8 <$> wc_line a b) (fun a => u8 <$> str "wc: cannot open " ++ a ++ [10]) argv.
Proof.
  intros Hne Hroom Hargv. destruct argv as [| a argv]; [done |].
  exact (each_file_ok Wc.wc_files Wc.wc (fun _ => line "wc: cannot open %s") (fun a b => u8 <$> wc_line a b) _ eq_refl (fun _ _ => eq_refl)
    (fun a => ex_intro _ _ eq_refl) wc_ok (a :: argv) w Hroom Hargv).
Qed.

(** "ab cd" in two reads, the second word cut in the middle, and a file that is missing. *)
Definition two_reads (a : list Z) : option stream := if decide (a = str "f") then Some [Some (str "ab c"); Some (str "d" ++ [10])] else None.

Lemma wc_spec_witness :
  exists w', run (@Wc.main 100%nat [str "f"; str "g"]) (mkWorld two_reads [Some []; Some []; Some []; None] [] []) = (ByExit, w') /\
    output 1 (w_out w') = str "1 2 6 f" ++ [10] ++ str "wc: cannot open g" ++ [10].
Proof.
  destruct (@wc_spec 100%nat [str "f"; str "g"] (mkWorld two_reads [Some []; Some []; Some []; None] [] [])) as (w' & E & Ho).
  - done.
  - by exists 3%nat.
  - apply Forall_forall. intros a _ st Hst. cbn in Hst. unfold two_reads in Hst. destruct (decide _); [| done]. injection Hst as <-.
    split; [repeat constructor; by eexists |]. apply Nat.min_glb_lt; [vm_compute; lia |]. change (length _) with 6%nat. unfold INT_MAX. lia.
  - exists w'. split; [exact E |]. rewrite Ho. vm_compute. reflexivity.
Defined.

(** ** [echo] *)

Fixpoint joined (argv : list (list Z)) : list Z :=
  match argv with [] => [] | [a] => a ++ [10] | a :: argv' => a ++ [32] ++ joined argv' end.

(** [echo] prints its arguments, a blank between them and a newline at the end; without
    arguments it prints nothing at all. *)
Theorem echo_spec argv : forall w, run (Echo.main argv) w = (ByExit, say 1 (joined argv) w).
Proof.
  induction argv as [| a argv IH]; intros w; cbn [Echo.main joined]; [by rewrite say_nil |].
  set (sep := match argv with [] => [10] | _ => [32] end).
  assert (utext (str "%s%s") [VStr (Some a); VStr (Some sep)] = Some (a ++ sep ++ [])) as Ht by reflexivity.
  rewrite (run_then _ _ _ _ _ (run_printf 1 _ _ _ w Ht)), IH, say_app, app_nil_r. unfold sep. destruct argv as [| b argv]; [by rewrite app_nil_r |].
  by rewrite <- app_assoc.
Qed.

(** ** [grep] *)

(** Printing the lines of the buffer that match. *)
Lemma print_lines_ok fuel pattern : forall p w,
  exists o, run (GrepMain.print_lines fuel pattern p) w = (Returned (grep_lines fuel pattern p).2, {| w with w_out := o |}) /\
    output 1 o = output 1 (w_out w) ++ (grep_lines fuel pattern p).1.
Proof.
  induction fuel as [| fuel IH]; intros p w; cbn [GrepMain.print_lines grep_lines]; [exists (w_out w); cbn; rewrite app_nil_r; by destruct w |].
  destruct (next_line p) as [[l q] |]; [| exists (w_out w); cbn; rewrite app_nil_r; by destruct w].
  destruct (grep_lines fuel pattern q) as [out rest] eqn:Eg. specialize (IH q). rewrite Eg in IH. cbn [fst snd] in *.
  destruct (match_re pattern l); cbn [pbind app].
  - unfold sys. cbn [pbind run kernel a_ret]. destruct (IH {| w with w_out := w_out w ++ [(1, l ++ [10])] |}) as (o & E & Ho).
    exists o. split; [exact E |]. rewrite Ho. cbn [w_out]. rewrite output_app, output_one, <- !app_assoc. done.
  - apply IH.
Qed.

(** The program of [grep] on an open file does what [Grep.grep] says, for the sizes of
    the reads it gets. *)
Theorem grep_runs {turns : Turns} pattern (fd : nat) st w :
  w_fds w !! fd = Some (Some st) -> readable st -> (length (bytes_of st) < max_turns)%nat ->
  exists reads w', run (GrepMain.grep_fd pattern (Z.of_nat fd)) w = (Returned tt, w') /\
    output 1 (w_out w') = output 1 (w_out w) ++ Grep.grep pattern reads [] (bytes_of st).
Proof.
  unfold GrepMain.grep_fd. set (size := fun buf : list Z => 1024 - Z.of_nat (length buf) - 1). set (body := fun buf chunk => _).
  assert (forall n st buf w, w_fds w !! fd = Some (Some st) -> readable st -> (length (bytes_of st) < n)%nat ->
    exists reads r w', run (while_read n (Z.of_nat fd) size body buf) w = (Returned r, w') /\
      output 1 (w_out w') = output 1 (w_out w) ++ Grep.grep pattern reads buf (bytes_of st)) as Hloop.
  2: { intros Hfd Hr Ht. destruct (Hloop max_turns st [] w Hfd Hr Ht) as (reads & r & w' & E & Ho). exists reads, w'. by rewrite (run_then _ _ _ _ _ E). }
  clear. induction n as [| n IH]; intros st buf w Hfd Hr Ht; [lia |]. cbn [while_read].
  assert (forall a st', deliver (Z.to_nat (size buf)) st = (a, st') ->
            run (ask (Cread (Z.of_nat fd) (size buf))) w = (Returned a, {| w with w_fds := <[fd := Some st']> (w_fds w) |})) as Hask.
  { intros a st' E. unfold ask. cbn [run kernel]. rewrite (proj2 (Z.ltb_ge _ _)), Nat2Z.id, Hfd by lia. cbn [mjoin option_join]. by rewrite E. }
  destruct (deliver (Z.to_nat (size buf)) st) as [a st'] eqn:Ed. rewrite (run_then _ _ _ _ _ (Hask _ _ eq_refl)).
  assert (Hstop : a_ret a = 0 -> exists reads r w', run (if 0 <? a_ret a then
      let* s := body buf (take (Z.to_nat (a_ret a)) (a_buf a)) in while_read n (Z.of_nat fd) size body s else Done (a_ret a, buf))
      {| w with w_fds := <[fd := Some st']> (w_fds w) |} = (Returned r, w') /\
      output 1 (w_out w') = output 1 (w_out w) ++ Grep.grep pattern reads buf (bytes_of st)).
  { intros ->. exists []. cbn. eexists _, _. split; [reflexivity |]. by rewrite app_nil_r. }
  destruct st as [| o st]; [injection Ed as <- <-; by apply Hstop |].
  destruct (decide (Z.to_nat (size buf) = 0)%nat) as [H0 |].
  { rewrite H0 in Ed. apply Forall_cons in Hr as [(c & -> & _) _]. injection Ed as <- <-. by apply Hstop. }
  destruct (deliver_ok (Z.to_nat (size buf)) (o :: st) Hr ltac:(lia) ltac:(done)) as (c & st2 & E & Hr' & Hb & Hl). rewrite E in Ed.
  injection Ed as <- <-. cbn [a_ret a_buf]. rewrite (proj2 (Z.ltb_lt _ _)), Nat2Z.id, firstn_all by lia. unfold body at 1.
  set (w1 := {| w with w_fds := _ |}). destruct (print_lines_ok (S (length (buf ++ c))) pattern (buf ++ c) w1) as (o1 & E1 & Ho1).
  rewrite run_bind, (run_then _ _ _ _ _ E1). cbn [run].
  destruct (grep_lines (S (length (buf ++ c))) pattern (buf ++ c)) as [out p] eqn:Eg. cbn [fst snd] in *.
  rewrite Hb, length_app in Ht.
  destruct (IH st2 (if (length p =? length (buf ++ c))%nat then [] else p) {| w1 with w_out := o1 |}) as (reads & r & w' & E2 & Ho2); [| done | lia |].
  { cbn. apply list_lookup_insert_eq. by apply lookup_lt_Some in Hfd. }
  exists (length c :: reads), r, w'. split; [exact E2 |]. rewrite Ho2. cbn [w_out]. rewrite Ho1. cbn [w_out w1]. rewrite <- app_assoc. f_equal.
  cbn [Grep.grep]. replace (Nat.min (length c) (BUFSZ - length buf - 1)) with (length c) by (unfold size, BUFSZ in *; lia).
  rewrite Hb, take_app_length, drop_app_length. destruct c as [| x c]; [cbn in Hl; lia |]. by rewrite Eg.
Qed.

(** ** Names in [ls] *)

Lemma after_slash_name dir nm i :
  Forall (fun c => c <> 47) nm -> (i <= length nm)%nat -> Ls.after_slash (dir ++ 47 :: nm) (length dir + 1 + i) = (length dir + 1)%nat.
Proof.
  intros Hn. induction i as [| i IH]; intros Hi.
  - rewrite Nat.add_0_r, Nat.add_1_r. cbn [Ls.after_slash]. rewrite bool_decide_eq_true_2; [done |]. by rewrite list_lookup_middle.
  - replace (length dir + 1 + S i)%nat with (S (length dir + 1 + i)) by lia. cbn [Ls.after_slash]. rewrite bool_decide_eq_false_2; [apply IH; lia |].
    rewrite lookup_app_r by lia. replace (length dir + 1 + i - length dir)%nat with (S i) by lia. cbn. intros E.
    exact (Forall_lookup_1 _ _ _ _ Hn E eq_refl).
Qed.

(** [fmtname] is the last element of the path, filled up with blanks to fourteen
    characters. *)
Theorem fmtname_spec dir nm :
  Forall (fun c => c <> 47) nm -> Ls.fmtname (dir ++ 47 :: nm) = nm ++ replicate (DIRSIZ - length nm) 32.
Proof.
  intros Hn. unfold Ls.fmtname. rewrite length_app. cbn [length]. replace (length dir + S (length nm))%nat with (length dir + 1 + length nm)%nat by lia.
  rewrite after_slash_name by done. rewrite drop_app_ge by lia.
  replace (length dir + 1 - length dir)%nat with 1%nat by lia. cbn [drop]. rewrite drop_0.
  destruct (Nat.leb_spec DIRSIZ (length nm)); [| done]. replace (DIRSIZ - length nm)%nat with 0%nat by lia. by rewrite app_nil_r.
Qed.

(** ** Process statistics *)

Section StatsSpec.
Import Stats.

Definition pstats_text (ps : list Z) (i : Z) : list Z :=
  int_chars (field ps PSTAT_pid i) 10 true ++ [9] ++ int_chars (field ps PSTAT_tickets i) 10 true ++ [9] ++
  int_chars (field ps PSTAT_rtime i) 10 true ++ [9] ++ int_chars (field ps PSTAT_retime i) 10 true ++ [9] ++
  int_chars (field ps PSTAT_stime i) 10 true ++ [10].

Lemma i32_field ps k i : i32 (field ps k i) = field ps k i.
Proof. apply i32_small, i32_range. Qed.

Lemma run_pstats_row ps i w : run (pstats_row ps i) w = (Returned tt, say 1 (pstats_text ps i) w).
Proof.
  apply run_printf. transitivity (Some (
    int_chars (i32 (field ps PSTAT_pid i)) 10 true ++ [9] ++ int_chars (i32 (field ps PSTAT_tickets i)) 10 true ++ [9] ++
    int_chars (i32 (field ps PSTAT_rtime i)) 10 true ++ [9] ++ int_chars (i32 (field ps PSTAT_retime i)) 10 true ++ [9] ++
    int_chars (i32 (field ps PSTAT_stime i)) 10 true ++ [10])).
  - lazy -[int_chars i32 field]. reflexivity.
  - by rewrite !i32_field.
Qed.

Definition in_use (ps : list Z) (i : Z) : bool := negb (field ps PSTAT_inuse i =? 0).

Lemma run_pstats_rows ps slots : forall w,
  run (rows (pstats_row ps) ps slots) w = (ByExit, say 1 (concat (pstats_text ps <$> filter (fun i => in_use ps i = true) slots)) w).
Proof.
  induction slots as [| i slots IH]; intros w; cbn [rows]; [by rewrite say_nil |]. destruct (field ps PSTAT_inuse i =? 0) eqn:Ei; cbn [pbind].
  - rewrite filter_cons_False by (unfold in_use; by rewrite Ei). apply IH.
  - rewrite filter_cons_True by (unfold in_use; by rewrite Ei). rewrite (run_then _ _ _ _ _ (run_pstats_row ps i w)), IH. by rewrite say_app.
Qed.

(** [pstats] prints a line with pid, tickets and times for each slot in use, in the
    order of the table. *)
Theorem pstats_spec ps w asks :
  w_ask w = mkAnswer 0 ps :: asks ->
  run pstats_main w = (ByExit, say 1 (str "PID" ++ [9] ++ str "Tickets" ++ [9] ++ str "Rtime" ++ [9] ++ str "Retime" ++ [9] ++ str "Stime" ++ [10] ++
    concat (pstats_text ps <$> filter (fun i => in_use ps i = true) (seqZ 0 (Z.of_nat NPROC)))) {| w with w_ask := asks |}).
Proof.
  intros Hask. unfold pstats_main, ask. cbn [pbind run kernel]. rewrite Hask. cbn [a_ret a_buf Z.ltb Z.compare].
  rewrite run_bind. erewrite run_printf by reflexivity. rewrite run_pstats_rows, say_app. reflexivity.
Qed.

(** [pinfo] has no useful line to print: [printf] does not know the conversions with a
    minus sign and a width, prints them as they are and takes no argument for them, so
    the only one it knows, [%s] at the end, takes the pid for a string.  The program
    dereferences it as soon as a slot is in use. *)
Theorem pinfo_wild ps w asks :
  w_ask w = mkAnswer 0 ps :: asks -> (exists i, 0 <= i < Z.of_nat NPROC /\ in_use ps i = true) -> exists w', run pinfo_main w = (ByFault, w').
Proof.
  intros Hask (i & Hi & Hu). unfold pinfo_main, ask. cbn [pbind run kernel]. rewrite Hask. cbn [a_ret a_buf Z.ltb Z.compare].
  rewrite run_bind. erewrite run_printf by reflexivity. match goal with |- context [run _ ?w0] => generalize w0 end.
  assert (i ∈ seqZ 0 (Z.of_nat NPROC)) as Hin by (apply elem_of_seqZ; lia). revert Hin. generalize (seqZ 0 (Z.of_nat NPROC)). clear Hask.
  induction l as [| j l IH]; intros Hin w1; [by apply not_elem_of_nil in Hin |]. cbn [rows].
  destruct (field ps PSTAT_inuse j =? 0) eqn:Ej; cbn [pbind].
  - apply IH. apply elem_of_cons in Hin as [Heq | Hin]; [| done]. subst j. unfold in_use in Hu. by rewrite Ej in Hu.
  - assert (exists w', run (pinfo_row ps j) w1 = (ByFault, w')) as (w' & E) by (by apply run_printf_wild). exists w'. by rewrite run_bind, E.
Qed.
End StatsSpec.
