(* ===== verification/Demos.v ===== *)
(** The test and demonstration programs [forktest.c], [stressfs.c], [fcfs_test.c],
    [lottery_test.c], [lotto.c] and [waitx_test.c].

    Loops that only compute, to keep a processor busy, have no calls and no result;
    what is left of them is the calls they make in between. *)

From S2P Require Import Prelude Params Mem CString Machine Console Proc User Tools ToolsSpec.
Local Open Scope prog_scope.

(** A call for each member of a list. *)
Fixpoint each {A} (l : list A) (f : A -> prog unit) : prog unit :=
  match l with [] => Done tt | x :: l' => do* f x in each l' f end.

Definition call_ (c : call) : prog unit := do* sys c in Done tt.

(** ** [forktest.c] *)

Module Forktest.
(** Its own [printf], which writes the string in one piece. *)
Definition print (fd : Z) (s : list Z) : prog unit := call_ (Cwrite fd s).

(** The number of processes made, [k] more being allowed. *)
Fixpoint forks (k : nat) (n : Z) : prog Z :=
  match k with
  | O => Done n
  | S k' =>
      let* pid := sys Cfork in
      if pid <? 0 then Done n else if pid =? 0 then Exited else forks k' (n + 1)
  end.

Fixpoint waits (n : nat) : prog unit :=
  match n with
  | O => Done tt
  | S n' =>
      let* r := sys Cwait in
      if r <? 0 then do* print 1 (line "wait stopped early") in Exited else waits n'
  end.

Definition N : Z := 1000.
Definition forktest : prog unit :=
  do* print 1 (line "fork test") in
  let* n := forks (Z.to_nat N) 0 in
  if n =? N then do* print 1 (line "fork claimed to work N times!") in Exited
  else
    do* waits (Z.to_nat n) in
    let* r := sys Cwait in
    if negb (r =? -1) then do* print 1 (line "wait got too many") in Exited
    else print 1 (line "fork test OK").
Definition main : prog unit := do* forktest in Exited.
End Forktest.

(** ** [stressfs.c] *)

Module Stressfs.
(** The forks: the value of [i] each process leaves the loop with. *)
Fixpoint spread (k : nat) (i : Z) : prog Z :=
  match k with
  | O => Done i
  | S k' => let* pid := sys Cfork in if 0 <? pid then Done i else spread k' (i + 1)
  end.

Definition main : prog unit :=
  let data := replicate 512 97 in
  do* printf 1 (line "stressfs starting") [] in
  let* i := spread 4 0 in
  do* printf 1 (line "write %d") [VInt i] in
  let path := str "stressfs" ++ [u8 (48 + i)] in
  let* fd := sys (Copen path (Z.lor O_CREATE O_RDWR)) in
  do* each (seqZ 0 20) (fun _ => call_ (Cwrite fd data)) in
  do* sys (Cclose fd) in
  do* printf 1 (line "read") [] in
  let* fd := sys (Copen path O_RDONLY) in
  do* each (seqZ 0 20) (fun _ => call_ (Cread fd 512)) in
  do* sys (Cclose fd) in
  do* sys Cwait in
  Exited.
End Stressfs.

(** ** Scheduling *)

(** The times [waitx] stores. *)
Definition wtime (a : answer) : Z := i32 (lget32 (a_buf a) 0).
Definition rtime (a : answer) : Z := i32 (lget32 (a_buf a) 4).

Module FcfsTest.
(** A child computes and exits; the parent has its pid. *)
Definition child : prog Z := let* pid := sys Cfork in if pid =? 0 then Exited else Done pid.

Definition main : prog unit :=
  let* r := sys (Csetpolicy 1) in
  if r <? 0 then do* printf 1 (line "fcfs: setpolicy failed") [] in Exited
  else
    let* a := child in
    do* sys (Csleep 10) in
    let* b := child in
    do* sys (Csleep 10) in
    let* c := child in
    let* p0 := sys Cwaitx in
    let* p1 := sys Cwaitx in
    let* p2 := sys Cwaitx in
    do* printf 1 (line "FCFS completion order: %d -> %d -> %d (expected: A:%d, B:%d, C:%d)")
      [VInt p0; VInt p1; VInt p2; VInt a; VInt b; VInt c] in
    do* sys (Csetpolicy 0) in
    Exited.
End FcfsTest.

Definition tix : list Z := [10; 20; 40].

(** The pairs of a slot and the index of the child that runs in it. *)
Definition matches (ps : list Z) (pids : list Z) : list (Z * nat) :=
  i ← seqZ 0 (Z.of_nat NPROC); k ← seq 0 3;
  if (negb (Stats.field ps PSTAT_inuse i =? 0) && bool_decide (pids !! k = Some (Stats.field ps PSTAT_pid i)))%bool
  then [(i, k)] else [].

Module LotteryTest.
(** The children spin for ever. *)
Fixpoint start (t : list Z) : prog (list Z) :=
  match t with
  | [] => Done []
  | x :: t' =>
      let* pid := sys Cfork in
      if pid =? 0 then do* sys (Csettickets x) in Late
      else let* r := start t' in Done (pid :: r)
  end.

(** [while(wait() > 0);] *)
Fixpoint wait_all (turns : nat) : prog unit :=
  match turns with O => Late | S turns' => let* r := sys Cwait in if 0 <? r then wait_all turns' else Done tt end.

Definition main {turns : Turns} : prog unit :=
  do* sys (Csetpolicy 2) in
  let* pids := start tix in
  do* sys (Csleep 500) in
  let* r := ask Cgetpinfo in
  do* (if a_ret r =? 0 then
         each (matches (a_buf r) pids) (fun ik =>
           let f k := VInt (Stats.field (a_buf r) k ik.1) in
           printf 1 (line "pid %d tickets=%d rtime=%d retime=%d stime=%d")
             [f PSTAT_pid; f PSTAT_tickets; f PSTAT_rtime; f PSTAT_retime; f PSTAT_stime])
       else Done tt) in
  do* each pids (fun p => call_ (Ckill p)) in
  do* wait_all max_turns in
  do* printf 1 (line "Lottery test done") [] in
  Exited.
End LotteryTest.

Module Lotto.
(** [cpu_bound]: it yields in every third turn. *)
Definition cpu_bound (loops : Z) : prog unit :=
  each (seqZ 0 loops) (fun i => if i mod 3 =? 0 then call_ Cyield else Done tt).

Fixpoint start (t : list Z) : prog (list Z) :=
  match t with
  | [] => Done []
  | x :: t' =>
      let* pid := sys Cfork in
      if pid <? 0 then do* printf 1 (line "lotto: fork failed") [] in Exited
      else if pid =? 0 then do* sys (Csettickets x) in do* cpu_bound 30 in Exited
      else let* r := start t' in Done (pid :: r)
  end.

Definition rtimes (ps pids : list Z) : list Z :=
  foldl (fun rt ik => <[snd ik := Stats.field ps PSTAT_rtime (fst ik)]> rt) [0; 0; 0] (matches ps pids).

Definition main : prog unit :=
  let* r := sys (Csetpolicy 2) in
  if r <? 0 then do* printf 1 (line "lotto: setpolicy failed") [] in Exited
  else
    let* pids := start tix in
    do* sys (Csleep 200) in
    let* r := ask Cgetpinfo in
    do* (if a_ret r =? 0 then
           do* printf 1 (line "tickets vs rtime (approx proportional):") [] in
           each (seq 0 3) (fun k =>
             printf 1 (line "pid=%d tickets=%d rtime=%d")
               [VInt (default 0 (pids !! k)); VInt (default 0 (tix !! k)); VInt (default 0 (rtimes (a_buf r) pids !! k))])
         else printf 1 (line "lotto: getpinfo failed") []) in
    do* each (seq 0 3) (fun _ => call_ Cwaitx) in
    do* sys (Csetpolicy 0) in
    Exited.
End Lotto.

Module WaitxTest.
(** [busy]: it yields once in a million turns. *)
Definition busy (loops : Z) : prog unit := each (seqZ 0 ((loops + 999999) / 1000000)) (fun _ => call_ Cyield).

(** The children, from [c] on. *)
Fixpoint children (k : nat) (c : Z) : prog unit :=
  match k with
  | O => Done tt
  | S k' =>
      let* pid := sys Cfork in
      if pid =? 0 then
        do* (if c mod 2 =? 0 then call_ (Csleep 20) else Done tt) in
        do* busy (i32 (10000000 + c * 5000000)) in Exited
      else children k' (c + 1)
  end.

(** The totals of waiting and running time over [k] children. *)
Fixpoint collect (k : nat) (total_w total_r : Z) : prog (Z * Z) :=
  match k with
  | O => Done (total_w, total_r)
  | S k' =>
      let* a := ask Cwaitx in
      do* printf 1 (line "child %d -> rtime=%d, wtime=%d, turnaround=%d")
        [VInt (a_ret a); VInt (rtime a); VInt (wtime a); VInt (i32 (rtime a + wtime a))] in
      collect k' (i32 (total_w + wtime a)) (i32 (total_r + rtime a))
  end.

Definition main (argv : list (list Z)) : prog unit :=
  let n := match argv with a :: _ => Cmds.number a | [] => 1 end in
  do* (if n <=? 1 then
         let* pid := sys Cfork in
         if pid =? 0 then do* busy 20000000 in Exited
         else
           let* a := ask Cwaitx in
           printf 1 (line "child %d finished -> rtime=%d, wtime=%d, turnaround=%d")
             [VInt (a_ret a); VInt (rtime a); VInt (wtime a); VInt (i32 (rtime a + wtime a))]
       else
         do* children (Z.to_nat n) 0 in
         let* t := collect (Z.to_nat n) 0 0 in
         printf 1 (line "avg wtime=%d, avg rtime=%d") [VInt (Z.quot t.1 n); VInt (Z.quot t.2 n)]) in
  Exited.
End WaitxTest.

(** ** Results *)

Definition pids_of (l : list Z) : list answer := (fun p => mkAnswer p []) <$> l.

Lemma run_ask c w a asks :
  match c with Cread _ _ | Cwrite _ _ | Copen _ _ | Cclose _ => False | _ => True end ->
  w_ask w = a :: asks -> run (sys c) w = (Returned (a_ret a), {| w with w_ask := asks |}).
Proof. intros Hc Ha. unfold sys. destruct c; try done; cbn [run kernel]; by rewrite Ha. Qed.

Lemma forks_ok pids asks : forall k n w,
  (length pids < k)%nat -> Forall (fun p => 0 < p) pids -> w_ask w = pids_of pids ++ mkAnswer (-1) [] :: asks ->
  run (Forktest.forks k n) w = (Returned (n + Z.of_nat (length pids)), {| w with w_ask := asks |}).
Proof.
  induction pids as [| p pids IH]; intros [| k] n w Hk Hp Ha; try (cbn in Hk; lia); cbn [Forktest.forks].
  - rewrite (run_then _ _ _ _ _ (run_ask Cfork w _ _ I Ha)). cbn. by rewrite Z.add_0_r.
  - apply Forall_cons in Hp as [Hp0 Hp]. rewrite (run_then _ _ _ _ _ (run_ask Cfork w _ _ I Ha)). cbn [a_ret].
    rewrite (proj2 (Z.ltb_ge _ _)), (proj2 (Z.eqb_neq _ _)) by lia. rewrite IH; [cbn; do 2 f_equal; lia | cbn in Hk; lia | done | done].
Qed.

Lemma waits_ok pids asks : forall w, Forall (fun p => 0 < p) pids -> w_ask w = pids_of pids ++ asks ->
  run (Forktest.waits (length pids)) w = (Returned tt, {| w with w_ask := asks |}).
Proof.
  induction pids as [| p pids IH]; intros w Hp Ha; cbn [Forktest.waits length]; [cbn in Ha; rewrite <- Ha; by destruct w |].
  apply Forall_cons in Hp as [Hp0 Hp]. rewrite (run_then _ _ _ _ _ (run_ask Cwait w _ _ I Ha)). cbn [a_ret].
  rewrite (proj2 (Z.ltb_ge _ _)) by lia. by rewrite IH.
Qed.

(** [forktest] is content with any kernel that lets it make fewer than a thousand
    processes and then gives it back each of them and no other. *)
Theorem forktest_ok pids waited w :
  (length pids < 1000)%nat -> length waited = length pids -> Forall (fun p => 0 < p) pids -> Forall (fun p => 0 < p) waited ->
  w_ask w = pids_of pids ++ mkAnswer (-1) [] :: pids_of waited ++ [mkAnswer (-1) []] ->
  run Forktest.main w = (ByExit, {| w with w_out := w_out w ++ [(1, line "fork test"); (1, line "fork test OK")]; w_ask := [] |}).
Proof.
  intros Hlen Hw Hp Hwp Ha. unfold Forktest.main, Forktest.forktest. set (w1 := {| w with w_out := w_out w ++ [(1, line "fork test")] |}).
  rewrite run_bind, run_bind. assert (run (Forktest.print 1 (line "fork test")) w = (Returned tt, w1)) as -> by done.
  rewrite (run_then _ _ _ _ _ (forks_ok pids (pids_of waited ++ [mkAnswer (-1) []]) (Z.to_nat Forktest.N) 0 w1 ltac:(unfold Forktest.N; lia) Hp Ha)).
  rewrite Z.add_0_l, Nat2Z.id, (proj2 (Z.eqb_neq _ _)) by (unfold Forktest.N; lia). rewrite <- Hw.
  rewrite (run_then _ _ _ _ _ (waits_ok waited [mkAnswer (-1) []] {| w1 with w_ask := _ |} Hwp eq_refl)).
  rewrite (run_then _ _ _ _ _ (run_ask Cwait {| w1 with w_ask := _ |} _ _ I eq_refl)). cbn. by rewrite <- app_assoc.
Qed.

(** The totals of [waitx_test] are the sums over the children. *)
Theorem collect_ok answers : forall asks total_w total_r w,
  w_ask w = answers ++ asks ->
  exists o, run (WaitxTest.collect (length answers) total_w total_r) w =
    (Returned (foldl (fun t a => (i32 (t.1 + wtime a), i32 (t.2 + rtime a))) (total_w, total_r) answers), {| w with w_out := o; w_ask := asks |}).
Proof.
  induction answers as [| a answers IH]; intros asks tw tr w Ha; cbn [WaitxTest.collect length foldl].
  - cbn in Ha. exists (w_out w). rewrite <- Ha. by destruct w.
  - assert (run (ask Cwaitx) w = (Returned a, {| w with w_ask := answers ++ asks |})) as E by (unfold ask; cbn [run kernel]; by rewrite Ha).
    rewrite (run_then _ _ _ _ _ E).
    assert (exists s, utext (line "child %d -> rtime=%d, wtime=%d, turnaround=%d")
      [VInt (a_ret a); VInt (rtime a); VInt (wtime a); VInt (i32 (rtime a + wtime a))] = Some s) as [s Hs] by (eexists; reflexivity).
    rewrite (run_then _ _ _ _ _ (run_printf 1 _ _ s _ Hs)).
    destruct (IH asks (i32 (tw + wtime a)) (i32 (tr + rtime a)) (say 1 s {| w with w_ask := answers ++ asks |}) eq_refl) as (o & E2).
    exists o. exact E2.
Qed.
