(* ===== verification/Sh.v ===== *)
(** [sh.c]: the parser of the shell, which leaves its words in the command line
    and cuts them off in place, and how commands are printed back.

    The command line [buf] is the characters before the terminating zero; a
    pointer into it is an index.  The constructors of the parse tree get their
    memory from [malloc], which is taken to succeed. *)

From S2P Require Import Prelude Params CString.

(** ** Commands *)

(** The parsed commands, over what stands for a word: in the parser a pair of
    pointers to its ends ([argv] and [eargv], [file] and [efile]). *)
Inductive cmd (W : Type) :=
| EXEC (argv : list W)
| REDIR (c : cmd W) (file : W) (mode fd : Z)
| PIPE (left right : cmd W)
| LIST (left right : cmd W)
| BACK (c : cmd W).
Arguments EXEC {W} argv.
Arguments REDIR {W} c file mode fd.
Arguments PIPE {W} left right.
Arguments LIST {W} left right.
Arguments BACK {W} c.

Definition MAXARGS : nat := 10.

(** [panic] of the shell prints its message and ends the process. *)
Inductive result (A : Type) :=
| Ret (a : A)
| Panic (msg : string)
| NoFuel.
Arguments Ret {A} a.
Arguments Panic {A} msg.
Arguments NoFuel {A}.

Definition rbind {A B} (m : result A) (k : A -> result B) : result B :=
  match m with Ret a => k a | Panic msg => Panic msg | NoFuel => NoFuel end.

Local Notation "'let*' ( a , b ) := m 'in' k" := (rbind m (fun '(a, b) => k))
  (at level 10, a name, b name, k at level 200).

Abbreviation C_LT := (60) (only parsing).
Abbreviation C_GT := (62) (only parsing).
Abbreviation C_BAR := (124) (only parsing).
Abbreviation C_AMP := (38) (only parsing).
Abbreviation C_SEMI := (59) (only parsing).
Abbreviation C_LPAR := (40) (only parsing).
Abbreviation C_RPAR := (41) (only parsing).
Abbreviation C_PLUS := (43) (only parsing).
Abbreviation C_WORD := (97) (only parsing).

Definition whitespace : list Z := [32; 9; 13; 10; 11].
Definition symbols : list Z := [C_LT; C_BAR; C_GT; C_AMP; C_SEMI; C_LPAR; C_RPAR].

(** [strchr(l, c) != 0] *)
Definition strchr_in (l : list Z) (c : Z) : bool :=
  match strchr (l ++ [0]) c with Some (Some _) => true | _ => false end.

(** ** The parser *)

Section Parser.
Context (buf : list Z).

Definition deref (s : nat) : Z := nth s buf 0.
Definition es : nat := length buf.

(** [while(s < es && f( *s)) s++], with [n] for [es - s]. *)
Fixpoint skip (f : Z -> bool) (n s : nat) : nat :=
  match n with
  | O => s
  | S n' => if f (deref s) then skip f n' (S s) else s
  end.
Definition skip_blanks (s : nat) : nat := skip (strchr_in whitespace) (es - s) s.

(** The token read, the two ends of its text, and the new [*ps]. *)
Definition gettoken (s : nat) : Z * (nat * nat) * nat :=
  let s := skip_blanks s in
  let q := s in
  let c := deref s in
  let '(r, s) :=
    if c =? 0 then (c, s)
    else if ((c =? C_BAR) || (c =? C_LPAR) || (c =? C_RPAR) || (c =? C_SEMI) || (c =? C_AMP) || (c =? C_LT))%bool
    then (c, S s)
    else if c =? C_GT then if deref (S s) =? C_GT then (C_PLUS, S (S s)) else (c, S s)
    else (C_WORD, skip (fun c => (negb (strchr_in whitespace c) && negb (strchr_in symbols c))%bool) (es - s) s) in
  (r, (q, s), skip_blanks s).

Definition peek (s : nat) (toks : list Z) : bool * nat :=
  let s := skip_blanks s in
  ((negb (deref s =? 0) && strchr_in toks (deref s))%bool, s).

(** Each turn consumes a redirection, so the characters left bound the turns. *)
Fixpoint parseredirs (fuel : nat) (c : cmd (nat * nat)) (s : nat) : result (cmd (nat * nat) * nat) :=
  match fuel with
  | O => NoFuel
  | S fuel' =>
      let '(more, s) := peek s [C_LT; C_GT] in
      if more then
        let '(tok, _, s) := gettoken s in
        let '(t, q, s) := gettoken s in
        if negb (t =? C_WORD) then Panic "missing file for redirection"
        else
          let c :=
            if tok =? C_LT then REDIR c q O_RDONLY 0
            else if tok =? C_GT then REDIR c q (Z.lor O_WRONLY O_CREATE) 1
            else if tok =? C_PLUS then REDIR c q (Z.lor O_WRONLY O_CREATE) 1
            else c in
          parseredirs fuel' c s
      else Ret (c, s)
  end.

(** [cmd->argv[argc] = q]: the simple command that [ret] wraps in redirections
    is changed in place. *)
Fixpoint set_argv {W} (argv : list W) (ret : cmd W) : cmd W :=
  match ret with
  | EXEC _ => EXEC argv
  | REDIR c file mode fd => REDIR (set_argv argv c) file mode fd
  | c => c
  end.

(** The loop of [parseexec] over the arguments. *)
Fixpoint parseargs (fuel : nat) (argv : list (nat * nat)) (r : cmd (nat * nat)) (s : nat)
  : result (cmd (nat * nat) * nat) :=
  match fuel with
  | O => NoFuel
  | S fuel' =>
      let '(stop, s) := peek s [C_BAR; C_RPAR; C_AMP; C_SEMI] in
      if stop then Ret (r, s)
      else
        let '(tok, q, s) := gettoken s in
        if tok =? 0 then Ret (r, s)
        else if negb (tok =? C_WORD) then Panic "syntax"
        else
          let argv := argv ++ [q] in
          let r := set_argv argv r in
          if (MAXARGS <=? length argv)%nat then Panic "too many args"
          else
            let* (r, s) := parseredirs fuel' r s in
            parseargs fuel' argv r s
  end.

(** The loop of [parseline] over [&]. *)
Fixpoint parsebacks (fuel : nat) (c : cmd (nat * nat)) (s : nat) : result (cmd (nat * nat) * nat) :=
  match fuel with
  | O => NoFuel
  | S fuel' =>
      let '(more, s) := peek s [C_AMP] in
      if more then let '(_, _, s) := gettoken s in parsebacks fuel' (BACK c) s
      else Ret (c, s)
  end.

Fixpoint parseline (fuel : nat) (s : nat) : result (cmd (nat * nat) * nat) :=
  match fuel with
  | O => NoFuel
  | S fuel' =>
      let* (c, s) := parsepipe fuel' s in
      let* (c, s) := parsebacks fuel' c s in
      let '(more, s) := peek s [C_SEMI] in
      if more then
        let '(_, _, s) := gettoken s in
        let* (r, s) := parseline fuel' s in Ret (LIST c r, s)
      else Ret (c, s)
  end
with parsepipe (fuel : nat) (s : nat) : result (cmd (nat * nat) * nat) :=
  match fuel with
  | O => NoFuel
  | S fuel' =>
      let* (c, s) := parseexec fuel' s in
      let '(more, s) := peek s [C_BAR] in
      if more then
        let '(_, _, s) := gettoken s in
        let* (r, s) := parsepipe fuel' s in Ret (PIPE c r, s)
      else Ret (c, s)
  end
with parseexec (fuel : nat) (s : nat) : result (cmd (nat * nat) * nat) :=
  match fuel with
  | O => NoFuel
  | S fuel' =>
      let '(block, s) := peek s [C_LPAR] in
      if block then parseblock fuel' s
      else
        let* (r, s) := parseredirs fuel' (EXEC []) s in
        parseargs fuel' [] r s
  end
with parseblock (fuel : nat) (s : nat) : result (cmd (nat * nat) * nat) :=
  match fuel with
  | O => NoFuel
  | S fuel' =>
      let '(open, s) := peek s [C_LPAR] in
      if negb open then Panic "parseblock"
      else
        let '(_, _, s) := gettoken s in
        let* (c, s) := parseline fuel' s in
        let '(close, s) := peek s [C_RPAR] in
        if negb close then Panic "syntax - missing )"
        else
          let '(_, _, s) := gettoken s in
          parseredirs fuel' c s
  end.

(** Between two nested calls of [parseline] a character is consumed, and there
    are at most four calls between them. *)
Definition parse_fuel : nat := 4 * es + 4.

End Parser.

(** [nulterminate]: a zero is written at the end of every word. *)
Fixpoint nulterminate (c : cmd (nat * nat)) (buf : list Z) : list Z :=
  match c with
  | EXEC argv => fold_left (fun buf w => <[snd w := 0]> buf) argv buf
  | REDIR c file _ _ => <[snd file := 0]> (nulterminate c buf)
  | PIPE l r => nulterminate r (nulterminate l buf)
  | LIST l r => nulterminate r (nulterminate l buf)
  | BACK c => nulterminate c buf
  end.

(** [parsecmd]: the tree and the bytes of the line, its terminator included,
    after the words have been cut off. *)
Definition parsecmd (buf : list Z) : result (cmd (nat * nat) * list Z) :=
  let* (c, s) := parseline buf (parse_fuel buf) 0 in
  let '(_, s) := peek buf s [] in
  if negb (s =? es buf)%nat then Panic "syntax"
  else Ret (c, nulterminate c (buf ++ [0])).

(** ** What a word is *)

Definition word_char (c : Z) : bool :=
  (negb (c =? 0) && negb (strchr_in whitespace c) && negb (strchr_in symbols c))%bool.

Fixpoint words {W} (c : cmd W) : list W :=
  match c with
  | EXEC argv => argv
  | REDIR c file _ _ => words c ++ [file]
  | PIPE l r => words l ++ words r
  | LIST l r => words l ++ words r
  | BACK c => words c
  end.

Definition text (buf : list Z) (w : nat * nat) : list Z := take (w.2 - w.1) (drop w.1 buf).

(** The string a pointer points to. *)
Fixpoint until_nul (l : list Z) : list Z :=
  match l with
  | [] => []
  | c :: l' => if c =? 0 then [] else c :: until_nul l'
  end.
Definition string_at (buf : list Z) (q : nat) : list Z := until_nul (drop q buf).

(** A span of word characters that nothing extends to the right. *)
Definition span_ok (buf : list Z) (w : nat * nat) : Prop :=
  (w.1 < w.2 <= length buf)%nat /\
  (forall i, (w.1 <= i < w.2)%nat -> word_char (deref buf i) = true) /\
  word_char (deref buf w.2) = false.

Definition complaints : list string :=
  ["missing file for redirection"; "syntax"; "too many args"; "syntax - missing )"]%string.

(** ** Tokens *)

Section Tokens.
Context (buf : list Z) (Hbuf : 0 ∉ buf).
Local Abbreviation es := (length buf).

Lemma deref_end : deref buf es = 0.
Proof. apply nth_overflow. done. Qed.

Lemma deref_zero s : deref buf s = 0 -> (es <= s)%nat.
Proof using Hbuf.
  intros H. destruct (Nat.le_gt_cases es s) as [| Hs]; [done |]. exfalso. apply Hbuf.
  rewrite list_elem_of_In, <- H. by apply nth_In.
Qed.

Lemma skip_spec f n s :
  (s + n = es)%nat ->
  (s <= skip buf f n s <= es)%nat /\
  (forall i, (s <= i < skip buf f n s)%nat -> f (deref buf i) = true) /\
  (skip buf f n s = es \/ f (deref buf (skip buf f n s)) = false).
Proof.
  revert s. induction n as [| n IH]; intros s Hs; simpl; [split; [lia | split; [lia | left; lia]] |].
  destruct (f (deref buf s)) eqn:E; [| by split; [lia | split; [lia | right]]].
  destruct (IH (S s)) as (H1 & H2 & H3); [lia |]. split; [lia |]. split; [| done].
  intros i Hi. destruct (decide (i = s)) as [-> | Hne]; [done |]. apply H2. lia.
Qed.

Lemma skip_blanks_spec s :
  (s <= es)%nat ->
  (s <= skip_blanks buf s <= es)%nat /\
  (skip_blanks buf s = es \/ strchr_in whitespace (deref buf (skip_blanks buf s)) = false).
Proof.
  intros Hs. destruct (skip_spec (strchr_in whitespace) (es - s) s) as (H1 & _ & H3); [lia |].
  unfold skip_blanks, Sh.es. done.
Qed.

Lemma skip_stop f n s : f (deref buf s) = false -> skip buf f n s = s.
Proof. destruct n; simpl; intros H; [done | by rewrite H]. Qed.

Lemma skip_blanks_idem s : (s <= es)%nat -> skip_blanks buf (skip_blanks buf s) = skip_blanks buf s.
Proof.
  intros Hs. destruct (skip_blanks_spec s Hs) as [_ [E | E]].
  - rewrite E. unfold skip_blanks, Sh.es. by rewrite Nat.sub_diag.
  - by apply skip_stop.
Qed.

Lemma word_char_symbol c : word_char c = true -> strchr_in symbols c = false.
Proof. unfold word_char. destruct (strchr_in symbols c); [by rewrite andb_false_r | done]. Qed.

Lemma gettoken_spec s r w s' :
  (s <= es)%nat -> gettoken buf s = (r, w, s') ->
  (s <= s' <= es)%nat /\ (r = C_WORD -> span_ok buf w) /\
  (r <> 0 -> (s < s')%nat) /\ (deref buf (skip_blanks buf s) <> 0 -> r <> 0).
Proof using Hbuf.
  intros Hs. destruct (skip_blanks_spec s Hs) as [Hq Hblank]. unfold gettoken.
  set (q := skip_blanks buf s) in *. set (c := deref buf q) in *.
  destruct (Z.eqb_spec c 0) as [E0 | E0].
  { intros [= <- <- <-]. destruct (skip_blanks_spec q); [lia |]. split; [lia |]. by rewrite E0. }
  assert (q < es)%nat as Hlt.
  { destruct (Nat.lt_ge_cases q es) as [| Hge]; [done |]. destruct E0. apply nth_overflow. lia. }
  assert (strchr_in whitespace c = false) as Hws by (destruct Hblank; [lia | done]).
  destruct (_ || _)%bool eqn:Esym.
  { intros [= <- <- <-]. destruct (skip_blanks_spec (S q)); [lia |]. split; [lia |].
    split; [intros ->; done | split; [lia | done]]. }
  destruct (Z.eqb_spec c C_GT) as [Egt | Egt].
  { destruct (Z.eqb_spec (deref buf (S q)) C_GT) as [E2 | E2]; intros [= <- <- <-].
    - assert (S q < es)%nat.
      { destruct (Nat.lt_ge_cases (S q) es) as [| Hge]; [done |]. unfold deref in E2. by rewrite nth_overflow in E2 by lia. }
      destruct (skip_blanks_spec (S (S q))); [lia |]. split; [lia |]. by split; [| split; [lia |]].
    - destruct (skip_blanks_spec (S q)); [lia |]. split; [lia |]. split; [intros ->; done | split; [lia | done]]. }
  intros [= <- <- <-]. set (f := fun c => (_ && _)%bool).
  destruct (skip_spec f (Sh.es buf - q) q) as (H1 & H2 & H3); [unfold Sh.es; lia |]. set (e := skip buf f _ q) in *.
  assert (f c = true) as Hf.
  { unfold f. rewrite Hws. unfold symbols, strchr_in. cbn -[Z.eqb].
    rewrite !(Z.eqb_sym _ c). rewrite !orb_false_iff in Esym. destruct Esym as [[[[[-> ->] ->] ->] ->] ->].
    by rewrite (proj2 (Z.eqb_neq c C_GT)). }
  assert (q < e)%nat as Hqe.
  { unfold e. replace (Sh.es buf - q)%nat with (S (es - q - 1)) by (unfold Sh.es; lia). simpl. fold c. rewrite Hf.
    destruct (skip_spec f (es - q - 1) (S q)); lia. }
  destruct (skip_blanks_spec e); [lia |]. split; [lia |]. split; [intros _ | split; [lia | done]].
  split; [simpl; lia |]. simpl. split.
  - intros i Hi. unfold word_char. rewrite <- andb_assoc. fold (f (deref buf i)). rewrite H2 by done.
    rewrite andb_true_r. apply negb_true_iff, Z.eqb_neq. intros Hz. apply deref_zero in Hz. lia.
  - unfold word_char. rewrite <- andb_assoc. fold (f (deref buf e)). destruct H3 as [-> | ->]; [| apply andb_false_r].
    by rewrite deref_end.
Qed.
End Tokens.

(** ** The parser is total and finds words *)

Section Safe.
Context (buf : list Z) (Hbuf : 0 ∉ buf).
Local Abbreviation es := (length buf).

(** What a parsing function started at [s] may give. *)
Definition parsed (s : nat) (m : result (cmd (nat * nat) * nat)) : Prop :=
  match m with
  | Ret (c, s') => (s <= s' <= es)%nat /\ Forall (span_ok buf) (words c)
  | Panic msg => msg ∈ complaints
  | NoFuel => False
  end.

Local Ltac complain := unfold parsed, complaints; rewrite !elem_of_cons; tauto.

Lemma parsed_mono s s' m : (s <= s')%nat -> parsed s' m -> parsed s m.
Proof. destruct m as [[c t] | |]; simpl; intros; [intuition lia | done | done]. Qed.

Lemma parsed_bind s m k :
  parsed s m ->
  (forall c s', (s <= s' <= es)%nat -> Forall (span_ok buf) (words c) -> parsed s' (k (c, s'))) ->
  parsed s (rbind m k).
Proof.
  intros Hm Hk. destruct m as [[c s'] | |]; [| done | done]. destruct Hm as [Hs Hc].
  apply (parsed_mono s s'); [lia |]. by apply Hk.
Qed.

Lemma peek_spec s toks b s' : (s <= es)%nat -> peek buf s toks = (b, s') -> (s <= s' <= es)%nat.
Proof. intros Hs [= _ <-]. by apply skip_blanks_spec. Qed.

(** A character [peek] has seen is consumed by [gettoken]. *)
Lemma peek_token s toks s' r w t :
  (s <= es)%nat -> peek buf s toks = (true, s') -> gettoken buf s' = (r, w, t) -> (s' < t <= es)%nat.
Proof using Hbuf.
  intros Hs Hp Hg. pose proof (peek_spec _ _ _ _ Hs Hp). unfold peek in Hp. injection Hp as Hb Hs'.
  apply andb_true_iff in Hb as [Hz _]. rewrite negb_true_iff, Z.eqb_neq in Hz.
  destruct (gettoken_spec buf Hbuf s' r w t) as (H1 & _ & H2 & H3); [lia | done |].
  rewrite <- Hs', skip_blanks_idem in H3 by done. specialize (H2 (H3 Hz)). lia.
Qed.

Lemma parseredirs_parsed fuel c s :
  (s <= es)%nat -> (es - s < fuel)%nat -> Forall (span_ok buf) (words c) -> parsed s (parseredirs buf fuel c s).
Proof using Hbuf.
  revert c s. induction fuel as [| fuel IH]; intros c s Hs Hf Hc; [lia |]. cbn [parseredirs].
  destruct (peek buf s [C_LT; C_GT]) as [more s1] eqn:Hp. pose proof (peek_spec _ _ _ _ Hs Hp).
  destruct more; [| by split; [lia |]].
  destruct (gettoken buf s1) as [[tok w1] s2] eqn:Hg1. pose proof (peek_token _ _ _ _ _ _ Hs Hp Hg1).
  destruct (gettoken buf s2) as [[t q] s3] eqn:Hg2.
  destruct (gettoken_spec buf Hbuf s2 _ _ _ ltac:(lia) Hg2) as (Hs3 & Hw & _).
  destruct (Z.eqb_spec t C_WORD) as [-> | Ht]; cbn [negb]; [| complain].
  apply (parsed_mono s s3); [lia |]. apply IH; [lia | lia |].
  assert (Forall (span_ok buf) (words c ++ [q])) by (apply Forall_app; split; [done |]; constructor; [by apply Hw | done]).
  destruct (tok =? C_LT), (tok =? C_GT), (tok =? C_PLUS); done.
Qed.

Lemma words_set_argv {W} (P : W -> Prop) argv c :
  Forall P argv -> Forall P (words c) -> Forall P (words (set_argv argv c)).
Proof.
  intros Ha. induction c as [| c IH f m fd | | |]; simpl; intros Hc; try done.
  apply Forall_app in Hc as [Hc Hf]. apply Forall_app. split; [by apply IH | done].
Qed.

Lemma parseargs_parsed fuel argv c s :
  (s <= es)%nat -> (es - s < fuel)%nat -> Forall (span_ok buf) argv -> Forall (span_ok buf) (words c) ->
  parsed s (parseargs buf fuel argv c s).
Proof using Hbuf.
  revert argv c s. induction fuel as [| fuel IH]; intros argv c s Hs Hf Ha Hc; [lia |]. cbn [parseargs].
  destruct (peek buf s _) as [stop s1] eqn:Hp. pose proof (peek_spec _ _ _ _ Hs Hp).
  destruct stop; [by split; [lia |] |].
  destruct (gettoken buf s1) as [[tok q] s2] eqn:Hg.
  destruct (gettoken_spec buf Hbuf s1 _ _ _ ltac:(lia) Hg) as (Hs2 & Hw & Hadv & _).
  destruct (Z.eqb_spec tok 0) as [-> | H0]; [by split; [lia |] |]. specialize (Hadv H0).
  destruct (Z.eqb_spec tok C_WORD) as [-> | Ht]; cbn [negb]; [| complain].
  destruct (MAXARGS <=? _)%nat; [complain |].
  assert (Forall (span_ok buf) (argv ++ [q])) by (apply Forall_app; split; [done |]; constructor; [by apply Hw | done]).
  apply (parsed_mono s s2); [lia |]. apply parsed_bind.
  - apply parseredirs_parsed; [lia | lia |]. by apply words_set_argv.
  - intros c' s' Hs' Hc'. apply IH; [lia | lia | done | done].
Qed.

Lemma parsebacks_parsed fuel c s :
  (s <= es)%nat -> (es - s < fuel)%nat -> Forall (span_ok buf) (words c) -> parsed s (parsebacks buf fuel c s).
Proof using Hbuf.
  revert c s. induction fuel as [| fuel IH]; intros c s Hs Hf Hc; [lia |]. cbn [parsebacks].
  destruct (peek buf s _) as [more s1] eqn:Hp. pose proof (peek_spec _ _ _ _ Hs Hp).
  destruct more; [| by split; [lia |]].
  destruct (gettoken buf s1) as [[tok w1] s2] eqn:Hg. pose proof (peek_token _ _ _ _ _ _ Hs Hp Hg).
  apply (parsed_mono s s2); [lia |]. by apply IH; [lia | lia |].
Qed.

(** After a separator, a second command. *)
Lemma parsed_join s (m : result (cmd (nat * nat) * nat)) (join : cmd (nat * nat) -> cmd (nat * nat)) :
  (forall c, Forall (span_ok buf) (words c) -> Forall (span_ok buf) (words (join c))) ->
  parsed s m -> parsed s (let* (r, s) := m in Ret (join r, s)).
Proof.
  intros Hj Hm. apply parsed_bind; [done |]. intros c s' Hs Hc. split; [lia | by apply Hj].
Qed.

Lemma parse_parsed fuel :
  (forall s, (s <= es)%nat -> (4 * (es - s) + 4 <= fuel)%nat -> parsed s (parseline buf fuel s)) /\
  (forall s, (s <= es)%nat -> (4 * (es - s) + 3 <= fuel)%nat -> parsed s (parsepipe buf fuel s)) /\
  (forall s, (s <= es)%nat -> (4 * (es - s) + 2 <= fuel)%nat -> parsed s (parseexec buf fuel s)) /\
  (forall s, (s <= es)%nat -> (4 * (es - s) + 1 <= fuel)%nat -> peek buf s [C_LPAR] = (true, s) ->
             parsed s (parseblock buf fuel s)).
Proof using Hbuf.
  induction fuel as [| fuel (IHl & IHp & IHe & IHb)]; [repeat split; intros; lia |].
  split; [| split; [| split]]; intros s Hs Hf.
  - cbn [parseline]. apply parsed_bind; [apply IHp; lia |]. intros c s1 Hs1 Hc.
    apply parsed_bind; [by apply parsebacks_parsed; [lia | lia |] |]. clear c Hc. intros c s2 Hs2 Hc.
    destruct (peek buf s2 _) as [more s3] eqn:Hp. pose proof (peek_spec s2 _ _ _ ltac:(lia) Hp).
    destruct more; [| by split; [lia |]].
    destruct (gettoken buf s3) as [[tok w] s4] eqn:Hg. pose proof (peek_token s2 _ _ _ _ _ ltac:(lia) Hp Hg).
    apply (parsed_mono s2 s4); [lia |]. apply (parsed_join s4 _ (LIST c)); [| apply IHl; lia].
    intros r Hr. by apply Forall_app.
  - cbn [parsepipe]. apply parsed_bind; [apply IHe; lia |]. intros c s2 Hs2 Hc.
    destruct (peek buf s2 _) as [more s3] eqn:Hp. pose proof (peek_spec s2 _ _ _ ltac:(lia) Hp).
    destruct more; [| by split; [lia |]].
    destruct (gettoken buf s3) as [[tok w] s4] eqn:Hg. pose proof (peek_token s2 _ _ _ _ _ ltac:(lia) Hp Hg).
    apply (parsed_mono s2 s4); [lia |]. apply (parsed_join s4 _ (PIPE c)); [| apply IHp; lia].
    intros r Hr. by apply Forall_app.
  - cbn [parseexec]. destruct (peek buf s _) as [block s1] eqn:Hp. pose proof (peek_spec s _ _ _ ltac:(lia) Hp).
    apply (parsed_mono s s1); [lia |]. destruct block.
    + apply IHb; [lia | lia |]. unfold peek in Hp |- *. injection Hp as Hb <-. rewrite skip_blanks_idem by done. by rewrite Hb.
    + apply parsed_bind; [by apply parseredirs_parsed; [lia | lia | constructor] |]. intros c s2 Hs2 Hc.
      by apply parseargs_parsed; [lia | lia | constructor |].
  - intros Hp. cbn [parseblock]. rewrite Hp. cbn [negb].
    destruct (gettoken buf s) as [[tok w] s1] eqn:Hg. pose proof (peek_token s _ _ _ _ _ Hs Hp Hg).
    apply (parsed_mono s s1); [lia |]. apply parsed_bind; [apply IHl; lia |]. intros c s2 Hs2 Hc.
    destruct (peek buf s2 _) as [close s3] eqn:Hp3. pose proof (peek_spec s2 _ _ _ ltac:(lia) Hp3).
    destruct close; cbn [negb]; [| complain].
    destruct (gettoken buf s3) as [[tok' w'] s4] eqn:Hg3. pose proof (peek_token s2 _ _ _ _ _ ltac:(lia) Hp3 Hg3).
    apply (parsed_mono s2 s4); [lia |]. by apply parseredirs_parsed; [lia | lia |].
Qed.
End Safe.

(** ** Words are cut off in place *)

Definition cut_words (ws : list (nat * nat)) (b : list Z) : list Z := fold_left (fun b w => <[w.2 := 0]> b) ws b.

Lemma cut_app ws ws' b : cut_words (ws ++ ws') b = cut_words ws' (cut_words ws b).
Proof. apply fold_left_app. Qed.

Lemma nulterminate_cut c b : nulterminate c b = cut_words (words c) b.
Proof.
  revert b. induction c as [argv | c IH f m fd | l IHl r IHr | l IHl r IHr | c IH]; intros b; simpl.
  - done.
  - by rewrite cut_app, IH.
  - by rewrite cut_app, IHl, IHr.
  - by rewrite cut_app, IHl, IHr.
  - apply IH.
Qed.

Lemma length_cut ws b : length (cut_words ws b) = length b.
Proof.
  revert b. induction ws as [| w ws IH]; intros b; [done |]. cbn [cut_words fold_left].
  etransitivity; [apply IH | apply length_insert].
Qed.

Lemma lookup_cut_ne ws b i : (forall w, w ∈ ws -> w.2 <> i) -> cut_words ws b !! i = b !! i.
Proof.
  revert b. induction ws as [| w ws IH]; intros b Hi; [done |]. cbn [cut_words fold_left].
  etransitivity; [apply IH; intros; apply Hi; by apply elem_of_cons; right |].
  apply list_lookup_insert_ne, Hi. apply elem_of_cons. by left.
Qed.

Lemma lookup_cut_eq ws b w : w ∈ ws -> (w.2 < length b)%nat -> cut_words ws b !! w.2 = Some 0.
Proof.
  revert b. induction ws as [| w' ws IH] using rev_ind; intros b Hw Hlen; [by apply not_elem_of_nil in Hw |].
  rewrite cut_app. cbn [cut_words fold_left]. destruct (decide (w'.2 = w.2)) as [E | Hne].
  - rewrite E, list_lookup_insert_eq; [done |]. by rewrite length_cut.
  - rewrite list_lookup_insert_ne by done. apply IH; [| done].
    apply elem_of_app in Hw as [Hw | Hw]; [done |]. apply list_elem_of_singleton in Hw. by subst.
Qed.

Lemma until_nul_spec b l q :
  (forall i c, l !! i = Some c -> c <> 0 /\ b !! (q + i)%nat = Some c) -> b !! (q + length l)%nat = Some 0 ->
  string_at b q = l.
Proof.
  unfold string_at. revert q. induction l as [| c l IH]; intros q Hl He; simpl in He.
  - rewrite Nat.add_0_r in He. by rewrite (drop_S _ _ _ He).
  - destruct (Hl 0%nat c eq_refl) as [Hc Hq]. rewrite Nat.add_0_r in Hq. rewrite (drop_S _ _ _ Hq). simpl.
    rewrite (proj2 (Z.eqb_neq _ _)) by done. f_equal. apply IH; [| by rewrite Nat.add_succ_comm].
    intros i d Hi. rewrite Nat.add_succ_comm. by apply (Hl (S i)).
Qed.

Lemma lookup_text buf w i c :
  span_ok buf w -> text buf w !! i = Some c ->
  (w.1 <= w.1 + i < w.2)%nat /\ buf !! (w.1 + i)%nat = Some c /\ word_char c = true.
Proof.
  intros (Hr & Hw & _) Hi. unfold text in Hi. apply lookup_take_Some in Hi as [Hi Hlt]. rewrite lookup_drop in Hi.
  split; [lia |]. split; [done |]. specialize (Hw (w.1 + i)%nat ltac:(lia)).
  unfold deref in Hw. by rewrite (nth_lookup_Some _ _ _ _ Hi) in Hw.
Qed.

Lemma length_text buf w : span_ok buf w -> length (text buf w) = (w.2 - w.1)%nat.
Proof. intros (Hr & _). unfold text. rewrite length_take, length_drop. lia. Qed.

Lemma cut_string buf ws w :
  Forall (span_ok buf) ws -> w ∈ ws -> string_at (cut_words ws (buf ++ [0])) w.1 = text buf w.
Proof.
  intros Hws Hw. rewrite Forall_forall in Hws. pose proof (Hws w Hw) as Hok. apply until_nul_spec.
  - intros i c Hi. destruct (lookup_text _ _ _ _ Hok Hi) as (Hr & Hb & Hc). split; [intros ->; done |].
    rewrite lookup_cut_ne; [by apply lookup_app_l_Some |].
    intros w' Hw' E. destruct (Hws w' Hw') as (_ & _ & Hend). rewrite E in Hend.
    unfold deref in Hend. rewrite (nth_lookup_Some _ _ _ _ Hb) in Hend. congruence.
  - rewrite length_text by done. destruct Hok as (Hr & _). replace (w.1 + (w.2 - w.1))%nat with w.2 by lia.
    apply lookup_cut_eq; [done |]. rewrite length_app. simpl. lia.
Qed.

(** C28: on every command line the parser comes to an end: it gives a command or
    complains with one of four messages.  The words of a command are non-empty,
    made of word characters, and [nulterminate], which writes zeros into the line,
    cuts each of them off without damage to another: the string at the start of a
    word is the text that was read, whatever stood after it, redirection signs
    directly after a word included. *)
Theorem parsecmd_words buf :
  0 ∉ buf ->
  match parsecmd buf with
  | Ret (c, b) =>
      length b = S (length buf) /\
      Forall (fun w => string_at b w.1 = text buf w /\ text buf w <> [] /\
                       Forall (fun c => word_char c = true) (text buf w)) (words c)
  | Panic msg => msg ∈ complaints
  | NoFuel => False
  end.
Proof.
  intros H0. unfold parsecmd. destruct (parse_parsed buf H0 (parse_fuel buf)) as [Hline _].
  specialize (Hline 0%nat ltac:(lia) ltac:(unfold parse_fuel, es; lia)).
  destruct (parseline buf (parse_fuel buf) 0) as [[c s] | msg |]; simpl in *; [| done | done].
  destruct Hline as [_ Hc]. destruct (negb _); [unfold complaints; rewrite !elem_of_cons; tauto |].
  rewrite nulterminate_cut. split; [rewrite length_cut, length_app; simpl; lia |].
  apply Forall_forall. intros w Hw. split; [by apply cut_string |].
  pose proof (proj1 (Forall_forall _ _) Hc w Hw) as Hok. split.
  - intros E. pose proof (length_text _ _ Hok) as Hlen. rewrite E in Hlen. destruct Hok as (Hr & _). simpl in Hlen. lia.
  - apply Forall_lookup. intros i d Hi. by apply (lookup_text buf w i d).
Qed.

(** The line [a>b|c\n]. *)
Definition line : list Z := [97; 62; 98; 124; 99; 10].

Lemma line_parses :
  parsecmd line = Ret (PIPE (REDIR (EXEC [(0, 1)%nat]) (2, 3)%nat 513 1) (EXEC [(4, 5)%nat]), [97; 0; 98; 0; 99; 0; 0]).
Proof. vm_compute. reflexivity. Qed.

Lemma parsecmd_words_witness : string_at [97; 0; 98; 0; 99; 0; 0] 2 = [98].
Proof.
  assert (0 ∉ line) as H0 by (unfold line; rewrite list_elem_of_In; simpl; lia).
  pose proof (parsecmd_words line H0) as H. rewrite line_parses in H. destruct H as [_ H].
  rewrite Forall_forall in H. destruct (H (2, 3)%nat) as [E _]; [cbn; rewrite !elem_of_cons; tauto |]. exact E.
Defined.
