(* ===== verification/ShRound.v ===== *)
(** Printing and parsing shell commands: every command, printed with parentheses
    where the grammar needs them and laid out with any blanks, parses to itself. *)

From S2P Require Import Prelude Params CString Sh.

Local Notation "'let*' ( a , b ) := m 'in' k" := (rbind m (fun '(a, b) => k))
  (at level 10, a name, b name, k at level 200).

(** ** Tokens and their layout *)

Inductive token := TWord (w : list Z) | TSym (c : Z).

Definition tok_text (t : token) : list Z := match t with TWord w => w | TSym c => [c] end.
Definition tok_code (t : token) : Z := match t with TWord _ => 97 | TSym c => c end.
Definition tok_ok (t : token) : Prop :=
  match t with
  | TWord w => w <> [] /\ Forall (fun c => word_char c = true) w
  | TSym c => c ∈ symbols
  end.

(** Tokens that would be read as one if nothing stood between them. *)
Definition glued (t t' : token) : Prop :=
  match t, t' with
  | TWord _, TWord _ => True
  | TSym c, TSym c' => c = 62 /\ c' = 62
  | _, _ => False
  end.

(** A command line: its tokens, each with the blanks that follow it. *)
Fixpoint spaced (ts : list (token * list Z)) : Prop :=
  match ts with
  | [] => True
  | (t, g) :: ts' =>
      tok_ok t /\ Forall (fun c => strchr_in whitespace c = true) g /\
      match ts' with (t', _) :: _ => glued t t' -> g <> [] | [] => True end /\ spaced ts'
  end.

Definition render (ts : list (token * list Z)) : list Z := concat (map (fun '(t, g) => tok_text t ++ g) ts).

(** ** The printer *)

Definition par (b : bool) (ts : list token) : list token := if b then ts else TSym 40 :: ts ++ [TSym 41].

Definition redir_toks (r : list Z * Z * Z) : list token :=
  let '(f, _, fd) := r in [TSym (if fd =? 0 then 60 else 62); TWord f].

(** The tokens of a command where a line (0), the operand of [&] (1), a pipeline
    (2) or a simple command (3) is expected. *)
Fixpoint show (lvl : nat) (c : cmd (list Z)) : list token :=
  match c with
  | EXEC argv => map TWord argv
  | REDIR c f m fd => show 3 c ++ redir_toks (f, m, fd)
  | PIPE l r => par (lvl <=? 2)%nat (show 3 l ++ TSym 124 :: show 2 r)
  | BACK c => par (lvl <=? 1)%nat (show 1 c ++ [TSym 38])
  | LIST l r => par (lvl =? 0)%nat (show 1 l ++ TSym 59 :: show 0 r)
  end.

Fixpoint cmd_map {V W} (f : V -> W) (c : cmd V) : cmd W :=
  match c with
  | EXEC argv => EXEC (map f argv)
  | REDIR c file m fd => REDIR (cmd_map f c) (f file) m fd
  | PIPE l r => PIPE (cmd_map f l) (cmd_map f r)
  | LIST l r => LIST (cmd_map f l) (cmd_map f r)
  | BACK c => BACK (cmd_map f c)
  end.

Definition mode_ok (m fd : Z) : Prop := (m = O_RDONLY /\ fd = 0) \/ (m = Z.lor O_WRONLY O_CREATE /\ fd = 1).

(** The commands the shell can be given: at most nine arguments, and the two kinds
    of redirection. *)
Fixpoint cmd_ok (c : cmd (list Z)) : Prop :=
  match c with
  | EXEC argv => (length argv < MAXARGS)%nat /\ Forall (fun w => tok_ok (TWord w)) argv
  | REDIR c f m fd => cmd_ok c /\ tok_ok (TWord f) /\ mode_ok m fd
  | PIPE l r => cmd_ok l /\ cmd_ok r
  | LIST l r => cmd_ok l /\ cmd_ok r
  | BACK c => cmd_ok c
  end.

(** ** Reading a rendered line *)

Lemma strchr_in_spec l c : 0 ∉ l -> strchr_in l c = true <-> c ∈ l.
Proof.
  unfold strchr_in. induction l as [| x l IH]; simpl; intros H0.
  - by rewrite elem_of_nil.
  - apply not_elem_of_cons in H0 as [Hx H0]. rewrite (proj2 (Z.eqb_neq x 0)) by congruence. rewrite elem_of_cons.
    destruct (Z.eqb_spec x c) as [-> | Hne]; [tauto |]. rewrite IH by done. split; [tauto | by intros [-> | ?]].
Qed.

Lemma whitespace_not_zero : 0 ∉ whitespace.
Proof. unfold whitespace. rewrite list_elem_of_In. simpl. lia. Qed.
Lemma symbols_not_zero : 0 ∉ symbols.
Proof. unfold symbols. rewrite list_elem_of_In. simpl. lia. Qed.

Lemma symbol_char c : c ∈ symbols -> strchr_in whitespace c = false /\ word_char c = false /\ c <> 0.
Proof.
  intros Hc. assert (strchr_in symbols c = true) as Hs by (apply strchr_in_spec; [apply symbols_not_zero | done]).
  unfold word_char. rewrite Hs, andb_false_r. split; [| split; [done | intros ->; by apply symbols_not_zero]].
  rewrite list_elem_of_In in Hc. unfold symbols in Hc. simpl in Hc.
  repeat destruct Hc as [<- | Hc]; done.
Qed.

Lemma word_char_blank c : word_char c = true -> strchr_in whitespace c = false /\ c <> 0.
Proof.
  unfold word_char. rewrite !andb_true_iff, !negb_true_iff, Z.eqb_neq. tauto.
Qed.

Lemma blank_char c : strchr_in whitespace c = true -> word_char c = false.
Proof. unfold word_char. intros ->. by rewrite andb_false_r. Qed.

Lemma tok_head t : tok_ok t -> exists c l, tok_text t = c :: l /\ strchr_in whitespace c = false /\ c <> 0 /\
  (word_char c = true \/ exists d, t = TSym d).
Proof.
  destruct t as [[| c w] | c]; simpl; [by intros [] | intros [_ [Hc _]%Forall_cons] | intros Hc].
  - exists c, w. destruct (word_char_blank c Hc). tauto.
  - exists c, []. destruct (symbol_char c Hc) as (? & ? & ?). eauto 7.
Qed.

Lemma render_cons t g ts : render ((t, g) :: ts) = tok_text t ++ g ++ render ts.
Proof. unfold render. simpl. by rewrite <- app_assoc. Qed.

Lemma blanks_nonzero g : Forall (fun c => strchr_in whitespace c = true) g -> 0 ∉ g.
Proof. intros Hg H0. by apply (proj1 (Forall_forall _ _) Hg) in H0. Qed.

Lemma render_nonzero ts : spaced ts -> 0 ∉ render ts.
Proof.
  induction ts as [| [t g] ts IH]; [intros _; apply not_elem_of_nil |]. intros (Ht & Hg & _ & Hts).
  rewrite render_cons, !not_elem_of_app. split; [| split; [by apply blanks_nonzero | by apply IH]].
  destruct t as [w | c]; simpl in *.
  - intros H0. destruct Ht as [_ Hw]. by apply (proj1 (Forall_forall _ _) Hw) in H0.
  - rewrite not_elem_of_cons. split; [| apply not_elem_of_nil]. destruct (symbol_char c Ht) as (_ & _ & ?). congruence.
Qed.

Section Reading.
Context (buf : list Z).

(** From the pointer [s] on, the line reads [l]. *)
Definition at_pos (s : nat) (l : list Z) : Prop := (s <= length buf)%nat /\ drop s buf = l.

Lemma at_deref s l : at_pos s l -> deref buf s = nth 0 l 0.
Proof. intros [_ <-]. unfold deref. by rewrite !nth_lookup, lookup_drop, Nat.add_0_r. Qed.

Lemma at_length s l : at_pos s l -> (length buf - s)%nat = length l.
Proof. intros [_ <-]. by rewrite length_drop. Qed.

Lemma at_app s a b : at_pos s (a ++ b) -> at_pos (s + length a) b.
Proof.
  intros H. pose proof (at_length _ _ H) as Hlen. destruct H as [Hs H]. rewrite length_app in Hlen.
  split; [lia |]. rewrite <- drop_drop, H. by apply drop_app_length.
Qed.

Lemma at_text s a b : at_pos s (a ++ b) -> text buf (s, s + length a)%nat = a.
Proof.
  intros [_ H]. unfold text. simpl. rewrite H. replace (s + length a - s)%nat with (length a) by lia.
  by apply take_app_length.
Qed.

Lemma at_skip f s a b :
  at_pos s (a ++ b) -> Forall (fun c => f c = true) a -> (b = [] \/ f (nth 0 b 0) = false) ->
  skip buf f (es buf - s) s = (s + length a)%nat.
Proof.
  unfold es. revert s. induction a as [| c a IH]; intros s Hat Ha Hb; simpl in *.
  - rewrite Nat.add_0_r. destruct Hb as [-> | Hb].
    + by rewrite (at_length _ _ Hat).
    + apply skip_stop. by rewrite (at_deref _ _ Hat).
  - apply Forall_cons in Ha as [Hc Ha]. rewrite (at_length _ _ Hat). cbn [length app]. cbn [skip].
    rewrite (at_deref _ _ Hat). cbn [nth]. rewrite Hc.
    pose proof (at_app s [c] (a ++ b) Hat) as Hat'. simpl in Hat'. rewrite Nat.add_1_r in Hat'.
    rewrite <- (at_length _ _ Hat'), IH by done. lia.
Qed.

Lemma render_head ts : spaced ts -> render ts = [] \/ strchr_in whitespace (nth 0 (render ts) 0) = false.
Proof.
  destruct ts as [| [t g] ts]; [by left |]. intros (Ht & _). right. rewrite render_cons.
  destruct (tok_head t Ht) as (c & l & -> & Hc & _). done.
Qed.

Lemma skip_blanks_gap s g ts :
  at_pos s (g ++ render ts) -> Forall (fun c => strchr_in whitespace c = true) g -> spaced ts ->
  skip_blanks buf s = (s + length g)%nat.
Proof. intros Hat Hg Hts. by apply (at_skip _ s g (render ts) Hat Hg), render_head. Qed.

Lemma skip_blanks_here s ts : at_pos s (render ts) -> spaced ts -> skip_blanks buf s = s.
Proof. intros Hat Hts. rewrite (skip_blanks_gap s [] ts Hat) by done. apply Nat.add_0_r. Qed.

(** The character after a word does not belong to it. *)
Lemma word_ends w g ts :
  spaced ((TWord w, g) :: ts) -> g ++ render ts = [] \/
  (negb (strchr_in whitespace (nth 0 (g ++ render ts) 0)) && negb (strchr_in symbols (nth 0 (g ++ render ts) 0)))%bool = false.
Proof.
  intros (_ & Hg & Hglue & Hts). destruct g as [| b g].
  - destruct ts as [| [t' g'] ts]; [by left |]. right. cbn [app]. rewrite render_cons.
    destruct t' as [w' | c]; [by destruct Hglue |]. destruct Hts as [Hc _]. simpl in *.
    apply andb_false_iff. right. apply negb_false_iff, strchr_in_spec; [apply symbols_not_zero | done].
  - right. apply Forall_cons in Hg as [Hb _]. simpl. by rewrite Hb.
Qed.

Lemma gettoken_render s t g ts :
  at_pos s (render ((t, g) :: ts)) -> spaced ((t, g) :: ts) ->
  exists s', gettoken buf s = (tok_code t, (s, s + length (tok_text t))%nat, s') /\ at_pos s' (render ts).
Proof.
  intros Hat Hsp. pose proof Hsp as (Ht & Hg & Hglue & Hts). exists (s + length (tok_text t) + length g)%nat.
  unfold gettoken. rewrite (skip_blanks_here s _ Hat Hsp). rewrite render_cons in Hat.
  pose proof (at_app _ _ _ Hat) as Hat1. pose proof (at_app _ _ _ Hat1) as Hat2. split; [| done].
  rewrite (at_deref _ _ Hat). rewrite <- (skip_blanks_gap _ g ts Hat1 Hg Hts). destruct t as [w | c].
  - destruct Ht as [Hne Hw]. cbn [tok_text tok_code] in *.
    assert (exists c l, w = c :: l /\ word_char c = true) as (c & l & -> & Hc).
    { destruct w as [| c l]; [done |]. apply Forall_cons in Hw as [Hc _]. eauto. }
    cbn [app nth]. destruct (word_char_blank c Hc) as [Hb H0]. rewrite (proj2 (Z.eqb_neq c 0)) by done.
    assert (forall d, d ∈ symbols -> (c =? d) = false) as Hsym.
    { intros d Hd. apply Z.eqb_neq. intros ->. destruct (symbol_char d Hd) as (_ & ? & _). congruence. }
    unfold symbols in Hsym. rewrite !Hsym by (rewrite !elem_of_cons; tauto). cbn [orb].
    rewrite (at_skip _ s (c :: l) (g ++ render ts) Hat); [done | | by apply (word_ends (c :: l) g ts)].
    eapply Forall_impl; [exact Hw |]. intros x Hx. destruct (word_char_blank x Hx) as [-> _].
    by rewrite (word_char_symbol x Hx).
  - cbn [tok_text tok_code app nth length] in *. rewrite Nat.add_1_r in *. destruct (symbol_char c Ht) as (_ & _ & H0).
    rewrite (proj2 (Z.eqb_neq c 0)) by done. simpl in Ht. unfold symbols in Ht. rewrite !elem_of_cons, elem_of_nil in Ht.
    destruct (decide (c = 62)) as [-> | Hgt]; [| by destruct Ht as [-> | [-> | [-> | [-> | [-> | [-> | [-> | []]]]]]]]].
    cbn [Z.eqb Pos.eqb orb]. rewrite (at_deref _ _ Hat1).
    replace (nth 0 (g ++ render ts) 0 =? 62) with false; [done |]. symmetry. apply Z.eqb_neq. intros E.
    destruct g as [| b g]; [| apply Forall_cons in Hg as [Hb _]; simpl in E; by rewrite E in Hb].
    destruct ts as [| [[w' | c'] g'] ts]; simpl in *; [done | | by subst; destruct Hglue].
    destruct Hts as ((Hne & Hw) & _). destruct w' as [| x w']; [done |]. simpl in E. subst x.
    apply Forall_cons in Hw as [Hx _]. done.
Qed.

Definition head_in (ts : list (token * list Z)) (toks : list Z) : bool :=
  match ts with (TSym c, _) :: _ => strchr_in toks c | _ => false end.

Lemma peek_render s ts toks :
  at_pos s (render ts) -> spaced ts -> (forall c, strchr_in toks c = true -> c ∈ symbols) ->
  peek buf s toks = (head_in ts toks, s).
Proof.
  intros Hat Hsp Htoks. unfold peek. rewrite (skip_blanks_here s ts Hat Hsp), (at_deref _ _ Hat). f_equal.
  destruct ts as [| [t g] ts]; [done |]. destruct Hsp as (Ht & _). rewrite render_cons. destruct t as [w | c]; simpl in *.
  - destruct Ht as [Hne Hw]. destruct w as [| c w]; [done |]. apply Forall_cons in Hw as [Hc _]. simpl.
    destruct (strchr_in toks c) eqn:E; [| apply andb_false_r]. apply Htoks in E. destruct (symbol_char c E) as (_ & ? & _). congruence.
  - destruct (symbol_char c Ht) as (_ & _ & H0). by rewrite (proj2 (Z.eqb_neq c 0)).
Qed.
End Reading.

(** ** Parsing what was printed *)

Definition wrap (c : cmd (list Z)) (rs : list (list Z * Z * Z)) : cmd (list Z) :=
  fold_left (fun c '(f, m, fd) => REDIR c f m fd) rs c.
Definition redirs_toks (rs : list (list Z * Z * Z)) : list token := concat (map redir_toks rs).
Definition redir_ok (r : list Z * Z * Z) : Prop := let '(f, m, fd) := r in tok_ok (TWord f) /\ mode_ok m fd.

(** The tokens after a command: none, or a separator of the list. *)
Definition followed (seps : list Z) (l : list (token * list Z)) : Prop :=
  match l with [] => True | (TSym c, _) :: _ => c ∈ seps | _ => False end.

Lemma followed_head seps toks l :
  followed seps l -> forallb (fun c => negb (strchr_in toks c)) seps = true -> head_in l toks = false.
Proof.
  destruct l as [| [[w | c] g] l]; simpl; [done | done |]. rewrite forallb_forall, list_elem_of_In.
  intros Hc H. by apply negb_true_iff, H.
Qed.

Lemma followed_weaken seps seps' l : followed seps l -> seps ⊆ seps' -> followed seps' l.
Proof. destruct l as [| [[w | c] g] l]; simpl; [done | done |]. intros H Hs. by apply Hs. Qed.

Lemma spaced_app l l' : spaced (l ++ l') -> spaced l'.
Proof. induction l as [| [t g] l IH]; [done |]. intros (_ & _ & _ & H). by apply IH. Qed.

Lemma render_app l l' : render (l ++ l') = render l ++ render l'.
Proof. unfold render. by rewrite map_app, concat_app. Qed.

Lemma render_longer x l : spaced (x :: l) -> (S (length (render l)) <= length (render (x :: l)))%nat.
Proof.
  destruct x as [t g]. intros (Ht & _). rewrite render_cons, !length_app.
  destruct (tok_head t Ht) as (c & w & -> & _). simpl. lia.
Qed.

Lemma map_fst_cons (l : list (token * list Z)) t ts :
  map fst l = t :: ts -> exists g l', l = (t, g) :: l' /\ map fst l' = ts.
Proof. destruct l as [| [t' g] l]; [done |]. intros [= -> <-]. eauto. Qed.

Lemma map_fst_app (l : list (token * list Z)) ts ts' :
  map fst l = ts ++ ts' -> exists l1 l2, l = l1 ++ l2 /\ map fst l1 = ts /\ map fst l2 = ts'.
Proof.
  revert l. induction ts as [| t ts IH]; intros l H; [by exists [], l |].
  apply map_fst_cons in H as (g & l' & -> & H). destruct (IH l' H) as (l1 & l2 & -> & <- & <-).
  by exists ((t, g) :: l1), l2.
Qed.

Section Printed.
Context (buf : list Z).

Definition yields (m : result (cmd (nat * nat) * nat)) (c : cmd (list Z)) (rest : list (token * list Z)) : Prop :=
  exists c' s', m = Ret (c', s') /\ cmd_map (text buf) c' = c /\ at_pos buf s' (render rest).

Lemma yields_bind m c rest (k : cmd (nat * nat) * nat -> result (cmd (nat * nat) * nat)) d rest' :
  yields m c rest ->
  (forall c' s', cmd_map (text buf) c' = c -> at_pos buf s' (render rest) -> yields (k (c', s')) d rest') ->
  yields (rbind m k) d rest'.
Proof. intros (c' & s' & -> & Hc & Hs) Hk. by apply Hk. Qed.

(** Looking at the next token. *)
Lemma peek_known s l toks b :
  at_pos buf s (render l) -> spaced l -> forallb (strchr_in symbols) toks = true -> head_in l toks = b ->
  peek buf s toks = (b, s).
Proof.
  intros Hat Hl Htoks <-. apply peek_render; [done | done |]. intros c Hc.
  assert (c ∈ toks) as Hin.
  { clear Htoks. unfold strchr_in in Hc. induction toks as [| x toks IH]; [done |]. simpl in Hc.
    destruct (x =? 0); [done |]. destruct (Z.eqb_spec x c) as [-> |]; apply elem_of_cons; [by left | right; by apply IH]. }
  rewrite forallb_forall in Htoks. apply strchr_in_spec; [apply symbols_not_zero |]. apply Htoks. by apply list_elem_of_In.
Qed.

Lemma gettoken_known s t g l :
  at_pos buf s (render ((t, g) :: l)) -> spaced ((t, g) :: l) ->
  exists w s', gettoken buf s = (tok_code t, w, s') /\ text buf w = tok_text t /\ at_pos buf s' (render l).
Proof.
  intros Hat Hl. destruct (gettoken_render buf s t g l Hat Hl) as (s' & Hg & Hs'). eexists _, s'. split; [exact Hg |].
  split; [| done]. apply (at_text buf s (tok_text t) (g ++ render l)). by rewrite render_cons in Hat.
Qed.

Lemma parseredirs_reads rs l1 l2 fuel c' c s :
  map fst l1 = redirs_toks rs -> Forall redir_ok rs -> spaced (l1 ++ l2) -> head_in l2 [60; 62] = false ->
  at_pos buf s (render (l1 ++ l2)) -> (length (render (l1 ++ l2)) < fuel)%nat -> cmd_map (text buf) c' = c ->
  yields (parseredirs buf fuel c' s) (wrap c rs) l2.
Proof.
  revert l1 fuel c' c s. induction rs as [| [[f m] fd] rs IH]; intros l1 fuel c' c s Hl Hrs Hsp Hh Hat Hf Hc;
    (destruct fuel as [| fuel]; [lia |]); cbn [parseredirs].
  - destruct l1; [| done]. rewrite (peek_known s l2 _ false) by done. by exists c', s.
  - apply map_fst_cons in Hl as (g1 & l1' & -> & Hl). apply map_fst_cons in Hl as (g2 & l1 & -> & Hl).
    apply Forall_cons in Hrs as [[Hw Hm] Hrs]. cbn [app] in *.
    rewrite (peek_known s _ _ true Hat Hsp) by (done || by destruct (fd =? 0)).
    pose proof (render_longer _ _ Hsp). destruct (gettoken_known _ _ _ _ Hat Hsp) as (w1 & s1 & -> & _ & Hat1).
    destruct Hsp as (_ & _ & _ & Hsp). pose proof (render_longer _ _ Hsp).
    destruct (gettoken_known _ _ _ _ Hat1 Hsp) as (w2 & s2 & -> & Hw2 & Hat2). destruct Hsp as (_ & _ & _ & Hsp).
    cbn [tok_code Z.eqb Pos.eqb negb]. cbn [wrap fold_left]. apply (IH l1); try done; [lia |].
    subst c. destruct Hm as [[-> ->] | [-> ->]]; cbn; by rewrite Hw2.
Qed.

Lemma parseredirs_none fuel c s l :
  at_pos buf s (render l) -> spaced l -> head_in l [60; 62] = false -> parseredirs buf (S fuel) c s = Ret (c, s).
Proof. intros Hat Hsp Hh. cbn [parseredirs]. by rewrite (peek_known s l _ false). Qed.

(** The separators that end a simple command. *)
Definition exec_seps : list Z := [124; 41; 38; 59].

Lemma parseargs_stops fuel argv r l s :
  followed exec_seps l -> spaced l -> at_pos buf s (render l) ->
  yields (parseargs buf (S fuel) argv r s) (cmd_map (text buf) r) l.
Proof.
  intros Hl Hsp Hat. cbn [parseargs]. destruct l as [| [t g] l].
  - rewrite (peek_known s [] _ false) by done.
    assert (deref buf s = 0) as Hz by by rewrite (at_deref _ _ _ Hat).
    unfold gettoken. rewrite (skip_blanks_here buf s [] Hat I), Hz. simpl.
    rewrite (skip_blanks_here buf s [] Hat I). by exists r, s.
  - rewrite (peek_known s _ _ true Hat Hsp); [by exists r, s | done |]. destruct t as [| c]; [done |].
    simpl in Hl |- *. apply strchr_in_spec; [| done]. rewrite list_elem_of_In. simpl. lia.
Qed.

Lemma parseargs_reads ws rs l1 l2 fuel argv s :
  ws <> [] -> map fst l1 = map TWord ws ++ redirs_toks rs -> Forall redir_ok rs -> spaced (l1 ++ l2) ->
  followed exec_seps l2 -> at_pos buf s (render (l1 ++ l2)) -> (length (render (l1 ++ l2)) < fuel)%nat ->
  (length (argv ++ map (fun _ => (0, 0)%nat) ws) < MAXARGS)%nat ->
  yields (parseargs buf fuel argv (EXEC argv) s) (wrap (EXEC (map (text buf) argv ++ ws)) rs) l2.
Proof.
  revert l1 fuel argv s. induction ws as [| w ws IH]; [done |]. intros l1 fuel argv s _ Hl Hrs Hsp Hl2 Hat Hf Hmax.
  destruct fuel as [| fuel]; [lia |]. cbn [parseargs].
  apply map_fst_cons in Hl as (g & l1' & -> & Hl). cbn [app] in *.
  rewrite (peek_known s _ _ false Hat Hsp) by done. pose proof (render_longer _ _ Hsp).
  destruct (gettoken_known _ _ _ _ Hat Hsp) as (w1 & s1 & -> & Hw1 & Hat1). destruct Hsp as (_ & _ & _ & Hsp).
  cbn [tok_code tok_text Z.eqb Pos.eqb negb set_argv] in *.
  assert (length (argv ++ [w1]) + length ws < MAXARGS)%nat as Hmax'.
  { rewrite length_app in Hmax |- *. simpl in Hmax |- *. rewrite length_map in Hmax. lia. }
  rewrite (proj2 (Nat.leb_gt _ _)) by lia.
  assert (map (text buf) argv ++ w :: ws = map (text buf) (argv ++ [w1]) ++ ws) as ->.
  { rewrite map_app, <- app_assoc. simpl. by rewrite Hw1. }
  destruct ws as [| w' ws].
  - rewrite app_nil_r. eapply yields_bind.
    + eapply (parseredirs_reads rs l1' l2 _ _ (EXEC (map (text buf) (argv ++ [w1])))); [done | done | done | | done | lia | done].
      by apply (followed_head exec_seps).
    + intros c' s' <- Hs'. destruct fuel; [lia |]. apply parseargs_stops; [done | by apply spaced_app in Hsp | done].
  - destruct fuel as [| fuel]; [lia |]. pose proof Hl as Hl'. apply map_fst_cons in Hl' as (g' & l1'' & -> & _).
    rewrite (parseredirs_none fuel _ _ _ Hat1 Hsp) by done. cbn [rbind].
    eapply IH; [done | exact Hl | done | done | done | done | lia |].
    rewrite length_app, length_map. simpl in *. lia.
Qed.
(** The function [parse] reads commands printed for level [lvl] when one of [seps]
    follows; [k] is what it needs of fuel beyond four units a character. *)
Definition reads (parse : nat -> nat -> result (cmd (nat * nat) * nat)) (lvl : nat) (seps : list Z) (k : nat)
  (c : cmd (list Z)) : Prop :=
  forall l1 l2 fuel s,
    map fst l1 = show lvl c -> spaced (l1 ++ l2) -> followed seps l2 -> at_pos buf s (render (l1 ++ l2)) ->
    (4 * length (render (l1 ++ l2)) + k <= fuel)%nat -> yields (parse fuel s) c l2.

Definition reads_exec : cmd (list Z) -> Prop := reads (parseexec buf) 3 exec_seps 2.
Definition reads_pipe : cmd (list Z) -> Prop := reads (parsepipe buf) 2 [41; 38; 59] 3.
Definition reads_line : cmd (list Z) -> Prop := reads (parseline buf) 0 [41] 4.

Lemma show_wrap c rs : show 3 (wrap c rs) = show 3 c ++ redirs_toks rs.
Proof.
  unfold wrap, redirs_toks. revert c. induction rs as [| [[f m] fd] rs IH]; intros c; simpl; [by rewrite app_nil_r |].
  rewrite IH. simpl. by rewrite <- app_assoc.
Qed.

Lemma redirs_head rs l1 l2 toks :
  map fst l1 = redirs_toks rs -> head_in l2 toks = false -> strchr_in toks 60 = false -> strchr_in toks 62 = false ->
  head_in (l1 ++ l2) toks = false.
Proof.
  destruct rs as [| [[f m] fd] rs]; intros Hl H2 H60 H62; [by destruct l1 |].
  apply map_fst_cons in Hl as (g & l1' & -> & _). simpl. by destruct (fd =? 0).
Qed.

Lemma simple_reads argv rs :
  (length argv < MAXARGS)%nat -> Forall redir_ok rs -> reads_exec (wrap (EXEC argv) rs).
Proof.
  intros Hmax Hrs l1 l2 fuel s Hl Hsp Hl2 Hat Hf. rewrite show_wrap in Hl. cbn [show] in Hl.
  destruct fuel as [| [| fuel]]; [lia | lia |]. cbn [parseexec].
  assert (head_in l2 [40] = false) by by apply (followed_head exec_seps).
  assert (head_in l2 [60; 62] = false) by by apply (followed_head exec_seps).
  destruct argv as [| w argv].
  - rewrite (peek_known s _ _ false Hat Hsp); [| done | by apply (redirs_head rs)].
    eapply yields_bind.
    + eapply (parseredirs_reads rs l1 l2 _ _ (EXEC [])); [done | done | done | done | done | lia | done].
    + intros c' s' <- Hs'. by apply parseargs_stops; [| apply spaced_app in Hsp |].
  - pose proof Hl as Hl'. apply map_fst_cons in Hl' as (g & l1' & -> & _).
    rewrite (peek_known s _ _ false Hat Hsp) by done.
    rewrite (parseredirs_none fuel _ _ _ Hat Hsp) by done. cbn [rbind].
    eapply (parseargs_reads (w :: argv) rs _ l2 _ []); [done | exact Hl | done | done | done | done | lia |].
    by rewrite app_nil_l, length_map.
Qed.

Lemma block_reads d rs :
  show 3 d = TSym 40 :: show 0 d ++ [TSym 41] -> Forall redir_ok rs -> reads_line d -> reads_exec (wrap d rs).
Proof.
  intros Hd Hrs Hline l1 l2 fuel s Hl Hsp Hl2 Hat Hf. rewrite show_wrap, Hd in Hl. cbn [app] in Hl.
  destruct fuel as [| [| fuel]]; [lia | lia |].
  apply map_fst_cons in Hl as (g & l1' & -> & Hl). rewrite <- app_assoc in Hl. cbn [app] in *.
  apply map_fst_app in Hl as (la & lb & -> & Hla & Hlb). apply map_fst_cons in Hlb as (g' & lr & -> & Hlr).
  cbn [parseexec]. rewrite (peek_known s _ _ true Hat Hsp) by done.
  cbn [parseblock]. rewrite (peek_known s _ _ true Hat Hsp) by done. cbn [negb].
  pose proof (render_longer _ _ Hsp). destruct (gettoken_known _ _ _ _ Hat Hsp) as (w1 & s1 & -> & _ & Hat1).
  destruct Hsp as (_ & _ & _ & Hsp). rewrite <- app_assoc in *. cbn [app] in *.
  eapply yields_bind.
  - eapply Hline; [exact Hla | exact Hsp | by apply list_elem_of_singleton | exact Hat1 | lia].
  - intros c' s' <- Hs'. apply spaced_app in Hsp as Hsp'.
    rewrite (peek_known s' _ _ true Hs' Hsp') by done. cbn [negb].
    destruct (gettoken_known _ _ _ _ Hs' Hsp') as (w2 & s2 & -> & _ & Hat2).
    assert (length (render (lr ++ l2)) <= length (render (la ++ (TSym 41, g') :: lr ++ l2)))%nat.
    { rewrite (render_app la), length_app. pose proof (render_longer _ _ Hsp'). lia. }
    destruct Hsp' as (_ & _ & _ & Hsp').
    eapply (parseredirs_reads rs lr l2); [done | done | done | by apply (followed_head exec_seps) | done | lia | done].
Qed.

Lemma pipe_single c : show 2 c = show 3 c -> reads_exec c -> reads_pipe c.
Proof.
  intros Hc He l1 l2 fuel s Hl Hsp Hl2 Hat Hf. destruct fuel as [| fuel]; [lia |]. cbn [parsepipe].
  eapply yields_bind.
  - eapply He; [by rewrite <- Hc | exact Hsp | | exact Hat | lia].
    apply (followed_weaken _ exec_seps _ Hl2). intros x. unfold exec_seps. rewrite !elem_of_cons. tauto.
  - intros c' s' <- Hs'. rewrite (peek_known s' l2 _ false); [by exists c', s' | done | by apply spaced_app in Hsp | done |].
    by apply (followed_head [41; 38; 59]).
Qed.

(** A command before a separator, which is consumed. *)
Lemma sep_known s c g l :
  at_pos buf s (render ((TSym c, g) :: l)) -> spaced ((TSym c, g) :: l) -> strchr_in symbols c = true ->
  peek buf s [c] = (true, s) /\ exists t w s', gettoken buf s = (t, w, s') /\ at_pos buf s' (render l).
Proof.
  intros Hat Hsp Hc. split.
  - apply (peek_known s _ _ true Hat Hsp); simpl; [by rewrite Hc |].
    apply strchr_in_spec; [| by apply list_elem_of_singleton].
    rewrite list_elem_of_singleton. intros <-. done.
  - destruct (gettoken_known _ _ _ _ Hat Hsp) as (w & s' & -> & _ & Hat'). eauto 6.
Qed.

Lemma pipe_pipe l r : reads_exec l -> reads_pipe r -> reads_pipe (PIPE l r).
Proof.
  intros He Hp l1 l2 fuel s Hl Hsp Hl2 Hat Hf. destruct fuel as [| fuel]; [lia |]. cbn [parsepipe].
  cbn [show Nat.leb par] in Hl. apply map_fst_app in Hl as (la & lb & -> & Hla & Hlb).
  apply map_fst_cons in Hlb as (g & lr & -> & Hlr). rewrite <- app_assoc in *. cbn [app] in *.
  eapply yields_bind.
  - eapply He; [exact Hla | exact Hsp | | exact Hat | lia]. apply elem_of_cons; by left.
  - intros c' s' <- Hs'. apply spaced_app in Hsp as Hsp'.
    destruct (sep_known s' 124 g (lr ++ l2) Hs' Hsp' eq_refl) as [-> (t & w & s2 & -> & Hat2)].
    assert (S (length (render (lr ++ l2))) <= length (render (la ++ (TSym 124, g) :: lr ++ l2)))%nat.
    { rewrite (render_app la), length_app. pose proof (render_longer _ _ Hsp'). lia. }
    destruct Hsp' as (_ & _ & _ & Hsp'). eapply yields_bind.
    + eapply Hp; [exact Hlr | exact Hsp' | exact Hl2 | exact Hat2 | lia].
    + intros c2 s3 <- Hs3. by exists (PIPE c' c2), s3.
Qed.
Fixpoint backs {W} (k : nat) (c : cmd W) : cmd W := match k with O => c | S k' => BACK (backs k' c) end.

Lemma backs_back {W} k (c : cmd W) : backs k (BACK c) = BACK (backs k c).
Proof. induction k as [| k IH]; simpl; [done | by rewrite IH]. Qed.

Lemma show_backs k p : show 1 p = show 2 p -> show 1 (backs k p) = show 2 p ++ repeat (TSym 38) k.
Proof.
  intros Hp. induction k as [| k IH]; simpl; [by rewrite app_nil_r |].
  rewrite IH, <- app_assoc. f_equal. clear. induction k as [| k IH]; simpl; [done | by rewrite IH].
Qed.

Lemma parsebacks_reads k l1 l2 fuel c' c s :
  map fst l1 = repeat (TSym 38) k -> spaced (l1 ++ l2) -> head_in l2 [38] = false ->
  at_pos buf s (render (l1 ++ l2)) -> (length (render (l1 ++ l2)) < fuel)%nat -> cmd_map (text buf) c' = c ->
  yields (parsebacks buf fuel c' s) (backs k c) l2.
Proof.
  revert l1 fuel c' c s. induction k as [| k IH]; intros l1 fuel c' c s Hl Hsp Hh Hat Hf Hc;
    (destruct fuel as [| fuel]; [lia |]); cbn [parsebacks].
  - destruct l1; [| done]. rewrite (peek_known s l2 _ false) by done. by exists c', s.
  - apply map_fst_cons in Hl as (g & l1' & -> & Hl). cbn [app] in *. pose proof (render_longer _ _ Hsp).
    destruct (sep_known s 38 g _ Hat Hsp eq_refl) as [-> (t & w & s2 & -> & Hat2)]. destruct Hsp as (_ & _ & _ & Hsp).
    cbn [backs]. rewrite <- backs_back. apply (IH l1'); try done; [lia | cbn; by rewrite Hc].
Qed.

(** A pipeline, possibly in the background. *)
Lemma line_head k p l1 l2 fuel s m rest d :
  show 1 p = show 2 p -> reads_pipe p -> map fst l1 = show 1 (backs k p) -> spaced (l1 ++ l2) ->
  followed [41; 59] l2 -> at_pos buf s (render (l1 ++ l2)) -> (4 * length (render (l1 ++ l2)) + 3 <= fuel)%nat ->
  (forall c' s', cmd_map (text buf) c' = backs k p -> at_pos buf s' (render l2) -> yields (m (c', s')) d rest) ->
  yields (let* (c, s) := parsepipe buf fuel s in rbind (parsebacks buf fuel c s) m) d rest.
Proof.
  intros Hp Hr Hl Hsp Hl2 Hat Hf Hm. rewrite show_backs in Hl by done.
  apply map_fst_app in Hl as (la & lb & -> & Hla & Hlb). rewrite <- app_assoc in *. eapply yields_bind.
  - eapply Hr; [exact Hla | exact Hsp | | exact Hat | lia]. destruct k as [| k]; simpl in Hlb.
    + destruct lb; [| done]. apply (followed_weaken _ _ _ Hl2). intros x. rewrite !elem_of_cons. tauto.
    + apply map_fst_cons in Hlb as (g & lb' & -> & _). simpl. rewrite !elem_of_cons. tauto.
  - intros c' s' Hc' Hs'. eapply yields_bind; [| exact Hm]. apply spaced_app in Hsp.
    eapply (parsebacks_reads k lb l2); [done | done | by apply (followed_head [41; 59]) | done | | done].
    rewrite render_app, length_app in Hf. lia.
Qed.

Lemma line_single k p :
  show 0 (backs k p) = show 1 (backs k p) -> show 1 p = show 2 p -> reads_pipe p -> reads_line (backs k p).
Proof.
  intros H0 Hp Hr l1 l2 fuel s Hl Hsp Hl2 Hat Hf. destruct fuel as [| fuel]; [lia |]. cbn [parseline].
  rewrite H0 in Hl. eapply line_head; [exact Hp | exact Hr | exact Hl | exact Hsp | | exact Hat | lia |].
  - apply (followed_weaken _ _ _ Hl2). intros x. rewrite !elem_of_cons. tauto.
  - intros c' s' <- Hs'. rewrite (peek_known s' l2 _ false); [by exists c', s' | done | by apply spaced_app in Hsp | done |].
    by apply (followed_head [41]).
Qed.

Lemma line_list k p r :
  show 1 p = show 2 p -> reads_pipe p -> reads_line r -> reads_line (LIST (backs k p) r).
Proof.
  intros Hp Hr Hline l1 l2 fuel s Hl Hsp Hl2 Hat Hf. destruct fuel as [| fuel]; [lia |]. cbn [parseline].
  cbn [show Nat.eqb par] in Hl. apply map_fst_app in Hl as (la & lb & -> & Hla & Hlb).
  apply map_fst_cons in Hlb as (g & lr & -> & Hlr). rewrite <- app_assoc in *. cbn [app] in *.
  eapply line_head; [exact Hp | exact Hr | exact Hla | exact Hsp | | exact Hat | lia |].
  - simpl. rewrite !elem_of_cons. tauto.
  - intros c' s' <- Hs'. apply spaced_app in Hsp as Hsp'.
    destruct (sep_known s' 59 g (lr ++ l2) Hs' Hsp' eq_refl) as [-> (t & w & s2 & -> & Hat2)].
    assert (S (length (render (lr ++ l2))) <= length (render (la ++ (TSym 59, g) :: lr ++ l2)))%nat.
    { rewrite (render_app la), length_app. pose proof (render_longer _ _ Hsp'). lia. }
    destruct Hsp' as (_ & _ & _ & Hsp'). eapply yields_bind.
    + eapply Hline; [exact Hlr | exact Hsp' | exact Hl2 | exact Hat2 | lia].
    + intros c2 s3 <- Hs3. by exists (LIST c' c2), s3.
Qed.
Definition reads_all (c : cmd (list Z)) : Prop :=
  (forall rs, Forall redir_ok rs -> reads_exec (wrap c rs)) /\ reads_pipe c /\ reads_line c /\
  exists k p, c = backs k p /\ show 1 p = show 2 p /\ reads_pipe p.

(** Commands printed alike at the levels up to 2. *)
Lemma reads_all_simple c :
  show 0 c = show 1 c -> show 1 c = show 2 c -> (forall rs, Forall redir_ok rs -> reads_exec (wrap c rs)) ->
  reads_pipe c -> reads_all c.
Proof.
  intros H01 H12 He Hp. split; [done |]. split; [done |]. split; [by apply (line_single 0) | by exists 0%nat, c].
Qed.

Lemma printed_reads c : cmd_ok c -> reads_all c.
Proof.
  induction c as [argv | c IH f m fd | l IHl r IHr | l IHl r IHr | c IH]; simpl.
  - intros [Hmax Hw]. assert (forall rs, Forall redir_ok rs -> reads_exec (wrap (EXEC argv) rs)) as He by (intros; by apply simple_reads).
    apply reads_all_simple; [done | done | done |]. apply pipe_single; [done | by apply (He [])].
  - intros (Hc & Hf & Hm). destruct (IH Hc) as (He & _).
    assert (forall rs, Forall redir_ok rs -> reads_exec (wrap (REDIR c f m fd) rs)) as He'.
    { intros rs Hrs. apply (He ((f, m, fd) :: rs)). by constructor. }
    apply reads_all_simple; [done | done | done |]. apply pipe_single; [done | by apply (He' [])].
  - intros [Hl Hr]. destruct (IHl Hl) as (He & _). destruct (IHr Hr) as (_ & Hp & _).
    pose proof (pipe_pipe l r (He [] (Forall_nil_2 _)) Hp) as Hpipe.
    apply reads_all_simple; [done | done | | done]. intros rs Hrs. apply block_reads; [done | done |].
    by apply (line_single 0).
  - intros [Hl Hr]. destruct (IHl Hl) as (_ & _ & _ & k & p & -> & Hsh & Hp). destruct (IHr Hr) as (_ & _ & Hline & _).
    pose proof (line_list k p r Hsh Hp Hline) as Hlist.
    assert (forall rs, Forall redir_ok rs -> reads_exec (wrap (LIST (backs k p) r) rs)) as He by (intros; by apply block_reads).
    assert (reads_pipe (LIST (backs k p) r)) as Hpipe by (apply pipe_single; [done | by apply (He [])]).
    split; [done |]. split; [done |]. split; [done |]. by exists 0%nat, (LIST (backs k p) r).
  - intros Hc. destruct (IH Hc) as (_ & _ & _ & k & p & -> & Hsh & Hp).
    pose proof (line_single (S k) p eq_refl Hsh Hp) as Hline.
    assert (forall rs, Forall redir_ok rs -> reads_exec (wrap (BACK (backs k p)) rs)) as He by (intros; by apply block_reads).
    split; [done |]. split; [apply pipe_single; [done | by apply (He [])] |]. split; [done |]. by exists (S k), p.
Qed.

(** Blanks before the first token are skipped. *)
Lemma parseline_blanks fuel s :
  (s <= length buf)%nat -> parseline buf fuel (skip_blanks buf s) = parseline buf fuel s.
Proof.
  intros Hs. destruct fuel as [| [| [| fuel]]]; [done | done | done |]. cbn [parseline parsepipe parseexec].
  unfold peek. by rewrite skip_blanks_idem.
Qed.
End Printed.

Lemma cmd_map_ext {V W} (f g : V -> W) c : (forall v, v ∈ words c -> f v = g v) -> cmd_map f c = cmd_map g c.
Proof.
  induction c as [argv | c IH file m fd | l IHl r IHr | l IHl r IHr | c IH]; simpl; intros H; f_equal.
  - apply map_ext_in. intros v Hv. apply H. by apply list_elem_of_In.
  - apply IH. intros v Hv. apply H, elem_of_app. by left.
  - apply H, elem_of_app. right. by apply list_elem_of_singleton.
  - apply IHl. intros v Hv. apply H, elem_of_app. by left.
  - apply IHr. intros v Hv. apply H, elem_of_app. by right.
  - apply IHl. intros v Hv. apply H, elem_of_app. by left.
  - apply IHr. intros v Hv. apply H, elem_of_app. by right.
  - by apply IH.
Qed.

(** C26: printing and parsing are inverse.  A command of any shape, printed with
    parentheses only where the grammar needs them and laid out with any blanks
    before, between and after its tokens, parses to a tree of the same shape, and
    after [nulterminate] the strings its pointers point to are the command's
    words: [parsecmd] recovers pipelines, lists, background commands, blocks and
    redirections with their nesting and order. *)
Theorem parse_print c lead ts :
  cmd_ok c -> map fst ts = show 0 c -> spaced ts -> Forall (fun b => strchr_in whitespace b = true) lead ->
  exists c' b, parsecmd (lead ++ render ts) = Ret (c', b) /\ cmd_map (fun w => string_at b w.1) c' = c.
Proof.
  intros Hc Hts Hsp Hlead. set (buf := lead ++ render ts).
  assert (0 ∉ buf) as H0 by (apply not_elem_of_app; split; [by apply blanks_nonzero | by apply render_nonzero]).
  assert (at_pos buf 0 buf) as Hat by (split; [lia | done]). apply at_app in Hat as Hat'. simpl in Hat'.
  pose proof (skip_blanks_gap buf 0 lead ts Hat Hlead Hsp) as Hskip. simpl in Hskip.
  destruct (printed_reads buf c Hc) as (_ & _ & Hline & _).
  destruct (Hline ts [] (parse_fuel buf) (length lead)) as (c' & s' & Hparse & Hmap & Hs').
  { done. } { by rewrite app_nil_r. } { done. } { by rewrite app_nil_r. }
  { rewrite app_nil_r. unfold parse_fuel, es, buf. rewrite length_app. lia. }
  rewrite <- Hskip, parseline_blanks in Hparse by lia.
  destruct (parse_parsed buf H0 (parse_fuel buf)) as [Hok _].
  specialize (Hok 0%nat ltac:(lia) ltac:(unfold parse_fuel, es; lia)). rewrite Hparse in Hok. destruct Hok as [_ Hok].
  exists c', (nulterminate c' (buf ++ [0])). split.
  - unfold parsecmd. rewrite Hparse. cbn [rbind]. unfold peek. rewrite (skip_blanks_here buf s' [] Hs' I).
    pose proof (at_length _ _ _ Hs') as Hlen. destruct Hs' as [Hle _]. simpl in Hlen.
    rewrite (proj2 (Nat.eqb_eq s' (es buf))) by (unfold es; lia). done.
  - rewrite <- Hmap, nulterminate_cut. apply cmd_map_ext. intros w Hw. by apply cut_string.
Qed.

(** [ ( a;b& ) >f | c]: a block with a redirection, in a pipeline. *)
Definition sample_cmd : cmd (list Z) :=
  PIPE (REDIR (LIST (EXEC [[97]]) (BACK (EXEC [[98]]))) [102] 513 1) (EXEC [[99]]).
Definition sample_line : list (token * list Z) :=
  [(TSym 40, [32]); (TWord [97], []); (TSym 59, []); (TWord [98], []); (TSym 38, [32]); (TSym 41, [32]);
   (TSym 62, []); (TWord [102], [32]); (TSym 124, [32]); (TWord [99], [10])].

Lemma sample_ok : cmd_ok sample_cmd.
Proof.
  unfold sample_cmd. cbn. unfold mode_ok, MAXARGS. intuition (try lia); repeat constructor; intuition congruence.
Qed.

Lemma sample_spaced : spaced sample_line.
Proof.
  unfold sample_line. cbn -[symbols strchr_in]. unfold symbols. rewrite !elem_of_cons.
  intuition (try congruence); repeat constructor; try congruence.
Qed.

Lemma parse_print_witness :
  exists c' b, parsecmd [32; 40; 32; 97; 59; 98; 38; 32; 41; 32; 62; 102; 32; 124; 32; 99; 10] = Ret (c', b) /\
    cmd_map (fun w => string_at b w.1) c' = sample_cmd.
Proof.
  assert (Forall (fun b => strchr_in whitespace b = true) [32]) as Hlead by (constructor; [reflexivity | constructor]).
  exact (parse_print sample_cmd [32] sample_line sample_ok eq_refl sample_spaced Hlead).
Defined.
