(* ===== verification/ShRun.v ===== *)
(** [sh.c]: how the shell reads and runs commands, and which files the programs it
    starts have as their standard input and output.

    A process of the shell is the script of the system calls it makes.  What the
    calls do to the table of open files, which [fork] copies, is the function
    [runs]; whether a file can be opened and a program executed is a parameter. *)

From S2P Require Import Prelude Params CString Sh ShRound.

(** ** The scripts of [runcmd] *)

(** [Exec] goes on only when [exec] fails; the argument of the continuation of
    [Fork] is zero in the child and the child's pid in the parent. *)
Inductive script :=
| Exit
| Exec (argv : list (list Z)) (k : script)
| Close (fd : nat) (k : script)
| Open (file : list Z) (mode : Z) (k : Z -> script)
| Pipe (k : option (nat * nat) -> script)
| Dup (fd : nat) (k : script)
| Fork (k : Z -> script)
| Cd (path : list Z) (k : Z -> script)
| Wait (k : script)
| Print (fd : nat) (fmt : string) (arg : list Z) (k : script).

Definition sh_panic (s : string) : script := Print 2 s [] Exit.

Definition fork1 (k : Z -> script) : script := Fork (fun pid => if pid =? -1 then sh_panic "fork" else k pid).

Fixpoint runcmd (c : cmd (list Z)) : script :=
  match c with
  | EXEC argv =>
      match argv with
      | [] => Exit
      | arg0 :: _ => Exec argv (Print 2 "exec %s failed" arg0 Exit)
      end
  | REDIR c file mode fd =>
      Close (Z.to_nat fd)
        (Open file mode (fun r => if r <? 0 then Print 2 "open %s failed" file Exit else runcmd c))
  | LIST l r => fork1 (fun pid => if pid =? 0 then runcmd l else Wait (runcmd r))
  | PIPE l r =>
      Pipe (fun p =>
        match p with
        | None => sh_panic "pipe"
        | Some (p0, p1) =>
            fork1 (fun pid =>
              if pid =? 0 then Close 1 (Dup p1 (Close p0 (Close p1 (runcmd l))))
              else
                fork1 (fun pid =>
                  if pid =? 0 then Close 0 (Dup p0 (Close p0 (Close p1 (runcmd r))))
                  else Close p0 (Close p1 (Wait (Wait Exit)))))
        end)
  | BACK c => fork1 (fun pid => if pid =? 0 then runcmd c else Exit)
  end.

(** ** The main loop *)

Inductive action :=
| Eof
| Chdir (path : list Z)
| Command (buf : list Z).

Abbreviation SH_BUF := (100) (only parsing).

(** [getcmd] and the body of the loop of [main]: what is done with the next line
    of the input, of which [rd] are the successive one-byte reads. *)
Definition main_turn (rd : list (option Z)) : action * list (option Z) :=
  let '(buf, rd) := ulib_gets rd SH_BUF in
  let s := until_nul buf in
  match s with
  | [] => (Eof, rd)
  | 99 :: 100 :: 32 :: path => (Chdir (until_nul (take (length path - 1) path)), rd)
  | _ => (Command s, rd)
  end.

(** The words of a parsed command, read where its pointers point. *)
Definition strings (b : list Z) (c : cmd (nat * nat)) : cmd (list Z) := cmd_map (fun w => string_at b w.1) c.

(** What [parsecmd] prints before the complaint about the rest of a line. *)
Definition leftovers (buf : list Z) (k : script) : script :=
  match parseline buf (parse_fuel buf) 0 with
  | Ret (_, s) => Print 2 "leftovers: %s" (drop (snd (peek buf s [])) buf) k
  | _ => k
  end.

(** [runcmd(parsecmd(buf))] in the child; the parser does not run out of fuel. *)
Definition run_line (buf : list Z) : script :=
  match parsecmd buf with
  | Ret (c, b) => runcmd (strings b c)
  | Panic msg => leftovers buf (sh_panic msg)
  | NoFuel => Exit
  end.

(** The loop of [main]; every turn but the last takes a character. *)
Fixpoint main_loop (fuel : nat) (rd : list (option Z)) : script :=
  match fuel with
  | O => Exit
  | S fuel' =>
      Print 2 "$ " []
        (match main_turn rd with
         | (Eof, _) => Exit
         | (Chdir path, rd) =>
             Cd path (fun r => if r <? 0 then Print 2 "cannot cd %s" path (main_loop fuel' rd) else main_loop fuel' rd)
         | (Command buf, rd) => fork1 (fun pid => if pid =? 0 then run_line buf else Wait (main_loop fuel' rd))
         end)
  end.

(** ["console"] *)
Definition console : list Z := [99; 111; 110; 115; 111; 108; 101].

(** The loop that opens the standard files: at most three turns give one of them. *)
Fixpoint open_console (turns : nat) (k : script) : script :=
  match turns with
  | O => k
  | S turns' =>
      Open console O_RDWR (fun fd =>
        if fd <? 0 then k
        else if 3 <=? fd then Close (Z.to_nat fd) k
        else open_console turns' k)
  end.

Definition main (rd : list (option Z)) : script := open_console 4 (main_loop (S (length rd)) rd).

(** ** Open files *)

Inductive object :=
| Inherited (i : nat)
| Opened (file : list Z) (mode : Z)
| PipeIn (n : nat)
| PipeOut (n : nat).

Definition fdtable := list (option object).

(** What the processes started for a command do: programs run, with their open
    files, and messages on the file a descriptor denotes. *)
Inductive event :=
| Ran (argv : list (list Z)) (t : fdtable)
| Said (o : option object) (fmt : string) (arg : list Z).

Definition lowest (t : fdtable) : option nat := fst <$> list_find (fun o => o = None) t.

Section Runs.
Context (opens : list Z -> Z -> bool) (execs : list (list Z) -> bool) (chdirs : list Z -> bool).

(** The events of a process and its children, the child's first; [n] numbers the
    pipes. *)
Fixpoint runs (p : script) (t : fdtable) (n : nat) : list event * nat :=
  match p with
  | Exit => ([], n)
  | Exec argv k => if execs argv then ([Ran argv t], n) else runs k t n
  | Close fd k => runs k (<[fd := None]> t) n
  | Open file mode k =>
      match (if opens file mode then lowest t else None) with
      | Some fd => runs (k (Z.of_nat fd)) (<[fd := Some (Opened file mode)]> t) n
      | None => runs (k (-1)) t n
      end
  | Pipe k =>
      match lowest t with
      | Some a =>
          let t1 := <[a := Some (PipeIn n)]> t in
          match lowest t1 with
          | Some b => runs (k (Some (a, b))) (<[b := Some (PipeOut n)]> t1) (S n)
          | None => runs (k None) t n
          end
      | None => runs (k None) t n
      end
  | Dup fd k =>
      match t !! fd, lowest t with
      | Some (Some o), Some a => runs k (<[a := Some o]> t) n
      | _, _ => runs k t n
      end
  | Fork k =>
      let '(child, n) := runs (k 0) t n in
      let '(parent, n) := runs (k 1) t n in
      (child ++ parent, n)
  | Cd path k => runs (k (if chdirs path then 0 else -1)) t n
  | Wait k => runs k t n
  | Print fd fmt arg k =>
      let '(evs, n) := runs k t n in
      (Said (default None (t !! fd)) fmt arg :: evs, n)
  end.

(** A process that has its three standard files and no others. *)
Definition std (i o e : object) : fdtable := Some i :: Some o :: Some e :: replicate 13 None.

(** ** What a command means *)

Fixpoint plumb (c : cmd (list Z)) (i o e : object) (n : nat) : list event * nat :=
  match c with
  | EXEC [] => ([], n)
  | EXEC (arg0 :: args) =>
      ([if execs (arg0 :: args) then Ran (arg0 :: args) (std i o e) else Said (Some e) "exec %s failed" arg0], n)
  | REDIR c file mode fd =>
      if opens file mode then
        if fd =? 0 then plumb c (Opened file mode) o e n else plumb c i (Opened file mode) e n
      else ([Said (Some e) "open %s failed" file], n)
  | LIST l r =>
      let '(a, n) := plumb l i o e n in let '(b, n) := plumb r i o e n in (a ++ b, n)
  | PIPE l r =>
      let '(a, m) := plumb l i (PipeOut n) e (S n) in let '(b, m) := plumb r (PipeIn n) o e m in (a ++ b, m)
  | BACK c => plumb c i o e n
  end.

(** The redirections a parsed command has. *)
Fixpoint redirs_ok {W} (c : cmd W) : Prop :=
  match c with
  | EXEC _ => True
  | REDIR c _ mode fd => redirs_ok c /\ mode_ok mode fd
  | PIPE l r | LIST l r => redirs_ok l /\ redirs_ok r
  | BACK c => redirs_ok c
  end.

(** Every program started for a command has exactly three open files.  Its
    input and output are those the command asks for: a redirection names the file,
    the nearest one around the program wins, a pipeline connects the output of its
    left side to the input of its right side by a pipe of its own, and everything
    else is inherited; no end of a pipe stays open beyond these, so a reader sees
    the end of its input when the writers are gone.  A file that cannot be opened
    or a program that cannot be executed is reported on the standard error and
    ends that part of the command only. *)
Lemma runcmd_plumbing c i o e n :
  redirs_ok c -> runs (runcmd c) (std i o e) n = plumb c i o e n.
Proof.
  revert i o e n. induction c as [argv | c IH f m fd | l IHl r IHr | l IHl r IHr | c IH]; intros i o e n; simpl.
  - intros _. destruct argv as [| a args]; [done |]. simpl. by destruct (execs (a :: args)).
  - intros (Hc & Hm). destruct Hm as [[-> ->] | [-> ->]]; simpl; destruct (opens f _); simpl; try done; apply (IH _ _ _ _ Hc).
  - intros [Hl Hr]. specialize (IHl i (PipeOut n) e (S n) Hl). unfold std in IHl. simpl in IHl. rewrite IHl.
    destruct (plumb l i (PipeOut n) e (S n)) as [a m]. specialize (IHr (PipeIn n) o e m Hr).
    unfold std in IHr. simpl in IHr. rewrite IHr. destruct (plumb r (PipeIn n) o e m) as [b m']. by rewrite app_nil_r.
  - intros [Hl Hr]. rewrite (IHl i o e n Hl). destruct (plumb l i o e n) as [a m].
    rewrite (IHr i o e m Hr). by destruct (plumb r i o e m).
  - intros Hc. rewrite (IH i o e n Hc). destruct (plumb c i o e n) as [a m]. by rewrite app_nil_r.
Qed.

(** *** The standard files *)

Lemma lowest_some x t : lowest (Some x :: t) = S <$> lowest t.
Proof. unfold lowest. cbn. by destruct (list_find _ t) as [[] |]. Qed.

Lemma lowest_free t j : lowest t = Some j -> t !! j = Some None.
Proof.
  unfold lowest. destruct (list_find _ t) as [[k o] |] eqn:E; [| done]. cbn. intros [= <-].
  apply list_find_Some in E as (E & Ho & _). subst o. exact E.
Qed.

Section Console.
Context (Hop : opens console O_RDWR = true) (k : script) (n : nat).
Local Abbreviation con := (Opened console O_RDWR).

Lemma open_console_step m t fd :
  lowest t = Some fd -> (fd < 3)%nat ->
  runs (open_console (S m) k) t n = runs (open_console m k) (<[fd := Some con]> t) n.
Proof using Hop.
  intros Hl Hfd. cbn [open_console runs]. rewrite Hop, Hl. by rewrite (proj2 (Z.ltb_ge _ _)), (proj2 (Z.leb_gt _ _)) by lia.
Qed.

Lemma open_console_full m x y z rest :
  runs (open_console (S m) k) (Some x :: Some y :: Some z :: rest) n = runs k (Some x :: Some y :: Some z :: rest) n.
Proof using Hop.
  cbn [open_console runs]. rewrite Hop, !lowest_some.
  destruct (lowest rest) as [j |] eqn:Ej; cbn [fmap option_fmap option_map]; [| done].
  rewrite (proj2 (Z.ltb_ge _ _)), (proj2 (Z.leb_le _ _)) by lia. cbn [runs]. rewrite Nat2Z.id. f_equal.
  etransitivity; [apply list_insert_insert_eq |]. apply list_insert_id. exact (lowest_free rest j Ej).
Qed.

(** The standard files that are not open become the console; nothing else does. *)
Lemma open_console_ok a b c rest :
  runs (open_console 4 k) (a :: b :: c :: rest) n =
  runs k (Some (default con a) :: Some (default con b) :: Some (default con c) :: rest) n.
Proof using Hop.
  destruct a, b, c; cbn [default]; repeat (erewrite open_console_step; [| reflexivity | cbn; lia]); apply open_console_full.
Qed.
End Console.

(** *** Sessions *)

(** What is done with the shell's input: its lines are commands, of which the
    parser accepts some, or changes of directory. *)
Inductive session (i o e : object) : list (option Z) -> nat -> list event -> Prop :=
| session_end rd rd' n :
    main_turn rd = (Eof, rd') -> session i o e rd n [Said (Some e) "$ " []]
| session_cd rd rd' n path evs :
    main_turn rd = (Chdir path, rd') -> session i o e rd' n evs ->
    session i o e rd n
      (Said (Some e) "$ " [] :: (if chdirs path then [] else [Said (Some e) "cannot cd %s" path]) ++ evs)
| session_run rd rd' n n' buf c b evs evs' :
    main_turn rd = (Command buf, rd') -> parsecmd buf = Ret (c, b) ->
    plumb (strings b c) i o e n = (evs, n') -> session i o e rd' n' evs' ->
    session i o e rd n (Said (Some e) "$ " [] :: evs ++ evs')
| session_syntax rd rd' n buf msg rest evs' :
    main_turn rd = (Command buf, rd') -> parsecmd buf = Panic msg -> msg ∈ complaints ->
    rest = [] \/ (exists s, msg = "syntax"%string /\ rest = [Said (Some e) "leftovers: %s" s]) -> session i o e rd' n evs' ->
    session i o e rd n (Said (Some e) "$ " [] :: rest ++ Said (Some e) msg [] :: evs').

End Runs.

(** ** The parser's commands *)

(** The redirections of what a parsing function gives. *)
Definition redirs_of (m : result (cmd (nat * nat) * nat)) : Prop :=
  match m with Ret (c, _) => redirs_ok c | _ => True end.

Lemma redirs_bind m k : redirs_of m -> (forall c s, redirs_ok c -> redirs_of (k (c, s))) -> redirs_of (rbind m k).
Proof. destruct m as [[c s] | |]; simpl; auto. Qed.

Lemma redirs_map {V W} (f : V -> W) c : redirs_ok c -> redirs_ok (cmd_map f c).
Proof. induction c; simpl; tauto. Qed.

Lemma redirs_set_argv {W} argv (c : cmd W) : redirs_ok c -> redirs_ok (set_argv argv c).
Proof. induction c; simpl; tauto. Qed.

Create HintDb redirs.
#[export] Hint Resolve redirs_bind redirs_set_argv : redirs.

Lemma parseredirs_redirs buf fuel c s : redirs_ok c -> redirs_of (parseredirs buf fuel c s).
Proof.
  revert c s. induction fuel as [| fuel IH]; intros c s Hc; [done |]. cbn [parseredirs].
  destruct (peek buf s _) as [[] s1]; [| done]. destruct (gettoken buf s1) as [[tok w] s2], (gettoken buf s2) as [[t q] s3].
  destruct (negb _); [done |]. apply IH.
  destruct (tok =? C_LT), (tok =? C_GT), (tok =? C_PLUS); cbn [redirs_ok]; unfold mode_ok; auto.
Qed.

Lemma parseargs_redirs buf fuel argv c s : redirs_ok c -> redirs_of (parseargs buf fuel argv c s).
Proof.
  revert argv c s. induction fuel as [| fuel IH]; intros argv c s Hc; [done |]. cbn [parseargs].
  destruct (peek buf s _) as [[] s1]; [done |]. destruct (gettoken buf s1) as [[tok q] s2].
  destruct (tok =? 0); [done |]. destruct (negb _); [done |]. destruct (MAXARGS <=? _)%nat; [done |].
  apply redirs_bind; [| auto]. apply parseredirs_redirs. auto with redirs.
Qed.

Lemma parsebacks_redirs buf fuel c s : redirs_ok c -> redirs_of (parsebacks buf fuel c s).
Proof.
  revert c s. induction fuel as [| fuel IH]; intros c s Hc; [done |]. cbn [parsebacks].
  destruct (peek buf s _) as [[] s1]; [| done]. destruct (gettoken buf s1) as [[tok q] s2]. by apply IH.
Qed.
#[export] Hint Resolve parseredirs_redirs parseargs_redirs parsebacks_redirs : redirs.

Lemma parse_redirs buf fuel :
  (forall s, redirs_of (parseline buf fuel s)) /\ (forall s, redirs_of (parsepipe buf fuel s)) /\
  (forall s, redirs_of (parseexec buf fuel s)) /\ (forall s, redirs_of (parseblock buf fuel s)).
Proof.
  induction fuel as [| fuel (IHl & IHp & IHe & IHb)]; [done |]. repeat split; intros s.
  - cbn [parseline]. apply redirs_bind; [done |]. intros c s1 Hc. apply redirs_bind; [auto with redirs |]. clear c Hc. intros c s2 Hc.
    destruct (peek buf s2 _) as [[] s3]; [| done]. destruct (gettoken buf s3) as [[? ?] s4]. apply redirs_bind; [done |]. by intros r s5 Hr.
  - cbn [parsepipe]. apply redirs_bind; [done |]. intros c s2 Hc.
    destruct (peek buf s2 _) as [[] s3]; [| done]. destruct (gettoken buf s3) as [[? ?] s4]. apply redirs_bind; [done |]. by intros r s5 Hr.
  - cbn [parseexec]. destruct (peek buf s _) as [[] s1]; [done |]. apply redirs_bind; [by apply parseredirs_redirs | auto with redirs].
  - cbn [parseblock]. destruct (peek buf s _) as [[] s1]; cbn [negb]; [| done]. destruct (gettoken buf s1) as [[? ?] s2].
    apply redirs_bind; [done |]. intros c s3 Hc. destruct (peek buf s3 _) as [[] s4]; cbn [negb]; [| done].
    destruct (gettoken buf s4) as [[? ?] s5]. auto with redirs.
Qed.

Lemma parsecmd_total buf :
  0 ∉ buf ->
  match parsecmd buf with Ret (c, _) => redirs_ok c | Panic msg => msg ∈ complaints | NoFuel => False end.
Proof.
  intros H0. unfold parsecmd. destruct (parse_parsed buf H0 (parse_fuel buf)) as [Hline _].
  specialize (Hline 0%nat ltac:(lia) ltac:(unfold parse_fuel, es; lia)).
  pose proof (proj1 (parse_redirs buf (parse_fuel buf)) 0%nat) as Hr.
  destruct (parseline buf (parse_fuel buf) 0) as [[c s] | msg |]; simpl in *; [| done | done].
  destruct (negb _); [unfold complaints; rewrite !elem_of_cons; tauto | done].
Qed.

(** ** Reading lines *)

Lemma until_nul_nonzero l : 0 ∉ until_nul l.
Proof.
  induction l as [| c l IH]; simpl; [by apply not_elem_of_nil |]. destruct (Z.eqb_spec c 0); [by apply not_elem_of_nil |].
  rewrite elem_of_cons. intros [E |]; [congruence | done].
Qed.

Lemma gets_loop_length rd k : (length (snd (gets_loop rd k)) + length (fst (gets_loop rd k)) <= length rd)%nat.
Proof.
  revert rd. induction k as [| k IH]; intros [| [c |] rd]; simpl; try lia.
  destruct (_ || _)%bool; simpl; [lia |]. specialize (IH rd). destruct (gets_loop rd k). simpl in *. lia.
Qed.

(** A turn that is not the last takes something from the input, and a command
    line has no zero in it. *)
Lemma main_turn_spec rd :
  match main_turn rd with
  | (Eof, _) => True
  | (Chdir _, rd') => (length rd' < length rd)%nat
  | (Command buf, rd') => (length rd' < length rd)%nat /\ 0 ∉ buf
  end.
Proof.
  unfold main_turn, ulib_gets. pose proof (gets_loop_length rd (Z.to_nat (SH_BUF - 1))) as Hl.
  destruct (gets_loop rd _) as [l rd']. simpl in Hl. pose proof (until_nul_nonzero (l ++ [0])) as Hz.
  assert (until_nul (l ++ [0]) <> [] -> (length rd' < length rd)%nat) as Hlen by (destruct l; simpl in *; [done | lia]).
  destruct (until_nul (l ++ [0])) as [| c s]; [done |]. specialize (Hlen ltac:(done)).
  repeat (case_match; simplify_eq; try done).
Qed.

(** ** The whole shell *)

Section Shell.
Context (opens : list Z -> Z -> bool) (execs : list (list Z) -> bool) (chdirs : list Z -> bool).
Local Abbreviation runs := (runs opens execs chdirs).
Local Abbreviation session := (session opens execs chdirs).

(** A line that is not a command ends its process with a complaint. *)
Lemma run_line_syntax buf msg i o e n :
  parsecmd buf = Panic msg ->
  exists rest, runs (run_line buf) (std i o e) n = (rest ++ [Said (Some e) msg []], n) /\
    (rest = [] \/ exists s, msg = "syntax"%string /\ rest = [Said (Some e) "leftovers: %s" s]).
Proof.
  intros Hp. unfold run_line. rewrite Hp. unfold leftovers. unfold parsecmd in Hp.
  destruct (parseline buf _ 0) as [[c s] | msg' |]; [| by exists []; split; [| left] | done].
  simpl in Hp. destruct (negb _) in Hp; [| done]. injection Hp as <-.
  eexists [_]. split; [done |]. right. by eexists.
Qed.

Lemma main_loop_session fuel rd i o e n :
  (length rd < fuel)%nat ->
  exists evs n', session i o e rd n evs /\ runs (main_loop fuel rd) (std i o e) n = (evs, n').
Proof.
  revert rd n. induction fuel as [| fuel IH]; intros rd n Hf; [lia |]. cbn [main_loop ShRun.runs].
  pose proof (main_turn_spec rd) as Ht. destruct (main_turn rd) as [[| path | buf] rd'] eqn:Em.
  - eexists _, _. split; [by eapply session_end | done].
  - destruct (IH rd' n ltac:(lia)) as (evs & n' & Hs & Hr).
    eexists _, _. split; [by eapply session_cd |]. cbn [ShRun.runs]. destruct (chdirs path); cbn [Z.ltb Z.compare ShRun.runs]; by rewrite Hr.
  - destruct Ht as [Hlen H0]. pose proof (parsecmd_total buf H0) as Hp. cbn [fork1 ShRun.runs Z.eqb].
    destruct (parsecmd buf) as [[c b] | msg |] eqn:Ep; [| | done].
    + destruct (plumb opens execs (strings b c) i o e n) as [evs m] eqn:Epl.
      destruct (IH rd' m ltac:(lia)) as (evs' & n' & Hs & Hr). eexists _, _. split; [by eapply session_run |].
      unfold run_line. rewrite Ep, runcmd_plumbing by (by apply redirs_map). by rewrite Epl, Hr.
    + destruct (IH rd' n ltac:(lia)) as (evs' & n' & Hs & Hr).
      destruct (run_line_syntax buf msg i o e n Ep) as (rest & Hrun & Hrest).
      eexists _, _. split; [by eapply session_syntax |]. rewrite Hrun, Hr. by rewrite <- app_assoc.
Qed.

(** C27: the shell, on any input and with any of the three standard files open to
    start with, makes the missing ones the console and then obeys its lines until
    the input ends.  It changes directory itself; for every other line a child
    either complains about the syntax or runs the command, and every program the
    command starts has exactly three open files.  Its input and output are those
    the command asks for: a redirection names the file, the nearest one around the
    program wins, a pipeline connects its two sides by a pipe of its own, and
    everything else is the shell's; no end of a pipe stays open beyond these, so a
    reader sees the end of its input when the writers are gone.  What cannot be
    opened or executed is reported and ends its part of the command only; the
    shell goes on with the next line. *)
Theorem shell_session rd a b c n :
  opens console O_RDWR = true ->
  let file o := default (Opened console O_RDWR) o in
  exists evs n', session (file a) (file b) (file c) rd n evs /\
    runs (main rd) (a :: b :: c :: replicate 13 None) n = (evs, n').
Proof.
  intros Hop file. unfold main. rewrite (open_console_ok opens execs chdirs Hop).
  apply (main_loop_session (S (length rd)) rd (file a) (file b) (file c) n). lia.
Qed.
End Shell.

(** The lines [a <f | b], [cd d], [a )] and [c], where there is no directory [d]
    and no program [c]; the standard error is closed at first. *)
Definition typed : list (option Z) :=
  Some <$> [97; 32; 60; 102; 32; 124; 32; 98; 10; 99; 100; 32; 100; 10; 97; 32; 41; 10; 99; 10].

Lemma shell_session_witness :
  let con := Opened console O_RDWR in
  let say := Said (Some con) in
  session (fun _ _ => true) (fun argv => bool_decide (argv <> [[99]])) (fun _ => false)
    (Inherited 0) (Inherited 1) con typed 0
    [say "$ " []; Ran [[97]] (std (Opened [102] 0) (PipeOut 0) con); Ran [[98]] (std (PipeIn 0) (Inherited 1) con);
     say "$ " []; say "cannot cd %s" [100]; say "$ " []; say "leftovers: %s" [41; 10]; say "syntax" [];
     say "$ " []; say "exec %s failed" [99]; say "$ " []].
Proof.
  destruct (shell_session (fun _ _ => true) (fun argv => bool_decide (argv <> [[99]])) (fun _ => false) typed
    (Some (Inherited 0)) (Some (Inherited 1)) None 0 eq_refl) as (evs & n' & Hs & Hr).
  vm_compute in Hr. injection Hr as <- <-. exact Hs.
Defined.
