(* ===== verification/Umalloc.v ===== *)
(** [umalloc.c]: the allocator of the user library, a circular list of free blocks
    in the order of their addresses.

    Memory is that of the process; a block is a header of eight bytes (the next
    free block, and the size in units of a header) and what follows it.  The
    address of the static [base] is a parameter. *)

From S2P Require Import Prelude Params Mem.

(** ** State *)

Record uheap := mkHeap {
  um : memory;
  freep : Z;            (* 0 before the first [malloc] *)
  brk : Z;              (* the size of the process *)
  grants : list bool    (* whether the kernel has the pages for the next [sbrk] *)
}.

Definition SIZEOF_HEADER : Z := 8.

(** The fields of a header. *)
Definition s_ptr (s : uheap) (p : Z) : Z := ld32 (um s) p.
Definition s_size (s : uheap) (p : Z) : Z := ld32 (um s) (p + 4).
Definition set_ptr (p v : Z) (s : uheap) : uheap := {| s with um := st32 (um s) p v |}.
Definition set_size (p v : Z) (s : uheap) : uheap := {| s with um := st32 (um s) (p + 4) v |}.

(** [p + n] for a pointer to a header. *)
Definition unit_add (p n : Z) : Z := u32 (p + n * SIZEOF_HEADER).

(** [sbrk] as the process sees it: the old size, which [growproc] has changed by
    [n], or nothing when the address space or the memory is exhausted. *)
Definition sbrk (n : Z) (s : uheap) : option Z * uheap :=
  let sz := brk s in
  let n := i32 n in
  let newsz := u32 (sz + n) in
  if 0 <? n then
    match grants s with
    | true :: g =>
        if KERNBASE <=? newsz then (None, {| s with grants := g |})
        else (Some sz, {| s with brk := if newsz <? sz then sz else newsz; grants := g |})
    | _ :: g => (None, {| s with grants := g |})
    | [] => (None, s)
    end
  else if n <? 0 then
    let sz' := if sz <=? newsz then sz else newsz in
    if sz' =? 0 then (None, s) else (Some sz, {| s with brk := sz' |})
  else (Some sz, s).

(** ** [free] *)

Section Umalloc.
Context (base : Z).

(** The loop of [free]: the free block after which [bp] belongs.  A turn goes to
    the next free block; [None] is the end of the fuel. *)
Fixpoint find_slot (fuel : nat) (s : uheap) (bp p : Z) : option Z :=
  match fuel with
  | O => None
  | S fuel' =>
      let q := s_ptr s p in
      if ((p <? bp) && (bp <? q))%bool then Some p
      else if ((q <=? p) && ((p <? bp) || (bp <? q)))%bool then Some p
      else find_slot fuel' s bp q
  end.

(** The block [bp] before the block after [p]: joined with it or linked to it. *)
Definition join_right (bp p : Z) (s : uheap) : uheap :=
  if unit_add bp (s_size s bp) =? s_ptr s p then
    let s := set_size bp (u32 (s_size s bp + s_size s (s_ptr s p))) s in
    set_ptr bp (s_ptr s (s_ptr s p)) s
  else set_ptr bp (s_ptr s p) s.

(** The block [bp] after [p]: joined with it or linked to it. *)
Definition join_left (bp p : Z) (s : uheap) : uheap :=
  if unit_add p (s_size s p) =? bp then
    let s := set_size p (u32 (s_size s p + s_size s bp)) s in
    set_ptr p (s_ptr s bp) s
  else set_ptr p bp s.

Definition free_at (bp p : Z) (s : uheap) : uheap :=
  {| (join_left bp p (join_right bp p s)) with freep := p |}.

Definition free (fuel : nat) (ap : Z) (s : uheap) : option uheap :=
  let bp := u32 (ap - SIZEOF_HEADER) in
  match find_slot fuel s bp (freep s) with
  | None => None
  | Some p => Some (free_at bp p s)
  end.

(** ** [malloc] *)

(** [Some None] is the null pointer. *)
Definition morecore (fuel : nat) (nu : Z) (s : uheap) : option (option Z * uheap) :=
  let nu := if nu <? 4096 then 4096 else nu in
  match sbrk (u32 (nu * SIZEOF_HEADER)) s with
  | (None, s) => Some (None, s)
  | (Some hp, s) =>
      match free fuel (unit_add hp 1) (set_size hp nu s) with
      | None => None
      | Some s => Some (Some (freep s), s)
      end
  end.

(** The block [p], which is large enough, is taken from the list or loses its end. *)
Definition carve (nunits prevp p : Z) (s : uheap) : Z * uheap :=
  let '(p, s) :=
    if s_size s p =? nunits then (p, set_ptr prevp (s_ptr s p) s)
    else
      let s := set_size p (u32 (s_size s p - nunits)) s in
      let p := unit_add p (s_size s p) in
      (p, set_size p nunits s) in
  (unit_add p 1, {| s with freep := prevp |}).

Fixpoint malloc_loop (fuel : nat) (nunits prevp p : Z) (s : uheap) : option (Z * uheap) :=
  match fuel with
  | O => None
  | S fuel' =>
      if nunits <=? s_size s p then Some (carve nunits prevp p s)
      else if p =? freep s then
        match morecore fuel' nunits s with
        | None => None
        | Some (None, s) => Some (0, s)
        | Some (Some p, s) => malloc_loop fuel' nunits p (s_ptr s p) s
        end
      else malloc_loop fuel' nunits p (s_ptr s p) s
  end.

Definition units (nbytes : Z) : Z := u32 (u32 (nbytes + SIZEOF_HEADER - 1) / SIZEOF_HEADER + 1).

(** [if((prevp = freep) == 0)]: the list is the empty block [base]. *)
Definition malloc_init (s : uheap) : uheap :=
  if freep s =? 0 then set_size base 0 {| (set_ptr base base s) with freep := base |} else s.

Definition malloc (fuel : nat) (nbytes : Z) (s : uheap) : option (Z * uheap) :=
  let s := malloc_init s in
  malloc_loop fuel (units nbytes) (freep s) (s_ptr s (freep s)) s.

End Umalloc.
