(* ===== verification/UmallocSpec.v ===== *)
(** The user library's allocator keeps its promise: blocks handed out do not
    overlap, are as large as asked for, and are left alone until they are freed. *)

From S2P Require Import Prelude Params Mem Umalloc.

(** ** Links *)

(** [l] are the blocks between [x] and [y]. *)
Fixpoint linked (m : memory) (x : Z) (l : list Z) (y : Z) : Prop :=
  match l with
  | [] => ld32 m x = y
  | z :: l' => ld32 m x = z /\ linked m z l' y
  end.

(** Following the links from [x] visits [l], and [y] is the last block visited. *)
Fixpoint path (m : memory) (x : Z) (l : list Z) (y : Z) : Prop :=
  match l with
  | [] => x = y
  | z :: l' => ld32 m x = z /\ path m z l' y
  end.

(** The links of the blocks [l], the last of which leads to [y]. *)
Definition links (m : memory) (l : list Z) (y : Z) : Prop :=
  match l with [] => True | z :: l' => linked m z l' y end.

Definition hd_or (y : Z) (l : list Z) : Z := match l with [] => y | z :: _ => z end.

(** [x < l_1 < l_2 < ... < y] *)
Fixpoint asc (x : Z) (l : list Z) (y : Z) : Prop :=
  match l with [] => x < y | z :: l' => x < z /\ asc z l' y end.

Lemma linked_split m x l y : linked m x l y <-> ld32 m x = hd_or y l /\ links m l y.
Proof. destruct l; simpl; tauto. Qed.

Lemma linked_path m x l1 l2 y : linked m x (l1 ++ l2) y <-> exists p, path m x l1 p /\ linked m p l2 y.
Proof.
  revert x. induction l1 as [| z l1 IH]; intros x; simpl.
  - split; [eauto | intros (p & -> & ?); done].
  - rewrite IH. split; [intros (H1 & p & H2 & H3) | intros (p & (H1 & H2) & H3)]; [by exists p | split; [done | by exists p]].
Qed.

Lemma linked_join m x l1 y l2 z : linked m x (l1 ++ y :: l2) z <-> linked m x l1 y /\ linked m y l2 z.
Proof. revert x. induction l1 as [| w l1 IH]; intros x; simpl; [done |]. rewrite IH. tauto. Qed.

Lemma path_snoc m x l z : path m x (l ++ [z]) z <-> exists p, path m x l p /\ ld32 m p = z.
Proof.
  revert x. induction l as [| w l IH]; intros x; simpl.
  - split; [intros [? _]; eauto | intros (p & -> & ?); done].
  - rewrite IH. split; [intros (H1 & p & H2 & H3) | intros (p & (H1 & H2) & H3)]; [by exists p | split; [done | by exists p]].
Qed.

Lemma path_last m x l y : path m x l y -> y ∈ x :: l.
Proof.
  revert x. induction l as [| z l IH]; simpl; intros x H.
  - subst. apply elem_of_cons. by left.
  - destruct H as [_ H]. apply elem_of_cons. right. by apply IH.
Qed.

Lemma asc_app x l1 z l2 y : asc x (l1 ++ z :: l2) y <-> asc x l1 z /\ asc z l2 y.
Proof. revert x. induction l1 as [| w l1 IH]; intros x; simpl; [tauto | rewrite IH; tauto]. Qed.

Lemma asc_bounds x l y : asc x l y -> x < y /\ forall z, z ∈ l -> x < z < y.
Proof.
  revert x. induction l as [| w l IH]; intros x; simpl; [intros H; split; [done | by intros z Hz%not_elem_of_nil] |].
  intros [Hw H]. destruct (IH w H) as [H1 H2]. split; [lia |]. intros z [-> | Hz]%elem_of_cons; [lia |].
  specialize (H2 z Hz). lia.
Qed.

Lemma asc_lt x x' l y : asc x l y -> x' < x -> asc x' l y.
Proof. destruct l; simpl; intros; [lia | intuition lia]. Qed.

Lemma asc_nodup x l y : asc x l y -> NoDup (x :: l).
Proof.
  revert x. induction l as [| w l IH]; intros x; simpl; [intros; apply NoDup_singleton |].
  intros [Hw H]. constructor; [| by apply IH]. intros [-> | Hx]%elem_of_cons; [lia |].
  destruct (asc_bounds _ _ _ H) as [_ Hb]. specialize (Hb x Hx). lia.
Qed.

Lemma links_frame m m' l y : (forall z, z ∈ l -> ld32 m' z = ld32 m z) -> links m l y -> links m' l y.
Proof.
  destruct l as [| x l]; [done |]. revert x. induction l as [| z l IH]; intros x Hf; simpl.
  - rewrite Hf; [done | apply elem_of_cons; by left].
  - intros [H1 H2]. rewrite Hf by (apply elem_of_cons; by left). split; [done |].
    apply (IH z); [| done]. intros w Hw. apply Hf. apply elem_of_cons. by right.
Qed.

Lemma path_frame m m' x l y :
  NoDup (x :: l) -> (forall z, z ∈ x :: l -> z <> y -> ld32 m' z = ld32 m z) -> path m x l y -> path m' x l y.
Proof.
  revert x. induction l as [| z l IH]; intros x Hnd Hf; simpl; [done |]. intros [H1 H2].
  apply NoDup_cons in Hnd as [Hx Hnd]. split.
  - rewrite Hf; [done | apply elem_of_cons; by left |]. intros ->. apply Hx. by apply path_last in H2.
  - apply IH; [done | | done]. intros w Hw. apply Hf. apply elem_of_cons. by right.
Qed.

Lemma linked_next m x l y z : linked m x l y -> z ∈ x :: l -> ld32 m z ∈ l ++ [y].
Proof.
  revert x. induction l as [| w l IH]; intros x H Hz; simpl in *.
  - apply list_elem_of_singleton in Hz. subst. by apply list_elem_of_singleton.
  - destruct H as [H1 H2]. apply elem_of_cons. apply elem_of_cons in Hz as [-> | Hz]; [by left | right; by apply (IH w)].
Qed.

(** The block a link leads to has one predecessor. *)
Lemma linked_pred m x l1 p l2 y z :
  linked m x (l1 ++ p :: l2) y -> NoDup (x :: l1 ++ p :: l2) -> y <> p -> z ∈ x :: l1 ++ p :: l2 -> ld32 m z = p ->
  path m x l1 z.
Proof.
  revert x. induction l1 as [| w l1 IH]; intros x H Hnd Hy Hz Hp; simpl in *.
  - destruct H as [H1 H2]. apply elem_of_cons in Hz as [-> | Hz]; [done |]. exfalso.
    apply (linked_next _ _ _ _ z H2) in Hz. rewrite Hp in Hz. apply NoDup_cons in Hnd as [_ Hnd].
    apply NoDup_cons in Hnd as [Hnd _]. apply elem_of_app in Hz as [Hz | Hz%list_elem_of_singleton]; congruence.
  - destruct H as [H1 H2]. apply NoDup_cons in Hnd as [Hx Hnd]. apply elem_of_cons in Hz as [-> | Hz].
    + exfalso. rewrite Hp in H1. subst w. apply NoDup_cons in Hnd as [Hw _]. apply Hw, elem_of_app. right. by apply elem_of_cons; left.
    + split; [done |]. by apply IH.
Qed.

(** ** The blocks of the heap *)

Record tile := mkTile { t_addr : Z; t_size : Z; t_free : bool }.

Definition t_end (t : tile) : Z := t_addr t + 8 * t_size t.

(** The blocks [ts] fill the memory from [a] to [hi]. *)
Fixpoint tiling (a : Z) (ts : list tile) (hi : Z) : Prop :=
  match ts with
  | [] => a = hi
  | t :: ts' => t_addr t = a /\ 1 <= t_size t /\ tiling (t_end t) ts' hi
  end.

Definition frees (ts : list tile) : list Z := map t_addr (filter (fun t => t_free t = true) ts).
Definition useds (ts : list tile) : list (Z * Z) :=
  map (fun t => (t_addr t, t_size t)) (filter (fun t => t_free t = false) ts).

Lemma frees_app ts ts' : frees (ts ++ ts') = frees ts ++ frees ts'.
Proof. unfold frees. by rewrite filter_app, map_app. Qed.
Lemma frees_cons t ts : frees (t :: ts) = (if t_free t then [t_addr t] else []) ++ frees ts.
Proof. unfold frees. rewrite filter_cons. by destruct (t_free t). Qed.
Lemma useds_app ts ts' : useds (ts ++ ts') = useds ts ++ useds ts'.
Proof. unfold useds. by rewrite filter_app, map_app. Qed.
Lemma useds_cons t ts : useds (t :: ts) = (if t_free t then [] else [(t_addr t, t_size t)]) ++ useds ts.
Proof. unfold useds. rewrite filter_cons. by destruct (t_free t). Qed.

Lemma frees_elem ts a : a ∈ frees ts <-> exists t, t ∈ ts /\ t_free t = true /\ t_addr t = a.
Proof.
  unfold frees. rewrite list_elem_of_In, in_map_iff. split.
  - intros (t & <- & Ht). rewrite <- list_elem_of_In, list_elem_of_filter in Ht. destruct Ht. eauto.
  - intros (t & Ht & Hf & <-). exists t. rewrite <- list_elem_of_In, list_elem_of_filter. done.
Qed.

Lemma useds_elem ts a n : (a, n) ∈ useds ts <-> exists t, t ∈ ts /\ t_free t = false /\ t_addr t = a /\ t_size t = n.
Proof.
  unfold useds. rewrite list_elem_of_In, in_map_iff. split.
  - intros (t & [= <- <-] & Ht). rewrite <- list_elem_of_In, list_elem_of_filter in Ht. destruct Ht. eauto.
  - intros (t & Ht & Hf & <- & <-). exists t. rewrite <- list_elem_of_In, list_elem_of_filter. done.
Qed.

Lemma tiling_app a ts ts' hi : tiling a (ts ++ ts') hi <-> exists mid, tiling a ts mid /\ tiling mid ts' hi.
Proof.
  revert a. induction ts as [| t ts IH]; intros a; simpl.
  - split; [eauto | intros (? & -> & ?); done].
  - rewrite IH. split; [intros (? & ? & mid & ? & ?) | intros (mid & (? & ? & ?) & ?)]; eauto 6.
Qed.

Lemma tiling_bounds a ts hi :
  tiling a ts hi -> a <= hi /\ forall t, t ∈ ts -> a <= t_addr t /\ 1 <= t_size t /\ t_end t <= hi.
Proof.
  revert a. induction ts as [| t ts IH]; intros a; simpl.
  - intros ->. split; [lia | by intros t Ht%not_elem_of_nil].
  - intros (<- & Hn & H). destruct (IH _ H) as [H1 H2]. unfold t_end in *. split; [lia |].
    intros t' [-> | Ht]%elem_of_cons; [lia |]. specialize (H2 t' Ht). lia.
Qed.

Lemma tiling_apart a ts hi t t' :
  tiling a ts hi -> t ∈ ts -> t' ∈ ts -> t = t' \/ t_end t <= t_addr t' \/ t_end t' <= t_addr t.
Proof.
  revert a. induction ts as [| x ts IH]; intros a; [by intros _ ?%not_elem_of_nil |]. simpl.
  intros (_ & _ & H) Ht Ht'. destruct (tiling_bounds _ _ _ H) as [_ Hb].
  apply elem_of_cons in Ht as [-> | Ht]; apply elem_of_cons in Ht' as [-> | Ht'].
  - by left.
  - right. left. by apply Hb.
  - right. right. by apply Hb.
  - by apply (IH _ H).
Qed.

Lemma tiling_frees a ts hi x : tiling a ts hi -> x < a -> asc x (frees ts) hi.
Proof.
  revert a x. induction ts as [| t ts IH]; intros a x; simpl; [intros ->; done |].
  intros (<- & Hn & H) Hx. rewrite frees_cons. destruct (t_free t); simpl.
  - split; [done |]. apply (IH _ _ H). unfold t_end. lia.
  - apply (IH _ _ H). unfold t_end. lia.
Qed.

(** ** The invariant *)

Lemma path_tail m x l1 z l2 y : path m x (l1 ++ z :: l2) y -> path m z l2 y.
Proof. revert x. induction l1 as [| w l1 IH]; intros x; simpl; [by intros [_ ?] | intros [_ ?]; by eapply IH]. Qed.

Lemma linked_tail m x l1 z l2 y : linked m x (l1 ++ z :: l2) y -> linked m z l2 y.
Proof. revert x. induction l1 as [| w l1 IH]; intros x; simpl; [by intros [_ ?] | intros [_ ?]; by eapply IH]. Qed.

Section Heap.
Context (base lo : Z).

Record heap_inv (s : uheap) (ts : list tile) : Prop := {
  hi_base : 0 < base /\ base + 8 <= lo;
  hi_tiling : tiling lo ts (brk s);
  hi_top : brk s <= KERNBASE;
  hi_linked : linked (um s) base (frees ts) base;
  hi_freep : freep s ∈ base :: frees ts;
  hi_size : forall t, t ∈ ts -> s_size s (t_addr t) = t_size t;
  hi_base_size : s_size s base = 0 }.

(** ** Finding the place of a block *)

Section Slot.
Context (s : uheap) (bp p hi : Z) (FB : list Z).
Context (Hp : linked (um s) p FB base) (HB : asc bp FB hi) (Hbase : base < bp).

Lemma walk_low l x fuel :
  path (um s) x l p -> asc x l bp -> base <= x -> (length l < fuel)%nat -> find_slot fuel s bp x = Some p.
Proof using Hp HB Hbase.
  revert x fuel. induction l as [| z l IH]; intros x fuel Hpath Hasc Hx Hf; (destruct fuel as [| fuel]; [simpl in Hf; lia |]);
    cbn [find_slot]; unfold s_ptr; simpl in Hpath, Hasc.
  - subst x. apply linked_split in Hp as [-> _]. destruct FB as [| z FB']; simpl in *.
    + rewrite (proj2 (Z.ltb_lt p bp)), (proj2 (Z.ltb_ge bp base)), (proj2 (Z.leb_le base p)) by lia. done.
    + rewrite (proj2 (Z.ltb_lt p bp)), (proj2 (Z.ltb_lt bp z)) by lia. done.
  - destruct Hpath as [Hz Hpath], Hasc as [Hxz Hasc]. rewrite Hz. destruct (asc_bounds _ _ _ Hasc) as [Hzb _].
    rewrite (proj2 (Z.ltb_ge bp z)), (proj2 (Z.leb_gt z x)), andb_false_r by lia. cbn [andb].
    apply IH; [done | done | lia | simpl in Hf; lia].
Qed.

Lemma walk_high l x fuel :
  linked (um s) x l base -> asc bp (x :: l) hi ->
  find_slot (S (length l) + fuel) s bp x = find_slot fuel s bp base.
Proof using Hbase.
  revert x. induction l as [| z l IH]; intros x Hl Hasc; cbn [length Nat.add find_slot]; unfold s_ptr; simpl in Hl, Hasc.
  - rewrite Hl. rewrite (proj2 (Z.ltb_ge x bp)), (proj2 (Z.ltb_ge bp base)) by lia. cbn [andb orb].
    by rewrite andb_false_r.
  - destruct Hl as [-> Hl], Hasc as (Hbx & Hxz & Hasc).
    rewrite (proj2 (Z.ltb_ge x bp)), (proj2 (Z.leb_gt z x)) by lia. cbn [andb].
    apply IH; [done |]. split; [lia | done].
Qed.
End Slot.

Lemma find_slot_spec s A bp n B fuel :
  heap_inv s (A ++ mkTile bp n false :: B) -> (S (length (frees A ++ frees B)) < fuel)%nat ->
  exists p, find_slot fuel s bp (freep s) = Some p /\ path (um s) base (frees A) p /\ linked (um s) p (frees B) base.
Proof.
  intros [Hb Ht Htop Hl Hfp _ _] Hf. rewrite frees_app, frees_cons in Hl, Hfp. simpl in Hl, Hfp.
  apply tiling_app in Ht as (mid & HA & Ht). destruct Ht as (Hbp & Hn & HB). simpl in Hbp, Hn. subst mid.
  destruct (tiling_bounds _ _ _ HA) as [HloA _].
  pose proof (tiling_frees _ _ _ base HA ltac:(lia)) as HascA.
  assert (asc bp (frees B) (brk s)) as HascB by (apply (tiling_frees _ _ _ bp HB); unfold t_end; simpl; lia).
  apply linked_path in Hl as (p & HpA & HpB). exists p. split; [| done]. rewrite length_app in Hf.
  apply elem_of_cons in Hfp as [-> | [Hfp | Hfp]%elem_of_app].
  - eapply walk_low; [exact HpB | exact HascB | lia | exact HpA | exact HascA | lia | lia].
  - apply list_elem_of_split in Hfp as (l1 & l2 & HFA). rewrite HFA in HpA, HascA, Hf.
    apply path_tail in HpA. apply asc_app in HascA as [Hasc1 HascA]. apply asc_bounds in Hasc1 as [Hlt _].
    rewrite length_app in Hf. simpl in Hf.
    eapply walk_low; [exact HpB | exact HascB | lia | exact HpA | exact HascA | lia | lia].
  - apply list_elem_of_split in Hfp as (l1 & l2 & HFB). rewrite HFB in HpB, HascB, Hf. rewrite length_app in Hf. simpl in Hf.
    replace fuel with (S (length l2) + (fuel - S (length l2)))%nat by lia.
    rewrite (walk_high s bp (brk s)); [| lia | by apply linked_tail in HpB |].
    + eapply walk_low; [exact HpB | exact HascB | lia | exact HpA | exact HascA | lia | lia].
    + apply asc_app in HascB as [Hasc1 Hasc2]. apply asc_bounds in Hasc1 as [? _]. by split.
Qed.
(** ** Headers do not overlap *)

(** [m'] differs from [m] at most in the header at [a]. *)
Definition only_header (a : Z) (m m' : memory) : Prop := forall x, x < a \/ a + 8 <= x -> m' x = m x.

Lemma only_header_ld a m m' z : only_header a m m' -> z + 4 <= a \/ a + 8 <= z -> ld32 m' z = ld32 m z.
Proof. intros H Hz. apply ld32_ext. intros i Hi. apply H. lia. Qed.

Lemma only_header_trans a m m' m'' : only_header a m m' -> only_header a m' m'' -> only_header a m m''.
Proof. intros H1 H2 x Hx. rewrite H2, H1; done. Qed.

Lemma only_header_st32 a m b v : b = a \/ b = a + 4 -> only_header a m (st32 m b v).
Proof. intros Hb x Hx. apply st32_ne. lia. Qed.

Lemma node_apart ts hi z z' :
  base + 8 <= lo -> tiling lo ts hi -> z ∈ base :: map t_addr ts -> z' ∈ base :: map t_addr ts -> z <> z' ->
  z + 8 <= z' \/ z' + 8 <= z.
Proof.
  intros Hb Ht Hz Hz' Hne. destruct (tiling_bounds _ _ _ Ht) as [_ Hbd]. rewrite elem_of_cons in Hz, Hz'.
  assert (forall y, y ∈ map t_addr ts -> exists t, t ∈ ts /\ t_addr t = y) as Hm.
  { intros y Hy. rewrite list_elem_of_In, in_map_iff in Hy. destruct Hy as (t & <- & Hin). exists t. by rewrite list_elem_of_In. }
  destruct Hz as [-> | Hz]; destruct Hz' as [-> | Hz']; [done | | |].
  - destruct (Hm _ Hz') as (t & Hin & <-). specialize (Hbd t Hin). lia.
  - destruct (Hm _ Hz) as (t & Hin & <-). specialize (Hbd t Hin). lia.
  - destruct (Hm _ Hz) as (t & Hin & <-). destruct (Hm _ Hz') as (t' & Hin' & <-).
    pose proof (Hbd t Hin) as H1. pose proof (Hbd t' Hin') as H2. unfold t_end in *.
    destruct (tiling_apart _ _ _ t t' Ht Hin Hin') as [-> | [H | H]]; [done | |]; unfold t_end in H; lia.
Qed.

Lemma frees_nodes ts z : z ∈ base :: frees ts -> z ∈ base :: map t_addr ts.
Proof.
  rewrite !elem_of_cons. intros [-> | H]; [by left | right].
  apply frees_elem in H as (t & Ht & _ & <-). rewrite list_elem_of_In, in_map_iff. exists t. by rewrite <- list_elem_of_In.
Qed.

Lemma nodes_tile ts t : t ∈ ts -> t_addr t ∈ base :: map t_addr ts.
Proof. intros Ht. apply elem_of_cons. right. rewrite list_elem_of_In, in_map_iff. exists t. by rewrite <- list_elem_of_In. Qed.

(** ** Joining a block with its right neighbour *)

Definition right_merge (n : Z) (B : list tile) : Z * list tile :=
  match B with
  | t :: B' => if t_free t then (n + t_size t, B') else (n, B)
  | [] => (n, [])
  end.

Lemma right_merge_spec bp n B hi n' B' :
  right_merge n B = (n', B') -> tiling (bp + 8 * n) B hi -> 1 <= n ->
  tiling (bp + 8 * n') B' hi /\ n <= n' /\ useds B' = useds B /\ (forall t, t ∈ B' -> t ∈ B) /\
  (forall z, z ∈ frees B' -> z ∈ frees B) /\ (length B' <= length B)%nat.
Proof.
  intros E Ht Hn. destruct B as [| t B0]; simpl in E; [by simplify_eq |]. destruct (t_free t) eqn:Ef; simplify_eq; [| split_and!; done || lia].
  destruct Ht as (Ha & Hs & Ht). unfold t_end in Ht. rewrite Ha in Ht. split; [by replace (bp + 8 * (n + t_size t)) with (bp + 8 * n + 8 * t_size t) by lia |].
  split; [lia |]. split; [rewrite useds_cons, Ef; done |]. split; [intros; apply elem_of_cons; by right |].
  split; [| simpl; lia]. intros z Hz. rewrite frees_cons, Ef. apply elem_of_cons. by right.
Qed.

(** The test for a right neighbour is right. *)
Lemma right_test bp n B hi :
  tiling (bp + 8 * n) B hi -> base < bp -> 1 <= n ->
  (bp + 8 * n =? hd_or base (frees B)) = match B with t :: _ => t_free t | [] => false end.
Proof.
  intros Ht Hb Hn. destruct B as [| t B]; simpl; [apply Z.eqb_neq; lia |]. destruct Ht as (Ha & Hs & Ht).
  rewrite frees_cons. destruct (t_free t); simpl; [by apply Z.eqb_eq |]. apply Z.eqb_neq.
  assert (asc (t_addr t) (frees B) hi) as Hasc by (apply (tiling_frees _ _ _ _ Ht); unfold t_end; lia).
  destruct (frees B) as [| z l]; simpl in *; lia.
Qed.
Lemma unit_add_small p n hi : 0 <= p -> 0 <= n -> p + 8 * n <= hi -> hi <= KERNBASE -> unit_add p n = p + 8 * n.
Proof.
  unfold KERNBASE. intros. unfold unit_add, SIZEOF_HEADER. rewrite (Z.mul_comm n 8). apply u32_small. unfold is_u32. lia.
Qed.

Lemma hd_u32 x l hi : asc x l hi -> hi <= KERNBASE -> 0 < base < x -> is_u32 (hd_or base l).
Proof.
  unfold is_u32, KERNBASE. intros H Hhi Hb. destruct (asc_bounds _ _ _ H) as [Hx Hz]. destruct l as [| z l]; simpl; [lia |].
  specialize (Hz z ltac:(apply elem_of_cons; by left)). lia.
Qed.

Section Free.
Context (s : uheap) (A B : list tile) (bp n p : Z).
Context (Hinv : heap_inv s (A ++ mkTile bp n false :: B)).
Context (HpA : path (um s) base (frees A) p) (HpB : linked (um s) p (frees B) base).
Local Abbreviation ts := (A ++ mkTile bp n false :: B).

Lemma free_places :
  tiling lo A bp /\ tiling (bp + 8 * n) B (brk s) /\ 1 <= n /\ base + 8 <= lo <= bp /\ 0 < base /\
  bp + 8 * n <= brk s <= KERNBASE /\ s_size s bp = n.
Proof using Hinv.
  destruct Hinv as [Hb Ht Htop _ _ Hsize _]. pose proof Ht as Ht'. apply tiling_app in Ht' as (mid & HA & (Hbp & Hn & HB)).
  unfold t_end in HB. simpl in *. subst mid. destruct (tiling_bounds _ _ _ HA). destruct (tiling_bounds _ _ _ HB).
  split_and!; try done; try lia. apply (Hsize (mkTile bp n false)), elem_of_app. right. apply elem_of_cons. by left.
Qed.

Lemma p_node : p ∈ base :: frees A.
Proof using HpA. by apply path_last in HpA. Qed.

(** The nodes of the list and [bp] are apart. *)
Lemma node_off z : z ∈ base :: map t_addr ts -> z <> bp -> z + 8 <= bp \/ bp + 8 <= z.
Proof using Hinv.
  intros Hz Hne. destruct Hinv as [[_ Hb] Ht _ _ _ _ _]. apply (node_apart ts (brk s)); try done.
  apply (nodes_tile ts (mkTile bp n false)), elem_of_app. right. apply elem_of_cons. by left.
Qed.

Lemma low_node z : z ∈ base :: frees A -> z + 8 <= bp.
Proof using Hinv.
  destruct free_places as (HA & _ & _ & Hb & _). destruct (tiling_bounds _ _ _ HA) as [_ Hbd].
  rewrite elem_of_cons. intros [-> | Hz]; [lia |]. apply frees_elem in Hz as (t & Ht & _ & <-).
  specialize (Hbd t Ht). unfold t_end in Hbd. lia.
Qed.

Lemma high_node z : z ∈ frees B -> bp + 8 <= z.
Proof using Hinv.
  destruct free_places as (_ & HB & Hn & _). destruct (tiling_bounds _ _ _ HB) as [_ Hbd].
  intros Hz. apply frees_elem in Hz as (t & Ht & _ & <-). specialize (Hbd t Ht). lia.
Qed.

Lemma join_right_spec n' B' :
  right_merge n B = (n', B') ->
  exists m1, join_right bp p s = {| s with um := m1 |} /\ only_header bp (um s) m1 /\
    ld32 m1 (bp + 4) = n' /\ ld32 m1 bp = hd_or base (frees B') /\ links (um s) (frees B') base.
Proof using Hinv HpA HpB.
  intros E. destruct free_places as (_ & HB & Hn & Hb & H0 & Hhi & Hsz). pose proof (low_node p p_node) as Hpl.
  pose proof HpB as HpB'. apply linked_split in HpB' as [Hq Hlinks].
  unfold join_right, s_ptr. rewrite Hsz, (unit_add_small _ _ (brk s)) by lia. rewrite Hq, (right_test bp n B (brk s)) by (done || lia).
  assert (forall q v, q ∈ frees B \/ q = p -> ld32 (st32 (um s) (bp + 4) v) q = ld32 (um s) q) as Hother.
  { intros q v [Hqb%high_node | ->]; apply ld32_st32_ne; lia. }
  destruct B as [| t B0]; simpl in E; [| destruct (t_free t) eqn:Ef].
  - injection E as <- <-. exists (st32 (um s) bp base). split; [done |]. split; [apply only_header_st32; by left |].
    rewrite ld32_st32_ne by lia. split; [done |]. split; [rewrite ld32_st32; apply (u32_small base); unfold is_u32, KERNBASE in *; lia | done].
  - injection E as <- <-. destruct HB as (Ha & Hs & HB). unfold t_end in HB. destruct (tiling_bounds _ _ _ HB) as [Hle _].
    rewrite frees_cons, Ef in *. simpl in *. destruct HpB as [_ HpB0].
    apply linked_split in HpB0 as [Hnext Hlinks0].
    assert (s_size s (t_addr t) = t_size t) as Hst.
    { apply Hinv, elem_of_app. right. apply elem_of_cons. right. apply elem_of_cons. by left. }
    unfold set_size, set_ptr, s_ptr. cbn [um]. rewrite Hst, (u32_small (n + _)) by (unfold is_u32, KERNBASE in *; lia).
    rewrite (Hother p) by (by right). rewrite Hq, (Hother (t_addr t)), Hnext by (left; apply elem_of_cons; by left).
    eexists. split; [done |]. split; [eapply only_header_trans; apply only_header_st32; tauto |].
    rewrite ld32_st32_ne, !ld32_st32 by lia. rewrite (u32_small (n + _)) by (unfold is_u32, KERNBASE in *; lia).
    split; [done |]. split; [| done]. apply u32_small, (hd_u32 (t_addr t) _ (brk s)); [| lia ..].
    apply (tiling_frees _ _ _ _ HB). lia.
  - injection E as <- <-. exists (st32 (um s) bp (hd_or base (frees (t :: B0)))). split; [done |].
    split; [apply only_header_st32; by left |]. rewrite ld32_st32_ne by lia. split; [done |]. split; [| done].
    rewrite ld32_st32. apply u32_small, (hd_u32 bp _ (brk s)); [| lia ..]. apply (tiling_frees _ _ _ _ HB). lia.
Qed.
(** A block inside the heap. *)
Lemma block_u32 a k : lo <= a -> 0 <= k -> a + 8 * k <= brk s -> is_u32 a /\ is_u32 k /\ unit_add a k = a + 8 * k.
Proof using Hinv.
  destruct free_places as (_ & _ & _ & Hb & H0 & Hhi & _). intros Ha Hk Hle. unfold is_u32, KERNBASE in *.
  split; [lia |]. split; [lia |]. apply (unit_add_small _ _ (brk s)); unfold KERNBASE; lia.
Qed.

Lemma tile_in_A t : t ∈ A -> t ∈ ts.
Proof. intros. apply elem_of_app. by left. Qed.
Lemma tile_in_B t : t ∈ B -> t ∈ ts.
Proof. intros. apply elem_of_app. right. apply elem_of_cons. by right. Qed.

(** What is known of the result of [free_at] for the blocks [ts']. *)
Definition freed (s' : uheap) (ts' : list tile) : Prop :=
  heap_inv s' ts' /\ useds ts' = useds A ++ useds B /\ (exists t, t ∈ ts' /\ t_free t = true /\ n <= t_size t) /\
  (length ts' <= length ts)%nat /\
  (forall x, (x < bp \/ bp + 8 <= x) -> (x < p \/ p + 8 <= x) -> um s' x = um s x).

Lemma p_in : p ∈ base :: map t_addr ts.
Proof using HpA.
  apply frees_nodes. rewrite frees_app. pose proof p_node as Hp. rewrite elem_of_cons, elem_of_app in *. tauto.
Qed.

Section Rebuild.
Context (m2 : memory).
Context (Hframe : forall x, x < bp \/ bp + 8 <= x -> x < p \/ p + 8 <= x -> m2 x = um s x).

(** Headers other than those of [bp] and [p] are unchanged. *)
Lemma other_node z :
  z ∈ base :: map t_addr ts -> z <> bp -> z <> p -> ld32 m2 z = ld32 (um s) z /\ ld32 m2 (z + 4) = ld32 (um s) (z + 4).
Proof using Hinv HpA Hframe.
  intros Hz H1 H2. pose proof (node_off z Hz H1). destruct Hinv as [[_ Hb] Ht _ _ _ _ _].
  pose proof (node_apart ts (brk s) z p Hb Ht Hz p_in H2).
  split; apply ld32_ext; intros i Hi; apply Hframe; lia.
Qed.

Lemma rebuild A0 a0 n0 B' G :
  tiling lo (A0 ++ mkTile a0 n0 true :: B') (brk s) ->
  (forall t, t ∈ A0 -> t ∈ A) -> (forall t, t ∈ B' -> t ∈ B) -> useds A0 = useds A -> useds B' = useds B -> n <= n0 ->
  (length A0 <= length A)%nat -> (length B' <= length B)%nat ->
  frees (A0 ++ mkTile a0 n0 true :: B') = frees A ++ G -> linked m2 p G base -> ld32 m2 (a0 + 4) = n0 ->
  (forall t, t ∈ A0 -> t_addr t = p -> ld32 m2 (p + 4) = t_size t) -> (p = base -> ld32 m2 (base + 4) = 0) ->
  freed {| um := m2; freep := p; brk := brk s; grants := grants s |} (A0 ++ mkTile a0 n0 true :: B').
Proof using Hinv HpA Hframe.
  intros Ht HA0 HB' HuA HuB Hn0 HlA HlB Hfr Hl Hsz Hpt Hpb. destruct free_places as (HA & HB & Hn & Hb & H0 & Hhi & _).
  assert (asc base (frees A) bp) as HascA by (apply (tiling_frees _ _ _ _ HA); lia).
  split; [| split; [| split; [| split; [rewrite !length_app; simpl; lia | done]]]].
  - split; simpl; [split; lia | done | lia | | | |].
    + rewrite Hfr. apply linked_path. exists p. split; [| done].
      apply (path_frame (um s)); [by apply (asc_nodup _ _ bp) | | done]. intros z Hz Hne.
      apply other_node; [| pose proof (low_node z Hz); lia | done]. apply frees_nodes. rewrite frees_app.
      rewrite elem_of_cons, elem_of_app in *. tauto.
    + rewrite Hfr. pose proof p_node as Hp. rewrite elem_of_cons, elem_of_app in *. tauto.
    + intros t. rewrite elem_of_app, elem_of_cons. unfold s_size. simpl.
      destruct (tiling_bounds _ _ _ HA) as [_ HbA]. destruct (tiling_bounds _ _ _ HB) as [_ HbB].
      intros [Hin | [-> | Hin]]; simpl; [| done |].
      * destruct (decide (t_addr t = p)) as [E | Hne]; [rewrite E; by apply Hpt |].
        specialize (HbA t (HA0 t Hin)). unfold t_end in HbA. apply HA0, tile_in_A in Hin.
        rewrite (proj2 (other_node _ (nodes_tile _ _ Hin) ltac:(lia) Hne)). by apply Hinv.
      * specialize (HbB t (HB' t Hin)). pose proof (low_node p p_node). apply HB', tile_in_B in Hin.
        rewrite (proj2 (other_node _ (nodes_tile _ _ Hin) ltac:(lia) ltac:(lia))). by apply Hinv.
    + unfold s_size. simpl. destruct (decide (p = base)) as [E | Hne]; [by apply Hpb |].
      rewrite (proj2 (other_node base ltac:(apply elem_of_cons; by left) ltac:(lia) ltac:(congruence))). apply Hinv.
  - rewrite useds_app, useds_cons. simpl. by rewrite HuA, HuB.
  - exists (mkTile a0 n0 true). split; [apply elem_of_app; right; apply elem_of_cons; by left | done].
Qed.
End Rebuild.

(** The memory the two joins leave, when the left neighbour is not free. *)
Lemma free_apart n' B' m1 :
  right_merge n B = (n', B') -> only_header bp (um s) m1 ->
  ld32 m1 (bp + 4) = n' -> ld32 m1 bp = hd_or base (frees B') -> links (um s) (frees B') base ->
  freed {| um := st32 m1 p bp; freep := p; brk := brk s; grants := grants s |} (A ++ mkTile bp n' true :: B').
Proof using Hinv HpA HpB.
  intros Hm Hoh Hsz Hptr Hlinks. destruct free_places as (HA & HB & Hn & Hb & H0 & Hhi & _).
  destruct (right_merge_spec bp n B (brk s) n' B' Hm HB Hn) as (HB' & Hnn & Hused & HinB & HfrB & HlenB).
  pose proof (low_node p p_node) as Hpl.
  apply (rebuild (st32 m1 p bp)) with (G := bp :: frees B'); try done.
  - intros x Hx Hx'. rewrite st32_ne by lia. by apply Hoh.
  - apply tiling_app. exists bp. split; [done |]. simpl. split; [done |]. split; [lia | done].
  - rewrite frees_app, frees_cons. done.
  - split; [rewrite ld32_st32; apply u32_small; unfold is_u32, KERNBASE in *; lia |].
    apply linked_split. split; [by rewrite ld32_st32_ne by lia |].
    apply (links_frame (um s)); [| done]. intros z Hz%HfrB%high_node. rewrite ld32_st32_ne by lia.
    apply (only_header_ld bp); [done | lia].
  - by rewrite ld32_st32_ne by lia.
  - intros t Ht <-. rewrite ld32_st32_ne by lia. rewrite (only_header_ld bp _ _ _ Hoh) by lia.
    apply (hi_size _ _ Hinv), tile_in_A, Ht.
  - intros ->. rewrite ld32_st32_ne by lia. rewrite (only_header_ld bp _ _ _ Hoh) by lia. apply Hinv.
Qed.

Lemma path_snoc_last m x l z y : path m x (l ++ [z]) y -> y = z.
Proof. revert x. induction l as [| w l IH]; intros x; simpl; [by intros [_ ->] | intros [_ H]; by eapply IH]. Qed.

(** The same when the left neighbour [t] is free and takes the block in. *)
Lemma free_joined A0 t n' B' m1 :
  A = A0 ++ [t] -> t_free t = true ->
  right_merge n B = (n', B') -> only_header bp (um s) m1 ->
  ld32 m1 bp = hd_or base (frees B') -> links (um s) (frees B') base ->
  freed {| um := st32 (st32 m1 (p + 4) (t_size t + n')) p (hd_or base (frees B'));
           freep := p; brk := brk s; grants := grants s |} (A0 ++ mkTile p (t_size t + n') true :: B').
Proof using Hinv HpA HpB.
  intros HA0 Htf Hm Hoh Hptr Hlinks. destruct free_places as (HA & HB & Hn & Hb & H0 & Hhi & _).
  destruct (right_merge_spec bp n B (brk s) n' B' Hm HB Hn) as (HB' & Hnn & Hused & HinB & HfrB & HlenB).
  pose proof (low_node p p_node) as Hpl. destruct (tiling_bounds _ _ _ HB') as [HB'top _].
  assert (frees A = frees A0 ++ [t_addr t]) as HfA by (rewrite HA0, frees_app, frees_cons, Htf; done).
  assert (p = t_addr t) as Hp by (pose proof HpA as H; rewrite HfA in H; by apply path_snoc_last in H).
  rewrite HA0 in HA. apply tiling_app in HA as (mid & HtA0 & (Hmid & Htn & Hend)). unfold t_end in Hend. simpl in Hend.
  destruct (tiling_bounds _ _ _ HtA0) as [Hlomid HbA0].
  assert (asc bp (frees B') (brk s)) as Hasc by (apply (tiling_frees _ _ _ _ HB'); lia).
  apply rebuild with (G := frees B'); try done.
  - intros x Hx Hx'. rewrite !st32_ne by lia. by apply Hoh.
  - apply tiling_app. exists mid. split; [done |]. split; [simpl; congruence |]. simpl. split; [lia |]. unfold t_end. simpl.
    replace (p + 8 * (t_size t + n')) with (bp + 8 * n') by lia. done.
  - intros t' Ht'. rewrite HA0. apply elem_of_app. by left.
  - rewrite HA0, useds_app, useds_cons, Htf. simpl. by rewrite app_nil_r.
  - lia.
  - rewrite HA0, length_app. simpl. lia.
  - rewrite HfA, frees_app, frees_cons, <- app_assoc, <- Hp. done.
  - apply linked_split. split; [rewrite ld32_st32; apply u32_small, (hd_u32 bp _ (brk s) Hasc); lia |].
    apply (links_frame (um s)); [| done]. intros z Hz%HfrB%high_node. rewrite !ld32_st32_ne by lia.
    apply (only_header_ld bp); [done | lia].
  - rewrite ld32_st32_ne, ld32_st32 by lia. apply u32_small. unfold is_u32, KERNBASE in *. lia.
  - intros t' Ht' E. specialize (HbA0 t' Ht'). unfold t_end in HbA0. lia.
  - intros ->. lia.
Qed.

Lemma join_left_test s1 :
  s_size s1 p = s_size s p ->
  (unit_add p (s_size s1 p) =? bp) = match last A with Some t => t_free t | None => false end.
Proof using Hinv HpA HpB.
  intros ->. destruct free_places as (HA & HB & Hn & Hb & H0 & Hhi & _). pose proof (low_node p p_node) as Hpl.
  assert (p = base \/ exists t, t ∈ A /\ t_free t = true /\ t_addr t = p) as Hcase.
  { pose proof p_node as Hp. rewrite elem_of_cons, frees_elem in Hp. naive_solver. }
  destruct (tiling_bounds _ _ _ HA) as [_ HbA].
  assert (forall k, 0 <= k -> p + 8 * k <= bp -> unit_add p k = p + 8 * k) as Hua.
  { intros k Hk Hle. apply (unit_add_small _ _ bp); try lia. destruct Hcase as [-> | (t & Ht & _ & <-)]; [lia |].
    specialize (HbA t Ht). lia. }
  destruct Hcase as [-> | (t & Ht & Htf & <-)].
  - rewrite (hi_base_size _ _ Hinv), Hua by lia. rewrite (proj2 (Z.eqb_neq _ _)) by lia.
    destruct (last A) as [t |] eqn:El; [| done]. destruct (t_free t) eqn:Ef; [| done].
    apply last_Some in El as [A0 ->]. rewrite frees_app, frees_cons, Ef in HpA. apply path_snoc_last in HpA.
    specialize (HbA t ltac:(apply elem_of_app; right; by apply list_elem_of_singleton)). lia.
  - pose proof (HbA t Ht) as Hbt. unfold t_end in Hbt. rewrite (hi_size _ _ Hinv t (tile_in_A t Ht)), Hua by lia.
    destruct (last A) as [t' |] eqn:El; [| by apply last_None in El as ->; apply not_elem_of_nil in Ht].
    apply last_Some in El as [A0 HA0]. rewrite HA0 in HA. apply tiling_app in HA as (mid & HtA0 & (Hmid & Htn & Hend)).
    unfold t_end in Hend. simpl in Hend. destruct (tiling_bounds _ _ _ HtA0) as [_ HbA0].
    rewrite HA0 in Ht, HpA. rewrite frees_app, frees_cons in HpA.
    destruct (t_free t') eqn:Ef.
    + apply path_snoc_last in HpA. apply Z.eqb_eq.
      assert (t = t') as ->; [| lia]. apply elem_of_app in Ht as [Ht | Ht%list_elem_of_singleton]; [| done].
      specialize (HbA0 t Ht). unfold t_end in HbA0. lia.
    + apply Z.eqb_neq. apply elem_of_app in Ht as [Ht | Ht%list_elem_of_singleton]; [| congruence].
      specialize (HbA0 t Ht). unfold t_end in HbA0. lia.
Qed.

Lemma free_at_spec : exists ts', freed (free_at bp p s) ts'.
Proof using Hinv HpA HpB.
  destruct (right_merge n B) as [n' B'] eqn:Hm. destruct (join_right_spec n' B' Hm) as (m1 & E1 & Hoh & Hsz & Hptr & Hlinks).
  destruct free_places as (HA & HB & Hn & Hb & H0 & Hhi & _). pose proof (low_node p p_node) as Hpl.
  unfold free_at. rewrite E1. unfold join_left.
  rewrite join_left_test by (unfold s_size; simpl; apply (only_header_ld bp); [done | lia]).
  destruct (last A) as [t |] eqn:El; [destruct (t_free t) eqn:Ef |]; [| by exists (A ++ mkTile bp n' true :: B'); apply free_apart ..].
  apply last_Some in El as [A0 HA0]. exists (A0 ++ mkTile p (t_size t + n') true :: B').
  pose proof (free_joined A0 t n' B' m1 HA0 Ef Hm Hoh Hptr Hlinks) as Hfr.
  assert (p = t_addr t) as Hp.
  { pose proof HpA as H. rewrite HA0, frees_app, frees_cons, Ef in H. by apply path_snoc_last in H. }
  assert (s_size s p = t_size t) as Hst.
  { rewrite Hp. apply (hi_size _ _ Hinv), tile_in_A. rewrite HA0. apply elem_of_app. right. by apply list_elem_of_singleton. }
  unfold set_ptr, set_size, s_ptr, s_size in *. cbn [um freep brk grants] in *.
  rewrite ld32_st32_ne by lia. rewrite (only_header_ld bp _ _ (p + 4) Hoh) by lia. rewrite Hst, Hsz, Hptr.
  rewrite u32_small; [exact Hfr |]. destruct Hfr as [[_ Htl _ _ _ _ _] _]. apply tiling_bounds in Htl as [_ Hbd].
  specialize (Hbd (mkTile p (t_size t + n') true) ltac:(apply elem_of_app; right; apply elem_of_cons; by left)).
  unfold t_end in Hbd. simpl in Hbd. unfold is_u32, KERNBASE in *. lia.
Qed.
End Free.

Lemma length_frees ts : (length (frees ts) <= length ts)%nat.
Proof. unfold frees. rewrite length_map. apply length_filter. Qed.

(** The bytes a block offers its owner, and that they are the same in two states. *)
Definition inside (b : Z * Z) (x : Z) : Prop := b.1 + 8 <= x < b.1 + 8 * b.2.
Definition same_inside (bs : list (Z * Z)) (s s' : uheap) : Prop :=
  forall b x, b ∈ bs -> inside b x -> um s' x = um s x.

Lemma free_spec s ts a n fuel :
  heap_inv s ts -> (a, n) ∈ useds ts -> (S (length ts) < fuel)%nat ->
  exists s' ts', free fuel (a + 8) s = Some s' /\ heap_inv s' ts' /\ useds ts ≡ₚ (a, n) :: useds ts' /\
    brk s' = brk s /\ (exists t, t ∈ ts' /\ t_free t = true /\ n <= t_size t) /\ (length ts' <= length ts)%nat /\
    same_inside (useds ts') s s'.
Proof.
  intros Hinv Hin Hf. apply useds_elem in Hin as (t & Ht & Htf & <- & <-).
  apply list_elem_of_split in Ht as (A & B & ->). destruct t as [a n tf]. simpl in Htf. subst tf. cbn [t_addr t_size].
  assert (S (length (frees A ++ frees B)) < fuel)%nat as Hfuel.
  { pose proof (length_frees A). pose proof (length_frees B). rewrite length_app in *. simpl in Hf. lia. }
  destruct (find_slot_spec s A a n B fuel Hinv Hfuel) as (p & Hslot & HpA & HpB).
  destruct (free_at_spec s A B a n p Hinv HpA HpB) as (ts' & Hinv' & Hused & Hfit & Hlen & Hframe).
  destruct (free_places s A B a n Hinv) as (HA & HB & Hn & Hb & H0 & Hhi & _).
  exists (free_at a p s), ts'. unfold free, SIZEOF_HEADER.
  replace (a + 8 - 8) with a by lia. rewrite u32_small, Hslot by (unfold is_u32, KERNBASE in *; lia).
  split; [done |]. split; [done |].
  split; [rewrite Hused, useds_app, useds_cons; simpl; by rewrite Permutation_middle |].
  split; [unfold free_at, join_left, join_right; repeat case_match; done |]. split; [done |]. split; [done |].
  intros [b k] x Hbk Hx. unfold inside in Hx. simpl in Hx. rewrite Hused, <- useds_app in Hbk.
  apply useds_elem in Hbk as (t & Ht & Htf & <- & <-).
  destruct (tiling_bounds _ _ _ HA) as [_ HbA]. destruct (tiling_bounds _ _ _ HB) as [_ HbB].
  apply Hframe.
  - apply elem_of_app in Ht as [Ht | Ht]; [specialize (HbA t Ht) | specialize (HbB t Ht)]; unfold t_end in *; lia.
  - pose proof (p_node s A p HpA) as [-> | Hp]%elem_of_cons.
    + apply elem_of_app in Ht as [Ht | Ht]; [specialize (HbA t Ht) | specialize (HbB t Ht)]; unfold t_end in *; lia.
    + pose proof (low_node s A B a n Hinv p ltac:(apply elem_of_cons; by right)) as Hlow.
      apply frees_elem in Hp as (t' & Ht' & Htf' & <-). apply elem_of_app in Ht as [Ht | Ht]; [| specialize (HbB t Ht); lia].
      specialize (HbA t' Ht').
      destruct (tiling_apart _ _ _ t t' HA Ht Ht') as [-> | [H | H]]; [congruence | |]; unfold t_end in *; lia.
Qed.
(** ** Taking a block *)

Lemma path_det m x l y y' : path m x l y -> path m x l y' -> y = y'.
Proof. revert x. induction l as [| z l IH]; intros x; simpl; [congruence |]. intros [_ H1] [_ H2]. by apply (IH z). Qed.

Section Carve.
Context (s : uheap) (A B : list tile) (p n prevp k : Z).
Context (Hinv : heap_inv s (A ++ mkTile p n true :: B)).
Context (Hprev : path (um s) base (frees A) prevp) (Hk : 1 <= k <= n).
Local Abbreviation ts := (A ++ mkTile p n true :: B).

Lemma carve_places :
  tiling lo A p /\ tiling (p + 8 * n) B (brk s) /\ base + 8 <= lo <= p /\ 0 < base /\
  p + 8 * n <= brk s <= KERNBASE /\ s_size s p = n /\ linked (um s) prevp (p :: frees B) base.
Proof using Hinv Hprev.
  destruct Hinv as [Hb Ht Htop Hl _ Hsize _]. pose proof Ht as Ht'. apply tiling_app in Ht' as (mid & HA & (Hbp & Hn & HB)).
  unfold t_end in HB. simpl in *. subst mid. destruct (tiling_bounds _ _ _ HA). destruct (tiling_bounds _ _ _ HB).
  rewrite frees_app, frees_cons in Hl. apply linked_path in Hl as (p' & HpA & Hl).
  rewrite (path_det _ _ _ _ _ HpA Hprev) in Hl.
  split; [done |]. split; [done |]. split; [lia |]. split; [lia |]. split; [lia |]. split; [| done].
  apply (Hsize (mkTile p n true)), elem_of_app. right. apply elem_of_cons. by left.
Qed.

Lemma prev_low : prevp + 8 <= p.
Proof using Hinv Hprev.
  destruct carve_places as (HA & _ & Hb & _). destruct (tiling_bounds _ _ _ HA) as [_ Hbd].
  pose proof (path_last _ _ _ _ Hprev) as [-> | Hz]%elem_of_cons; [lia |].
  apply frees_elem in Hz as (t & Ht & _ & <-). specialize (Hbd t Ht). unfold t_end in Hbd. lia.
Qed.

(** What is known of the result for the blocks [ts'], of which [a] is handed out. *)
Definition taken (s' : uheap) (ts' : list tile) (a : Z) : Prop :=
  heap_inv s' ts' /\ useds ts' ≡ₚ (a, k) :: useds ts /\ same_inside (useds ts) s s'.

(** The bytes of a used block are neither in [p] nor in the header of [prevp]. *)
Lemma used_apart b x : b ∈ useds ts -> inside b x -> (x < p \/ p + 8 * n <= x) /\ (x < prevp \/ prevp + 8 <= x).
Proof using Hinv Hprev.
  intros Hb Hx. destruct b as [a l]. apply useds_elem in Hb as (t & Hin & Htf & <- & <-). unfold inside in Hx. simpl in Hx.
  destruct carve_places as (HA & HB & Hb & _). pose proof (hi_tiling _ _ Hinv) as Ht.
  assert (mkTile p n true ∈ ts) as Hpin by (apply elem_of_app; right; apply elem_of_cons; by left).
  destruct (tiling_bounds _ _ _ Ht) as [_ Hbd]. pose proof (Hbd t Hin). split.
  - destruct (tiling_apart _ _ _ t _ Ht Hin Hpin) as [-> | [H1 | H1]]; [done | |]; unfold t_end in *; simpl in *; lia.
  - pose proof (path_last _ _ _ _ Hprev) as [-> | Hz]%elem_of_cons; [lia |].
    apply frees_elem in Hz as (t' & Hin' & Htf' & <-). assert (t' ∈ ts) as Hin2 by (apply elem_of_app; by left).
    destruct (tiling_apart _ _ _ t t' Ht Hin Hin2) as [-> | [H1 | H1]]; [congruence | |]; specialize (Hbd t' Hin2); unfold t_end in *; lia.
Qed.

Lemma carve_whole : k = n ->
  taken {| um := st32 (um s) prevp (ld32 (um s) p); freep := prevp; brk := brk s; grants := grants s |}
        (A ++ mkTile p n false :: B) p.
Proof using Hinv Hprev Hk.
  intros Hkn. destruct carve_places as (HA & HB & Hb & H0 & Hhi & Hsz & Hl). pose proof prev_low as Hpl.
  pose proof Hl as [_ Hl2]. apply linked_split in Hl2 as [Hnext Hlinks].
  assert (asc base (frees A) p) as HascA by (apply (tiling_frees _ _ _ _ HA); lia).
  assert (asc p (frees B) (brk s)) as HascB by (apply (tiling_frees _ _ _ _ HB); lia).
  assert (prevp ∈ base :: map t_addr ts) as Hpn.
  { apply frees_nodes. rewrite frees_app. pose proof (path_last _ _ _ _ Hprev) as Hp. rewrite elem_of_cons, elem_of_app in *. tauto. }
  pose proof Hinv as [_ Ht _ _ _ Hsize Hbs].
  assert (forall z, z ∈ base :: map t_addr ts -> ld32 (st32 (um s) prevp (ld32 (um s) p)) (z + 4) = ld32 (um s) (z + 4)) as Hsz'.
  { intros z Hz. apply ld32_st32_ne. destruct (decide (z = prevp)) as [-> | Hne]; [lia |].
    pose proof (node_apart ts (brk s) z prevp ltac:(lia) Ht Hz Hpn Hne). lia. }
  split; [| split].
  - split; simpl; [lia | | lia | | | |].
    + apply tiling_app. exists p. split; [done |]. split; [done |]. split; [simpl; lia | done].
    + rewrite frees_app, frees_cons. simpl. apply linked_path. exists prevp. split.
      * apply (path_frame (um s)); [by apply (asc_nodup _ _ p) | | done]. intros z Hz Hne. apply ld32_st32_ne.
        assert (z ∈ base :: map t_addr ts) as Hzn by (apply frees_nodes; rewrite frees_app; rewrite elem_of_cons, elem_of_app in *; tauto).
        pose proof (node_apart ts (brk s) z prevp ltac:(lia) Ht Hzn Hpn Hne). lia.
      * apply linked_split. rewrite ld32_st32, Hnext. split; [by apply u32_small, (hd_u32 p _ (brk s) HascB); lia |].
        apply (links_frame (um s)); [| done]. intros z Hz. apply ld32_st32_ne.
        destruct (asc_bounds _ _ _ HascB) as [_ Hbd]. specialize (Hbd z Hz). lia.
    + rewrite frees_app, frees_cons. simpl. pose proof (path_last _ _ _ _ Hprev) as Hp. rewrite elem_of_cons, elem_of_app in *. tauto.
    + intros t Hin. unfold s_size. simpl.
      assert (exists t', t' ∈ ts /\ t_addr t' = t_addr t /\ t_size t' = t_size t) as (t' & Ht' & <- & <-).
      { apply elem_of_app in Hin as [Hin | [-> | Hin]%elem_of_cons].
        - exists t. split; [apply elem_of_app; by left | done].
        - exists (mkTile p n true). split; [apply elem_of_app; right; apply elem_of_cons; by left | done].
        - exists t. split; [apply elem_of_app; right; apply elem_of_cons; by right | done]. }
      rewrite Hsz' by by apply nodes_tile. by apply Hsize.
    + unfold s_size. simpl. rewrite Hsz' by (apply elem_of_cons; by left). done.
  - rewrite !useds_app, !useds_cons. simpl. rewrite Hkn. by rewrite Permutation_middle.
  - intros b x Hbk Hx. simpl. apply st32_ne. destruct (used_apart b x Hbk Hx). lia.
Qed.

Lemma carve_end : k < n ->
  taken {| um := st32 (st32 (um s) (p + 4) (n - k)) (p + 8 * (n - k) + 4) k;
           freep := prevp; brk := brk s; grants := grants s |}
        (A ++ mkTile p (n - k) true :: mkTile (p + 8 * (n - k)) k false :: B) (p + 8 * (n - k)).
Proof using Hinv Hprev Hk.
  intros Hlt. destruct carve_places as (HA & HB & Hb & H0 & Hhi & Hsz & Hl). pose proof prev_low as Hpl.
  pose proof Hinv as [_ Ht _ Hlk Hfp Hsize Hbs]. set (m' := st32 _ (p + 8 * (n - k) + 4) k).
  assert (forall x, x < p + 4 \/ p + 8 * n <= x -> m' x = um s x) as Hframe.
  { intros x Hx. unfold m'. by rewrite !st32_ne by lia. }
  assert (forall z, z + 4 <= p + 4 \/ p + 8 * n <= z -> ld32 m' z = ld32 (um s) z) as Hld.
  { intros z Hz. apply ld32_ext. intros i Hi. apply Hframe. lia. }
  destruct (tiling_bounds _ _ _ HA) as [_ HbA]. destruct (tiling_bounds _ _ _ HB) as [_ HbB].
  assert (forall z, z ∈ base :: frees ts -> ld32 m' z = ld32 (um s) z) as Hlinkeq.
  { intros z Hz. apply Hld. rewrite frees_app, frees_cons in Hz. simpl in Hz. rewrite elem_of_cons, elem_of_app, elem_of_cons in Hz.
    destruct Hz as [-> | [Hz | [-> | Hz]]]; [lia | | lia |]; apply frees_elem in Hz as (t & Hin & _ & <-);
      [specialize (HbA t Hin) | specialize (HbB t Hin)]; unfold t_end in *; lia. }
  assert (frees (A ++ mkTile p (n - k) true :: mkTile (p + 8 * (n - k)) k false :: B) = frees ts) as Hfr
    by (rewrite !frees_app, !frees_cons; done).
  split; [| split].
  - split; simpl; [lia | | lia | | | |].
    + apply tiling_app. exists p. split; [done |]. split; [done |]. split; [simpl; lia |]. unfold t_end. simpl.
      split; [done |]. split; [lia |]. unfold t_end. simpl. replace (p + 8 * (n - k) + 8 * k) with (p + 8 * n) by lia. done.
    + rewrite Hfr. apply (links_frame (um s) m' (base :: frees ts)); done.
    + rewrite Hfr, frees_app. pose proof (path_last _ _ _ _ Hprev) as Hp. rewrite elem_of_cons, elem_of_app in *. tauto.
    + intros t. rewrite elem_of_app, !elem_of_cons. unfold s_size. simpl. intros [Hin | [-> | [-> | Hin]]]; simpl.
      * specialize (HbA t Hin). unfold t_end in HbA. rewrite Hld by lia. apply Hsize, elem_of_app. by left.
      * unfold m'. rewrite ld32_st32_ne, ld32_st32 by lia. apply u32_small. unfold is_u32, KERNBASE in *. lia.
      * unfold m'. rewrite ld32_st32. apply u32_small. unfold is_u32, KERNBASE in *. lia.
      * specialize (HbB t Hin). rewrite Hld by lia. apply Hsize, elem_of_app. right. apply elem_of_cons. by right.
    + unfold s_size. simpl. rewrite Hld by lia. done.
  - rewrite !useds_app, !useds_cons. simpl. by rewrite Permutation_middle.
  - intros b x Hbk Hx. simpl. apply Hframe. destruct (used_apart b x Hbk Hx). lia.
Qed.

Lemma carve_spec :
  exists s' ts' a, carve k prevp p s = (a + 8, s') /\ taken s' ts' a /\ brk s' = brk s.
Proof using Hinv Hprev Hk.
  destruct carve_places as (HA & HB & Hb & H0 & Hhi & Hsz & Hl). unfold carve. rewrite Hsz.
  destruct (Z.eqb_spec n k) as [E | Hne].
  - eexists _, _, p. split; [| split; [apply carve_whole; done | done]].
    rewrite (unit_add_small _ _ (brk s)) by lia. done.
  - eexists _, _, (p + 8 * (n - k)). split; [| split; [apply carve_end; lia | done]].
    unfold set_size, s_size. cbn [um]. rewrite ld32_st32, u32_idem, u32_small by (unfold is_u32, KERNBASE in *; lia).
    rewrite (unit_add_small p (n - k) (brk s)), (unit_add_small _ 1 (brk s)) by lia. done.
Qed.
End Carve.
(** ** The search of [malloc] *)

(** [w] are the blocks from the one after [prevp] to the one before [freep]. *)
Lemma search_fit s k w prevp fuel :
  linked (um s) prevp w (freep s) -> (freep s ∉ w) -> (exists z, z ∈ w ++ [freep s] /\ k <= s_size s z) ->
  (length w < fuel)%nat ->
  exists prev p, malloc_loop fuel k prevp (s_ptr s prevp) s = Some (carve k prev p s) /\
    prev ∈ prevp :: w /\ ld32 (um s) prev = p /\ p ∈ w ++ [freep s] /\ k <= s_size s p.
Proof.
  revert prevp fuel. induction w as [| z w IH]; intros prevp fuel Hl Hfp (y & Hy & Hfit) Hf;
    (destruct fuel as [| fuel]; [simpl in Hf; lia |]); cbn [malloc_loop]; unfold s_ptr; simpl in Hl.
  - apply list_elem_of_singleton in Hy. subst y. exists prevp, (freep s). rewrite Hl, (proj2 (Z.leb_le _ _)) by done.
    split; [done |]. split; [by apply list_elem_of_singleton |]. split; [done |]. split; [by apply list_elem_of_singleton | done].
  - destruct Hl as [Hz Hl]. apply not_elem_of_cons in Hfp as [Hne Hfp]. rewrite Hz.
    destruct (Z.leb_spec k (s_size s z)) as [Hk | Hk].
    + exists prevp, z. split; [done |]. split; [apply elem_of_cons; by left |]. split; [done |].
      split; [apply elem_of_cons; by left | done].
    + rewrite (proj2 (Z.eqb_neq z (freep s))) by congruence.
      destruct (IH z fuel Hl Hfp) as (prev & p & E & Hprev & Hp & Hin & Hsz); [| simpl in Hf; lia |].
      * exists y. split; [| done]. apply elem_of_cons in Hy as [-> | Hy]; [lia | done].
      * exists prev, p. split; [exact E |]. split; [apply elem_of_cons; by right |]. split; [done |].
        split; [apply elem_of_cons; by right | done].
Qed.

Lemma search_full s k w prevp fuel :
  linked (um s) prevp w (freep s) -> (freep s ∉ w) -> (forall z, z ∈ w ++ [freep s] -> s_size s z < k) ->
  malloc_loop (length w + S fuel) k prevp (s_ptr s prevp) s =
    match morecore fuel k s with
    | None => None
    | Some (None, s) => Some (0, s)
    | Some (Some p, s) => malloc_loop fuel k p (s_ptr s p) s
    end.
Proof.
  revert prevp. induction w as [| z w IH]; intros prevp Hl Hfp Hno; cbn [length Nat.add malloc_loop]; unfold s_ptr in *; simpl in Hl.
  - rewrite Hl, (proj2 (Z.leb_gt _ _)) by (apply Hno, list_elem_of_singleton; done). by rewrite Z.eqb_refl.
  - destruct Hl as [-> Hl]. apply not_elem_of_cons in Hfp as [Hne Hfp].
    rewrite (proj2 (Z.leb_gt _ _)) by (apply Hno, elem_of_cons; by left).
    rewrite (proj2 (Z.eqb_neq z (freep s))) by congruence. apply IH; [done | done |].
    intros y Hy. apply Hno, elem_of_cons. by right.
Qed.

(** The ring, seen from [freep]. *)
Lemma ring_from_freep s ts :
  heap_inv s ts ->
  exists w, linked (um s) (freep s) w (freep s) /\ (freep s ∉ w) /\ freep s :: w ≡ₚ base :: frees ts.
Proof.
  intros [Hb Ht _ Hl Hfp _ _]. assert (asc base (frees ts) (brk s)) as Hasc by (apply (tiling_frees _ _ _ _ Ht); lia).
  apply asc_nodup in Hasc. apply elem_of_cons in Hfp as [-> | Hfp].
  { exists (frees ts). split; [done |]. apply NoDup_cons in Hasc as [? _]. done. }
  apply list_elem_of_split in Hfp as (l1 & l2 & E). rewrite E in *. exists (l2 ++ base :: l1).
  assert (freep s :: l2 ++ base :: l1 ≡ₚ base :: l1 ++ freep s :: l2) as Hperm.
  { rewrite <- !Permutation_middle. rewrite (Permutation_app_comm l2 l1). apply perm_swap. }
  split; [| split; [| done]].
  - apply linked_join in Hl. apply linked_join. tauto.
  - rewrite <- Hperm in Hasc. by apply NoDup_cons in Hasc as [? _].
Qed.

(** ** [malloc] *)

(** A search that finds a large enough block on the way round the list. *)
Lemma malloc_fit s ts k fuel :
  heap_inv s ts -> 1 <= k -> (exists z, z ∈ base :: frees ts /\ k <= s_size s z) -> (length ts < fuel)%nat ->
  exists s' ts' a, malloc_loop fuel k (freep s) (s_ptr s (freep s)) s = Some (a + 8, s') /\
    heap_inv s' ts' /\ useds ts' ≡ₚ (a, k) :: useds ts /\ same_inside (useds ts) s s' /\ brk s' = brk s.
Proof.
  intros Hinv Hk (z & Hz & Hfit) Hf. destruct (ring_from_freep s ts Hinv) as (w & Hl & Hfp & Hperm).
  destruct (search_fit s k w (freep s) fuel Hl Hfp) as (prev & p & E & Hprev & Hp & Hin & Hsz).
  { exists z. split; [| done]. rewrite <- Hperm in Hz. rewrite elem_of_cons in Hz. rewrite elem_of_app, list_elem_of_singleton. tauto. }
  { apply Permutation_length in Hperm. simpl in Hperm. pose proof (length_frees ts). lia. }
  rewrite Hperm in Hprev.
  assert (p ∈ base :: frees ts) as Hpr.
  { rewrite <- Hperm. rewrite elem_of_app, list_elem_of_singleton in Hin. rewrite elem_of_cons. tauto. }
  apply elem_of_cons in Hpr as [-> | Hpr]; [rewrite (hi_base_size _ _ Hinv) in Hsz; lia |].
  apply frees_elem in Hpr as ([a n tf] & Ht & Htf & Hpa). simpl in Htf, Hpa. subst tf a.
  apply list_elem_of_split in Ht as (A & B & ->).
  assert (s_size s p = n) as Hn by (apply (hi_size _ _ Hinv (mkTile p n true)), elem_of_app; right; apply elem_of_cons; by left).
  assert (path (um s) base (frees A) prev) as Hpath.
  { destruct Hinv as [Hb Htl _ Hlk _ _ _].
    assert (asc base (frees (A ++ mkTile p n true :: B)) (brk s)) as Hasc by (apply (tiling_frees _ _ _ _ Htl); lia).
    rewrite frees_app, frees_cons in Hlk, Hprev, Hasc. simpl in Hlk, Hprev, Hasc.
    apply (linked_pred _ _ _ p (frees B) base); [done | by apply (asc_nodup _ _ (brk s)) | | done | done].
    apply asc_app in Hasc as [Hasc _]. apply asc_bounds in Hasc. lia. }
  destruct (carve_spec s A B p n prev k Hinv Hpath ltac:(lia)) as (s' & ts' & a & Hc & (Hinv' & Hu & Hsame) & Hbrk).
  exists s', ts', a. rewrite E, Hc. done.
Qed.

(** The region [sbrk] adds, made a block. *)
Lemma region_inv s ts nu g :
  heap_inv s ts -> 1 <= nu -> brk s + 8 * nu <= KERNBASE ->
  let s1 := {| um := st32 (um s) (brk s + 4) nu; freep := freep s; brk := brk s + 8 * nu; grants := g |} in
  heap_inv s1 (ts ++ [mkTile (brk s) nu false]) /\ same_inside (useds ts) s s1.
Proof.
  intros Hinv Hnu Htop s1. pose proof Hinv as [Hb Ht _ Hl Hfp Hsize Hbs]. destruct (tiling_bounds _ _ _ Ht) as [Hlo Hbd].
  assert (frees (ts ++ [mkTile (brk s) nu false]) = frees ts) as Hfr.
  { rewrite frees_app, frees_cons. simpl. apply app_nil_r. }
  assert (forall z, z + 4 <= brk s + 4 -> ld32 (um s1) z = ld32 (um s) z) as Hld by (intros; apply ld32_st32_ne; lia).
  split.
  - split; simpl; [done | | lia | | | |].
    + apply tiling_app. exists (brk s). split; [done |]. split; [done |]. split; [done |]. done.
    + rewrite Hfr. apply (links_frame (um s) (um s1) (base :: frees ts)); [| done].
      intros z [-> | Hz]%elem_of_cons; [apply Hld; lia |]. apply frees_elem in Hz as (t & Hin & _ & <-).
      specialize (Hbd t Hin). unfold t_end in Hbd. apply Hld. lia.
    + by rewrite Hfr.
    + intros t [Hin | ->%list_elem_of_singleton]%elem_of_app; unfold s_size; simpl.
      * specialize (Hbd t Hin). unfold t_end in Hbd. rewrite ld32_st32_ne by lia. by apply Hsize.
      * rewrite ld32_st32. apply u32_small. unfold is_u32, KERNBASE in *. lia.
    + unfold s_size. simpl. rewrite ld32_st32_ne by lia. done.
  - intros [b k] x Hbk Hx. apply useds_elem in Hbk as (t & Hin & _ & <- & <-). specialize (Hbd t Hin).
    unfold inside, t_end in *. simpl in *. apply st32_ne. lia.
Qed.

(** The kernel does not give the memory for [k] units. *)
Definition refused (s : uheap) (k : Z) : Prop :=
  match grants s with
  | true :: _ => KERNBASE <= brk s + 8 * Z.max 4096 k
  | _ => True
  end.

(** More memory from the kernel becomes a free block. *)
Lemma morecore_spec s ts k fuel :
  heap_inv s ts -> 1 <= k < 268435456 -> (S (S (length ts)) < fuel)%nat ->
  (exists s', morecore fuel k s = Some (None, s') /\ um s' = um s /\ freep s' = freep s /\ brk s' = brk s /\ refused s k) \/
  (exists s' ts', morecore fuel k s = Some (Some (freep s'), s') /\ heap_inv s' ts' /\ useds ts' ≡ₚ useds ts /\
     same_inside (useds ts) s s' /\ (exists t, t ∈ ts' /\ t_free t = true /\ k <= t_size t) /\
     (length ts' <= S (length ts))%nat /\ brk s <= brk s').
Proof.
  intros Hinv Hk Hf. unfold morecore. set (nu := if k <? 4096 then 4096 else k).
  assert (nu = Z.max 4096 k /\ 1 <= nu < 268435456) as [Hmax Hnu] by (unfold nu; destruct (Z.ltb_spec k 4096); lia).
  pose proof Hinv as [Hb Ht Htop _ _ _ _]. destruct (tiling_bounds _ _ _ Ht) as [Hlo _].
  unfold SIZEOF_HEADER, sbrk. rewrite u32_small, i32_small by (unfold is_u32, is_i32; lia).
  rewrite (proj2 (Z.ltb_lt 0 (nu * 8))) by lia. unfold KERNBASE in Htop. rewrite u32_small by (unfold is_u32; lia).
  destruct (grants s) as [| [] g] eqn:Eg;
    [left; eexists; unfold refused; by rewrite Eg | | left; eexists; unfold refused; by rewrite Eg].
  destruct (Z.leb_spec KERNBASE (brk s + nu * 8)) as [Hover | Hok].
  { left. eexists. unfold refused. rewrite Eg. split; [done |]. cbn [um freep brk]. split_and!; try done. lia. }
  right.
  rewrite (proj2 (Z.ltb_ge _ (brk s))) by lia. unfold set_size. cbn [um freep brk grants].
  replace (brk s + nu * 8) with (brk s + 8 * nu) by lia. unfold KERNBASE in Hok.
  destruct (region_inv s ts nu g Hinv ltac:(lia) ltac:(unfold KERNBASE; lia)) as [Hinv1 Hsame1]. set (s1 := mkHeap _ _ _ _) in *.
  assert (useds (ts ++ [mkTile (brk s) nu false]) = useds ts ++ [(brk s, nu)]) as Hu by (rewrite useds_app, useds_cons; done).
  destruct (free_spec s1 _ (brk s) nu fuel Hinv1) as (s2 & ts2 & E & Hinv2 & Hperm & Hbrk & Hfit & Hlen & Hsame2).
  { rewrite Hu. apply elem_of_app. right. by apply list_elem_of_singleton. }
  { rewrite length_app. simpl. lia. }
  rewrite (unit_add_small _ _ (brk s + 8 * nu)) by (unfold KERNBASE; lia). replace (brk s + 8 * 1) with (brk s + 8) by lia. rewrite E.
  assert (useds ts2 ≡ₚ useds ts) as Hp2.
  { rewrite Hu, Permutation_app_comm in Hperm. by apply Permutation_cons_inv in Hperm. }
  exists s2, ts2. split; [done |]. split; [done |]. split; [done |]. split; [| split; [| split]].
  - intros b x Hbx Hx. rewrite (Hsame2 b x); [by apply (Hsame1 b) | by rewrite Hp2 | done].
  - destruct Hfit as (t & Ht' & Htf & Hts). exists t. split; [done |]. split; [done |]. lia.
  - rewrite length_app in Hlen. simpl in Hlen. lia.
  - rewrite Hbrk. simpl. lia.
Qed.

Lemma units_spec nbytes :
  0 <= nbytes < 2147483632 -> 1 <= units nbytes < 268435456 /\ nbytes <= 8 * units nbytes - 8.
Proof.
  intros Hn. unfold units, SIZEOF_HEADER. rewrite (u32_small (nbytes + 8 - 1)) by (unfold is_u32; lia).
  rewrite u32_small by (unfold is_u32; zdiv). zdiv.
Qed.

Lemma handed_out s ts a k : heap_inv s ts -> (a, k) ∈ useds ts -> base + 8 <= a /\ 1 <= k /\ a + 8 * k <= brk s.
Proof.
  intros [Hbase Htl _ _ _ _ _] Hin. apply useds_elem in Hin as (t & Ht & _ & <- & <-).
  destruct (tiling_bounds _ _ _ Htl) as [_ Hbd]. specialize (Hbd t Ht). unfold t_end in Hbd. lia.
Qed.

(** What [malloc] of [k] units gives: the null pointer, if there is no large block
    and no more memory, or a block that becomes one of the used ones. *)
Definition allocated (s : uheap) (ts : list tile) (k : Z) (res : option (Z * uheap)) : Prop :=
  exists s' ts' r, res = Some (r, s') /\ heap_inv s' ts' /\ same_inside (useds ts) s s' /\ brk s <= brk s' /\
    (if r =? 0 then ts' = ts /\ brk s' = brk s /\ Forall (fun t => t_free t = true -> t_size t < k) ts /\ refused s k
     else useds ts' ≡ₚ (r - 8, k) :: useds ts).

Lemma allocated_fit s ts k fuel :
  heap_inv s ts -> 1 <= k -> (exists z, z ∈ base :: frees ts /\ k <= s_size s z) -> (length ts < fuel)%nat ->
  allocated s ts k (malloc_loop fuel k (freep s) (s_ptr s (freep s)) s).
Proof.
  intros Hinv Hk Hex Hf. destruct (malloc_fit s ts k fuel Hinv Hk Hex Hf) as (s' & ts' & a & E & Hinv' & Hu & Hs & Hb).
  exists s', ts', (a + 8). split; [done |]. split; [done |]. split; [done |]. split; [lia |].
  replace (a + 8 - 8) with a by lia. rewrite (proj2 (Z.eqb_neq _ _)); [done |].
  destruct (handed_out s' ts' a k Hinv') as (Ha & _); [rewrite Hu; apply elem_of_cons; by left |].
  destruct Hinv' as [Hbase _ _ _ _ _ _]. lia.
Qed.

Lemma allocated_more s ts s1 ts1 k res :
  useds ts1 ≡ₚ useds ts -> same_inside (useds ts) s s1 -> brk s <= brk s1 ->
  (exists t, t ∈ ts1 /\ t_free t = true /\ k <= t_size t) -> allocated s1 ts1 k res -> allocated s ts k res.
Proof.
  intros Hu Hs Hb (t & Ht & Htf & Hts) (s' & ts' & r & -> & Hinv & Hs' & Hb' & Hr). exists s', ts', r.
  split; [done |]. split; [done |]. split; [| split; [lia |]].
  - intros b x Hbx Hx. rewrite (Hs' b x); [by apply (Hs b) | by rewrite Hu | done].
  - destruct (r =? 0); [| by rewrite Hr, Hu]. destruct Hr as (_ & _ & Hall & _). rewrite Forall_forall in Hall.
    specialize (Hall t Ht Htf). lia.
Qed.

Lemma malloc_loop_spec s ts k fuel :
  heap_inv s ts -> 1 <= k < 268435456 -> (2 * length ts + 6 < fuel)%nat ->
  allocated s ts k (malloc_loop fuel k (freep s) (s_ptr s (freep s)) s).
Proof.
  intros Hinv Hk Hf.
  destruct (decide (Exists (fun z => k <= s_size s z) (base :: frees ts))) as [Hex | Hno].
  { apply Exists_exists in Hex. apply allocated_fit; [done | lia | done | lia]. }
  apply not_Exists_Forall in Hno; [| intros z; apply _]. rewrite Forall_forall in Hno. simpl in Hno.
  destruct (ring_from_freep s ts Hinv) as (w & Hl & Hfp & Hperm).
  assert (length w <= length ts)%nat as Hw.
  { apply Permutation_length in Hperm. simpl in Hperm. pose proof (length_frees ts). lia. }
  replace fuel with (length w + S (fuel - length w - 1))%nat by lia. set (fuel' := (fuel - length w - 1)%nat).
  rewrite search_full; [| done | done |].
  2:{ intros z Hz. apply Z.nle_gt, Hno. rewrite <- Hperm. rewrite elem_of_app, list_elem_of_singleton in Hz.
      rewrite elem_of_cons. tauto. }
  destruct (morecore_spec s ts k fuel' Hinv Hk ltac:(unfold fuel'; lia)) as [(s' & -> & Hm & Hp & Hb & Href) | (s' & ts' & -> & Hinv' & Hu & Hs & Hfit & Hlen & Hb)].
  - exists s', ts, 0. split; [done |]. simpl. split; [| split; [intros b x _ _; by rewrite Hm | split; [lia |]]].
    + destruct Hinv as [H1 H2 H3 H4 H5 H6 H7]. split; unfold s_size in *; rewrite ?Hm, ?Hp, ?Hb; done.
    + split; [done |]. split; [done |]. split; [| done]. apply Forall_forall. intros t Ht Htf. apply Z.nle_gt.
      rewrite <- (hi_size _ _ Hinv t Ht). apply Hno, elem_of_cons. right. apply frees_elem. eauto.
  - apply (allocated_more s ts s' ts' k); [done | done | done | done |].
    apply allocated_fit; [done | lia | | unfold fuel'; lia]. destruct Hfit as (t & Ht & Htf & Hts). exists (t_addr t).
    rewrite (hi_size _ _ Hinv' t Ht). split; [| done]. apply elem_of_cons. right. apply frees_elem. eauto.
Qed.

Lemma malloc_spec s ts nbytes fuel :
  heap_inv s ts -> 0 <= nbytes < 2147483632 -> (2 * length ts + 6 < fuel)%nat ->
  allocated s ts (units nbytes) (malloc base fuel nbytes s).
Proof.
  intros Hinv Hn Hf. unfold malloc, malloc_init.
  assert (freep s <> 0) as Hfp.
  { pose proof Hinv as [Hb Ht _ _ Hfp _ _]. apply elem_of_cons in Hfp as [-> | Hfp]; [lia |].
    apply frees_elem in Hfp as (t & Hin & _ & <-). destruct (tiling_bounds _ _ _ Ht) as [_ Hbd]. specialize (Hbd t Hin). lia. }
  rewrite (proj2 (Z.eqb_neq _ _)) by done. apply malloc_loop_spec; [done | by apply units_spec | done].
Qed.
End Heap.

(** ** More fuel does not change a result *)

Lemma find_slot_mono fuel fuel' s bp p r :
  find_slot fuel s bp p = Some r -> (fuel <= fuel')%nat -> find_slot fuel' s bp p = Some r.
Proof.
  revert fuel' p. induction fuel as [| fuel IH]; intros fuel' p H Hle; [done |].
  destruct fuel' as [| fuel']; [lia |]. cbn [find_slot] in *.
  destruct (_ && _)%bool; [done |]. destruct (_ && _)%bool; [done |]. apply IH; [done | lia].
Qed.

Lemma free_mono fuel fuel' ap s s' : free fuel ap s = Some s' -> (fuel <= fuel')%nat -> free fuel' ap s = Some s'.
Proof.
  unfold free. destruct (find_slot fuel s _ _) as [p |] eqn:E; [| done]. intros H Hle.
  by rewrite (find_slot_mono _ fuel' _ _ _ _ E Hle).
Qed.

Lemma morecore_mono fuel fuel' k s r : morecore fuel k s = Some r -> (fuel <= fuel')%nat -> morecore fuel' k s = Some r.
Proof.
  unfold morecore. destruct (sbrk _ s) as [[hp |] s1]; [| done]. intros H Hle.
  destruct (free fuel _ _) as [s2 |] eqn:E; [| done]. by rewrite (free_mono _ fuel' _ _ _ E Hle).
Qed.

Lemma malloc_loop_mono fuel fuel' k prevp p s r :
  malloc_loop fuel k prevp p s = Some r -> (fuel <= fuel')%nat -> malloc_loop fuel' k prevp p s = Some r.
Proof.
  revert fuel' prevp p s. induction fuel as [| fuel IH]; intros fuel' prevp p s H Hle; [done |].
  destruct fuel' as [| fuel']; [lia |]. cbn [malloc_loop] in *. destruct (k <=? _); [done |].
  destruct (p =? freep s); [| apply IH; [done | lia]].
  destruct (morecore fuel k s) as [[[q |] s1] |] eqn:E; [| | done];
    rewrite (morecore_mono _ fuel' _ _ _ E) by lia; [apply IH; [done | lia] | done].
Qed.

(** ** A program and its heap *)

Section Program.
Context (base lo : Z).

(** The heap of a program that has just been started. *)
Definition fresh (s : uheap) : Prop := freep s = 0 /\ brk s = lo /\ 0 < base /\ base + 8 <= lo <= KERNBASE.

(** What a program does with the allocator: ask for blocks, free those it has, and
    write anywhere in them; [o] are the blocks it has, with their sizes in units. *)
Inductive uses (s0 : uheap) : uheap -> list (Z * Z) -> Prop :=
| uses_init : uses s0 s0 []
| uses_malloc s o fuel nbytes r s' :
    uses s0 s o -> 0 <= nbytes < 2147483632 -> malloc base fuel nbytes s = Some (r, s') ->
    uses s0 s' (if r =? 0 then o else (r - 8, units nbytes) :: o)
| uses_free s o fuel b o' s' :
    uses s0 s o -> o ≡ₚ b :: o' -> free fuel (b.1 + 8) s = Some s' -> uses s0 s' o'
| uses_write s o b x v :
    uses s0 s o -> b ∈ o -> inside b x -> uses s0 {| s with um := st8 (um s) x v |} o.

Lemma malloc_init_idem s : 0 < base -> malloc_init base (malloc_init base s) = malloc_init base s.
Proof.
  intros Hb. unfold malloc_init. destruct (freep s =? 0) eqn:E; [| by rewrite E]. simpl.
  by rewrite (proj2 (Z.eqb_neq base 0)) by lia.
Qed.

Lemma fresh_inv s : fresh s -> heap_inv base lo (malloc_init base s) [].
Proof.
  intros (Hf & Hbrk & Hb & Hlo). unfold malloc_init. rewrite Hf. unfold KERNBASE in *.
  split; unfold s_size; simpl; [lia | done | unfold KERNBASE; lia | | by apply elem_of_cons; left | by intros t Ht%not_elem_of_nil |].
  - rewrite ld32_st32_ne, ld32_st32 by lia. apply u32_small. unfold is_u32. lia.
  - apply ld32_st32.
Qed.

(** Writing in a used block. *)
Lemma write_inv s ts b x v :
  heap_inv base lo s ts -> b ∈ useds ts -> inside b x -> heap_inv base lo {| s with um := st8 (um s) x v |} ts.
Proof.
  intros Hinv Hb Hx. destruct b as [a k]. apply useds_elem in Hb as (t & Hin & Htf & <- & <-). unfold inside in Hx. simpl in Hx.
  pose proof Hinv as [Hbase Ht Htop Hl Hfp Hsize Hbs]. destruct (tiling_bounds _ _ _ Ht) as [_ Hbd].
  assert (forall z i, z ∈ base :: map t_addr ts -> 0 <= i <= 4 -> ld32 (st8 (um s) x v) (z + i) = ld32 (um s) (z + i)) as Hld.
  { intros z i Hz Hi. apply ld32_ext. intros j Hj. apply st8_ne. pose proof (Hbd t Hin).
    apply elem_of_cons in Hz as [-> | Hz]; [lia |]. rewrite list_elem_of_In, in_map_iff in Hz. destruct Hz as (t' & <- & Hin').
    rewrite <- list_elem_of_In in Hin'. pose proof (Hbd t' Hin').
    destruct (tiling_apart _ _ _ t t' Ht Hin Hin') as [-> | [H1 | H1]]; unfold t_end in *; lia. }
  split; simpl; try done.
  - apply (links_frame (um s) _ (base :: frees ts)); [| done]. intros z Hz. rewrite <- (Z.add_0_r z).
    apply Hld; [by apply frees_nodes | lia].
  - intros t' Ht'. unfold s_size. simpl. rewrite Hld; [by apply Hsize | by apply nodes_tile | lia].
  - unfold s_size. simpl. rewrite Hld; [done | by apply elem_of_cons; left | lia].
Qed.
Lemma inv_init s ts : heap_inv base lo s ts -> malloc_init base s = s.
Proof.
  intros [Hb Ht _ _ Hfp _ _]. unfold malloc_init. rewrite (proj2 (Z.eqb_neq _ _)); [done |].
  apply elem_of_cons in Hfp as [-> | Hfp]; [lia |]. apply frees_elem in Hfp as (t & Hin & _ & <-).
  destruct (tiling_bounds _ _ _ Ht) as [_ Hbd]. specialize (Hbd t Hin). lia.
Qed.

(** The state of the heap of a running program. *)
Definition in_use (s : uheap) (o : list (Z * Z)) : Prop :=
  (fresh s /\ o = []) \/ exists ts, heap_inv base lo s ts /\ useds ts ≡ₚ o.

Lemma in_use_inv s o : in_use s o -> exists ts, heap_inv base lo (malloc_init base s) ts /\ useds ts ≡ₚ o.
Proof.
  intros [[Hf ->] | (ts & Hinv & Hu)]; [exists []; split; [by apply fresh_inv | done] |].
  exists ts. by rewrite (inv_init _ _ Hinv).
Qed.

Lemma malloc_init_same s : (forall x, x < base \/ base + 8 <= x -> um (malloc_init base s) x = um s x) /\
  brk (malloc_init base s) = brk s /\ grants (malloc_init base s) = grants s.
Proof.
  unfold malloc_init. destruct (freep s =? 0); [| done]. simpl. split; [| done]. intros x Hx. by rewrite !st32_ne by lia.
Qed.

(** [malloc] from any state of a running program. *)
Lemma malloc_in_use s o nbytes :
  in_use s o -> 0 <= nbytes < 2147483632 ->
  exists N r s', (forall fuel, (N <= fuel)%nat -> malloc base fuel nbytes s = Some (r, s')) /\ brk s <= brk s' /\
    in_use s' (if r =? 0 then o else (r - 8, units nbytes) :: o) /\ same_inside o s s' /\
    (r = 0 -> refused s (units nbytes)).
Proof.
  intros Huse Hn. destruct (in_use_inv s o Huse) as (ts & Hinv & Hu).
  set (N := (2 * length ts + 7)%nat). assert (0 < base) as Hb by apply Hinv.
  assert (forall fuel, malloc base fuel nbytes s = malloc base fuel nbytes (malloc_init base s)) as Hsame.
  { intros fuel. unfold malloc. by rewrite malloc_init_idem. }
  destruct (malloc_spec base lo _ ts nbytes N Hinv Hn ltac:(unfold N; lia)) as (s' & ts' & r & E & Hinv' & Hs & Hbrk & Hr).
  destruct (malloc_init_same s) as (Hm & Hmb & Hmg). exists N, r, s'. split; [| split; [lia | split; [| split]]].
  - intros fuel Hle. rewrite Hsame. apply (malloc_loop_mono N); done.
  - right. exists ts'. split; [done |]. destruct (r =? 0); [destruct Hr as (-> & _); done | by rewrite Hr, Hu].
  - intros b x Hin Hx. rewrite <- Hu in Hin. rewrite (Hs b x Hin Hx). apply Hm. destruct b as [a k].
    destruct (handed_out base lo _ _ a k Hinv Hin) as (? & _). unfold inside in Hx. simpl in Hx. lia.
  - intros ->. destruct Hr as (_ & _ & _ & Href). unfold refused in *. by rewrite Hmg, Hmb in Href.
Qed.

Lemma free_in_use s o b o' :
  in_use s o -> o ≡ₚ b :: o' ->
  exists N s', (forall fuel, (N <= fuel)%nat -> free fuel (b.1 + 8) s = Some s') /\ brk s' = brk s /\
    in_use s' o' /\ same_inside o' s s'.
Proof.
  intros [[_ ->] | (ts & Hinv & Hu)] Ho; [by apply Permutation_nil_cons in Ho |]. destruct b as [a k].
  set (N := (length ts + 2)%nat).
  destruct (free_spec base lo s ts a k N Hinv) as (s' & ts' & E & Hinv' & Hp & Hbrk & _ & _ & Hs);
    [rewrite Hu, Ho; apply elem_of_cons; by left | unfold N; lia |].
  assert (useds ts' ≡ₚ o') as Hu' by (rewrite Hu, Ho in Hp; by apply Permutation_cons_inv in Hp).
  exists N, s'. split; [intros fuel Hle; by apply (free_mono N) |]. split; [done |]. split; [right; eauto |].
  intros b x Hb. apply Hs. by rewrite Hu'.
Qed.

Lemma uses_in_use s0 s o : fresh s0 -> uses s0 s o -> in_use s o.
Proof.
  intros H0. induction 1 as [| s o fuel nbytes r s' _ IH Hn E | s o fuel b o' s' _ IH Hp E | s o b x v _ IH Hb Hx].
  - by left.
  - destruct (malloc_in_use s o nbytes IH Hn) as (N & r' & s2 & E' & _ & Huse & _).
    specialize (E' (Nat.max N fuel) ltac:(lia)). unfold malloc in *.
    rewrite (malloc_loop_mono _ (Nat.max N fuel) _ _ _ _ _ E) in E' by lia. by simplify_eq.
  - destruct (free_in_use s o b o' IH Hp) as (N & s2 & E' & _ & Huse & _).
    specialize (E' (Nat.max N fuel) ltac:(lia)). rewrite (free_mono _ (Nat.max N fuel) _ _ _ E) in E' by lia. by simplify_eq.
  - destruct IH as [[_ ->] | (ts & Hinv & Hu)]; [by apply not_elem_of_nil in Hb |].
    right. exists ts. split; [| done]. apply (write_inv _ _ b); [done | by rewrite Hu | done].
Qed.

Lemma useds_nodup a ts hi : tiling a ts hi -> NoDup (useds ts).
Proof.
  revert a. induction ts as [| t ts IH]; intros a; [constructor |]. intros (_ & Hn & Ht). rewrite useds_cons.
  destruct (t_free t); [by apply (IH _ Ht) |]. constructor; [| by apply (IH _ Ht)].
  intros Hin. apply useds_elem in Hin as (t' & Hin & _ & Ha & _). destruct (tiling_bounds _ _ _ Ht) as [_ Hbd].
  specialize (Hbd t' Hin). unfold t_end in Hbd. lia.
Qed.

(** Two blocks of a program. *)
Lemma blocks_apart s o b b' o' :
  in_use s o -> o ≡ₚ b :: b' :: o' -> b.1 + 8 * b.2 <= b'.1 \/ b'.1 + 8 * b'.2 <= b.1.
Proof.
  intros [[_ ->] | (ts & Hinv & Hu)] Ho; [by apply Permutation_nil_cons in Ho |]. rewrite Ho in Hu.
  pose proof (hi_tiling _ _ _ _ Hinv) as Ht. pose proof (useds_nodup _ _ _ Ht) as Hnd. rewrite Hu in Hnd.
  apply NoDup_cons in Hnd as [Hne _]. apply not_elem_of_cons in Hne as [Hne _]. destruct b as [a k], b' as [a' k'].
  assert ((a, k) ∈ useds ts /\ (a', k') ∈ useds ts) as [H1 H2] by (rewrite Hu, !elem_of_cons; auto).
  apply useds_elem in H1 as (t & Hin & _ & <- & <-). apply useds_elem in H2 as (t' & Hin' & _ & <- & <-). simpl.
  destruct (tiling_apart _ _ _ t t' Ht Hin Hin') as [-> | H]; [done | done].
Qed.
End Program.

(** C17: whatever a program does with [malloc], [free] and its own blocks, each
    request below two gigabytes being served in turn: the blocks it has lie in its
    memory, do not overlap each other, and are at least as large as asked for;
    [malloc] and [free] come to an end, and neither touches a byte of a block the
    program keeps.  The program may write in its blocks as it likes: the headers
    the allocator keeps before them stay intact.  A request fails only when the
    kernel refuses the memory for it. *)
Theorem malloc_free_safe base lo s0 s o :
  fresh base lo s0 -> uses base s0 s o ->
  (forall b, b ∈ o -> base + 8 <= b.1 /\ 1 <= b.2 /\ b.1 + 8 * b.2 <= brk s) /\
  (forall b b' o', o ≡ₚ b :: b' :: o' -> b.1 + 8 * b.2 <= b'.1 \/ b'.1 + 8 * b'.2 <= b.1) /\
  (forall nbytes, 0 <= nbytes < 2147483632 ->
     nbytes <= 8 * units nbytes - 8 /\
     exists N r s', (forall fuel, (N <= fuel)%nat -> malloc base fuel nbytes s = Some (r, s')) /\
       uses base s0 s' (if r =? 0 then o else (r - 8, units nbytes) :: o) /\ same_inside o s s' /\
       (r = 0 -> refused s (units nbytes))) /\
  (forall b o', o ≡ₚ b :: o' ->
     exists N s', (forall fuel, (N <= fuel)%nat -> free fuel (b.1 + 8) s = Some s') /\
       uses base s0 s' o' /\ same_inside o' s s').
Proof.
  intros H0 Hrun. pose proof (uses_in_use base lo s0 s o H0 Hrun) as Huse. split; [| split; [| split]].
  - intros [a k] Hin. destruct Huse as [[_ ->] | (ts & Hinv & Hu)]; [by apply not_elem_of_nil in Hin |].
    apply (handed_out base lo s ts); [done | by rewrite Hu].
  - intros b b' o' Ho. by apply (blocks_apart base lo s o b b' o').
  - intros nbytes Hn. split; [by apply units_spec |].
    destruct (malloc_in_use base lo s o nbytes Huse Hn) as (N & r & s' & E & _ & _ & Hs & Href). exists N, r, s'.
    split; [done |]. split; [| done]. by apply (uses_malloc base s0 s o N nbytes r s'); [| | apply E].
  - intros b o' Ho. destruct (free_in_use base lo s o b o' Huse Ho) as (N & s' & E & _ & _ & Hs). exists N, s'.
    split; [done |]. split; [| done]. by apply (uses_free base s0 s o N b o' s'); [| | apply E].
Qed.

(** A program with memory from 0x4000 on asks for 100 bytes and writes in them. *)
Definition new_program : uheap := mkHeap (fun _ => 0) 0 0x4000 [true; true].

Lemma new_program_malloc : exists s, malloc 0x3000 10 100 new_program = Some (49048, s).
Proof.
  assert (option_map fst (malloc 0x3000 10 100 new_program) = Some 49048) as E by (vm_compute; reflexivity).
  destruct (malloc 0x3000 10 100 new_program) as [[r s] |]; [| discriminate E]. injection E as ->. by exists s.
Qed.

Lemma malloc_free_safe_witness :
  exists s, uses 0x3000 new_program s [(49040, 14)] /\ forall fuel, exists N s', ((N <= fuel)%nat -> free fuel 49048 s = Some s').
Proof.
  destruct new_program_malloc as [s1 E].
  assert (uses 0x3000 new_program s1 [(49040, 14)]) as H1.
  { exact (uses_malloc 0x3000 new_program new_program [] 10 100 49048 s1 (uses_init _ _) ltac:(lia) E). }
  assert (inside (49040, 14) 49050) as Hin by (unfold inside; simpl; lia).
  pose proof (uses_write _ _ s1 _ (49040, 14) 49050 7 H1 ltac:(apply elem_of_cons; left; reflexivity) Hin) as H2.
  eexists. split; [exact H2 |]. intros fuel.
  assert (fresh 0x3000 0x4000 new_program) as Hfresh by (unfold fresh, new_program, KERNBASE; simpl; lia).
  destruct (malloc_free_safe 0x3000 0x4000 new_program _ _ Hfresh H2) as (_ & _ & _ & Hfree).
  destruct (Hfree (49040, 14) [] (Permutation_refl _)) as (N & s' & Hf & _). exists N, s'. exact (Hf fuel).
Defined.

(** C40: a request close to the size of the address space is granted: for the last
    seven sizes the number of bytes wraps around when it is rounded up to units, and
    [malloc] returns, as long as the kernel has memory at all, a block that is a
    header and nothing else.  Its first byte already belongs to the next block or
    lies beyond the end of the memory. *)
Theorem malloc_wraps base lo s0 s o g nbytes :
  fresh base lo s0 -> uses base s0 s o -> grants s = true :: g -> brk s + 32768 < KERNBASE ->
  4294967289 <= nbytes < 4294967296 ->
  exists N r s', (forall fuel, (N <= fuel)%nat -> malloc base fuel nbytes s = Some (r, s')) /\ r <> 0 /\
    in_use base lo s' ((r - 8, 1) :: o).
Proof.
  intros H0 Hrun Hg Hbrk Hn. pose proof (uses_in_use base lo s0 s o H0 Hrun) as Huse.
  assert (units nbytes = units 0) as Hunits.
  { unfold units, SIZEOF_HEADER, u32. replace ((nbytes + 8 - 1) mod 4294967296) with (nbytes + 7 - 4294967296); [| zdiv].
    rewrite (Z.div_small (nbytes + 7 - 4294967296)) by lia. reflexivity. }
  destruct (malloc_in_use base lo s o 0 Huse ltac:(lia)) as (N & r & s' & E & _ & Huse' & _ & Href).
  change (units 0) with 1 in *. exists N, r, s'. unfold refused in Href. rewrite Hg in Href. unfold KERNBASE in *.
  assert (r <> 0) as Hr by (intros Hr0; specialize (Href Hr0); lia).
  rewrite (proj2 (Z.eqb_neq r 0)) in Huse' by done. split; [| done].
  intros fuel Hf. unfold malloc in *. rewrite Hunits. by apply E.
Qed.

(** The request [malloc(-1)] of a new program gives a pointer to the end of its
    memory; and [malloc(0x80000000)], whose size in bytes is negative for [sbrk],
    a block that lies beyond it. *)
Lemma malloc_wraps_witness :
  (exists s', malloc 0x3000 10 0xFFFFFFFF new_program = Some (0xC000, s') /\ brk s' = 0xC000) /\
  option_map (fun '(r, s) => (r, brk s)) (malloc 0x3000 10 0x80000000 new_program) = Some (0x4008, 0x4000).
Proof.
  assert (fresh 0x3000 0x4000 new_program) as Hfresh by (unfold fresh, new_program, KERNBASE; simpl; lia).
  split; [| vm_compute; reflexivity].
  destruct (malloc_wraps 0x3000 0x4000 new_program new_program [] [true] 0xFFFFFFFF Hfresh (uses_init _ _) eq_refl)
    as (N & r & s' & E & _ & _); [unfold KERNBASE; simpl; lia | lia |].
  assert (option_map (fun '(r, s) => (r, brk s)) (malloc 0x3000 10 0xFFFFFFFF new_program) = Some (0xC000, 0xC000)) as E' by (vm_compute; reflexivity).
  destruct (malloc 0x3000 10 0xFFFFFFFF new_program) as [[r2 s2] |]; [| discriminate E'].
  injection E' as -> Hb. exists s2. split; [reflexivity | exact Hb].
Defined.
