(* ===== verification/Mkfs.v ===== *)
(** [mkfs.c]: the program of the host that builds the file system image.

    The image file is a sequence of sectors.  What the host decides is a parameter:
    the number of sectors it has room for, and for each input file whether it can be
    opened and the pieces in which [read] delivers it.  The messages on the terminal
    are left out. *)

From S2P Require Import Prelude Params Mem CString Machine Inode Fs.

(** ** State *)

Record image := mkImage {
  im_sector : Z -> list Z;
  im_end : Z;         (* the length of the file, in sectors *)
  freeinode : Z;
  freeblock : Z }.

(** A run ends with a result, with [exit(1)] after a failed call of the host, with a
    failed assertion, or beyond the end of an array. *)
Inductive failure := Exit1 | Assertion | OutOfRange | NoTurns.
Inductive made (A : Type) := Made (a : A) (im : image) | Failed (f : failure).
Arguments Made {A} a im.
Arguments Failed {A} f.

Definition I (A : Type) : Type := image -> made A.
Definition iret {A} (a : A) : I A := fun im => Made a im.
Definition ifail {A} (f : failure) : I A := fun _ => Failed f.
Definition ibind {A B} (m : I A) (k : A -> I B) : I B := fun im =>
  match m im with Made a im' => k a im' | Failed f => Failed f end.
Definition iassert (b : bool) : I unit := if b then iret tt else ifail Assertion.

Declare Scope mkfs_scope.
Delimit Scope mkfs_scope with mkfs.
Notation "'let!' x ':=' m 'in' k" := (ibind m (fun x => k))
  (at level 10, x name, m at level 100, k at level 200) : mkfs_scope.
Notation "'do!' m 'in' k" := (ibind m (fun _ => k))
  (at level 10, m at level 100, k at level 200) : mkfs_scope.
Local Open Scope mkfs_scope.

(** Each member of a list in turn. *)
Fixpoint ieach {X} (l : list X) (f : X -> I unit) : I unit :=
  match l with [] => iret tt | x :: l' => do! f x in ieach l' f end.

(** ** Layout *)

Definition NINODES : Z := 200.
Definition nbitmap : Z := FSSIZE / (BSIZE * 8) + 1.
Definition ninodeblocks : Z := NINODES / IPB + 1.
Definition nlog : Z := LOGSIZE.
Definition nmeta : Z := 2 + nlog + ninodeblocks + nbitmap.
Definition nblocks : Z := FSSIZE - nmeta.
Definition zeroes : list Z := replicate (Z.to_nat BSIZE) 0.

(** To the byte order of the disk; the host's is the same. *)
Definition xshort (x : Z) : Z := u8 x + 256 * u8 (Z.shiftr x 8).
Definition xint (x : Z) : Z :=
  u8 x + 256 * u8 (Z.shiftr x 8) + 65536 * u8 (Z.shiftr x 16) + 16777216 * u8 (Z.shiftr x 24).

(** The superblock [main] fills in. *)
Definition sb : superblock :=
  mkSuperblock (xint FSSIZE) (xint nblocks) (xint NINODES) (xint nlog) (xint 2) (xint (2 + nlog))
    (xint (2 + nlog + ninodeblocks)).

(** [memmove(buf, &sb, sizeof(sb))]. *)
Definition sb_bytes (sb : superblock) (buf : list Z) : list Z :=
  foldl (fun d kv => lset32 d (4 * kv.1) kv.2) buf
    [(0, sb_size sb); (1, sb_nblocks sb); (2, sb_ninodes sb); (3, sb_nlog sb); (4, sb_logstart sb);
     (5, sb_inodestart sb); (6, sb_bmapstart sb)].

(** ** Sectors *)

(** The room the host has for the image, in sectors. *)
Class Host := host_room : Z.

(** The sector at the offset [sec * BSIZE], an [uint]. *)
Definition sector (sec : Z) : Z := u32 (sec * BSIZE) / BSIZE.

Definition wsect `{Host} (sec : Z) (buf : list Z) : I unit := fun im =>
  let k := sector sec in
  if k <? host_room then
    Made tt {| im with im_sector := fupd (im_sector im) k buf; im_end := Z.max (im_end im) (k + 1) |}
  else Failed Exit1.

Definition rsect (sec : Z) : I (list Z) := fun im =>
  let k := sector sec in
  if k <? im_end im then Made (im_sector im k) im else Failed Exit1.

Definition freshinode : I Z := fun im => Made (freeinode im) {| im with freeinode := u32 (freeinode im + 1) |}.
Definition freshblock : I Z := fun im => Made (freeblock im) {| im with freeblock := u32 (freeblock im + 1) |}.

(** An input file: its name on the command line, and unless [open] fails what the
    calls of [read] return, a call without bytes ending the file. *)
Record infile := mkInfile { in_name : list Z; in_reads : option (list (list Z)) }.

Section Mkfs.
Context `{Host}.

(** ** Inodes *)

Definition winode (inum : Z) (ip : dinode) : I unit :=
  let bn := IBLOCK inum sb in
  let! buf := rsect bn in
  wsect bn (put_dinode buf inum ip).

Definition rinode (inum : Z) : I dinode :=
  let bn := IBLOCK inum sb in
  let! buf := rsect bn in
  iret (get_dinode buf inum).

Definition ialloc (type : Z) : I Z :=
  let! inum := freshinode in
  let din := {| dinode0 with di_type := xshort type; di_nlink := xshort 1; di_size := xint 0 |} in
  do! winode inum din in
  iret inum.

(** The bitmap: the first [used] blocks are taken. *)
Definition balloc (used : Z) : I unit :=
  do! iassert (used <? BSIZE * 8) in
  let buf := foldl (fun buf i => lset8 buf (i / 8) (Z.lor (lget8 buf (i / 8)) (Z.shiftl 1 (i mod 8)))) zeroes (seqZ 0 used) in
  wsect (sb_bmapstart sb) buf.

(** ** Appending to a file *)

Definition addr (din : dinode) (k : Z) : I Z :=
  match di_addrs din !! Z.to_nat k with Some a => iret (xint a) | None => ifail OutOfRange end.
Definition with_addr (din : dinode) (k a : Z) : dinode :=
  {| din with di_addrs := <[Z.to_nat k := xint a]> (di_addrs din) |}.

(** [din.addrs[k]], a fresh block if there is none. *)
Definition addr_or_fresh (din : dinode) (k : Z) : I (dinode * Z) :=
  let! a := addr din k in
  if a =? 0 then
    let! b := freshblock in
    let din := with_addr din k b in
    let! a := addr din k in
    iret (din, a)
  else iret (din, a).

(** The sector of block [fbn] of the file. *)
Definition iappend_block (din : dinode) (fbn : Z) : I (dinode * Z) :=
  if fbn <? NDIRECT then addr_or_fresh din fbn
  else
    let! r := addr_or_fresh din NDIRECT in
    let '(din, ind) := r in
    let! indirect := rsect ind in
    let k := 4 * (fbn - NDIRECT) in
    if lget32 indirect k =? 0 then
      let! b := freshblock in
      let indirect := lset32 indirect k (xint b) in
      do! wsect ind indirect in
      iret (din, xint (lget32 indirect k))
    else iret (din, xint (lget32 indirect k)).

(** The loop: a turn ends at the end of a block or of the data, so the number of
    bytes bounds the turns. *)
Fixpoint iappend_loop (fuel : nat) (din : dinode) (off : Z) (p : list Z) : I (dinode * Z) :=
  match fuel with
  | O => ifail NoTurns
  | S fuel' =>
      let n := Z.of_nat (length p) in
      if 0 <? n then
        let fbn := off / BSIZE in
        do! iassert (fbn <? MAXFILE) in
        let! r := iappend_block din fbn in
        let '(din, x) := r in
        let n1 := Z.min n ((fbn + 1) * BSIZE - off) in
        let! buf := rsect x in
        do! wsect x (lblit buf (off - fbn * BSIZE) (lsub p 0 n1)) in
        iappend_loop fuel' din (u32 (off + n1)) (drop (Z.to_nat n1) p)
      else iret (din, off)
  end.

Definition iappend (inum : Z) (p : list Z) : I unit :=
  let! din := rinode inum in
  let off := xint (di_size din) in
  let! r := iappend_loop (S (length p)) din off p in
  winode inum {| (r.1) with di_size := xint r.2 |}.

(** ** The program *)

(** A directory entry of [rootino] with a name copied by [strcpy] or [strncpy]. *)
Definition append_entry (inum : Z) (name : option (list Z)) : I unit :=
  match name with
  | Some nm => iappend ROOTINO (dirent_bytes (mkDirent (xshort inum) nm))
  | None => ifail OutOfRange
  end.

Fixpoint append_reads (inum : Z) (reads : list (list Z)) : I unit :=
  match reads with
  | [] => iret tt
  | buf :: reads' =>
      if 0 <? Z.of_nat (length buf) then do! iappend inum buf in append_reads inum reads'
      else iret tt
  end.

(** Leading _ of the names of the binaries. *)
Definition skip_underscore (name : list Z) : list Z :=
  match name with c :: name' => if c =? 95 then name' else name | [] => [] end.

(** One turn of the loop over the arguments. *)
Definition add_file (f : infile) : I unit :=
  do! iassert (negb (existsb (Z.eqb 47) (in_name f))) in
  match in_reads f with
  | None => ifail Exit1
  | Some reads =>
      let! inum := ialloc T_FILE in
      do! append_entry inum (strncpy (replicate DIRSIZ 0) (skip_underscore (in_name f) ++ [0]) (Z.of_nat DIRSIZ)) in
      append_reads inum reads
  end.

(** The image before anything is written: the file has been created or truncated. *)
Definition blank : image := mkImage (fun _ => zeroes) 0 1 nmeta.

(** [main] after the image has been opened. *)
Definition build (files : list infile) : I unit :=
  do! ieach (seqZ 0 FSSIZE) (fun i => wsect i zeroes) in
  do! wsect 1 (sb_bytes sb zeroes) in
  let! rootino := ialloc T_DIR in
  do! iassert (rootino =? ROOTINO) in
  do! append_entry rootino (strcpy (replicate DIRSIZ 0) [46; 0]) in
  do! append_entry rootino (strcpy (replicate DIRSIZ 0) [46; 46; 0]) in
  do! ieach files add_file in
  let! din := rinode rootino in
  let off := xint (di_size din) in
  let off := u32 ((off / BSIZE + 1) * BSIZE) in
  do! winode rootino {| din with di_size := xint off |} in
  fun im => balloc (freeblock im) im.

(** [main]: no argument at all, or whether the image can be opened and the input files. *)
Definition main (args : option (bool * list infile)) : made unit :=
  match args with
  | None => Failed Exit1
  | Some (false, _) => Failed Exit1
  | Some (true, files) => build files blank
  end.
End Mkfs.
