(* ===== verification/MkfsLayout.v ===== *)
(** Inodes and file contents on the image [mkfs] builds: how an inode is laid out in
    its sector, which blocks a file has, and what appending to it changes. *)

From Stdlib Require Import ZifyBool.
From S2P Require Import Prelude Params Mem CString Machine Log Inode Fs Mkfs FileSpec.

(** ** Numbers on disk *)

Lemma xint_u32 x : xint x = u32 x.
Proof. unfold xint, u32, u8. rewrite !Z.shiftr_div_pow2 by lia. zdiv. Qed.

Lemma xint_small x : is_u32 x -> xint x = x.
Proof. intros. by rewrite xint_u32, u32_small. Qed.

Lemma xshort_u16 x : xshort x = u16 x.
Proof. unfold xshort, u16, u8. rewrite Z.shiftr_div_pow2 by lia. zdiv. Qed.

Lemma lget16_lset16 d o v : 0 <= o -> o + 2 <= Z.of_nat (length d) -> lget16 (lset16 d o v) o = u16 v.
Proof.
  intros. unfold lget16, lset16. rewrite (lget8_lset8 _ (o + 1)), (lget8_lset8_ne _ (o + 1) o), lget8_lset8 by (rewrite ?length_lset8; lia).
  unfold u8, u16. zdiv.
Qed.

Lemma lget8_lset16_ne d o v k : 0 <= o -> 0 <= k -> k < o \/ o + 2 <= k -> lget8 (lset16 d o v) k = lget8 d k.
Proof. intros. unfold lset16. by rewrite !lget8_lset8_ne by lia. Qed.

Lemma lget8_lset32_ne d o v k : 0 <= o -> 0 <= k -> k < o \/ o + 4 <= k -> lget8 (lset32 d o v) k = lget8 d k.
Proof. intros. unfold lset32. by rewrite !lget8_lset8_ne by lia. Qed.

(** Words at [b], [b + 4], ... filled in one after the other. *)
Lemma lset32_all_at f (ks : list Z) b j : forall d,
  0 <= b -> Forall (fun k => 0 <= k) ks -> 0 <= j -> b + 4 * j + 4 <= Z.of_nat (length d) ->
  lget32 (foldl (fun d k => lset32 d (b + 4 * k) (f k)) d ks) (b + 4 * j) =
  if decide (j ∈ ks) then u32 (f j) else lget32 d (b + 4 * j).
Proof.
  induction ks as [| k ks IH]; intros d Hb Hks Hj Hd; cbn [foldl].
  - rewrite decide_False; [done | apply not_elem_of_nil].
  - apply Forall_cons in Hks as [Hk Hks]. rewrite IH by (rewrite ?length_lset32; done).
    destruct (decide (j ∈ ks)) as [Hin | Hin]; [by rewrite decide_True by (by right) |].
    destruct (decide (j = k)) as [-> | Hne].
    + rewrite decide_True by (by left). by apply lget32_lset32; lia.
    + rewrite decide_False by (rewrite elem_of_cons; tauto). apply lget32_lset32_ne; lia.
Qed.

Lemma lset32_all_ne f (ks : list Z) b n x : forall d,
  0 <= b -> 0 <= x -> Forall (fun k => 0 <= k < n) ks -> x < b \/ b + 4 * n <= x ->
  lget8 (foldl (fun d k => lset32 d (b + 4 * k) (f k)) d ks) x = lget8 d x.
Proof.
  induction ks as [| k ks IH]; intros d Hb Hx Hks Hout; simpl; [done |].
  apply Forall_cons in Hks as [Hk Hks]. rewrite IH by done. apply lget8_lset32_ne; lia.
Qed.

(** ** Inodes on disk *)

Definition is_i16 (x : Z) : Prop := -32768 <= x < 32768.

Lemma i16_u16 x : is_i16 x -> i16 (u16 x) = x.
Proof. unfold is_i16, i16, u16. zdiv. Qed.

Record dinode_wf (di : dinode) : Prop := {
  dw_type : is_i16 (di_type di); dw_major : is_i16 (di_major di); dw_minor : is_i16 (di_minor di);
  dw_nlink : is_i16 (di_nlink di); dw_size : is_u32 (di_size di);
  dw_len : length (di_addrs di) = 13%nat; dw_addrs : Forall is_u32 (di_addrs di) }.

Definition slots13 : list Z := seqZ 0 (NDIRECT + 1).

(** The five fields before the addresses. *)
Definition put_head (d : list Z) (o : Z) (di : dinode) : list Z :=
  lset32 (lset16 (lset16 (lset16 (lset16 d o (di_type di)) (o + 2) (di_major di)) (o + 4) (di_minor di)) (o + 6) (di_nlink di))
    (o + 8) (di_size di).

Lemma put_dinode_eq d inum di :
  put_dinode d inum di =
  foldl (fun d k => lset32 d (dinode_off inum + 12 + 4 * k) (default 0 (di_addrs di !! Z.to_nat k)))
    (put_head d (dinode_off inum) di) slots13.
Proof. done. Qed.

Lemma put_head_length d o di : length (put_head d o di) = length d.
Proof. unfold put_head. by rewrite length_lset32, !length_lset16. Qed.

Lemma put_head_get d o di :
  0 <= o -> o + 64 <= Z.of_nat (length d) ->
  lget16 (put_head d o di) o = u16 (di_type di) /\ lget16 (put_head d o di) (o + 2) = u16 (di_major di) /\
  lget16 (put_head d o di) (o + 4) = u16 (di_minor di) /\ lget16 (put_head d o di) (o + 6) = u16 (di_nlink di) /\
  lget32 (put_head d o di) (o + 8) = u32 (di_size di).
Proof.
  intros Ho Hd. unfold put_head. split_and!.
  1-4: unfold lget16; rewrite !lget8_lset32_ne by lia; 
       repeat match goal with |- context [lget8 (lset16 ?d ?a ?v) ?k] => rewrite (lget8_lset16_ne d a v k) by lia end;
       match goal with |- lget8 (lset16 ?d ?k ?v) _ + _ = _ => change (lget16 (lset16 d k v) k = u16 v) end;
       apply lget16_lset16; rewrite ?length_lset16; lia.
  apply lget32_lset32; rewrite ?length_lset16; lia.
Qed.

Lemma dinode_off_range inum : 0 <= dinode_off inum <= 448.
Proof. unfold dinode_off. change SIZEOF_DINODE with 64. change IPB with 8. zdiv. Qed.

(** Bytes of other inodes of the block. *)
Lemma put_dinode_ne d inum di x :
  0 <= x -> x < dinode_off inum \/ dinode_off inum + 64 <= x -> lget8 (put_dinode d inum di) x = lget8 d x.
Proof.
  intros Hx Hout. pose proof (dinode_off_range inum). rewrite put_dinode_eq.
  rewrite (lset32_all_ne (fun k => default 0 (di_addrs di !! Z.to_nat k)) slots13 _ 13); [| lia | done | | lia].
  - unfold put_head. by rewrite lget8_lset32_ne, !lget8_lset16_ne by lia.
  - apply Forall_forall. intros k Hk. unfold slots13 in Hk. rewrite elem_of_seqZ in Hk. unfold NDIRECT in Hk. lia.
Qed.

Lemma get_dinode_ext d d' inum :
  (forall x, dinode_off inum <= x < dinode_off inum + 64 -> lget8 d x = lget8 d' x) -> get_dinode d inum = get_dinode d' inum.
Proof.
  intros Heq. pose proof (dinode_off_range inum). unfold get_dinode. cbv zeta.
  assert (forall k, 0 <= k <= 62 -> lget16 d (dinode_off inum + k) = lget16 d' (dinode_off inum + k)) as H16.
  { intros k Hk. unfold lget16. by rewrite !Heq by lia. }
  assert (forall k, 0 <= k <= 60 -> lget32 d (dinode_off inum + k) = lget32 d' (dinode_off inum + k)) as H32.
  { intros k Hk. unfold lget32. by rewrite !Heq by lia. }
  rewrite !H16, H32 by lia. rewrite <- (Z.add_0_r (dinode_off inum)) at 1. rewrite H16, Z.add_0_r by lia. f_equal.
  apply list_fmap_ext. intros i k Hk. apply lookup_seqZ in Hk as [-> Hk]. unfold NDIRECT in Hk.
  rewrite <- !Z.add_assoc. apply H32. lia.
Qed.

Lemma get_put_dinode_ne d inum inum' di :
  dinode_off inum <> dinode_off inum' -> get_dinode (put_dinode d inum di) inum' = get_dinode d inum'.
Proof.
  intros Hne. apply get_dinode_ext. intros x Hx. pose proof (dinode_off_range inum'). apply put_dinode_ne; [lia |].
  unfold dinode_off, SIZEOF_DINODE in *. lia.
Qed.

Lemma get_put_dinode d inum di :
  length d = Z.to_nat BSIZE -> dinode_wf di -> get_dinode (put_dinode d inum di) inum = di.
Proof.
  intros Hd [Ht Hma Hmi Hn Hs Hl Ha]. pose proof (dinode_off_range inum) as Ho. set (o := dinode_off inum) in *.
  unfold BSIZE in Hd. set (f := fun k => default 0 (di_addrs di !! Z.to_nat k)).
  assert (Forall (fun k => 0 <= k < 13) slots13) as Hks.
  { apply Forall_forall. intros k Hk. unfold slots13 in Hk. rewrite elem_of_seqZ in Hk. unfold NDIRECT in Hk. lia. }
  assert (forall x, o <= x < o + 12 -> lget8 (put_dinode d inum di) x = lget8 (put_head d o di) x) as Hhead.
  { intros x Hx. rewrite put_dinode_eq. fold o f. apply (lset32_all_ne f slots13 _ 13); [lia | lia | done | lia]. }
  destruct di as [ty ma mi nl sz addrs]. cbn [di_type di_major di_minor di_nlink di_size di_addrs] in *.
  assert (forall k, o <= k < o + 11 -> lget16 (put_dinode d inum (mkDinode ty ma mi nl sz addrs)) k =
            lget16 (put_head d o (mkDinode ty ma mi nl sz addrs)) k) as H16.
  { intros k Hk. unfold lget16. by rewrite !Hhead by lia. }
  destruct (put_head_get d o (mkDinode ty ma mi nl sz addrs)) as (Gt & Gma & Gmi & Gn & Gs); [lia | lia |].
  cbn [di_type di_major di_minor di_nlink di_size] in Gt, Gma, Gmi, Gn, Gs.
  unfold get_dinode. fold o. cbv zeta. f_equal.
  1-4: rewrite H16 by lia; first [rewrite Gt | rewrite Gma | rewrite Gmi | rewrite Gn]; by apply i16_u16.
  - rewrite (u32_small sz) in Gs by done. rewrite <- Gs at 2. unfold lget32. by rewrite !Hhead by lia.
  - apply list_eq. intros i. rewrite list_lookup_fmap. destruct (decide (i < 13)%nat) as [Hi | Hi].
    + rewrite lookup_seqZ_lt by (unfold NDIRECT; lia). cbn [fmap option_fmap option_map]. rewrite put_dinode_eq. fold o f.
      rewrite (lset32_all_at f); [| lia | | lia | rewrite put_head_length, Hd; lia].
      * rewrite decide_True by (unfold slots13; rewrite elem_of_seqZ; unfold NDIRECT; lia).
        unfold f. cbn [di_addrs]. rewrite Z.add_0_l, Nat2Z.id. destruct (lookup_lt_is_Some_2 addrs i) as [a Hai]; [lia |].
        rewrite Hai. cbn [default]. f_equal. apply u32_small. by eapply Forall_lookup_1.
      * eapply Forall_impl; [exact Hks |]. simpl. lia.
    + rewrite lookup_seqZ_ge, lookup_ge_None_2 by (unfold NDIRECT in *; lia). done.
Qed.

(** ** The blocks of a file

    A file has thirteen addresses in its inode and 128 in the block of the last of
    them: the slots 0 to 12, and 13 to 140.  The blocks are handed out in order;
    [al] says to which slot of which file the [i]th went. *)

Definition daddr (di : dinode) (k : Z) : Z := default 0 (di_addrs di !! Z.to_nat k).

Definition saddr (w : Z -> list Z) (di : dinode) (k : Z) : Z :=
  if k <? 13 then daddr di k else lget32 (w (daddr di 12)) (4 * (k - 13)).

(** The slot of block [bn]. *)
Definition slot (bn : Z) : Z := if bn <? 12 then bn else bn + 1.

(** The slots a file of [nb] blocks uses; [ind] says whether it has an indirect block. *)
Definition used (nb : Z) (ind : bool) (k : Z) : Prop :=
  k < 12 /\ k < nb \/ k = 12 /\ ind = true \/ 12 < k /\ k - 1 < nb.

Record laid (al : list (nat * Z)) (w : Z -> list Z) (j : nat) (di : dinode) (nb : Z) (ind : bool) (data : list Z) : Prop := {
  la_wf : dinode_wf di;
  la_nb : 0 <= nb <= 140 /\ (12 < nb -> ind = true);
  la_fit : Z.of_nat (length data) <= BSIZE * nb;
  la_used : forall k, 0 <= k < 141 -> used nb ind k ->
    exists i, al !! i = Some (j, k) /\ saddr w di k = nmeta + Z.of_nat i;
  la_free : forall k, 0 <= k < 141 -> ~ used nb ind k -> k < 13 \/ ind = true -> saddr w di k = 0;
  la_bytes : forall p, 0 <= p < BSIZE * nb ->
    lget8 (w (saddr w di (slot (p / BSIZE)))) (p mod BSIZE) = default 0 (data !! Z.to_nat p) }.

Lemma used_slot nb ind bn : 0 <= bn < nb -> used nb ind (slot bn).
Proof. unfold used, slot. destruct (Z.ltb_spec bn 12); lia. Qed.

Lemma slot_ne bn : slot bn <> 12.
Proof. unfold slot. destruct (Z.ltb_spec bn 12); lia. Qed.

Lemma slot_range bn : 0 <= bn < 140 -> 0 <= slot bn < 141.
Proof. unfold slot. destruct (Z.ltb_spec bn 12); lia. Qed.

Lemma slot_inj a b : slot a = slot b -> a = b.
Proof. unfold slot. destruct (Z.ltb_spec a 12), (Z.ltb_spec b 12); lia. Qed.

(** Where the block of a used slot is. *)
Lemma laid_ind al w j di nb data :
  laid al w j di nb true data -> exists i, al !! i = Some (j, 12) /\ daddr di 12 = nmeta + Z.of_nat i.
Proof. intros H. apply (la_used _ _ _ _ _ _ _ H 12); [lia | unfold used; lia]. Qed.

Lemma laid_block al w j di nb ind data bn :
  laid al w j di nb ind data -> 0 <= bn < nb ->
  exists i, al !! i = Some (j, slot bn) /\ saddr w di (slot bn) = nmeta + Z.of_nat i.
Proof.
  intros H Hbn. pose proof (la_nb _ _ _ _ _ _ _ H). apply (la_used _ _ _ _ _ _ _ H); [apply slot_range; lia | by apply used_slot].
Qed.

(** A file stays as it is when its blocks do. *)
Lemma saddr_frame al w w' j di nb ind data k :
  laid al w j di nb ind data -> (forall i k, al !! i = Some (j, k) -> w' (nmeta + Z.of_nat i) = w (nmeta + Z.of_nat i)) ->
  k < 13 \/ ind = true -> saddr w' di k = saddr w di k.
Proof.
  intros H Hw Hk. unfold saddr. destruct (Z.ltb_spec k 13); [done |]. destruct Hk as [Hk | ->]; [lia |].
  destruct (laid_ind _ _ _ _ _ _ H) as (i & Hi & ->). by rewrite (Hw i 12 Hi).
Qed.

Lemma laid_frame al al' w w' j di nb ind data :
  laid al w j di nb ind data -> al `prefix_of` al' ->
  (forall i k, al !! i = Some (j, k) -> w' (nmeta + Z.of_nat i) = w (nmeta + Z.of_nat i)) ->
  laid al' w' j di nb ind data.
Proof.
  intros H Hp Hw. pose proof (fun k => saddr_frame _ _ _ _ _ _ _ _ k H Hw) as Hs.
  pose proof H as [Hwf [Hnb Hind] Hfit Hused Hfree Hbytes].
  assert (forall k, 0 <= k < 141 -> used nb ind k -> k < 13 \/ ind = true) as Hk13.
  { intros k Hk [? | [? | ?]]; [lia | lia |]. destruct (Z.lt_ge_cases 12 nb); [right; auto | lia]. }
  split; try done.
  - intros k Hk Hu. destruct (Hused k Hk Hu) as (i & Hi & E). exists i. split; [by eapply prefix_lookup_Some |].
    rewrite Hs by eauto. done.
  - intros k Hk Hu Hor. rewrite Hs by done. by apply Hfree.
  - intros p Hp'. assert (0 <= p / BSIZE < nb) as Hbn by (unfold BSIZE in *; zdiv).
    destruct (laid_block _ _ _ _ _ _ _ _ H Hbn) as (i & Hi & E).
    rewrite Hs by (apply Hk13; [apply slot_range; lia | by apply used_slot]).
    rewrite <- (Hbytes p Hp'), E, (Hw i _ Hi). done.
Qed.

(** *** A fresh block *)

Lemma daddr_with di k a k' :
  length (di_addrs di) = 13%nat -> 0 <= k < 13 -> 0 <= k' -> is_u32 a ->
  daddr (with_addr di k a) k' = if decide (k' = k) then a else daddr di k'.
Proof.
  intros Hl Hk Hk' Ha. unfold daddr, with_addr. cbn [di_addrs]. destruct (decide (k' = k)) as [-> | Hne].
  - rewrite list_lookup_insert_eq by lia. cbn. by apply xint_small.
  - by rewrite list_lookup_insert_ne by lia.
Qed.

Lemma dinode_wf_with di k a : dinode_wf di -> is_u32 a -> dinode_wf (with_addr di k a).
Proof.
  intros [] Ha. split; try done; cbn [with_addr di_addrs].
  - by rewrite length_insert.
  - apply Forall_insert; [done |]. rewrite xint_small; done.
Qed.

Lemma zeroes_get k : lget8 zeroes k = 0.
Proof.
  unfold lget8, zeroes. destruct (replicate _ 0 !! Z.to_nat k) as [x |] eqn:E; [| done].
  by apply lookup_replicate in E as [-> _].
Qed.

Lemma zeroes_get32 k : lget32 zeroes k = 0.
Proof. unfold lget32. by rewrite !zeroes_get. Qed.

(** The next block for one of the first twelve blocks of a file. *)
Lemma laid_grow_direct al w j di nb ind data b :
  laid al w j di nb ind data -> nb < 12 -> b = nmeta + Z.of_nat (length al) -> is_u32 b -> w b = zeroes ->
  laid (al ++ [(j, nb)]) w j (with_addr di nb b) (nb + 1) ind data.
Proof.
  intros [Hwf [Hnb Hind] Hfit Hused Hfree Hbytes] Hlt Hb Hb32 Hz. pose proof (dw_len _ Hwf) as Hl.
  assert (forall k, 0 <= k < 141 -> saddr w (with_addr di nb b) k = if decide (k = nb) then b else saddr w di k) as Hs.
  { intros k Hk. unfold saddr. rewrite !daddr_with by (done || lia). rewrite (decide_False (P := 12 = nb)) by lia.
    destruct (Z.ltb_spec k 13); [done |]. by rewrite decide_False by lia. }
  split; [by apply dinode_wf_with | split; [lia | by intros; exfalso; lia] | unfold BSIZE in *; lia | | |].
  - intros k Hk Hu. rewrite Hs by done. destruct (decide (k = nb)) as [-> | Hne].
    + exists (length al). by rewrite lookup_app_r, Nat.sub_diag by lia.
    + destruct (Hused k Hk) as (i & Hi & E); [unfold used in *; lia |]. exists i. split; [by apply lookup_app_l_Some | done].
  - intros k Hk Hu Hor. rewrite Hs by done. rewrite decide_False by (unfold used in *; lia).
    apply Hfree; [done | unfold used in *; lia | done].
  - intros p Hp. assert (0 <= p / BSIZE < nb + 1) as Hbn by (unfold BSIZE in *; zdiv).
    rewrite Hs by (apply slot_range; lia). destruct (decide (slot (p / BSIZE) = nb)) as [E | Hne].
    + rewrite Hz, zeroes_get, lookup_ge_None_2; [done |]. unfold slot in E. destruct (Z.ltb_spec (p / BSIZE) 12); [| lia].
      unfold BSIZE in *. zdiv.
    + apply Hbytes. assert (p / BSIZE <> nb) by (unfold slot in Hne; destruct (Z.ltb_spec (p / BSIZE) 12); lia). unfold BSIZE in *. zdiv.
Qed.

(** The indirect block. *)
Lemma laid_grow_ind al w j di data b :
  laid al w j di 12 false data -> b = nmeta + Z.of_nat (length al) -> is_u32 b -> w b = zeroes ->
  laid (al ++ [(j, 12)]) w j (with_addr di 12 b) 12 true data.
Proof.
  intros [Hwf [Hnb Hind] Hfit Hused Hfree Hbytes] Hb Hb32 Hz. pose proof (dw_len _ Hwf) as Hl.
  assert (forall k, 0 <= k < 12 -> saddr w (with_addr di 12 b) k = saddr w di k) as Hs.
  { intros k Hk. unfold saddr. rewrite (proj2 (Z.ltb_lt k 13)) by lia. rewrite daddr_with by (done || lia). by rewrite decide_False by lia. }
  assert (daddr (with_addr di 12 b) 12 = b) as H12 by (rewrite daddr_with by (done || lia); by rewrite decide_True).
  split; [by apply dinode_wf_with | split; [lia | by intros; exfalso; lia] | done | | |].
  - intros k Hk Hu. destruct (decide (k = 12)) as [-> | Hne].
    + exists (length al). rewrite lookup_app_r, Nat.sub_diag by lia. unfold saddr. by rewrite H12.
    + rewrite Hs by (unfold used in *; lia). destruct (Hused k Hk) as (i & Hi & E); [unfold used in *; lia |].
      exists i. split; [by apply lookup_app_l_Some | done].
  - intros k Hk Hu _. destruct (Z.lt_ge_cases k 13); [unfold used in Hu; lia |].
    unfold saddr. rewrite (proj2 (Z.ltb_ge k 13)) by lia. rewrite H12, Hz. apply zeroes_get32.
  - intros p Hp. assert (0 <= p / BSIZE < 12) as Hbn by (unfold BSIZE in *; zdiv).
    rewrite Hs; [by apply Hbytes |]. unfold slot. rewrite (proj2 (Z.ltb_lt _ 12)); lia.
Qed.

(** The next block behind the indirect block. *)
Lemma laid_grow_indirect al w j di nb data b :
  laid al w j di nb true data -> 12 <= nb < 140 -> b = nmeta + Z.of_nat (length al) -> is_u32 b -> w b = zeroes ->
  length (w (daddr di 12)) = Z.to_nat BSIZE ->
  let w' := fupd w (daddr di 12) (lset32 (w (daddr di 12)) (4 * (nb - 12)) b) in
  laid (al ++ [(j, nb + 1)]) w' j di (nb + 1) true data.
Proof.
  intros H Hlt Hb Hb32 Hz Hlen w'. pose proof H as [Hwf [Hnb Hind] Hfit Hused Hfree Hbytes].
  destruct (laid_ind _ _ _ _ _ _ H) as (i12 & Hi12 & E12). pose proof (lookup_lt_Some _ _ _ Hi12) as Hi12l.
  unfold BSIZE in Hlen.
  assert (forall k, 0 <= k < 141 -> saddr w' di k = if decide (k = nb + 1) then b else saddr w di k) as Hs.
  { intros k Hk. unfold saddr. destruct (Z.ltb_spec k 13); [by rewrite decide_False by lia |]. unfold w'. rewrite fupd_eq.
    destruct (decide (k = nb + 1)) as [-> | Hne].
    - replace (nb + 1 - 13) with (nb - 12) by lia. rewrite lget32_lset32 by lia. by apply u32_small.
    - apply lget32_lset32_ne; lia. }
  assert (forall i k, al !! i = Some (j, k) -> k <> 12 -> w' (nmeta + Z.of_nat i) = w (nmeta + Z.of_nat i)) as Hw.
  { intros i k Hi Hk. unfold w'. apply fupd_ne. rewrite E12. intros E. assert (i = i12) by lia. subst. congruence. }
  split; [done | split; [lia | done] | unfold BSIZE in *; lia | | |].
  - intros k Hk Hu. rewrite Hs by done. destruct (decide (k = nb + 1)) as [-> | Hne].
    + exists (length al). by rewrite lookup_app_r, Nat.sub_diag by lia.
    + destruct (Hused k Hk) as (i & Hi & E); [unfold used in *; lia |]. exists i. split; [by apply lookup_app_l_Some | done].
  - intros k Hk Hu Hor. rewrite Hs by done. rewrite decide_False by (unfold used in *; lia).
    apply Hfree; [done | unfold used in *; lia | done].
  - intros p Hp. assert (0 <= p / BSIZE < nb + 1) as Hbn by (unfold BSIZE in *; zdiv).
    rewrite Hs by (apply slot_range; lia). destruct (decide (slot (p / BSIZE) = nb + 1)) as [E | Hne].
    + unfold w'. rewrite fupd_ne, Hz, zeroes_get, lookup_ge_None_2; [done | | rewrite Hb, E12; lia].
      unfold slot in E. destruct (Z.ltb_spec (p / BSIZE) 12); [lia |]. unfold BSIZE in *. zdiv.
    + assert (p / BSIZE <> nb) by (unfold slot in Hne; destruct (Z.ltb_spec (p / BSIZE) 12); lia).
      assert (0 <= p / BSIZE < nb) as Hbn' by lia.
      destruct (laid_block _ _ _ _ _ _ _ _ H Hbn') as (i & Hi & E). rewrite E, (Hw i _ Hi (slot_ne _)), <- E.
      apply Hbytes. unfold BSIZE in *. zdiv.
Qed.

(** *** Bytes behind the end *)

Lemma laid_append al w j di nb ind data piece :
  laid al w j di nb ind data ->
  let off := Z.of_nat (length data) in
  let x := saddr w di (slot (off / BSIZE)) in
  off / BSIZE < nb -> length (w x) = Z.to_nat BSIZE -> off mod BSIZE + Z.of_nat (length piece) <= BSIZE ->
  laid al (fupd w x (lblit (w x) (off mod BSIZE) piece)) j di nb ind (data ++ piece).
Proof.
  intros H off x Hbn Hx Hle. set (w' := fupd w x _). pose proof H as [Hwf [Hnb Hind] Hfit Hused Hfree Hbytes].
  assert (0 <= off / BSIZE < nb) as Hbn0 by (unfold off, BSIZE in *; zdiv).
  destruct (laid_block _ _ _ _ _ _ _ _ H Hbn0) as (ix & Hix & Ex). fold x in Ex.
  assert (forall i k, al !! i = Some (j, k) -> k <> slot (off / BSIZE) -> w' (nmeta + Z.of_nat i) = w (nmeta + Z.of_nat i)) as Hw.
  { intros i k Hi Hk. unfold w'. apply fupd_ne. rewrite Ex. intros E. assert (i = ix) by lia. subst. congruence. }
  assert (forall k, k < 13 \/ ind = true -> saddr w' di k = saddr w di k) as Hs.
  { intros k Hk. unfold saddr. destruct (Z.ltb_spec k 13); [done |]. destruct Hk as [Hk | ->]; [lia |].
    destruct (laid_ind _ _ _ _ _ _ H) as (i & Hi & ->). rewrite (Hw i 12 Hi); [done |]. intros E. by apply (slot_ne (off / BSIZE)). }
  assert (forall k, used nb ind k -> k < 13 \/ ind = true) as Hk13.
  { intros k [? | [? | ?]]; [lia | lia |]. destruct (Z.lt_ge_cases 12 nb); [right; auto | lia]. }
  split; [done | done | rewrite length_app; unfold off, BSIZE in *; zdiv | | |].
  - intros k Hk Hu. rewrite Hs by auto. by apply Hused.
  - intros k Hk Hu Hor. rewrite Hs by done. by apply Hfree.
  - intros p Hp. assert (0 <= p / BSIZE < nb) as Hp0 by (unfold BSIZE in *; zdiv).
    rewrite Hs by (by apply Hk13, used_slot). destruct (laid_block _ _ _ _ _ _ _ _ H Hp0) as (ip & Hip & Ep).
    destruct (decide (p / BSIZE = off / BSIZE)) as [E | Hne].
    + rewrite E. fold x. unfold w'. rewrite fupd_eq, lblit_bytes; [| unfold off, BSIZE; zdiv | unfold BSIZE; zdiv | rewrite Hx; unfold BSIZE in *; lia].
      assert (0 <= off) by (unfold off; lia).
      destruct (decide _) as [Hin | Hout].
      * rewrite lookup_app_r by (unfold off, BSIZE in *; zdiv). unfold lget8. f_equal. f_equal. unfold off, BSIZE in *. zdiv.
      * unfold x. rewrite <- E, (Hbytes p Hp). destruct (decide (p < off)).
        -- rewrite lookup_app_l by (unfold off in *; lia). done.
        -- rewrite !lookup_ge_None_2; [done | |]; rewrite ?length_app; unfold off, BSIZE in *; zdiv.
    + rewrite Ep, (Hw ip _ Hip) by (intros E; by apply Hne, slot_inj). rewrite <- Ep, (Hbytes p Hp). destruct (decide (p < off)).
      * rewrite lookup_app_l by (unfold off in *; lia). done.
      * rewrite !lookup_ge_None_2; [done | |]; rewrite ?length_app; unfold off, BSIZE in *; zdiv.
Qed.

(** ** Images under construction *)

Record im_ok (al : list (nat * Z)) (im : image) : Prop := {
  ok_end : im_end im = FSSIZE;
  ok_block : freeblock im = nmeta + Z.of_nat (length al);
  ok_room : freeblock im <= FSSIZE;
  ok_whole : forall b, length (im_sector im b) = Z.to_nat BSIZE;
  ok_zero : forall b, freeblock im <= b -> im_sector im b = zeroes }.

(** Work on file [j]: blocks are added, and of the others none changes. *)
Record ext (j : nat) (al : list (nat * Z)) (im : image) (al' : list (nat * Z)) (im' : image) : Prop := {
  ex_prefix : al `prefix_of` al';
  ex_meta : forall b, b < nmeta -> im_sector im' b = im_sector im b;
  ex_inode : freeinode im' = freeinode im;
  ex_other : forall i j' k, al !! i = Some (j', k) -> j' <> j ->
    im_sector im' (nmeta + Z.of_nat i) = im_sector im (nmeta + Z.of_nat i) }.

Lemma ext_refl j al im : ext j al im al im.
Proof. by split. Qed.

Lemma ext_trans j al1 im1 al2 im2 al3 im3 : ext j al1 im1 al2 im2 -> ext j al2 im2 al3 im3 -> ext j al1 im1 al3 im3.
Proof.
  intros [P1 M1 I1 O1] [P2 M2 I2 O2]. split.
  - by etrans.
  - intros b Hb. by rewrite M2, M1.
  - by rewrite I2, I1.
  - intros i j' k Hi Hj. rewrite (O2 i j' k) by (done || by eapply prefix_lookup_Some). by eapply O1.
Qed.

(** The sector of slot [k] of file [j] is written. *)
Definition put_sector (sec : Z) (buf : list Z) (im : image) : image :=
  {| im with im_sector := fupd (im_sector im) sec buf |}.

Lemma ext_put j al im i k buf : al !! i = Some (j, k) -> ext j al im al (put_sector (nmeta + Z.of_nat i) buf im).
Proof.
  intros Hi. split; [done | | done |]; cbn [put_sector im_sector].
  - intros b Hb. apply fupd_ne. lia.
  - intros i' j' k' Hi' Hj. apply fupd_ne. intros E. assert (i' = i) by lia. subst. congruence.
Qed.

Lemma im_ok_put al im i buf :
  im_ok al im -> (i < length al)%nat -> length buf = Z.to_nat BSIZE -> im_ok al (put_sector (nmeta + Z.of_nat i) buf im).
Proof.
  intros [He Hb Hr Hw Hz] Hi Hl. split; cbn [put_sector im_end freeblock im_sector]; [done | done | done | |].
  - intros b. unfold fupd. by destruct (decide _).
  - intros b Hge. rewrite fupd_ne by lia. by apply Hz.
Qed.

Definition bump (im : image) : image := {| im with freeblock := freeblock im + 1 |}.

Lemma ext_bump j al im x : ext j al im (al ++ [x]) (bump im).
Proof. split; try done. by apply prefix_app_r. Qed.

Lemma im_ok_bump al im x : im_ok al im -> freeblock im < FSSIZE -> im_ok (al ++ [x]) (bump im).
Proof.
  intros [He Hb Hr Hw Hz] Hlt. split; cbn [bump im_end freeblock im_sector]; [done | | lia | done |].
  - rewrite length_app. simpl. lia.
  - intros b Hge. apply Hz. lia.
Qed.

Lemma nmeta_eq : nmeta = 59.
Proof. reflexivity. Qed.

Lemma sector_small sec : 0 <= sec < FSSIZE -> sector sec = sec.
Proof. intros H. unfold sector. rewrite u32_small by (unfold is_u32, FSSIZE, BSIZE in *; lia). unfold BSIZE. zdiv. Qed.

Lemma rsect_ok al im sec : im_ok al im -> 0 <= sec < FSSIZE -> rsect sec im = Made (im_sector im sec) im.
Proof. intros Hok Hs. unfold rsect. rewrite sector_small by done. rewrite (ok_end _ _ Hok). by rewrite (proj2 (Z.ltb_lt _ _)) by lia. Qed.

Lemma freshblock_ok al im : im_ok al im -> freshblock im = Made (nmeta + Z.of_nat (length al)) (bump im).
Proof.
  intros [He Hb Hr Hw Hz]. unfold freshblock, bump. rewrite u32_small; [by rewrite Hb |].
  unfold is_u32, FSSIZE in *. rewrite nmeta_eq in *. lia.
Qed.

Lemma ibind_made {A B} (m : I A) (k : A -> I B) im a im' : m im = Made a im' -> ibind m k im = k a im'.
Proof. unfold ibind. by intros ->. Qed.
