(* ===== verification/MkfsSpec.v ===== *)
(** What [mkfs] builds: an image in which the kernel finds the files it was given,
    each block in one place of one file, and the bitmap to match. *)

From Stdlib Require Import ZifyBool.
From S2P Require Import Prelude Params Mem CString Machine Log Inode Fs Mkfs FileSpec MkfsLayout.

Section Building.
Context {host : Host} (Hroom : FSSIZE <= host_room).

Lemma wsect_ok al im sec buf : im_ok al im -> 0 <= sec < FSSIZE -> wsect sec buf im = Made tt (put_sector sec buf im).
Proof using Hroom.
  intros Hok Hs. unfold wsect, put_sector. rewrite sector_small by done. rewrite (proj2 (Z.ltb_lt _ _)) by lia.
  rewrite (ok_end _ _ Hok), Z.max_l by lia. by rewrite <- (ok_end _ _ Hok).
Qed.

(** [addrs[k]] of an inode in memory. *)
Lemma addr_ok di k im : dinode_wf di -> 0 <= k < 13 -> addr di k im = Made (daddr di k) im.
Proof.
  intros Hwf Hk. pose proof (dw_len _ Hwf) as Hl. unfold addr, daddr.
  destruct (lookup_lt_is_Some_2 (di_addrs di) (Z.to_nat k)) as [a Ha]; [lia |]. rewrite Ha. cbn.
  unfold iret. rewrite xint_small; [done |]. by eapply Forall_lookup_1; [apply Hwf |].
Qed.

Lemma addr_or_fresh_old di k im :
  dinode_wf di -> 0 <= k < 13 -> daddr di k <> 0 -> addr_or_fresh di k im = Made (di, daddr di k) im.
Proof.
  intros Hwf Hk Hne. unfold addr_or_fresh. rewrite (ibind_made _ _ _ _ _ (addr_ok di k im Hwf Hk)).
  by rewrite (proj2 (Z.eqb_neq _ _)).
Qed.

Lemma fresh_u32 al im : im_ok al im -> is_u32 (nmeta + Z.of_nat (length al)).
Proof. intros [He Hb Hr Hw Hz]. unfold is_u32, FSSIZE in *. rewrite nmeta_eq in *. lia. Qed.

Lemma addr_or_fresh_new al di k im :
  im_ok al im -> dinode_wf di -> 0 <= k < 13 -> daddr di k = 0 ->
  let b := nmeta + Z.of_nat (length al) in
  addr_or_fresh di k im = Made (with_addr di k b, b) (bump im).
Proof.
  intros Hok Hwf Hk H0 b. pose proof (fresh_u32 _ _ Hok) as Hb.
  unfold addr_or_fresh. rewrite (ibind_made _ _ _ _ _ (addr_ok di k im Hwf Hk)), H0. cbn [Z.eqb].
  rewrite (ibind_made _ _ _ _ _ (freshblock_ok al im Hok)). fold b.
  rewrite (ibind_made _ _ _ _ _ (addr_ok (with_addr di k b) k (bump im) (dinode_wf_with _ _ _ Hwf Hb) Hk)).
  rewrite daddr_with by (apply Hwf || done || lia). by rewrite decide_True.
Qed.

(** The blocks of a file with [nb] data blocks, the indirect one included. *)
Definition slots (nb : Z) : Z := nb + (if 12 <? nb then 1 else 0).
Definition blocks (n : Z) : Z := (n + BSIZE - 1) / BSIZE.

(** Everything of an inode but its addresses. *)
Definition same_head (di di' : dinode) : Prop :=
  di_type di' = di_type di /\ di_major di' = di_major di /\ di_minor di' = di_minor di /\
  di_nlink di' = di_nlink di /\ di_size di' = di_size di.

(** What a step of appending to file [j] leads to. *)
Definition grown (j : nat) (al : list (nat * Z)) (im : image) (di : dinode) (nb nb' : Z) (data : list Z) (di' : dinode) (im' : image) : Prop :=
  exists al', im_ok al' im' /\ ext j al im al' im' /\ laid al' (im_sector im') j di' nb' (12 <? nb') data /\
    same_head di di' /\ Z.of_nat (length al') = Z.of_nat (length al) + (slots nb' - slots nb).

Lemma iappend_block_direct al im j di data :
  let n := Z.of_nat (length data) in
  let nb := blocks n in
  let fbn := n / BSIZE in
  im_ok al im -> laid al (im_sector im) j di nb (12 <? nb) data -> fbn < 12 ->
  Z.of_nat (length al) + (slots (fbn + 1) - slots nb) <= FSSIZE - nmeta ->
  exists di' im', iappend_block di fbn im = Made (di', saddr (im_sector im') di' (slot fbn)) im' /\
    grown j al im di nb (fbn + 1) data di' im'.
Proof.
  intros n nb fbn Hok Hla Hlt Hfit. assert (0 <= fbn /\ (nb = fbn \/ nb = fbn + 1)) as [Hf Hnb].
  { unfold nb, blocks, fbn, n, BSIZE. split; zdiv. }
  assert (slot fbn = fbn) as Hsl by (unfold slot; by rewrite (proj2 (Z.ltb_lt fbn 12))).
  unfold iappend_block. change NDIRECT with 12. rewrite (proj2 (Z.ltb_lt fbn 12)), Hsl by done.
  assert (forall w d, saddr w d fbn = daddr d fbn) as Hsa by (intros; unfold saddr; by rewrite (proj2 (Z.ltb_lt fbn 13)) by lia).
  pose proof (la_wf _ _ _ _ _ _ _ Hla) as Hwf. destruct Hnb as [E | E].
  - assert (daddr di fbn = 0) as H0.
    { rewrite <- (Hsa (im_sector im)). apply (la_free _ _ _ _ _ _ _ Hla); [lia | unfold used; lia | lia]. }
    rewrite (addr_or_fresh_new al di fbn im Hok Hwf) by (done || lia). cbv zeta. set (b := nmeta + _).
    exists (with_addr di fbn b), (bump im). split.
    { f_equal. f_equal. rewrite Hsa, daddr_with by (apply Hwf || lia || apply (fresh_u32 _ _ Hok)). by rewrite decide_True. }
    assert ((12 <? fbn + 1) = false) as E1 by lia. assert ((12 <? nb) = false) as E2 by lia.
    exists (al ++ [(j, fbn)]). rewrite E1. rewrite E2, E in Hla. unfold slots in Hfit |- *. rewrite E1, E2 in *. split_and!; try done.
    + apply im_ok_bump; [done |]. rewrite (ok_block _ _ Hok). lia.
    + apply ext_bump.
    + apply laid_grow_direct; try done; [apply (fresh_u32 _ _ Hok) |]. apply (ok_zero _ _ Hok). rewrite (ok_block _ _ Hok). lia.
    + rewrite length_app. simpl. lia.
  - destruct (laid_block _ _ _ _ _ _ _ fbn Hla) as (i & Hi & Ei); [lia |].
    rewrite Hsl, Hsa in Ei.
    rewrite addr_or_fresh_old by (done || lia || (rewrite Ei, nmeta_eq; lia)).
    exists di, im. rewrite Hsa. split; [done |]. exists al. rewrite <- E. split; [done |]. split; [apply ext_refl |]. split; [done |]. split; [by repeat split | lia].
Qed.

(** The indirect block, there already or fresh. *)
Lemma indirect_ok al im j di nb data :
  im_ok al im -> laid al (im_sector im) j di nb (12 <? nb) data -> 12 <= nb ->
  (if 12 <? nb then True else Z.of_nat (length al) < FSSIZE - nmeta) ->
  exists al1 di1 im1, addr_or_fresh di 12 im = Made (di1, daddr di1 12) im1 /\ im_ok al1 im1 /\ ext j al im al1 im1 /\
    laid al1 (im_sector im1) j di1 nb true data /\ same_head di di1 /\
    Z.of_nat (length al1) = Z.of_nat (length al) + (if 12 <? nb then 0 else 1).
Proof.
  intros Hok Hla Hge Hfit. pose proof (la_wf _ _ _ _ _ _ _ Hla) as Hwf. destruct (Z.ltb_spec 12 nb) as [Hlt | Hlt].
  - destruct (laid_ind _ _ _ _ _ _ Hla) as (i & Hi & Ei). exists al, di, im.
    rewrite addr_or_fresh_old by (done || lia || (rewrite Ei, nmeta_eq; lia)).
    split; [done |]. split; [done |]. split; [apply ext_refl |]. split; [done |]. split; [by repeat split | lia].
  - assert (nb = 12) as -> by lia.
    assert (daddr di 12 = 0) as H0 by (apply (la_free _ _ _ _ _ _ _ Hla 12); [lia | unfold used; lia | lia]).
    rewrite (addr_or_fresh_new al di 12 im Hok Hwf) by (done || lia). cbv zeta. set (b := nmeta + _).
    exists (al ++ [(j, 12)]), (with_addr di 12 b), (bump im). split_and!; try done.
    + f_equal. f_equal. rewrite daddr_with by (apply Hwf || lia || apply (fresh_u32 _ _ Hok)). by rewrite decide_True.
    + apply im_ok_bump; [done |]. rewrite (ok_block _ _ Hok). lia.
    + apply ext_bump.
    + apply laid_grow_ind; try done; [apply (fresh_u32 _ _ Hok) |]. apply (ok_zero _ _ Hok). rewrite (ok_block _ _ Hok). lia.
    + rewrite length_app. simpl. lia.
Qed.

Lemma iappend_block_indirect al im j di data :
  let n := Z.of_nat (length data) in
  let nb := blocks n in
  let fbn := n / BSIZE in
  im_ok al im -> laid al (im_sector im) j di nb (12 <? nb) data -> 12 <= fbn < 140 ->
  Z.of_nat (length al) + (slots (fbn + 1) - slots nb) <= FSSIZE - nmeta ->
  exists di' im', iappend_block di fbn im = Made (di', saddr (im_sector im') di' (slot fbn)) im' /\
    grown j al im di nb (fbn + 1) data di' im'.
Proof using Hroom.
  intros n nb fbn Hok Hla Hf Hfit. assert (nb = fbn \/ nb = fbn + 1) as Hnb.
  { unfold nb, blocks, fbn, n, BSIZE. zdiv. }
  assert (slot fbn = fbn + 1) as Hsl by (unfold slot; by rewrite (proj2 (Z.ltb_ge fbn 12)) by lia).
  assert ((12 <? fbn + 1) = true) as E1 by lia. unfold slots in Hfit. rewrite E1 in Hfit.
  destruct (indirect_ok al im j di nb data Hok Hla) as (al1 & di1 & im1 & Er & Hok1 & Hex1 & Hla1 & Hh1 & Hl1).
  { lia. } { destruct (Z.ltb_spec 12 nb); [done | lia]. }
  destruct (laid_ind _ _ _ _ _ _ Hla1) as (i & Hi & Ei). pose proof (lookup_lt_Some _ _ _ Hi) as Hil.
  assert (0 <= daddr di1 12 < FSSIZE) as Hd12.
  { rewrite Ei. pose proof (ok_room _ _ Hok1) as Hr. rewrite (ok_block _ _ Hok1) in Hr. rewrite nmeta_eq in *. lia. }
  assert (forall w, saddr w di1 (fbn + 1) = lget32 (w (daddr di1 12)) (4 * (fbn - 12))) as Hsa.
  { intros w. unfold saddr. rewrite (proj2 (Z.ltb_ge (fbn + 1) 13)) by lia. do 2 f_equal. lia. }
  unfold iappend_block. change NDIRECT with 12. rewrite (proj2 (Z.ltb_ge fbn 12)), Hsl by lia.
  rewrite (ibind_made _ _ _ _ _ Er). cbv beta iota zeta. rewrite (ibind_made _ _ _ _ _ (rsect_ok al1 im1 _ Hok1 Hd12)).
  destruct Hnb as [E | E].
  - assert (lget32 (im_sector im1 (daddr di1 12)) (4 * (fbn - 12)) = 0) as H0.
    { rewrite <- Hsa. apply (la_free _ _ _ _ _ _ _ Hla1); [lia | unfold used; lia | by right]. }
    rewrite H0. cbn [Z.eqb]. rewrite (ibind_made _ _ _ _ _ (freshblock_ok al1 im1 Hok1)). set (b := nmeta + _).
    pose proof (fresh_u32 _ _ Hok1) as Hb. fold b in Hb. rewrite (xint_small b) by done.
    assert (freeblock im1 < FSSIZE) as Hfr.
    { rewrite (ok_block _ _ Hok1). destruct (Z.ltb_spec 12 nb); lia. }
    pose proof (im_ok_bump al1 im1 (j, fbn + 1) Hok1 Hfr) as Hok2.
    rewrite (ibind_made _ _ _ _ _ (wsect_ok _ (bump im1) _ _ Hok2 Hd12)).
    pose proof (ok_whole _ _ Hok1 (daddr di1 12)) as Hlen.
    pose proof (laid_grow_indirect al1 _ j di1 nb data b Hla1 ltac:(lia) eq_refl Hb
                  (ok_zero _ _ Hok1 b ltac:(rewrite (ok_block _ _ Hok1); lia)) Hlen) as Hla2. cbv zeta in Hla2. rewrite E in Hla2.
    set (im2 := put_sector _ _ _). exists di1, im2. split.
    { unfold iret. f_equal. f_equal. rewrite Hsa. unfold im2. cbn [put_sector im_sector bump]. rewrite fupd_eq.
      apply xint_small. unfold BSIZE in Hlen. rewrite lget32_lset32 by lia. apply u32_range. }
    exists (al1 ++ [(j, fbn + 1)]). rewrite E1. split_and!.
    + unfold im2. rewrite Ei. apply im_ok_put; [done | rewrite length_app; lia |]. by rewrite length_lset32, <- Ei.
    + eapply ext_trans; [exact Hex1 |]. eapply ext_trans; [apply (ext_bump j al1 im1 (j, fbn + 1)) |]. unfold im2. rewrite Ei.
      eapply ext_put. by apply lookup_app_l_Some.
    + exact Hla2.
    + done.
    + unfold slots. rewrite length_app, E1. simpl. destruct (Z.ltb_spec 12 nb); lia.
  - assert (lget32 (im_sector im1 (daddr di1 12)) (4 * (fbn - 12)) <> 0) as Hne.
    { rewrite <- Hsa, <- Hsl. destruct (laid_block _ _ _ _ _ _ _ fbn Hla1) as (i' & Hi' & Ei'); [lia |]. rewrite Ei', nmeta_eq. lia. }
    rewrite (proj2 (Z.eqb_neq _ _)) by done. exists di1, im1. split.
    { unfold iret. f_equal. f_equal. rewrite Hsa. apply xint_small.
      destruct (laid_block _ _ _ _ _ _ _ fbn Hla1) as (i' & Hi' & Ei'); [lia |]. rewrite Hsl, Hsa in Ei'. rewrite Ei'.
      apply lookup_lt_Some in Hi'. pose proof (fresh_u32 _ _ Hok1). unfold is_u32 in *. rewrite nmeta_eq in *. lia. }
    exists al1. rewrite <- E. replace (12 <? nb) with true in * by lia. split_and!; try done. lia.
Qed.

Lemma slots_mono a b : a <= b -> slots a <= slots b.
Proof. unfold slots. destruct (Z.ltb_spec 12 a), (Z.ltb_spec 12 b); lia. Qed.

Lemma grown_trans j al im di nb nb1 nb2 data data1 di1 im1 di2 im2 :
  (exists al1, im_ok al1 im1 /\ ext j al im al1 im1 /\ laid al1 (im_sector im1) j di1 nb1 (12 <? nb1) data1 /\
     same_head di di1 /\ Z.of_nat (length al1) = Z.of_nat (length al) + (slots nb1 - slots nb) /\
     grown j al1 im1 di1 nb1 nb2 data di2 im2) ->
  grown j al im di nb nb2 data di2 im2.
Proof.
  intros (al1 & Hok1 & Hex1 & Hla1 & Hh1 & Hl1 & al2 & Hok2 & Hex2 & Hla2 & Hh2 & Hl2). exists al2. split_and!.
  - done.
  - by eapply ext_trans.
  - done.
  - unfold same_head in *. intuition congruence.
  - lia.
Qed.

(** One turn of the loop. *)
Lemma iappend_turn al im j di data p :
  let n := Z.of_nat (length data) in
  let fbn := n / BSIZE in
  let n1 := Z.min (Z.of_nat (length p)) ((fbn + 1) * BSIZE - n) in
  im_ok al im -> laid al (im_sector im) j di (blocks n) (12 <? blocks n) data -> (p <> []) -> fbn < MAXFILE ->
  Z.of_nat (length al) + (slots (fbn + 1) - slots (blocks n)) <= FSSIZE - nmeta ->
  exists di1 x im1 im2, iappend_block di fbn im = Made (di1, x) im1 /\ rsect x im1 = Made (im_sector im1 x) im1 /\
    wsect x (lblit (im_sector im1 x) (n - fbn * BSIZE) (lsub p 0 n1)) im1 = Made tt im2 /\
    grown j al im di (blocks n) (fbn + 1) (data ++ take (Z.to_nat n1) p) di1 im2.
Proof using Hroom.
  intros n fbn n1 Hok Hla Hp Hmax Hfit. assert (0 <= n) as Hn by (unfold n; lia).
  assert (0 < n1) as Hn1. { destruct p; [done |]. unfold n1, fbn, BSIZE. cbn [length]. zdiv. }
  assert (exists di1 im1, iappend_block di fbn im = Made (di1, saddr (im_sector im1) di1 (slot fbn)) im1 /\
            grown j al im di (blocks n) (fbn + 1) data di1 im1) as (di1 & im1 & E1 & al1 & Hok1 & Hex1 & Hla1 & Hh1 & Hl1).
  { change MAXFILE with 140 in Hmax. destruct (Z.lt_ge_cases fbn 12).
    - by apply iappend_block_direct.
    - apply iappend_block_indirect; done. }
  set (x := saddr _ _ _) in *. assert (0 <= fbn < fbn + 1) as Hfb by (unfold fbn, BSIZE; zdiv).
  destruct (laid_block _ _ _ _ _ _ _ _ Hla1 Hfb) as (i & Hi & Ei). fold x in Ei. pose proof (lookup_lt_Some _ _ _ Hi) as Hil.
  assert (0 <= x < FSSIZE) as Hx.
  { rewrite Ei. pose proof (ok_room _ _ Hok1) as Hr. rewrite (ok_block _ _ Hok1) in Hr. rewrite nmeta_eq in *. lia. }
  exists di1, x, im1. eexists. split; [exact E1 |]. split; [by eapply rsect_ok |]. split; [by eapply wsect_ok |].
  replace (n - fbn * BSIZE) with (n mod BSIZE) by (unfold fbn, BSIZE; zdiv). unfold lsub. rewrite drop_0.
  assert (Z.of_nat (length (take (Z.to_nat n1) p)) = n1) as Hl by (rewrite length_take; lia).
  assert (n mod BSIZE + Z.of_nat (length (take (Z.to_nat n1) p)) <= BSIZE) as Hle by (rewrite Hl; unfold n1, fbn, BSIZE; zdiv).
  pose proof (ok_whole _ _ Hok1 x) as Hwh. exists al1. split_and!; [| | | done | done].
  - rewrite Ei. apply im_ok_put; [done | done |]. rewrite <- Ei, length_lblit; [done | unfold BSIZE; zdiv |].
    rewrite Hwh. unfold BSIZE in *. lia.
  - eapply ext_trans; [exact Hex1 |]. rewrite Ei. by eapply ext_put.
  - apply laid_append; [done | fold n fbn; lia | done | done].
Qed.

Lemma iappend_loop_ok fuel : forall al im j di data p,
  let n := Z.of_nat (length data) in
  let n' := n + Z.of_nat (length p) in
  im_ok al im -> laid al (im_sector im) j di (blocks n) (12 <? blocks n) data -> (length p < fuel)%nat ->
  n' <= MAXFILE * BSIZE -> Z.of_nat (length al) + (slots (blocks n') - slots (blocks n)) <= FSSIZE - nmeta ->
  exists di' im', iappend_loop fuel di n p im = Made (di', n') im' /\ grown j al im di (blocks n) (blocks n') (data ++ p) di' im'.
Proof using Hroom.
  induction fuel as [| fuel IH]; intros al im j di data p n n' Hok Hla Hf Hmax Hfit; [lia |].
  assert (0 <= n) as Hn by (unfold n; lia). cbn [iappend_loop]. destruct p as [| c p0].
  { exists di, im. replace n' with n by (unfold n'; cbn; lia). rewrite app_nil_r. split; [done |]. exists al.
    split; [done |]. split; [apply ext_refl |]. split; [done |]. split; [by repeat split | lia]. }
  rewrite (proj2 (Z.ltb_lt 0 _)) by (cbn; lia). set (p := c :: p0) in *. set (fbn := n / BSIZE).
  assert (0 < Z.of_nat (length p)) as Hp by (cbn; lia).
  assert (fbn < MAXFILE) as Hfb by (unfold fbn, n', BSIZE in *; change MAXFILE with 140 in *; zdiv).
  rewrite (proj2 (Z.ltb_lt fbn MAXFILE)) by done. cbn [iassert]. rewrite (ibind_made _ _ im tt im) by done.
  destruct (iappend_turn al im j di data p) as (di1 & x & im1 & im2 & E1 & E2 & E3 & al2 & Hok2 & Hex2 & Hla2 & Hh2 & Hl2); try done.
  { fold n fbn. enough (slots (fbn + 1) <= slots (blocks n')) by lia. apply slots_mono. unfold blocks, fbn, n', BSIZE. zdiv. }
  fold n fbn in E1, E2, E3, Hla2, Hl2. rewrite (ibind_made _ _ _ _ _ E1), (ibind_made _ _ _ _ _ E2).
  set (n1 := Z.min _ _) in *. rewrite (ibind_made _ _ _ _ _ E3).
  assert (0 < n1 <= Z.of_nat (length p)) as Hn1 by (unfold n1, fbn, BSIZE; zdiv).
  set (data1 := data ++ take (Z.to_nat n1) p) in *. assert (Z.of_nat (length data1) = n + n1) as Hd1.
  { unfold data1. rewrite length_app, length_take. fold n. lia. }
  assert (blocks (n + n1) = fbn + 1) as Hb1 by (unfold blocks, fbn, n1, fbn, BSIZE in *; zdiv).
  assert (length (drop (Z.to_nat n1) p) = length p - Z.to_nat n1)%nat as Hdrop by apply length_drop.
  destruct (IH al2 im2 j di1 data1 (drop (Z.to_nat n1) p)) as (di' & im' & Er & Hg); rewrite ?Hd1, ?Hb1, ?Hdrop in *; try done; try lia.
  { rewrite (Nat2Z.inj_sub (length p)) by lia. replace (n + n1 + (Z.of_nat (length p) - Z.of_nat (Z.to_nat n1))) with n' by (unfold n'; lia). lia. }
  replace (n + n1 + Z.of_nat (length p - Z.to_nat n1)) with n' in Er, Hg by (unfold n'; lia). exists di', im'.
  rewrite u32_small by (change MAXFILE with 140 in *; unfold is_u32, n', BSIZE in *; lia). split; [exact Er |].
  apply (grown_trans j al im di _ (fbn + 1) _ _ data1 di1 im2). exists al2. split_and!; try done.
  replace (data ++ p) with (data1 ++ drop (Z.to_nat n1) p); [done |]. unfold data1. by rewrite <- app_assoc, take_drop.
Qed.

(** *** The whole image

    File [j], of inode [j + 1], has the type and the bytes [C] says. *)

Definition total (C : list (Z * list Z)) : Z :=
  foldr (fun f acc => slots (blocks (Z.of_nat (length f.2))) + acc) 0 C.

Definition inode_of (im : image) (j : nat) : dinode :=
  get_dinode (im_sector im (IBLOCK (Z.of_nat j + 1) sb)) (Z.of_nat j + 1).

(** Inode [di] of file [j] is that of a file with these bytes. *)
Record holds (al : list (nat * Z)) (im : image) (j : nat) (di : dinode) (f : Z * list Z) : Prop := {
  ho_type : di_type di = f.1;
  ho_rest : di_major di = 0 /\ di_minor di = 0 /\ di_nlink di = 1;
  ho_size : di_size di = Z.of_nat (length f.2);
  ho_laid : laid al (im_sector im) j di (blocks (Z.of_nat (length f.2))) (12 <? blocks (Z.of_nat (length f.2))) f.2 }.

Record image_ok (C : list (Z * list Z)) (al : list (nat * Z)) (im : image) : Prop := {
  io_ok : im_ok al im;
  io_inode : freeinode im = 1 + Z.of_nat (length C);
  io_few : Z.of_nat (length C) < NINODES;
  io_sb : im_sector im 1 = sb_bytes sb zeroes;
  io_count : Z.of_nat (length al) = total C;
  io_files : forall j f, C !! j = Some f -> holds al im j (inode_of im j) f }.

Lemma total_insert C j f f' :
  C !! j = Some f ->
  total (<[j := f']> C) = total C - slots (blocks (Z.of_nat (length f.2))) + slots (blocks (Z.of_nat (length f'.2))).
Proof.
  revert j. induction C as [| g C IH]; intros [| j] Hj; simplify_eq/=; [lia |]. rewrite (IH j Hj). lia.
Qed.

Lemma total_app C f : total (C ++ [f]) = total C + slots (blocks (Z.of_nat (length f.2))).
Proof. induction C as [| g C IH]; cbn [app total foldr]; [lia |]. fold (total (C ++ [f])) (total C). lia. Qed.

Lemma iblock_eq inum : 0 <= inum < NINODES -> IBLOCK inum sb = 32 + inum / 8.
Proof.
  intros Hi. unfold IBLOCK. change (sb_inodestart sb) with 32. change IPB with 8. unfold NINODES in Hi. rewrite u32_small; [lia |].
  unfold is_u32. zdiv.
Qed.

Lemma iblock_range inum : 0 <= inum < NINODES -> 32 <= IBLOCK inum sb < 57.
Proof. intros Hi. rewrite iblock_eq by done. unfold NINODES in Hi. zdiv. Qed.

Lemma im_ok_meta al im b buf : im_ok al im -> b < nmeta -> length buf = Z.to_nat BSIZE -> im_ok al (put_sector b buf im).
Proof.
  intros [He Hb Hr Hw Hz] Hlt Hl. split; cbn [put_sector im_end freeblock im_sector]; [done | done | done | |].
  - intros x. unfold fupd. by destruct (decide _).
  - intros x Hge. rewrite fupd_ne by lia. by apply Hz.
Qed.

(** Writing an inode. *)
Definition put_inode (inum : Z) (di : dinode) (im : image) : image :=
  put_sector (IBLOCK inum sb) (put_dinode (im_sector im (IBLOCK inum sb)) inum di) im.

Lemma winode_ok al im inum di :
  im_ok al im -> 0 <= inum < NINODES -> winode inum di im = Made tt (put_inode inum di im) /\ im_ok al (put_inode inum di im).
Proof using Hroom.
  intros Hok Hi. pose proof (iblock_range inum Hi) as Hb. assert (0 <= IBLOCK inum sb < FSSIZE) as Hb' by (unfold FSSIZE; lia).
  unfold winode. rewrite (ibind_made _ _ _ _ _ (rsect_ok al im _ Hok Hb')). split; [by eapply wsect_ok |].
  apply im_ok_meta; [done | rewrite nmeta_eq; lia |]. rewrite put_dinode_length. apply (ok_whole _ _ Hok).
Qed.

Lemma inode_of_put al im j j' di :
  im_ok al im -> dinode_wf di -> Z.of_nat j + 1 < NINODES -> Z.of_nat j' + 1 < NINODES ->
  inode_of (put_inode (Z.of_nat j + 1) di im) j' = if decide (j' = j) then di else inode_of im j'.
Proof.
  intros Hok Hwf Hj Hj'. unfold inode_of, put_inode. cbn [put_sector im_sector]. unfold fupd.
  rewrite !iblock_eq by lia. destruct (decide (j' = j)) as [-> | Hne].
  - rewrite decide_True by done. apply get_put_dinode; [apply (ok_whole _ _ Hok) | done].
  - destruct (decide _) as [E | Hs]; [| done]. rewrite <- E. apply get_put_dinode_ne.
    unfold dinode_off. change IPB with 8. change SIZEOF_DINODE with 64. zdiv.
Qed.

(** Files look only at their blocks. *)
Lemma holds_frame al al' im im' j di f :
  holds al im j di f -> al `prefix_of` al' ->
  (forall i k, al !! i = Some (j, k) -> im_sector im' (nmeta + Z.of_nat i) = im_sector im (nmeta + Z.of_nat i)) ->
  holds al' im' j di f.
Proof. intros [Ht Hr Hs Hl] Hp Hw. split; [done.. |]. by eapply laid_frame. Qed.

Lemma put_inode_data inum di im b : 0 <= inum < NINODES -> nmeta <= b -> im_sector (put_inode inum di im) b = im_sector im b.
Proof. intros Hi Hb. pose proof (iblock_range inum Hi). rewrite nmeta_eq in Hb. unfold put_inode. cbn [put_sector im_sector]. apply fupd_ne. lia. Qed.

Lemma rinode_ok al im j : im_ok al im -> Z.of_nat j + 1 < NINODES -> rinode (Z.of_nat j + 1) im = Made (inode_of im j) im.
Proof.
  intros Hok Hj. pose proof (iblock_range (Z.of_nat j + 1) ltac:(lia)). unfold rinode.
  rewrite (ibind_made _ _ _ _ _ (rsect_ok al im (IBLOCK (Z.of_nat j + 1) sb) Hok ltac:(unfold FSSIZE; lia))). done.
Qed.

Lemma laid_size al w j di nb ind data n :
  laid al w j di nb ind data -> is_u32 n -> laid al w j {| di with di_size := n |} nb ind data.
Proof. intros [[] ? ? ? ? ?] Hn. by split. Qed.

Lemma iappend_ok C al im j ty data p :
  image_ok C al im -> C !! j = Some (ty, data) ->
  let C' := <[j := (ty, data ++ p)]> C in
  Z.of_nat (length data + length p) <= MAXFILE * BSIZE -> total C' <= FSSIZE - nmeta ->
  exists al' im', iappend (Z.of_nat j + 1) p im = Made tt im' /\ image_ok C' al' im'.
Proof using Hroom.
  intros Hio Hj C' Hmax Htot. pose proof Hio as [Hok Hin Hfew Hsb Hcnt Hfiles]. pose proof (lookup_lt_Some _ _ _ Hj) as Hlt.
  destruct (Hfiles j _ Hj) as [Hty (Hma & Hmi & Hnl) Hsz Hla]. cbn [fst snd] in *. set (n := Z.of_nat (length data)) in *.
  assert (is_u32 (n + Z.of_nat (length p))) as Hn32.
  { change (MAXFILE * BSIZE) with 71680 in Hmax. unfold is_u32, n. lia. }
  pose proof (total_insert C j _ (ty, data ++ p) Hj) as Htt. cbn [snd] in Htt. fold C' in Htt. rewrite length_app, Nat2Z.inj_add in Htt. fold n in Htt.
  unfold iappend. rewrite (ibind_made _ _ _ _ _ (rinode_ok al im j Hok ltac:(lia))). rewrite Hsz, xint_small by (unfold is_u32 in *; lia).
  destruct (iappend_loop_ok (S (length p)) al im j (inode_of im j) data p) as (di & im1 & E & al1 & Hok1 & Hex & Hla1 & Hh & Hl1);
    [done | done | lia | fold n; lia | fold n; lia |].
  fold n in E, Hla1, Hl1. rewrite (ibind_made _ _ _ _ _ E). cbn [fst snd]. rewrite xint_small by done. set (di' := mkDinode _ _ _ _ _ _).
  assert (laid al1 (im_sector im1) j di' (blocks (n + Z.of_nat (length p))) (12 <? blocks (n + Z.of_nat (length p))) (data ++ p)) as Hla1'.
  { exact (laid_size _ _ _ di _ _ _ _ Hla1 Hn32). }
  destruct (winode_ok al1 im1 (Z.of_nat j + 1) di' Hok1) as [Ew Hok2]; [lia |].
  assert (forall b, nmeta <= b -> im_sector (put_inode (Z.of_nat j + 1) di' im1) b = im_sector im1 b) as Hdat.
  { intros b Hb. apply put_inode_data; [lia | done]. }
  exists al1, (put_inode (Z.of_nat j + 1) di' im1). split; [exact Ew |]. split.
  - done.
  - cbn [put_inode put_sector freeinode]. unfold C'. rewrite (ex_inode _ _ _ _ _ Hex), length_insert. done.
  - unfold C'. by rewrite length_insert.
  - pose proof (iblock_range (Z.of_nat j + 1) ltac:(lia)). unfold put_inode. cbn [put_sector im_sector]. rewrite fupd_ne by lia.
    rewrite (ex_meta _ _ _ _ _ Hex) by (rewrite nmeta_eq; lia). done.
  - lia.
  - intros j' f Hf. pose proof (lookup_lt_Some _ _ _ Hf) as Hlt'. unfold C' in Hlt'. rewrite length_insert in Hlt'.
    rewrite (inode_of_put al1) by (done || lia || apply (la_wf _ _ _ _ _ _ _ Hla1')). unfold C' in Hf. destruct (decide (j' = j)) as [-> | Hne].
    + rewrite list_lookup_insert_eq in Hf by lia. injection Hf as <-. apply (holds_frame al1 al1 im1); [| done |].
      * destruct Hh as (? & ? & ? & ? & ?). split; cbn [fst snd di' di_type di_major di_minor di_nlink di_size]; rewrite ?length_app, ?Nat2Z.inj_add;
          [congruence | split_and!; congruence | done | exact Hla1'].
      * intros i k Hi. apply Hdat. lia.
    + rewrite list_lookup_insert_ne in Hf by done. replace (inode_of im1 j') with (inode_of im j').
      * eapply holds_frame; [by apply Hfiles | apply Hex |]. intros i k Hi. rewrite Hdat by lia. by eapply (ex_other _ _ _ _ _ Hex).
      * unfold inode_of. pose proof (iblock_range (Z.of_nat j' + 1) ltac:(lia)). rewrite (ex_meta _ _ _ _ _ Hex) by (rewrite nmeta_eq; lia). done.
Qed.

Lemma laid_empty al w j di : dinode_wf di -> di_addrs di = replicate 13 0 -> laid al w j di 0 false [].
Proof.
  intros Hwf Ha. split; [done | split; [lia | intros; exfalso; lia] | cbn; lia | | |].
  - intros k Hk Hu. unfold used in Hu. lia.
  - intros k Hk _ Hor. unfold saddr. rewrite (proj2 (Z.ltb_lt k 13)) by lia. unfold daddr. rewrite Ha.
    destruct (replicate 13 0 !! Z.to_nat k) as [x |] eqn:E; [| done]. by apply lookup_replicate in E as [-> _].
  - intros p Hp. lia.
Qed.

Lemma ialloc_ok C al im ty :
  image_ok C al im -> Z.of_nat (length C) + 1 < NINODES -> is_i16 ty -> 0 <= ty ->
  exists im', ialloc ty im = Made (Z.of_nat (length C) + 1) im' /\ image_ok (C ++ [(ty, [])]) al im'.
Proof using Hroom.
  intros [Hok Hin Hfew Hsb Hcnt Hfiles] Hroom' Hty Hty0. unfold ialloc, freshinode, ibind. set (im1 := mkImage _ _ _ _).
  assert (im_ok al im1) as Hok1 by (destruct Hok; by split).
  rewrite Hin. replace (1 + Z.of_nat (length C)) with (Z.of_nat (length C) + 1) by lia. set (di := mkDinode _ _ _ _ _ _).
  assert (di = mkDinode ty 0 0 1 0 (replicate 13 0)) as Edi.
  { unfold di. f_equal. rewrite xshort_u16. unfold u16, is_i16 in *. apply Z.mod_small. lia. }
  assert (dinode_wf di) as Hwf.
  { rewrite Edi. split; cbn [di_type di_major di_minor di_nlink di_size di_addrs]; try done; unfold is_u32; try lia. by apply Forall_replicate. }
  destruct (winode_ok al im1 (Z.of_nat (length C) + 1) di Hok1) as [Ew Hok2]; [lia |]. rewrite Ew.
  eexists. split; [done |]. split.
  - done.
  - cbn [put_inode put_sector freeinode im1]. rewrite Hin, length_app, u32_small; cbn [length]; [lia |]. unfold is_u32, NINODES in *. lia.
  - rewrite length_app. cbn [length]. lia.
  - pose proof (iblock_range (Z.of_nat (length C) + 1) ltac:(lia)). unfold put_inode. cbn [put_sector im_sector]. rewrite fupd_ne by lia. done.
  - rewrite total_app. cbn [snd length]. change (slots (blocks (Z.of_nat 0))) with 0. lia.
  - intros j f Hf. pose proof (lookup_lt_Some _ _ _ Hf) as Hlt. rewrite length_app in Hlt. cbn [length] in Hlt.
    rewrite (inode_of_put al) by (done || lia). destruct (decide (j = length C)) as [-> | Hne].
    + rewrite lookup_app_r, Nat.sub_diag in Hf by lia. injection Hf as <-. rewrite Edi. split; try done. cbn [snd length].
      change (blocks (Z.of_nat 0)) with 0. apply laid_empty; [by rewrite <- Edi | done].
    + rewrite lookup_app_l in Hf by lia. eapply (holds_frame al al im); [by apply Hfiles | done |].
      intros i k Hi. rewrite put_inode_data by lia. done.
Qed.
End Building.
