(* ===== verification/MkfsImage.v ===== *)
(** The image [mkfs] builds, as the kernel sees it. *)

From Stdlib Require Import ZifyBool.
From S2P Require Import Prelude Params Mem CString Machine Log Inode Fs Mkfs FileSpec MkfsLayout MkfsSpec.

(** ** What is put on the image *)

(** The bytes of an input file, and its name in the directory. *)
Definition contents (f : infile) : list Z := concat (default [] (in_reads f)).
Definition padded (name : list Z) : list Z := take DIRSIZ (name ++ replicate DIRSIZ 0).
Definition entry (inum : Z) (name : list Z) : list Z := dirent_bytes (mkDirent inum (padded name)).
Definition file_entry (inum : Z) (f : infile) : list Z := entry inum (skip_underscore (in_name f)).

(** An input file that can be packed: a plain name, and [read] gives it in pieces of
    at most a block. *)
Record packable (f : infile) : Prop := {
  pk_name : Forall (fun c => c <> 0 /\ c <> 47) (in_name f);
  pk_reads : exists reads, in_reads f = Some reads /\ Forall (fun b => (0 < length b <= Z.to_nat BSIZE)%nat) reads;
  pk_size : Z.of_nat (length (contents f)) <= MAXFILE * BSIZE }.

(** One more file: an entry in the directory, which is the first file, and the file. *)
Definition add (C : list (Z * list Z)) (f : infile) : list (Z * list Z) :=
  match C with
  | (ty, d) :: fs => (ty, d ++ file_entry (Z.of_nat (length C) + 1) f) :: fs ++ [(T_FILE, contents f)]
  | [] => []
  end.

Definition dots : list Z := entry 1 [46] ++ entry 1 [46; 46].

(** The directory of the image and its files. *)
Definition root_data (files : list infile) : list Z := dots ++ concat (imap (fun i f => file_entry (Z.of_nat i + 2) f) files).
Definition all_files (files : list infile) : list (Z * list Z) :=
  (T_DIR, root_data files) :: map (fun f => (T_FILE, contents f)) files.

Lemma all_files_snoc files f : all_files (files ++ [f]) = add (all_files files) f.
Proof.
  unfold all_files, add, root_data. rewrite map_app, imap_app, concat_app, app_assoc. cbn [map imap concat length].
  rewrite length_map, app_nil_r, Nat.add_0_r. do 4 f_equal. lia.
Qed.

Lemma length_padded name : length (padded name) = DIRSIZ.
Proof. unfold padded. rewrite length_take, length_app, length_replicate. lia. Qed.

Lemma length_entry inum name : length (entry inum name) = 16%nat.
Proof. unfold entry, dirent_bytes. rewrite length_app. cbn [de_name]. by rewrite length_padded. Qed.

Lemma length_root files : length (root_data files) = (16 * (2 + length files))%nat.
Proof.
  induction files as [| f files IH] using rev_ind; [reflexivity |]. unfold root_data in *.
  rewrite imap_app, concat_app, app_assoc, length_app, IH, length_app. cbn [imap concat length].
  rewrite app_nil_r. unfold file_entry. rewrite length_entry. lia.
Qed.

(** The name [strncpy] stores. *)
Lemma strncpy_padded name :
  Forall (fun c => c <> 0) name -> strncpy (replicate DIRSIZ 0) (name ++ [0]) (Z.of_nat DIRSIZ) = Some (padded name).
Proof.
  intros Hn. rewrite (strncpy_spec _ _ name); [| split; [done | by exists []] | rewrite length_replicate; lia].
  rewrite Nat2Z.id, drop_ge, app_nil_r by (rewrite length_replicate; lia). done.
Qed.

(** ** The loop over the arguments *)

Lemma blocks_mono a b : a <= b -> blocks a <= blocks b.
Proof. intros. unfold blocks. apply Z.div_le_mono; [done | lia]. Qed.

Lemma total_mono C j f f' :
  C !! j = Some f -> (length f.2 <= length f'.2)%nat -> total C <= total (<[j := f']> C).
Proof.
  intros Hj Hle. rewrite (total_insert C j f f' Hj).
  pose proof (slots_mono _ _ (blocks_mono (Z.of_nat (length f.2)) (Z.of_nat (length f'.2)) ltac:(lia))). lia.
Qed.

Section Arguments.
Context {host : Host} (Hroom : FSSIZE <= host_room).

Lemma append_reads_ok j ty reads : forall C al im data,
  image_ok C al im -> C !! j = Some (ty, data) -> Forall (fun b => (0 < length b <= Z.to_nat BSIZE)%nat) reads ->
  let C' := <[j := (ty, data ++ concat reads)]> C in
  Z.of_nat (length data + length (concat reads)) <= MAXFILE * BSIZE -> total C' <= FSSIZE - nmeta ->
  exists al' im', append_reads (Z.of_nat j + 1) reads im = Made tt im' /\ image_ok C' al' im'.
Proof using Hroom.
  induction reads as [| b reads IH]; intros C al im data Hio Hj Hb C' Hmax Htot; cbn [append_reads].
  - exists al, im. split; [done |]. unfold C'. cbn [concat]. rewrite app_nil_r. by rewrite list_insert_id.
  - apply Forall_cons in Hb as [Hb Hbs]. rewrite (proj2 (Z.ltb_lt 0 _)) by lia. cbn [concat] in *. rewrite length_app in Hmax.
    pose proof (lookup_lt_Some _ _ _ Hj) as Hlt. assert (<[j := (ty, data ++ b)]> C !! j = Some (ty, data ++ b)) as Hj'.
    { by rewrite list_lookup_insert_eq. }
    assert (C' = <[j := (ty, (data ++ b) ++ concat reads)]> (<[j := (ty, data ++ b)]> C)) as EC.
    { unfold C'. by rewrite list_insert_insert_eq, app_assoc. }
    destruct (iappend_ok Hroom C al im j ty data b Hio Hj) as (al1 & im1 & E1 & Hio1); [lia | |].
    { etrans; [| exact Htot]. rewrite EC. apply (total_mono _ j (ty, data ++ b)); [done |]. cbn [snd]. rewrite (length_app (data ++ b)). lia. }
    destruct (IH _ al1 im1 (data ++ b) Hio1 Hj' Hbs) as (al2 & im2 & E2 & Hio2); [rewrite length_app; lia | by rewrite <- EC |].
    exists al2, im2. rewrite <- EC in Hio2. split; [| done]. by rewrite (ibind_made _ _ _ _ _ E1).
Qed.

Lemma append_entry_ok C al im ty d inum nm :
  image_ok C al im -> C !! 0%nat = Some (ty, d) -> 0 <= inum < NINODES ->
  let C' := <[0%nat := (ty, d ++ entry inum nm)]> C in
  Z.of_nat (length d + 16) <= MAXFILE * BSIZE -> total C' <= FSSIZE - nmeta ->
  exists al' im', append_entry inum (Some (padded nm)) im = Made tt im' /\ image_ok C' al' im'.
Proof using Hroom.
  intros Hio Hj Hi C' Hmax Htot. unfold append_entry.
  replace (dirent_bytes (mkDirent (xshort inum) (padded nm))) with (entry inum nm).
  - change ROOTINO with (Z.of_nat 0 + 1). apply (iappend_ok Hroom C al); [done | done | by rewrite length_entry | done].
  - unfold entry. rewrite xshort_u16. unfold u16. by rewrite (Z.mod_small inum) by (unfold NINODES in *; lia).
Qed.

Lemma skip_underscore_plain name P : Forall P name -> Forall P (skip_underscore name).
Proof. intros H. destruct H as [| c l Hc Hl]; [constructor |]. cbn. destruct (c =? 95); [done | by constructor]. Qed.

Lemma no_slash name : Forall (fun c => c <> 0 /\ c <> 47) name -> existsb (Z.eqb 47) name = false.
Proof. induction 1 as [| c l [_ Hc] _ IH]; [done |]. cbn [existsb]. rewrite IH, (proj2 (Z.eqb_neq 47 c)) by congruence. done. Qed.

Lemma add_file_ok C al im d f :
  image_ok C al im -> C !! 0%nat = Some (T_DIR, d) -> packable f -> Z.of_nat (length C) + 1 < NINODES ->
  Z.of_nat (length d + 16) <= MAXFILE * BSIZE -> total (add C f) <= FSSIZE - nmeta ->
  exists al' im', add_file f im = Made tt im' /\ image_ok (add C f) al' im'.
Proof using Hroom.
  intros Hio H0 [Hname (reads & Hr & Hb) Hsize] Hfew Hmax Htot. destruct C as [| [ty d'] fs]; [done |]. injection H0 as -> ->.
  unfold add_file. rewrite (no_slash _ Hname). cbn [negb iassert]. rewrite (ibind_made _ _ im tt im) by done. rewrite Hr.
  unfold contents in Hsize. rewrite Hr in Hsize. cbn [default] in Hsize.
  destruct (ialloc_ok Hroom _ al im T_FILE Hio Hfew) as (im1 & E1 & Hio1); [done | done |].
  rewrite (ibind_made _ _ _ _ _ E1). set (C := (T_DIR, d) :: fs) in *. set (C1 := C ++ [(T_FILE, [])]) in *.
  assert (add C f = <[length C := (T_FILE, [] ++ concat reads)]> (<[0%nat := (T_DIR, d ++ file_entry (Z.of_nat (length C) + 1) f)]> C1)) as EC.
  { unfold C1, C, add, contents. rewrite Hr. cbn [default app length insert list_insert]. f_equal.
    symmetry. etransitivity; [apply (insert_app_r_alt fs [(T_FILE, [])] (length fs)); lia |]. by rewrite Nat.sub_diag. }
  set (C2 := <[0%nat := _]> C1) in EC. assert (C2 !! length C = Some (T_FILE, [])) as H2.
  { unfold C2. rewrite list_lookup_insert_ne by (unfold C; cbn; lia). unfold C1. by rewrite lookup_app_r, Nat.sub_diag by lia. }
  rewrite strncpy_padded by (eapply Forall_impl; [apply skip_underscore_plain, Hname | cbn; tauto]).
  destruct (append_entry_ok C1 al im1 T_DIR d (Z.of_nat (length C) + 1) (skip_underscore (in_name f)) Hio1) as (al2 & im2 & E2 & Hio2);
    [done | lia | done | |].
  { etrans; [| exact Htot]. rewrite EC. apply (total_mono C2 (length C) (T_FILE, [])); [done | cbn; lia]. }
  rewrite (ibind_made _ _ _ _ _ E2).
  destruct (append_reads_ok (length C) T_FILE reads C2 al2 im2 [] Hio2 H2 Hb) as (al3 & im3 & E3 & Hio3).
  { cbn [length]. rewrite Nat.add_0_l. done. } { by rewrite <- EC. }
  exists al3, im3. by rewrite EC.
Qed.

Lemma total_cons f C : total (f :: C) = slots (blocks (Z.of_nat (length f.2))) + total C.
Proof. done. Qed.

Lemma total_app_le C C' : total C <= total (C ++ C').
Proof.
  induction C as [| f C IH]; cbn [app]; [| rewrite !total_cons; lia].
  induction C' as [| f C' IH]; [done |]. rewrite total_cons. change (total []) with 0 in *.
  enough (0 <= slots (blocks (Z.of_nat (length f.2)))) by lia.
  unfold slots, blocks, BSIZE. destruct (12 <? _); zdiv.
Qed.

Lemma total_files_le files files' : total (all_files files) <= total (all_files (files ++ files')).
Proof.
  unfold all_files. rewrite map_app, !total_cons. cbn [snd]. rewrite !length_root, length_app.
  pose proof (total_app_le (map (fun f => (T_FILE, contents f)) files) (map (fun f => (T_FILE, contents f)) files')).
  enough (slots (blocks (Z.of_nat (16 * (2 + length files)))) <= slots (blocks (Z.of_nat (16 * (2 + (length files + length files')))))) by lia.
  apply slots_mono, blocks_mono. lia.
Qed.

Lemma add_files_ok files : forall before al im,
  image_ok (all_files before) al im -> Forall packable files -> Z.of_nat (length (before ++ files)) + 1 < NINODES ->
  total (all_files (before ++ files)) <= FSSIZE - nmeta ->
  exists al' im', ieach files add_file im = Made tt im' /\ image_ok (all_files (before ++ files)) al' im'.
Proof using Hroom.
  induction files as [| f files IH]; intros before al im Hio Hpk Hfew Htot; cbn [ieach].
  - exists al, im. by rewrite app_nil_r.
  - apply Forall_cons in Hpk as [Hf Hpk]. replace (before ++ f :: files) with ((before ++ [f]) ++ files) in * by (by rewrite <- app_assoc).
    rewrite !length_app in Hfew. cbn [length] in Hfew.
    destruct (add_file_ok (all_files before) al im (root_data before) f Hio) as (al1 & im1 & E1 & Hio1); [done | done | | | |].
    + unfold all_files. cbn [length]. rewrite length_map. lia.
    + rewrite length_root. change (MAXFILE * BSIZE) with 71680. unfold NINODES in Hfew. lia.
    + rewrite <- all_files_snoc. etrans; [apply total_files_le | exact Htot].
    + rewrite <- all_files_snoc in Hio1. rewrite (ibind_made _ _ _ _ _ E1).
      apply (IH (before ++ [f]) al1 im1); [done | done | rewrite !length_app; cbn [length]; lia | done].
Qed.

(** ** Before the files *)

Lemma zero_all l : forall im,
  (forall b, im_sector im b = zeroes) -> Forall (fun b => 0 <= b < FSSIZE) l ->
  exists im', ieach l (fun i => wsect i zeroes) im = Made tt im' /\ (forall b, im_sector im' b = zeroes) /\
    im_end im' = foldl (fun e b => Z.max e (b + 1)) (im_end im) l /\ freeinode im' = freeinode im /\ freeblock im' = freeblock im.
Proof using Hroom.
  induction l as [| b l IH]; intros im Hz Hl; cbn [ieach foldl]; [by exists im |]. apply Forall_cons in Hl as [Hb Hl].
  unfold ibind at 1. unfold wsect at 1. rewrite sector_small, (proj2 (Z.ltb_lt _ _)) by lia.
  edestruct (IH {| im with im_sector := fupd (im_sector im) b zeroes; im_end := Z.max (im_end im) (b + 1) |}) as (im' & E & H1 & H2); [| done | by exists im'].
  intros x. cbn [im_sector]. unfold fupd. by destruct (decide _).
Qed.

Lemma blank_ok :
  exists im0 im, ieach (seqZ 0 FSSIZE) (fun i => wsect i zeroes) blank = Made tt im0 /\ wsect 1 (sb_bytes sb zeroes) im0 = Made tt im /\
    image_ok [] [] im.
Proof using Hroom.
  destruct (zero_all (seqZ 0 FSSIZE) blank) as (im1 & E1 & Hz & He & Hi & Hb); [done | |].
  { apply Forall_forall. intros b Hb. rewrite elem_of_seqZ in Hb. lia. }
  assert (im_end im1 = FSSIZE) as He' by (rewrite He; vm_compute; reflexivity). clear He.
  exists im1. eexists. split; [exact E1 |]. clear E1. assert (im_ok [] im1) as Hok.
  { split; [exact He' | by rewrite Hb | rewrite Hb; vm_compute; discriminate | |]; intros b; rewrite Hz; done. }
  rewrite (wsect_ok Hroom [] im1) by (done || unfold FSSIZE; lia). split; [done |]. split.
  - apply im_ok_meta; [done | done | vm_compute; reflexivity].
  - cbn [put_sector freeinode]. by rewrite Hi.
  - done.
  - cbn [put_sector im_sector]. by rewrite fupd_eq.
  - done.
  - intros j f Hj. by rewrite lookup_nil in Hj.
Qed.

Lemma strcpy_dots :
  strcpy (replicate DIRSIZ 0) [46; 0] = Some (padded [46]) /\ strcpy (replicate DIRSIZ 0) [46; 46; 0] = Some (padded [46; 46]).
Proof. by split. Qed.

(** The directory with its first two entries, and everything after it. *)
Lemma build_root files :
  exists al im, image_ok (all_files []) al im /\
    build files blank =
      (do! ieach files add_file in
       let! din := rinode ROOTINO in
       let off := xint (di_size din) in
       let off := u32 ((off / BSIZE + 1) * BSIZE) in
       do! winode ROOTINO {| din with di_size := xint off |} in
       fun im => balloc (freeblock im) im)%mkfs im.
Proof using Hroom.
  destruct blank_ok as (im0 & im1 & E0 & E1 & Hio1). destruct (ialloc_ok Hroom [] [] im1 T_DIR Hio1) as (im2 & E2 & Hio2); [done.. |].
  destruct (append_entry_ok _ [] im2 T_DIR [] 1 [46] Hio2) as (al3 & im3 & E3 & Hio3); [done | done | done | vm_compute; discriminate |].
  destruct (append_entry_ok _ al3 im3 T_DIR (entry 1 [46]) 1 [46; 46] Hio3) as (al4 & im4 & E4 & Hio4);
    [done | done | vm_compute; discriminate | vm_compute; discriminate |].
  exists al4, im4. split; [exact Hio4 |]. unfold build. rewrite (ibind_made _ _ _ _ _ E0), (ibind_made _ _ _ _ _ E1), (ibind_made _ _ _ _ _ E2).
  clear E0. destruct strcpy_dots as [-> ->]. change (Z.of_nat (length []) + 1) with ROOTINO. rewrite Z.eqb_refl. cbn [iassert].
  rewrite (ibind_made _ _ im2 tt im2) by reflexivity. by rewrite (ibind_made _ _ _ _ _ E3), (ibind_made _ _ _ _ _ E4).
Qed.
End Arguments.

(** ** The bitmap *)

Definition bitmap (used : Z) : list Z :=
  foldl (fun buf i => lset8 buf (i / 8) (Z.lor (lget8 buf (i / 8)) (Z.shiftl 1 (i mod 8)))) zeroes (seqZ 0 used).

Lemma bitmap_succ n : 0 <= n ->
  bitmap (n + 1) = lset8 (bitmap n) (n / 8) (Z.lor (lget8 (bitmap n) (n / 8)) (Z.shiftl 1 (n mod 8))).
Proof. intros Hn. unfold bitmap. rewrite (seqZ_app 0 n 1), foldl_app by lia. done. Qed.

Lemma bitmap_length n : (0 <= n) -> length (bitmap n) = Z.to_nat BSIZE.
Proof.
  intros Hn. pattern n. apply natlike_ind; [done | | done]. intros x Hx IH.
  unfold Z.succ. rewrite bitmap_succ by done. by rewrite length_lset8.
Qed.

Lemma bitmap_bits n : 0 <= n <= BPB -> forall b, 0 <= b < BPB -> Z.testbit (lget8 (bitmap n) (b / 8)) (b mod 8) = (b <? n).
Proof.
  intros [Hn Hmax]. revert Hmax. pattern n. apply natlike_ind; [| | done].
  - intros _ b Hb. change (bitmap 0) with zeroes. rewrite zeroes_get, Z.bits_0. lia.
  - intros x Hx IH Hmax b Hb. unfold Z.succ in *. change BPB with 4096 in *. rewrite bitmap_succ by done.
    pose proof (bitmap_length x Hx) as Hl. unfold BSIZE in Hl. specialize (IH ltac:(lia) b Hb).
    destruct (decide (b / 8 = x / 8)) as [E | Hne].
    + rewrite E, lget8_lset8 by zdiv. unfold u8. change 256 with (2 ^ 8).
      rewrite Z.mod_pow2_bits_low, Z.lor_spec by zdiv. rewrite <- E, IH, Z.shiftl_spec by zdiv.
      destruct (decide (b = x)) as [-> | Hbx].
      * rewrite Z.sub_diag. change (Z.testbit 1 0) with true. rewrite orb_true_r. lia.
      * replace (Z.testbit 1 (b mod 8 - x mod 8)) with false; [rewrite orb_false_r; lia |]. symmetry.
        destruct (Z.lt_ge_cases (b mod 8) (x mod 8)); [apply Z.testbit_neg_r; lia |]. apply Z.bits_above_log2; [lia |]. cbn. zdiv.
    + rewrite lget8_lset8_ne, IH by zdiv. assert (b <> x) by congruence. lia.
Qed.

Lemma bitmap_free n b : 0 <= n <= BPB -> 0 <= b < BPB -> bit_free (bitmap n) b = (n <=? b).
Proof.
  intros Hn Hb. pose proof (bitmap_bits n Hn b Hb) as Hbit. unfold bit_free.
  rewrite Z.shiftl_1_l. set (x := lget8 _ _) in *. set (k := b mod 8) in *. assert (0 <= k) as Hk by (unfold k; zdiv).
  destruct (b <? n) eqn:E.
  - replace (n <=? b) with false by lia. apply Z.eqb_neq. intros H0. apply (f_equal (fun y => Z.testbit y k)) in H0.
    rewrite Z.land_spec, Hbit, Z.pow2_bits_true, Z.bits_0 in H0 by done. discriminate.
  - replace (n <=? b) with true by lia. apply Z.eqb_eq. apply Z.bits_inj'. intros i Hi. rewrite Z.land_spec, Z.bits_0.
    destruct (decide (i = k)) as [-> | Hne]; [by rewrite Hbit |]. rewrite Z.pow2_bits_false by congruence. apply andb_false_r.
Qed.

(** ** The kernel's view *)

(** The inode [ilock] reads from the image. *)
Definition cached (w : Z -> list Z) (inum : Z) : inode :=
  let di := get_dinode (w (IBLOCK inum sb)) inum in
  mkInode ROOTDEV inum 1 1 (di_type di) (di_major di) (di_minor di) (di_nlink di) (di_size di) (di_addrs di).

(** The blocks of a file of [nb] blocks. *)
Definition owns (w : Z -> list Z) (ip : inode) (nb b : Z) : Prop :=
  (exists bn, 0 <= bn < nb /\ b = block_of w ip bn) \/ (NDIRECT < nb /\ b = addr_at ip NDIRECT).

Lemma block_of_slot w ip di bn :
  i_addrs ip = di_addrs di -> 0 <= bn -> block_of w ip bn = saddr w di (slot bn).
Proof.
  intros Ha Hbn. unfold block_of, saddr, slot, addr_at, daddr. change NDIRECT with 12. rewrite Ha.
  destruct (Z.ltb_spec bn 12).
  - by rewrite (proj2 (Z.ltb_lt bn 13)) by lia.
  - rewrite (proj2 (Z.ltb_ge (bn + 1) 13)) by lia. do 2 f_equal. lia.
Qed.

Section Kernel.
Context (al : list (nat * Z)) (w : Z -> list Z) (fb : Z).
Context (Hfb : fb = nmeta + Z.of_nat (length al)) (Hroom : fb <= FSSIZE) (Hwhole : forall b, length (w b) = Z.to_nat BSIZE).

Lemma laid_owns j di ip nb data b :
  laid al w j di nb (12 <? nb) data -> i_addrs ip = di_addrs di -> owns w ip nb b ->
  exists i k, al !! i = Some (j, k) /\ b = nmeta + Z.of_nat i.
Proof.
  intros Hla Ha [(bn & Hbn & ->) | (Hnb & ->)].
  - destruct (laid_block _ _ _ _ _ _ _ _ Hla Hbn) as (i & Hi & E). exists i, (slot bn). split; [done |].
    by rewrite (block_of_slot w ip di) by (done || lia).
  - rewrite (proj2 (Z.ltb_lt 12 nb)) in Hla by done. destruct (laid_ind _ _ _ _ _ _ Hla) as (i & Hi & E). exists i, 12. split; [done |].
    unfold addr_at. rewrite Ha. exact E.
Qed.

Lemma laid_kernel j di ip nb data :
  laid al w j di nb (12 <? nb) data -> i_addrs ip = di_addrs di -> i_dev ip = 1 ->
  laid_out (seqZ nmeta (fb - nmeta)) FSSIZE w ip 0 (nb - 1) /\ separate w ip 0 (nb - 1).
Proof using Hfb Hroom Hwhole.
  intros Hla Ha Hdev. pose proof Hla as [Hwf [Hnb Hind] Hfit Hused Hfree Hbytes].
  assert (forall b, owns w ip nb b -> b <> 0 /\ b ∈ seqZ nmeta (fb - nmeta)) as Hown.
  { intros b Hb. destruct (laid_owns _ _ _ _ _ _ Hla Ha Hb) as (i & k & Hi & ->). apply lookup_lt_Some in Hi.
    rewrite elem_of_seqZ, nmeta_eq in *. lia. }
  split.
  - split.
    + done.
    + rewrite Ha. apply Hwf.
    + change MAXFILE with 140. lia.
    + intros b Hb. rewrite elem_of_seqZ, nmeta_eq in Hb. split; [done | lia].
    + intros bn Hbn. apply Hown. left. exists bn. split; [lia | done].
    + intros Hge. apply Hown. right. change NDIRECT with 12 in *. split; [lia | done].
  - split.
    + intros bn bn' Hbn Hbn' E. rewrite !(block_of_slot w ip di) in E by (done || lia).
      destruct (laid_block _ _ _ _ _ _ _ bn Hla) as (i & Hi & Ei); [lia |]. destruct (laid_block _ _ _ _ _ _ _ bn' Hla) as (i' & Hi' & Ei'); [lia |].
      assert (i = i') as -> by lia. rewrite Hi in Hi'. injection Hi' as E'. by apply slot_inj.
    + intros bn Hbn Hge E. rewrite (block_of_slot w ip di) in E by (done || lia). change NDIRECT with 12 in *.
      rewrite (proj2 (Z.ltb_lt 12 nb)) in Hla by lia. unfold addr_at in E. rewrite Ha in E. fold (daddr di 12) in E.
      destruct (laid_block _ _ _ _ _ _ _ bn Hla) as (i & Hi & Ei); [lia |]. destruct (laid_ind _ _ _ _ _ _ Hla) as (i' & Hi' & Ei').
      assert (i = i') as -> by lia. rewrite Hi in Hi'. injection Hi' as E'. by apply (slot_ne bn).
Qed.

(** What [readi] returns for any part of the file's blocks: behind the data, zeroes. *)
Lemma laid_range j di ip nb data off n :
  laid al w j di nb (12 <? nb) data -> i_addrs ip = di_addrs di -> 0 <= off -> 0 <= n -> off + n <= BSIZE * nb ->
  range_of w ip off n = map (fun k => default 0 (data !! Z.to_nat k)) (seqZ off n).
Proof.
  intros Hla Ha Hoff Hn Hle. apply map_ext_in. intros k Hk. rewrite <- list_elem_of_In, elem_of_seqZ in Hk.
  unfold byte_of. rewrite (block_of_slot w ip di) by (done || unfold BSIZE; zdiv). apply (la_bytes _ _ _ _ _ _ _ Hla). lia.
Qed.
End Kernel.

Lemma map_lookup_all (data : list Z) : map (fun k => default 0 (data !! Z.to_nat k)) (seqZ 0 (Z.of_nat (length data))) = data.
Proof.
  apply list_eq. intros i. change (map ?f ?l) with (f <$> l). rewrite list_lookup_fmap. destruct (decide (i < length data)%nat) as [Hi | Hi].
  - rewrite lookup_seqZ_lt by lia. cbn. rewrite Z.add_0_l, Nat2Z.id. destruct (lookup_lt_is_Some_2 data i Hi) as [x Hx]. by rewrite Hx.
  - rewrite lookup_seqZ_ge by lia. cbn. by rewrite lookup_ge_None_2 by lia.
Qed.

(** ** The finished image *)

(** The size of the directory, up to the end of its last block. *)
Definition root_size (n : Z) : Z := (n / BSIZE + 1) * BSIZE.

(** The last steps: the size of the directory, and the bitmap. *)
Definition finish (im : image) : image :=
  put_sector (sb_bmapstart sb) (bitmap (freeblock im))
    (put_inode ROOTINO {| (inode_of im 0) with di_size := root_size (di_size (inode_of im 0)) |} im).

Section Finish.
Context {host : Host} (Hroom : FSSIZE <= host_room).

Lemma build_ok files :
  Forall packable files -> Z.of_nat (length files) + 2 <= NINODES -> total (all_files files) <= FSSIZE - nmeta ->
  exists al im, main (Some (true, files)) = Made tt (finish im) /\ image_ok (all_files files) al im.
Proof using Hroom.
  intros Hpk Hfew Htot. destruct (build_root Hroom files) as (al0 & im0 & Hio0 & E0).
  destruct (add_files_ok Hroom files [] al0 im0 Hio0 Hpk) as (al & im & E1 & Hio); [cbn [app]; lia | done |]. cbn [app] in *.
  exists al, im. split; [| done]. unfold main. rewrite E0, (ibind_made _ _ _ _ _ E1). clear E0 E1.
  pose proof Hio as [Hok Hin Hlt Hsb Hcnt Hfiles]. destruct (Hfiles 0%nat _ eq_refl) as [_ _ Hsz Hla]. cbn [snd] in Hsz.
  change ROOTINO with (Z.of_nat 0 + 1). rewrite (ibind_made _ _ _ _ _ (rinode_ok al im 0 Hok ltac:(done))). cbv zeta.
  assert (is_u32 (root_size (di_size (inode_of im 0)))) as Hrs.
  { rewrite Hsz, length_root. unfold is_u32, root_size, BSIZE, NINODES in *. zdiv. }
  rewrite (xint_small (di_size _)) by (rewrite Hsz, length_root; unfold is_u32, NINODES in *; lia).
  fold (root_size (di_size (inode_of im 0))). rewrite u32_small, xint_small by done.
  destruct (winode_ok Hroom al im (Z.of_nat 0 + 1) {| (inode_of im 0) with di_size := root_size (di_size (inode_of im 0)) |} Hok) as [Ew Hok'].
  { done. }
  rewrite (ibind_made _ _ _ _ _ Ew). clear Ew. unfold balloc. cbn [put_inode put_sector freeblock].
  pose proof (ok_room _ _ Hok) as Hr. rewrite (proj2 (Z.ltb_lt (freeblock im) _)) by (unfold FSSIZE, BSIZE in *; lia).
  cbn [iassert]. unfold ibind, iret. exact (wsect_ok Hroom al _ 58 _ Hok' ltac:(done)).
Qed.
End Finish.

Lemma finish_data im b : nmeta <= b -> im_sector (finish im) b = im_sector im b.
Proof.
  intros Hb. unfold finish. cbn [put_sector im_sector]. change (sb_bmapstart sb) with 58. rewrite fupd_ne by (rewrite nmeta_eq in Hb; lia).
  by apply put_inode_data.
Qed.

Lemma finish_inode C al im j :
  image_ok C al im -> Z.of_nat j + 1 < NINODES -> (C <> []) -> is_u32 (root_size (di_size (inode_of im 0))) ->
  inode_of (finish im) j =
    if decide (j = 0%nat) then {| (inode_of im 0) with di_size := root_size (di_size (inode_of im 0)) |} else inode_of im j.
Proof.
  intros Hio Hj HC Hrs. destruct C as [| f C]; [done |]. destruct (io_files _ _ _ Hio 0%nat f eq_refl) as [_ _ _ Hla].
  rewrite <- (inode_of_put al); [| apply Hio | | done | done].
  - unfold inode_of, finish. pose proof (iblock_range (Z.of_nat j + 1) ltac:(lia)). cbn [put_sector im_sector].
    rewrite fupd_ne; [done |]. change (sb_bmapstart sb) with 58. lia.
  - destruct (la_wf _ _ _ _ _ _ _ Hla). by split.
Qed.

Lemma finish_holds files al im j f :
  image_ok (all_files files) al im -> Z.of_nat (length files) + 2 <= NINODES -> all_files files !! j = Some f ->
  let di := inode_of (finish im) j in
  let nb := blocks (Z.of_nat (length f.2)) in
  laid al (im_sector (finish im)) j di nb (12 <? nb) f.2 /\ di_type di = f.1 /\ di_nlink di = 1 /\
  di_size di = (if decide (j = 0%nat) then root_size else id) (Z.of_nat (length f.2)).
Proof.
  intros Hio Hfew Hj di nb. pose proof (lookup_lt_Some _ _ _ Hj) as Hlt. unfold all_files in Hlt. cbn [length] in Hlt. rewrite length_map in Hlt.
  destruct (io_files _ _ _ Hio 0%nat _ eq_refl) as [_ _ Hsz0 _]. cbn [snd] in Hsz0.
  assert (is_u32 (root_size (di_size (inode_of im 0)))) as Hrs.
  { rewrite Hsz0, length_root. unfold is_u32, root_size, BSIZE, NINODES in *. zdiv. }
  destruct (io_files _ _ _ Hio j f Hj) as [Hty (_ & _ & Hnl) Hsz Hla].
  assert (laid al (im_sector (finish im)) j (inode_of im j) nb (12 <? nb) f.2) as Hla'.
  { eapply laid_frame; [exact Hla | done |]. intros i k _. apply finish_data. lia. }
  unfold di. rewrite (finish_inode (all_files files) al) by (done || lia). destruct (decide (j = 0%nat)) as [-> | Hne].
  - split; [by apply laid_size |]. cbn [di_type di_nlink di_size]. by rewrite <- Hsz.
  - by split_and!.
Qed.

Lemma finish_whole al im b : im_ok al im -> length (im_sector (finish im) b) = Z.to_nat BSIZE.
Proof.
  intros Hok. unfold finish, put_inode. cbn [put_sector im_sector]. unfold fupd. pose proof (ok_block _ _ Hok) as Hb.
  destruct (decide _); [apply bitmap_length; rewrite nmeta_eq in Hb; lia |].
  destruct (decide _); [rewrite put_dinode_length |]; apply (ok_whole _ _ Hok).
Qed.

(** A file of the finished image, the directory too. *)
Lemma finish_file files al im j f :
  image_ok (all_files files) al im -> Z.of_nat (length files) + 2 <= NINODES -> all_files files !! j = Some f ->
  let w := im_sector (finish im) in
  let ip := cached w (Z.of_nat j + 1) in
  let n := Z.of_nat (length f.2) in
  i_type ip = f.1 /\ i_nlink ip = 1 /\ i_size ip = (if decide (j = 0%nat) then root_size else id) n /\ range_of w ip 0 n = f.2 /\
  laid_out (seqZ nmeta (freeblock im - nmeta)) FSSIZE w ip 0 (blocks n - 1) /\ separate w ip 0 (blocks n - 1).
Proof.
  intros Hio Hfew Hj w ip n. destruct (finish_holds files al im j f Hio Hfew Hj) as (Hla & Hty & Hnl & Hsz).
  pose proof (io_ok _ _ _ Hio) as Hok. split; [exact Hty |]. split; [exact Hnl |]. split; [exact Hsz |]. split.
  - rewrite (laid_range al w j _ ip _ _ 0 n Hla) by (done || unfold n, blocks, BSIZE; zdiv). apply map_lookup_all.
  - eapply (laid_kernel al w (freeblock im)); [apply Hok | apply Hok | | exact Hla | done | done].
    intros b. by eapply finish_whole.
Qed.

Lemma finish_disjoint files al im i j f g b :
  image_ok (all_files files) al im -> Z.of_nat (length files) + 2 <= NINODES ->
  all_files files !! i = Some f -> all_files files !! j = Some g ->
  let w := im_sector (finish im) in
  owns w (cached w (Z.of_nat i + 1)) (blocks (Z.of_nat (length f.2))) b ->
  owns w (cached w (Z.of_nat j + 1)) (blocks (Z.of_nat (length g.2))) b -> i = j.
Proof.
  intros Hio Hfew Hi Hj w Hoi Hoj. destruct (finish_holds files al im i f Hio Hfew Hi) as [Hli _].
  destruct (finish_holds files al im j g Hio Hfew Hj) as [Hlj _].
  destruct (laid_owns al w i _ (cached w (Z.of_nat i + 1)) _ _ b Hli) as (x & k & Hx & E); [done | done |].
  destruct (laid_owns al w j _ (cached w (Z.of_nat j + 1)) _ _ b Hlj) as (y & k' & Hy & E'); [done | done |].
  assert (x = y) as -> by lia. congruence.
Qed.

(** C22: The image [mkfs] builds is a file system for the kernel.  Given files that can
    be read, with plain names, and no more of them than inodes and blocks, it
    succeeds; and on the image the superblock is what the kernel expects, the inode
    of each file gives its type, link and size, and reading its blocks, the ones
    behind an indirect block included, gives exactly the bytes of the file, in
    whatever pieces the host delivered them; the directory lists itself twice and
    then each file under its name, without a leading underscore and cut to fourteen
    characters; no block belongs to two files or to two places of one; and the
    bitmap marks exactly the blocks that are in use. *)
Theorem mkfs_image {host : Host} files :
  FSSIZE <= host_room -> Forall packable files -> Z.of_nat (length files) + 2 <= NINODES ->
  total (all_files files) <= FSSIZE - nmeta ->
  exists im, main (Some (true, files)) = Made tt im /\
    let w := im_sector im in
    let U := seqZ nmeta (freeblock im - nmeta) in
    let n := Z.of_nat (length (root_data files)) in
    sb_of_block (w 1) = mkSuperblock 1000 941 200 30 2 32 58 /\
    (forall i f, files !! i = Some f ->
       let ip := cached w (Z.of_nat i + 2) in
       i_type ip = T_FILE /\ i_nlink ip = 1 /\ i_size ip = Z.of_nat (length (contents f)) /\
       range_of w ip 0 (i_size ip) = contents f /\
       laid_out U FSSIZE w ip 0 (blocks (i_size ip) - 1) /\ separate w ip 0 (blocks (i_size ip) - 1)) /\
    (let root := cached w ROOTINO in
     i_type root = T_DIR /\ i_nlink root = 1 /\ i_size root = root_size n /\ range_of w root 0 n = root_data files /\
     laid_out U FSSIZE w root 0 (blocks n - 1) /\ separate w root 0 (blocks n - 1)) /\
    (forall i j b, (i <= length files)%nat -> (j <= length files)%nat -> (i <> j) ->
       let nblocks k := blocks (Z.of_nat (length (snd (nth k (all_files files) (0, []))))) in
       owns w (cached w (Z.of_nat i + 1)) (nblocks i) b -> owns w (cached w (Z.of_nat j + 1)) (nblocks j) b -> False) /\
    (forall b, 0 <= b < FSSIZE -> bit_free (w (BBLOCK b sb)) (b mod BPB) = (freeblock im <=? b)).
Proof.
  intros Hroom Hpk Hfew Htot. destruct (build_ok Hroom files Hpk Hfew Htot) as (al & im & E & Hio). exists (finish im). split; [exact E |]. clear E.
  cbv zeta. pose proof (fun j f => finish_file files al im j f Hio Hfew) as Hf. cbv zeta in Hf. pose proof Hio as [Hok _ _ Hsb _ _].
  change (freeblock (finish im)) with (freeblock im).
  assert (forall i f, files !! i = Some f -> all_files files !! S i = Some (T_FILE, contents f)) as Hfile.
  { intros i f Hi. change (((fun f => (T_FILE, contents f)) <$> files) !! i = Some (T_FILE, contents f)). by rewrite list_lookup_fmap, Hi. }
  split; [| split; [| split; [| split]]].
  - unfold finish. cbn [put_sector im_sector put_inode]. rewrite !fupd_ne by done. rewrite Hsb. vm_compute. reflexivity.
  - intros i f Hi. destruct (Hf (S i) _ (Hfile i f Hi)) as (Hty & Hnl & Hsz & Hr & Hlo & Hsep). cbn [fst snd] in *.
    replace (Z.of_nat (S i) + 1) with (Z.of_nat i + 2) in * by lia. rewrite decide_False in Hsz by lia. cbn [id] in Hsz. rewrite Hsz. by split_and!.
  - destruct (Hf 0%nat _ eq_refl) as (Hty & Hnl & Hsz & Hr & Hlo & Hsep). by split_and!.
  - intros i j b Hi Hj Hne Hoi Hoj. apply Hne.
    assert (length (all_files files) = S (length files)) as Hl by (unfold all_files; cbn [length]; by rewrite length_map).
    assert (forall k, (k <= length files)%nat -> all_files files !! k = Some (nth k (all_files files) (0, []))) as Hn.
    { intros k Hk. destruct (lookup_lt_is_Some_2 (all_files files) k) as [x Hx]; [lia |]. by rewrite (nth_lookup_Some _ _ _ _ Hx). }
    exact (finish_disjoint files al im i j _ _ b Hio Hfew (Hn i Hi) (Hn j Hj) Hoi Hoj).
  - intros b Hb. unfold FSSIZE in Hb. pose proof (ok_room _ _ Hok) as Hr. pose proof (ok_block _ _ Hok) as Hb'. unfold FSSIZE in Hr. rewrite nmeta_eq in Hb'.
    replace (BBLOCK b sb) with 58.
    + unfold finish. cbn [put_sector im_sector]. change (sb_bmapstart sb) with 58. rewrite fupd_eq. change BPB with 4096.
      rewrite Z.mod_small by lia. apply bitmap_free; change BPB with 4096; lia.
    + unfold BBLOCK. change (sb_bmapstart sb) with 58. change BPB with 4096. rewrite Z.div_small by lia. done.
Qed.

(** "README" of 600 bytes delivered in three pieces, and an empty "_ls": two blocks for
    the first, and the directory with four entries. *)
Definition sample_files : list infile :=
  [mkInfile [82; 69; 65; 68; 77; 69] (Some [replicate 300 65; replicate 200 66; replicate 100 67]); mkInfile [95; 108; 115] (Some [])].

Lemma sample_packable : Forall packable sample_files.
Proof.
  repeat apply Forall_cons_2; [| | apply Forall_nil_2]; (split; [repeat constructor; discriminate | | vm_compute; discriminate]).
  - eexists. split; [reflexivity |]. repeat apply Forall_cons_2; [.. | apply Forall_nil_2]; vm_compute; lia.
  - eexists. split; [reflexivity |]. apply Forall_nil_2.
Qed.

Lemma mkfs_image_witness :
  exists im, @main 1000 (Some (true, sample_files)) = Made tt im /\
    range_of (im_sector im) (cached (im_sector im) 2) 0 600 = replicate 300 65 ++ replicate 200 66 ++ replicate 100 67 /\
    range_of (im_sector im) (cached (im_sector im) ROOTINO) 48 16 = [3; 0; 108; 115; 0; 0; 0; 0; 0; 0; 0; 0; 0; 0; 0; 0].
Proof.
  destruct (@mkfs_image 1000 sample_files) as (im & E & _ & Hf & Hroot & _).
  - unfold host_room, FSSIZE. lia.
  - apply sample_packable.
  - cbn. unfold NINODES. lia.
  - vm_compute. discriminate.
  - exists im. split; [exact E |]. clear E. destruct (Hf 0%nat _ eq_refl) as (_ & _ & Hsz & Hr & _). destruct Hroot as (_ & _ & _ & Hroot & _).
    split.
    + rewrite Hsz in Hr. exact Hr.
    + set (g := range_of (im_sector im) (cached (im_sector im) ROOTINO)) in *.
      assert (g 48 16 = drop 48 (g 0 64)) as -> by reflexivity. change (g 0 64) with (g 0 (Z.of_nat (length (root_data sample_files)))).
      rewrite Hroot. vm_compute. reflexivity.
Defined.

(** When the entries fill their blocks exactly, the size [main] gives the directory
    ends a block behind the last one it has: block [n / BSIZE] is in range and not
    allocated.  Thirty files are enough. *)
Theorem mkfs_root_hole {host : Host} files :
  FSSIZE <= host_room -> Forall packable files -> Z.of_nat (length files) + 2 <= NINODES ->
  total (all_files files) <= FSSIZE - nmeta ->
  let n := Z.of_nat (length (root_data files)) in
  n mod BSIZE = 0 ->
  exists im, main (Some (true, files)) = Made tt im /\
    let w := im_sector im in
    let root := cached w ROOTINO in
    i_size root = n + BSIZE /\ n / BSIZE < NDIRECT /\ block_of w root (n / BSIZE) = 0.
Proof.
  intros Hroom Hpk Hfew Htot n Hn. destruct (build_ok Hroom files Hpk Hfew Htot) as (al & im & E & Hio). exists (finish im). split; [exact E |].
  clear E. cbv zeta. destruct (finish_holds files al im 0 _ Hio Hfew eq_refl) as (Hla & _ & _ & Hsz). cbn [snd] in *. fold n in Hla, Hsz.
  set (w := im_sector (finish im)) in *. set (di := inode_of (finish im) 0) in *. rewrite decide_True in Hsz by done.
  assert (0 <= n <= 3200) as Hnr by (unfold n; rewrite length_root; unfold NINODES in Hfew; lia).
  assert (blocks n = n / BSIZE) as Hb by (unfold blocks, BSIZE in *; zdiv). assert (0 <= n / BSIZE < 12) as Hlt by (unfold BSIZE; zdiv).
  split_and!; [change (di_size di = n + BSIZE); rewrite Hsz; unfold root_size, BSIZE in *; zdiv | exact (proj2 Hlt) |].
  rewrite (block_of_slot w (cached w ROOTINO) di) by (done || lia).
  unfold slot. rewrite (proj2 (Z.ltb_lt _ 12)) by lia. apply (la_free _ _ _ _ _ _ _ Hla); [lia | unfold used; lia | lia].
Qed.

Definition thirty_files : list infile := replicate 30 (mkInfile [97] (Some [])).

Lemma mkfs_root_hole_witness :
  exists im, @main 1000 (Some (true, thirty_files)) = Made tt im /\
    i_size (cached (im_sector im) ROOTINO) = 1024 /\ block_of (im_sector im) (cached (im_sector im) ROOTINO) 1 = 0.
Proof.
  destruct (@mkfs_root_hole 1000 thirty_files) as (im & E & Hs & _ & Hb).
  - unfold host_room, FSSIZE. lia.
  - apply Forall_replicate. split; [repeat constructor; discriminate | | vm_compute; discriminate].
    eexists. split; [reflexivity |]. apply Forall_nil_2.
  - vm_compute. discriminate.
  - vm_compute. discriminate.
  - vm_compute. reflexivity.
  - exists im. split; [exact E |]. clear E. split; [rewrite Hs; vm_compute; reflexivity | exact Hb].
Defined.
